(* ===== verification/_CoqProject ===== *)
-Q . S2P
Prelude.v
Runtime.v
Floats.v
Geometry.v
Criteria.v
UpdatePolicy.v
Provider.v
Interleaving.v
Property.v
Settings.v
Fusion.v
Engine.v
Session.v
Serving.v
Service.v
Synchronisation.v
Applications.v
RadioCell.v
Ofono.v
AndroidHal.v
Chipset.v
GpsConf.v
Codec.v
Client.v
Updates.v
Connectivity.v
GeoSource.v
Endian.v
Sntp.v
Remote.v
Daemon.v
Harvester.v
ServiceProcess.v
System.v
Providers.v
Skyhook.v
