(* ===== verification/Prelude.v ===== *)
(** * A verification library of lomiri-location-service

    The service finds out where a device is and tells the applications that may know.
    This library models its own logic in the order in which data flows through it and
    proves what each part promises.  Source paths are relative to [src/], where
    [L/] is [src/location_service/com/lomiri/location/] and [I/] is
    [include/location_service/com/lomiri/location/].

    ** The program and its parts

    A provider ([I/provider.h]) delivers positions, headings and velocities while its
    controller counts observers.  The engine ([L/engine.cpp]) owns the providers,
    enables and disables them with its state, keeps the last known location and feeds
    references back to them.  A client asks the service ([L/service/skeleton.cpp]) over
    D-Bus for a session; the permission manager decides, a selection policy combines the
    engine's providers in a proxy, and the session ([L/service/session/]) starts and stops
    the streams of that proxy.  The service publishes its properties
    ([L/service/implementation.cpp]) and, when asked to, harvests wifis and cells together
    with positions ([L/service/harvester.cpp]), which it learns from the connectivity
    manager ([L/connectivity/]).  Providers are made by name ([L/provider_factory.cpp]),
    with options from the command line ([L/service/daemon.cpp]): gps over the Android HAL
    ([L/providers/gps/]), gpsd, geoclue, a dummy, and providers in another process
    ([L/providers/remote/]).  Applications use a Qt plugin ([qt/position/]) or the command
    line client.

    ** How code becomes definitions

    A statement that acts on objects is a value of the monad [M W] of this file: a
    function of the world [W] that returns a result or an exception and the new world;
    the effects made before a [throw] stay.  A member variable is a [Cell] of the world
    with its laws ([CellLaws]); a virtual call is a field of a record of statements
    ([Controller.Instance], [Harvester.Reporter]), so that the same controller drives the
    stand-alone controller, the providers in the engine, the remote stub and its
    implementation, and gpsd.  Where one component is a parameter of another it is a class
    of operations with laws, proved for the real component where the two are put together
    ([Synchronisation.Sync.HarvesterOps] with [HarvesterLaws], instantiated in
    [ServiceProcess]).
    Concurrency is explicit: threads are step functions or step
    relations over a shared world, and theorems quantify over the interleavings; the
    controller's are split at their atomic accesses ([Interleaving]).
    Integers are [Z] with [wrap_u] and [wrap_s] where their width matters; floating point
    is the executable IEEE arithmetic of [Floats].  Code that is not part of the
    repository is an interface with the laws its documentation gives, and each interface
    has an instance: [Geometry.BoostOptional], [Property.CoreProperty], [Json.JsonC],
    [Cli.ServiceStub] with [Cli.StubLaws], [Runtime.IoContext] with its laws, the property
    tree of [Settings], the message writer of [Codec.Wire] and its delivery in [Client].

    ** The files

    - [Prelude]: the monad, cells, machine integers, the lemmas [preserves_*],
      [nothrow_*], [leads_*] and [ignores_*] with the hint database [ls], and the tactics
      [unfold_m], [leads_steps], [case_bool] and [zbool].
    - [Runtime]: [service/runtime.cpp], the pool of threads as a step relation over the
      executor's context and strand.
    - [Floats]: [double] and [float], their order, rounding and conversions.
    - [Geometry]: [wgs84/], [position.cpp], [update.h], [space_vehicle.h].
    - [Criteria]: [criteria.cpp]; merging is the greatest lower bound of the
      specification [meets].
    - [UpdatePolicy]: [time_based_update_policy.cpp] and the update selectors.
    - [Provider]: flags and the controller of [provider.cpp]; it refines the counting of
      observers.
    - [Interleaving]: threads that share one controller, interleaved at the loads, stores,
      atomic increments and calls of [provider.cpp].
    - [Property]: [core::Property], the observable values of the components.
    - [Settings]: [settings.cpp], [boost_ptree_settings.cpp] over the property tree as an
      interface, the texts of the states, and an executable INI reader and writer
      (Module [Ini]) that shows that the laws of the interface can hold.
    - [Fusion]: proxy, fusion and state tracking providers, selection policies.
    - [Engine]: [engine.cpp].
    - [Session]: [service/session/], both ends.
    - [Serving]: what one start or stop does to the engine of [Engine] as a whole: the
      tracking wrapper, the engine's state, the counts that its slots reset, the provider.
      Two invariants of it, for one stream and for any, meet the [Contract] that the
      applications are proved against.
    - [Service]: [service/skeleton.cpp] (Module [Sessions]) and the permission managers.
    - [Synchronisation]: the properties of [service/implementation.cpp] and the engine
      behind them in one world, with the slots of both on the same properties.
    - [Applications]: all applications over the store of the skeleton, their sessions,
      the proxy and the fusion provider of each, and the engine with its providers.
    - [RadioCell]: [connectivity/bounded_integer.h], [cached_radio_cell.cpp].
    - [Ofono]: the registration of [connectivity/ofono.h] and the queries and the
      constructor of a radio cell over a bus whose calls may fail.
    - [AndroidHal]: the conversions (Module [Reports]) and the threads (Module [Threads])
      of [android_hardware_abstraction_layer.cpp].
    - [Chipset]: the state of the same file's [Impl], its operations, the driver's
      callbacks, assistance data and the downloaders of extra data.
    - [GpsConf]: the configuration of the HAL from [gps.conf].
    - [Codec]: [codec.h], one codec per type and its law.
    - [Client]: an application's call for a session, from [service/stub.cpp] over the
      message to the handler of the skeleton and back.
    - [Updates]: both ends of a session, its updates as messages in the encoding of
      [Codec], in any order of sending and receiving.
    - [Connectivity]: characteristics, wireless networks,
      [ofono_nm_connectivity_manager.cpp] and the platform's default manager.
    - [GeoSource]: [qt/position/core_geo_position_info_source.cpp].
    - [Endian]: the byte order conversions and buffers of [3rd-party/boost/endian/] that
      the SNTP client is written with.
    - [Sntp]: [providers/gps/sntp_client.cpp], packets and their bytes on the wire.
    - [Remote]: [providers/remote/provider.cpp], the bus between the two processes and
      the worker.
    - [Daemon]: options and factory, [daemon.cpp], [provider_daemon.cpp] and the command
      line client.
    - [Harvester]: [harvester.cpp], [ichnaea_reporter.cpp], [demultiplexing_reporter.cpp].
    - [ServiceProcess]: the service of [Synchronisation] with the harvester of [Harvester]
      and the reporter to ichnaea (Module [Process]), and what the configurations make
      the components of (Module [Wiring]); the daemon configures a reporter that reports
      nothing.
    - [System]: the boot time from [/proc/stat], the environment, the tests on a device.
    - [Providers]: the dummy, gpsd, geoclue and gps providers.
    - [Skyhook]: [providers/skyhook/].

    ** What is proved

    Refinements: the controller implements observer counting with calls at the edges
    ([controller_counts_observers]); a remote provider is called exactly as a local one
    would be, for every interleaving over a bus that answers, while it is not destroyed
    and enabled only without observers ([remote_provider_is_transparent]); a service that
    is configured with the reporter to ichnaea, which the daemon is not, submits what its
    clients allowed and its providers measured ([service_submits_what_is_measured]).
    Equivalences: a radio cell made over a bus that answers, property by property, is the
    one made from the registration at once ([steady_bus_is_a_registration]).
    Invariants by induction over histories: the engine's state follows its providers, the service's properties follow
    the engine and the engine them, whatever their slots do to each other
    ([properties_stay_synchronised]), the list of applications follows the sessions, the caches of the
    connectivity manager follow the bus, the Qt source's state follows its session, the
    driver knows the modes of the HAL, the members of radio cells stay in their ranges.
    Safety: no session without permission, no HAL handle lost between threads, tasks of the
    executor one by one, updates of remote providers in order.  Composition: an
    application gets its session exactly when it may ([application_gets_its_session]);
    over any history of the engine and its applications, every provider runs every stream
    that a session over it wants ([wanted_providers_run]), and if all applications ask for
    one stream, exactly while one wants it ([providers_serve_their_sessions]; two streams
    suffice to leave a provider running for nobody, [mixed_streams_outlive_their_sessions]);
    what a session shows reaches its application ([updates_reach_the_application]).
    Threads on one controller: however they interleave, the counts come out right and starts and stops balance ([calls_balance]),
    but the last call need not be the one the count stands for ([late_calls_win]).
    Round trips: settings over a restart, the engine over a restart, every codec, answers of
    a time server from the wire, options of the command line.
    Liveness and termination: the recovery of the HAL, the remote worker, the rest of the
    executor, the vehicles that reach the clients.  Bounds: signal strengths, radio
    cells.  Error behaviour on each branch, lost answers of the bus included, and, where
    the code does not do what it says, a theorem about what it does.  Theorems that are no
    numbered claim are lemmas in their own right: they describe smaller parts or single
    faults.

    ** Fuel and bounds

    Assigning a property runs its slots, which may assign it again.  The engine's state is
    followed to depth two ([Engine.engine_state_assignment_depth] shows that nothing lies
    below), the service's properties and the engine's state together to depth six, and any
    depth beyond gives the same: what lies below, [bottom], is never reached from a service
    that is at rest ([Synchronisation.Sync.properties_stay_synchronised]).  The decoder of vehicles takes the number of vehicles as fuel.  The
    remote worker is a step of the world at a time; two turns for each task that waits,
    and one more, empty its queue, and after a stop it ends within two
    ([worker_runs_every_task]).  The threads of the HAL and of the executor are relations
    with a rank that decreases ([AndroidHal.recovery_completes],
    [Runtime.pool_comes_to_rest]).  Texts are read by recursion on the text.

    ** Not modelled

    Locks that protect a single operation (the operation is one step), logging and
    printing of floating point numbers, the declarations of D-Bus interfaces for dbus-cpp
    ([I/service/interface.h], [interface_p.h], most of [connectivity/ofono.h] and [nm.h]:
    names and types without code; the handlers are modelled, the transport is an
    interface), sockets, http, Boost's property tree and the option parser (parameters), the
    initialisation of the logging library, the vendored boost headers that the program
    does not use ([endian/arithmetic.hpp], [core/]), examples and tests.

    ** Plan

    The parts with code of their own are modelled.  What is left to relate: the message of
    [Client], the messages of [Updates] and the histories of [Applications] in one world;
    in histories of several streams, which providers are left running, which depends on the
    order; the switches of the engine and of the satellites inside those histories; the
    threads of [Interleaving] in place of the sequential controllers inside the engine; the
    histories of [Applications] in the world of [Synchronisation], where a session is a
    request for a stream. *)
From Stdlib Require Import ZArith Lia.
From stdpp Require Import base gmap strings list fin_maps.

Declare Scope ls_scope.
Delimit Scope ls_scope with ls.
Local Open Scope Z_scope.

(** * Exceptions and results *)

(** The C++ exceptions the modelled code throws or catches.  [foreign] stands
    for an object that is not derived from [std::exception] (it is only
    stopped by [catch (...)]). *)
Inductive exn : Type :=
| runtime_error (what : string)
| system_error (code : Z)
| logic_error (what : string)
| out_of_range (what : string)
| NoValueForKey (key : string)
| foreign.

#[export] Instance exn_eq_dec : EqDecision exn.
Proof. solve_decision. Defined.

(** [catch (const std::exception&)] *)
Definition is_std_exception (e : exn) : bool :=
  match e with foreign => false | _ => true end.

(** [catch (const std::runtime_error&)]: [std::system_error] and
    [Settings::Error::NoValueForKey] derive from it. *)
Definition is_runtime_error (e : exn) : bool :=
  match e with
  | runtime_error _ | system_error _ | NoValueForKey _ => true
  | logic_error _ | out_of_range _ | foreign => false
  end.

Inductive res (A : Type) : Type :=
| Ok (a : A)
| Throw (e : exn).
Arguments Ok {A} a.
Arguments Throw {A} e.

#[export] Instance res_ret : MRet res := fun A a => Ok a.
#[export] Instance res_bind : MBind res := fun A B f m =>
  match m with Ok a => f a | Throw e => Throw e end.
#[export] Instance res_fmap : FMap res := fun A B f m =>
  match m with Ok a => Ok (f a) | Throw e => Throw e end.

Definition is_ok {A} (r : res A) : bool :=
  match r with Ok _ => true | Throw _ => false end.

(** * Stateful code that may throw *)

(** [M W A]: a C++ statement over the world [W] that returns an [A] or throws;
    the effects made before a throw stay. *)
Definition M (W A : Type) : Type := W -> res A * W.

#[export] Instance m_ret {W} : MRet (M W) := fun A a w => (Ok a, w).
#[export] Instance m_bind {W} : MBind (M W) := fun A B f m w =>
  match m w with
  | (Ok a, w') => f a w'
  | (Throw e, w') => (Throw e, w')
  end.

Definition throw {W A} (e : exn) : M W A := fun w => (Throw e, w).
Definition gets {W A} (f : W -> A) : M W A := fun w => (Ok (f w), w).
Definition modify {W} (f : W -> W) : M W unit := fun w => (Ok tt, f w).
Definition lift {W A} (r : res A) : M W A := fun w => (r, w).
Definition skip {W} : M W unit := mret tt.

(** [try { m } catch (p) { h }], [p] deciding which exceptions the clause takes. *)
Definition try_catch {W A} (m : M W A) (p : exn -> bool) (h : exn -> M W A) : M W A :=
  fun w => match m w with
           | (Ok a, w') => (Ok a, w')
           | (Throw e, w') => if p e then h e w' else (Throw e, w')
           end.

Definition any_exception (_ : exn) : bool := true.

Definition when {W} (b : bool) (m : M W unit) : M W unit :=
  if b then m else skip.

(** [for (x : xs) f(x);] *)
Fixpoint for_each {W A} (xs : list A) (f : A -> M W unit) : M W unit :=
  match xs with
  | [] => skip
  | x :: xs => f x;; for_each xs f
  end.

(** Running a statement for its effect on the world. *)
Definition exec {W A} (m : M W A) (w : W) : W := (m w).2.
Definition result {W A} (m : M W A) (w : W) : res A := (m w).1.

(** [m] never throws. *)
Definition nothrow {W A} (m : M W A) : Prop := forall w, exists a, result m w = Ok a.

(** * Cells: a member variable inside the world *)

Record Cell (W A : Type) : Type := MkCell {
  rd : W -> A;
  wr : A -> W -> W
}.
Arguments MkCell {W A}.
Arguments rd {W A}.
Arguments wr {W A}.

Class CellLaws {W A} (c : Cell W A) : Prop := {
  rd_wr : forall a w, rd c (wr c a w) = a;
  wr_wr : forall a b w, wr c a (wr c b w) = wr c a w;
  wr_rd : forall w, wr c (rd c w) w = w
}.

Definition read {W A} (c : Cell W A) : M W A := gets (rd c).
Definition write {W A} (c : Cell W A) (a : A) : M W unit := modify (wr c a).

(** * Machine integers *)

Definition wrap_u (bits z : Z) : Z := z mod 2 ^ bits.
Definition wrap_s (bits z : Z) : Z := (z + 2 ^ (bits - 1)) mod 2 ^ bits - 2 ^ (bits - 1).
Definition INT_MAX : Z := 2147483647.
Definition INT_MIN : Z := -2147483648.

Lemma wrap_u_range bits z : 0 <= bits -> 0 <= wrap_u bits z < 2 ^ bits.
Proof. intros. apply Z.mod_pos_bound. lia. Qed.

Lemma wrap_u_small bits z : 0 <= z < 2 ^ bits -> wrap_u bits z = z.
Proof. apply Z.mod_small. Qed.

Lemma wrap_s_small bits z :
  0 < bits -> - 2 ^ (bits - 1) <= z < 2 ^ (bits - 1) -> wrap_s bits z = z.
Proof.
  intros Hb Hz. unfold wrap_s.
  assert (2 ^ bits = 2 * 2 ^ (bits - 1)) as E.
  { rewrite <- Z.pow_succ_r by lia. f_equal. lia. }
  rewrite Z.mod_small by lia. lia.
Qed.

Lemma wrap_s_range bits z :
  0 < bits -> - 2 ^ (bits - 1) <= wrap_s bits z < 2 ^ (bits - 1).
Proof.
  intros Hb. unfold wrap_s.
  assert (2 ^ bits = 2 * 2 ^ (bits - 1)) as E.
  { rewrite <- Z.pow_succ_r by lia. f_equal. lia. }
  assert (0 < 2 ^ (bits - 1)) by lia.
  pose proof (Z.mod_pos_bound (z + 2 ^ (bits - 1)) (2 ^ bits) ltac:(lia)). lia.
Qed.

Lemma wrap_s32_small z : INT_MIN <= z <= INT_MAX -> wrap_s 32 z = z.
Proof. intros H. apply wrap_s_small; unfold INT_MIN, INT_MAX in *; lia. Qed.

(** * Generic lemmas *)

Lemma exec_bind {W A B} (m : M W A) (f : A -> M W B) w a :
  result m w = Ok a -> exec (m ≫= f) w = exec (f a) (exec m w).
Proof.
  unfold exec, result, mbind, m_bind. destruct (m w) as [[x|e] w']; simpl; congruence.
Qed.

Lemma result_bind {W A B} (m : M W A) (f : A -> M W B) w a :
  result m w = Ok a -> result (m ≫= f) w = result (f a) (exec m w).
Proof.
  unfold exec, result, mbind, m_bind. destruct (m w) as [[x|e] w']; simpl; congruence.
Qed.

Lemma bind_run {W A B} (m : M W A) (f : A -> M W B) w a w' :
  m w = (Ok a, w') -> (m ≫= f) w = f a w'.
Proof. unfold mbind, m_bind. by intros ->. Qed.

Lemma exec_run {W A B} (m : M W A) (f : A -> M W B) w a w' :
  m w = (Ok a, w') -> exec (m ≫= f) w = exec (f a) w'.
Proof. unfold exec, mbind, m_bind. by intros ->. Qed.

Lemma nothrow_bind {W A B} (m : M W A) (f : A -> M W B) :
  nothrow m -> (forall a, nothrow (f a)) -> nothrow (m ≫= f).
Proof.
  intros Hm Hf w. destruct (Hm w) as [a Ha]. destruct (Hf a (exec m w)) as [b Hb].
  exists b. by rewrite (result_bind _ _ _ _ Ha).
Qed.

Lemma nothrow_ret {W A} (a : A) : nothrow (W := W) (mret a).
Proof. intros w. by exists a. Qed.

Lemma nothrow_skip {W} : nothrow (W := W) skip.
Proof. apply nothrow_ret. Qed.

Lemma nothrow_gets {W A} (f : W -> A) : nothrow (gets f).
Proof. intros w. by exists (f w). Qed.

Lemma nothrow_modify {W} (f : W -> W) : nothrow (modify f).
Proof. intros w. by exists tt. Qed.

Lemma nothrow_if {W A} (b : bool) (m n : M W A) :
  nothrow m -> nothrow n -> nothrow (if b then m else n).
Proof. by destruct b. Qed.

Lemma nothrow_for_each {W A} (xs : list A) (f : A -> M W unit) :
  (forall x, nothrow (f x)) -> nothrow (for_each xs f).
Proof.
  intros Hf. induction xs as [|x xs IH]; simpl; [apply nothrow_skip|].
  apply nothrow_bind; auto.
Qed.

Lemma nothrow_catch_all {W A} (m : M W A) h :
  (forall e, nothrow (h e)) -> nothrow (try_catch m any_exception h).
Proof.
  intros Hh w. unfold try_catch, result. destruct (m w) as [[a|e] w'] eqn:E; simpl.
  - by exists a.
  - destruct (Hh e w') as [a Ha]. by exists a.
Qed.

(** ** Invariants of statements *)

Definition preserves {W A} (P : W -> Prop) (m : M W A) : Prop := forall w, P w -> P (exec m w).

(** Writing the cell keeps [P]. *)
Definition stable {W A} (P : W -> Prop) (c : Cell W A) : Prop := forall a w, P w -> P (wr c a w).

Section Preserves.
Context {W : Type} (P : W -> Prop).

Lemma preserves_bind {A B} (m : M W A) (f : A -> M W B) :
  preserves P m -> (forall a, preserves P (f a)) -> preserves P (m ≫= f).
Proof.
  intros Hm Hf w Hw. specialize (Hm w Hw). unfold exec, mbind, m_bind in *.
  destruct (m w) as [[a|e] w']; [by apply Hf|done].
Qed.

(** What the first statement establishes and the rest keeps. *)
Lemma establish_bind {A B} (m : M W A) (f : A -> M W B) w :
  P (exec m w) -> (forall a, preserves P (f a)) -> P (exec (m ≫= f) w).
Proof.
  intros Hm Hf. unfold exec, mbind, m_bind in *. destruct (m w) as [[a|e] w']; [by apply Hf|done].
Qed.

Lemma preserves_ret {A} (a : A) : preserves P (mret (M := M W) a).
Proof. intros w Hw. exact Hw. Qed.
Lemma preserves_skip : preserves P (skip (W := W)).
Proof. intros w Hw. exact Hw. Qed.
Lemma preserves_gets {A} (f : W -> A) : preserves P (gets f).
Proof. intros w Hw. exact Hw. Qed.
Lemma preserves_read {A} (c : Cell W A) : preserves P (read c).
Proof. intros w Hw. exact Hw. Qed.
Lemma preserves_throw {A} e : preserves P (throw (W := W) (A := A) e).
Proof. intros w Hw. exact Hw. Qed.
Lemma preserves_lift {A} (r : res A) : preserves P (lift (W := W) r).
Proof. intros w Hw. exact Hw. Qed.
Lemma preserves_modify f : (forall w, P w -> P (f w)) -> preserves P (modify f).
Proof. intros Hf w Hw. by apply Hf. Qed.
Lemma preserves_write {A} (c : Cell W A) a : stable P c -> preserves P (write c a).
Proof. intros Hc w Hw. by apply Hc. Qed.
Lemma preserves_when b (m : M W unit) : preserves P m -> preserves P (when b m).
Proof. destruct b; auto using preserves_skip. Qed.
Lemma preserves_if {A} (b : bool) (m n : M W A) :
  preserves P m -> preserves P n -> preserves P (if b then m else n).
Proof. destruct b; auto using preserves_skip. Qed.
Lemma preserves_for_each {A} (xs : list A) (f : A -> M W unit) :
  (forall x, In x xs -> preserves P (f x)) -> preserves P (for_each xs f).
Proof.
  intros Hf. induction xs as [|x xs IH]; simpl; [apply preserves_skip|].
  apply preserves_bind; [apply Hf; by left|]. intros _. apply IH. intros y Hy. apply Hf. by right.
Qed.
Lemma preserves_try {A} (m : M W A) p h :
  preserves P m -> (forall e, preserves P (h e)) -> preserves P (try_catch m p h).
Proof.
  intros Hm Hh w Hw. specialize (Hm w Hw). unfold exec, try_catch in *.
  destruct (m w) as [[a|e] w']; [done|]. destruct (p e); [by apply Hh|done].
Qed.
End Preserves.

(** ** Statements that end *)

(** From every world in [P] the statement returns, in a world in [Q]. *)
Definition leads {W A} (P : W -> Prop) (m : M W A) (Q : W -> Prop) : Prop :=
  forall w, P w -> exists a w', m w = (Ok a, w') /\ Q w'.

Section Leads.
Context {W : Type} (P Q R : W -> Prop).

Lemma leads_bind {A B} (m : M W A) (f : A -> M W B) :
  leads P m Q -> (forall a, leads Q (f a) R) -> leads P (m ≫= f) R.
Proof.
  intros Hm Hf w Hw. destruct (Hm w Hw) as (a & w1 & E & H1). rewrite (bind_run _ _ _ _ _ E). by apply Hf.
Qed.
Lemma leads_ret {A} (a : A) : leads P (mret (M := M W) a) P.
Proof. intros w Hw. by exists a, w. Qed.
Lemma leads_skip : leads P (skip (W := W)) P.
Proof. apply leads_ret. Qed.
Lemma leads_gets {A} (f : W -> A) : leads P (gets f) P.
Proof. intros w Hw. by exists (f w), w. Qed.
Lemma leads_read {A} (c : Cell W A) : leads P (read c) P.
Proof. apply leads_gets. Qed.
Lemma leads_modify f : (forall w, P w -> Q (f w)) -> leads P (modify f) Q.
Proof. intros Hf w Hw. exists tt, (f w). split; [done|by apply Hf]. Qed.
Lemma leads_write {A} (c : Cell W A) a : stable P c -> leads P (write c a) P.
Proof. intros Hc w Hw. exists tt, (wr c a w). split; [done|by apply Hc]. Qed.
Lemma leads_when b (m : M W unit) : leads P m P -> leads P (when b m) P.
Proof. destruct b; [done|intros; apply leads_skip]. Qed.
Lemma leads_if {A} (b : bool) (m n : M W A) : leads P m Q -> leads P n Q -> leads P (if b then m else n) Q.
Proof. by destruct b. Qed.
Lemma leads_for_each {A} (xs : list A) (f : A -> M W unit) :
  (forall x, x ∈ xs -> leads P (f x) P) -> leads P (for_each xs f) P.
Proof.
  intros Hf. induction xs as [|x xs IH]; [apply leads_skip|]. intros w Hw. simpl.
  destruct (Hf x (list_elem_of_here _ _) w Hw) as (a & w1 & E & H1). rewrite (bind_run _ _ _ _ _ E).
  apply IH; [|done]. intros y Hy. apply Hf. by apply list_elem_of_further.
Qed.
Lemma leads_try {A} (m : M W A) p h : leads P m Q -> leads P (try_catch m p h) Q.
Proof.
  intros Hm w Hw. destruct (Hm w Hw) as (a & w1 & E & H1). exists a, w1. unfold try_catch. by rewrite E.
Qed.
Lemma leads_pre {A} (m : M W A) : (forall w, P w -> Q w) -> leads Q m R -> leads P m R.
Proof. intros HPQ Hm w Hw. by apply Hm, HPQ. Qed.
End Leads.

Lemma leads_post {W A} (P Q R : W -> Prop) (m : M W A) :
  leads P m Q -> (forall w, Q w -> R w) -> leads P m R.
Proof. intros Hm HQR w Hw. destruct (Hm w Hw) as (a & w' & E & Hq). eauto. Qed.

(** A loop whose invariant speaks of the elements that are done. *)
Lemma leads_loop {W A} (P : (A -> Prop) -> W -> Prop) (xs : list A) (f : A -> M W unit) :
  (forall x (D : A -> Prop), x ∈ xs -> leads (P D) (f x) (P (fun y => y = x \/ D y))) ->
  (forall (D D' : A -> Prop) w, (forall y, D' y -> D y) -> P D w -> P D' w) ->
  leads (P (fun _ => False)) (for_each xs f) (P (fun y => y ∈ xs)).
Proof.
  intros Hf Hmono.
  enough (forall D, leads (P D) (for_each xs f) (P (fun y => y ∈ xs \/ D y))) as He.
  { eapply leads_post; [apply He|]. intros w. apply Hmono. intros y Hy. by left. }
  induction xs as [|x xs IH]; intros D.
  - apply leads_pre with (Q := P (fun y => y ∈ [] \/ D y)); [|apply leads_skip].
    intros w. apply Hmono. intros y [Hy|Hy]; [by apply elem_of_nil in Hy|done].
  - simpl. eapply leads_bind; [apply Hf; apply list_elem_of_here|]. intros _.
    eapply leads_post; [apply IH; intros y D' Hy; apply Hf; by apply list_elem_of_further|].
    intros w. apply Hmono. intros y [Hy|Hy]; [|auto].
    apply elem_of_cons in Hy as [->|Hy]; auto.
Qed.

(** ** Statements that leave a cell alone *)

(** [m] neither reads nor writes the cell. *)
Definition ignores {W A B} (c : Cell W A) (m : M W B) : Prop :=
  forall a w, m (wr c a w) = (result m w, wr c a (exec m w)).

(** Two members that do not overlap. *)
Definition apart {W A B} (c : Cell W A) (d : Cell W B) : Prop :=
  (forall a w, rd d (wr c a w) = rd d w) /\
  (forall a b w, wr d b (wr c a w) = wr c a (wr d b w)).

Section Ignores.
Context {W C : Type} (c : Cell W C).

Lemma ignores_bind {A B} (m : M W A) (f : A -> M W B) :
  ignores c m -> (forall a, ignores c (f a)) -> ignores c (m ≫= f).
Proof.
  intros Hm Hf x w. unfold result, exec, mbind, m_bind in *. rewrite Hm. unfold result, exec.
  destruct (m w) as [[a|e] w']; simpl; [apply Hf|done].
Qed.
Lemma ignores_ret {A} (a : A) : ignores c (mret (M := M W) a).
Proof. done. Qed.
Lemma ignores_skip : ignores c (skip (W := W)).
Proof. done. Qed.
Lemma ignores_throw {A} e : ignores c (throw (W := W) (A := A) e).
Proof. done. Qed.
Lemma ignores_read {A} (d : Cell W A) : apart c d -> ignores c (read d).
Proof. intros [Hr _] x w. unfold read, gets. by rewrite Hr. Qed.
Lemma ignores_write {A} (d : Cell W A) a : apart c d -> ignores c (write d a).
Proof. intros [_ Hw] x w. unfold write, modify. by rewrite Hw. Qed.
Lemma ignores_when b (m : M W unit) : ignores c m -> ignores c (when b m).
Proof. by destruct b. Qed.
Lemma ignores_if {A} (b : bool) (m n : M W A) :
  ignores c m -> ignores c n -> ignores c (if b then m else n).
Proof. by destruct b. Qed.
Lemma ignores_try {A} (m : M W A) p h :
  ignores c m -> (forall e, ignores c (h e)) -> ignores c (try_catch m p h).
Proof.
  intros Hm Hh x w. unfold result, exec, try_catch in *. rewrite Hm. unfold result, exec.
  destruct (m w) as [[a|e] w']; simpl; [done|]. destruct (p e); [apply Hh|done].
Qed.

(** The cell keeps its value. *)
Lemma ignores_rd `{!CellLaws c} {A} (m : M W A) w : ignores c m -> rd c (exec m w) = rd c w.
Proof.
  intros Hm. rewrite <- (wr_rd (c := c) w) at 1. unfold exec at 1. rewrite Hm. simpl. apply rd_wr.
Qed.
End Ignores.

Create HintDb ls discriminated.
#[export] Hint Resolve ignores_bind ignores_ret ignores_skip ignores_throw ignores_read
  ignores_write ignores_when ignores_if ignores_try : ls.
#[export] Hint Resolve preserves_bind preserves_ret preserves_skip preserves_gets preserves_read
  preserves_throw preserves_lift preserves_modify preserves_write preserves_when preserves_if
  preserves_for_each preserves_try : ls.
#[export] Hint Resolve leads_ret leads_skip leads_gets leads_read leads_write leads_when leads_if
  leads_for_each leads_try : ls.
#[export] Hint Resolve nothrow_bind nothrow_ret nothrow_skip nothrow_gets
  nothrow_modify nothrow_if nothrow_for_each nothrow_catch_all : ls.

(** * Tactics *)

(** Unfold the statement monad down to the world transformer. *)
Ltac unfold_m :=
  unfold result, exec, try_catch, when, read, write, skip, gets, modify, throw, lift,
    mbind, m_bind, mret, m_ret in *; simpl in *.

Ltac case_bool :=
  match goal with
  | |- context [if ?b then _ else _] => let E := fresh "E" in destruct b eqn:E
  end.

(** Statement by statement, with an invariant that each keeps. *)
Ltac leads_steps := repeat (eapply leads_bind; [solve [auto with ls]|intros ?]).

(** Turn boolean comparisons on [Z] in the hypotheses into propositions. *)
Ltac zbool :=
  repeat match goal with
  | H : (_ && _)%bool = true |- _ => apply andb_prop in H; destruct H
  | H : (_ <? _) = true |- _ => apply Z.ltb_lt in H
  | H : (_ <? _) = false |- _ => apply Z.ltb_ge in H
  | H : (_ <=? _) = true |- _ => apply Z.leb_le in H
  | H : (_ <=? _) = false |- _ => apply Z.leb_gt in H
  | H : (_ =? _) = true |- _ => apply Z.eqb_eq in H
  | H : (_ =? _) = false |- _ => apply Z.eqb_neq in H
  end.
