(* ===== verification/Runtime.v ===== *)
(** The executor of the service ([service/runtime.h/.cpp]): a pool of threads that run a
    [boost::asio::io_context] until it is stopped, whatever the handlers throw, and the
    strand through which tasks are dispatched.  The context and its strand are an
    interface with the documented behaviour; the threads are a step relation. *)
From Stdlib Require Import ZArith Lia.
From stdpp Require Import base list relations.
From S2P Require Import Prelude.

Module Runtime.

(** * The context and its strand *)

(** [take] is what a thread inside [run()] is given next, if anything; [finish] is the
    handler's return or exit by exception. *)
Class IoContext (Ctx Task : Type) : Type := {
  fresh_context : Ctx;
  post : Task -> Ctx -> Ctx;
  take_next : Ctx -> option (Task * Ctx);
  finish : Ctx -> Ctx;
  stop_context : Ctx -> Ctx;
  stopped : Ctx -> bool;
  waiting : Ctx -> list Task;
  busy : Ctx -> bool
}.

(** Handlers of a strand start in the order they were posted, none before the one that
    started before it has finished; a stopped context starts no handler. *)
Class IoContextLaws (Ctx Task : Type) `{IoContext Ctx Task} : Prop := {
  fresh_spec : waiting fresh_context = [] /\ busy fresh_context = false /\ stopped fresh_context = false;
  post_spec : forall t c, waiting (post t c) = waiting c ++ [t] /\ busy (post t c) = busy c /\
                          stopped (post t c) = stopped c;
  take_spec : forall c t c', take_next c = Some (t, c') ->
    stopped c = false /\ busy c = false /\ waiting c = t :: waiting c' /\ busy c' = true /\ stopped c' = false;
  take_ready : forall c t ts, stopped c = false -> busy c = false -> waiting c = t :: ts ->
    exists c', take_next c = Some (t, c');
  finish_spec : forall c, waiting (finish c) = waiting c /\ busy (finish c) = false /\ stopped (finish c) = stopped c;
  stop_spec : forall c, waiting (stop_context c) = waiting c /\ busy (stop_context c) = busy c /\
                        stopped (stop_context c) = true
}.

Section Pool.
Context {Ctx Task : Type} `{IoContext Ctx Task}.

(** * The threads *)

(** A worker in [exception_safe_run]: before [service.run()], inside it without or with a
    handler, or behind the loop. *)
Inductive Worker : Type :=
| entering
| inside
| executing (t : Task)
| left_.

(** The thread that owns the runtime: before [start], after it, in [stop] before it joins
    the [k]-th worker, and behind [stop]. *)
Inductive Owner : Type := created | started | joining (k : nat) | joined.

(** [Runtime]: the context, the workers and the owner; which tasks were posted and which
    began, in order. *)
Record State : Type := MkState {
  service : Ctx; workers : list Worker; owner : Owner; posted : list Task; begun : list Task
}.

(** [Runtime::Runtime] *)
Definition construct : State := MkState fresh_context [] created [] [].

(** [to_dispatcher_functional]: what the function it returns does with a task. *)
Definition dispatch (t : Task) (s : State) : State :=
  MkState (post t (service s)) (workers s) (owner s) (posted s ++ [t]) (begun s).

(** [start]: [pool_size] threads. *)
Definition start (pool_size : nat) (s : State) : State :=
  MkState (service s) (workers s ++ replicate pool_size entering) started (posted s) (begun s).

Definition set_worker (i : nat) (w : Worker) (s : State) : State :=
  MkState (service s) (<[i:=w]> (workers s)) (owner s) (posted s) (begun s).
Definition set_service (c : Ctx) (s : State) : State :=
  MkState c (workers s) (owner s) (posted s) (begun s).
Definition set_owner (o : Owner) (s : State) : State :=
  MkState (service s) (workers s) o (posted s) (begun s).
Definition begin_task (t : Task) (s : State) : State :=
  MkState (service s) (workers s) (owner s) (posted s) (begun s ++ [t]).

(** A step is a task that is dispatched, a call of the owner, or what the threads do by
    themselves. *)
Inductive Label : Type := Post (t : Task) | Call | Internal.
Inductive step (pool_size : nat) : Label -> State -> State -> Prop :=
| do_dispatch t s : step pool_size (Post t) s (dispatch t s)
| do_start s : owner s = created -> step pool_size Call s (start pool_size s)
(* [service.run()]: on a stopped context it returns at once, and the loop breaks. *)
| run_enters i s :
    workers s !! i = Some entering -> stopped (service s) = false ->
    step pool_size Internal s (set_worker i inside s)
| run_refuses i s :
    workers s !! i = Some entering -> stopped (service s) = true ->
    step pool_size Internal s (set_worker i left_ s)
| run_takes i t c s :
    workers s !! i = Some inside -> take_next (service s) = Some (t, c) ->
    step pool_size Internal s (set_worker i (executing t) (begin_task t (set_service c s)))
| handler_returns i t s :
    workers s !! i = Some (executing t) ->
    step pool_size Internal s (set_worker i inside (set_service (finish (service s)) s))
(* The exception leaves [run()], is caught, and the loop goes on. *)
| handler_throws i t s :
    workers s !! i = Some (executing t) ->
    step pool_size Internal s (set_worker i entering (set_service (finish (service s)) s))
| run_returns i s :
    workers s !! i = Some inside -> stopped (service s) = true ->
    step pool_size Internal s (set_worker i left_ s)
(* [stop]: the context is stopped, then every worker is joined. *)
| do_stop s :
    owner s = created \/ owner s = started ->
    step pool_size Call s (set_owner (joining 0) (set_service (stop_context (service s)) s))
| do_join k s :
    owner s = joining k -> workers s !! k = Some left_ ->
    step pool_size Internal s (set_owner (joining (S k)) s)
| do_return k s :
    owner s = joining k -> (length (workers s) <= k)%nat ->
    step pool_size Internal s (set_owner joined s).

Inductive reachable (pool_size : nat) : State -> Prop :=
| reachable_construct : reachable pool_size construct
| reachable_step s l s' : reachable pool_size s -> step pool_size l s s' -> reachable pool_size s'.

(** * The invariant *)

(** The tasks the workers execute. *)
Definition task_of (w : Worker) : option Task := match w with executing t => Some t | _ => None end.
Definition at_work (ws : list Worker) : list Task := omap task_of ws.

(** Where the owner stands decides whether the context is stopped and how many workers
    there are. *)
Definition owner_agrees (pool_size : nat) (o : Owner) (is_stopped : bool) (n : nat) : Prop :=
  match o with
  | created => is_stopped = false /\ n = 0
  | started => is_stopped = false /\ n = pool_size
  | joining _ | joined => is_stopped = true /\ (n = 0 \/ n = pool_size)
  end.

Record invariant (pool_size : nat) (s : State) : Prop := {
  inv_queue : posted s = begun s ++ waiting (service s);
  inv_work : at_work (workers s) = if busy (service s) then match last (begun s) with Some t => [t] | None => [] end else [];
  inv_busy : busy (service s) = true -> begun s <> [];
  inv_left : left_ ∈ workers s -> stopped (service s) = true;
  inv_joined : match owner s with
               | created | started => True
               | joining k => forall i, i < k -> i < length (workers s) -> workers s !! i = Some left_
               | joined => forall i, i < length (workers s) -> workers s !! i = Some left_
               end;
  inv_owner : owner_agrees pool_size (owner s) (stopped (service s)) (length (workers s))
}.

Lemma at_work_insert ws i w w' :
  ws !! i = Some w ->
  at_work ws = at_work (take i ws) ++ option_list (task_of w) ++ at_work (drop (S i) ws) /\
  at_work (<[i:=w']> ws) = at_work (take i ws) ++ option_list (task_of w') ++ at_work (drop (S i) ws).
Proof.
  intros Hi. split.
  - rewrite <- (take_drop_middle ws i w Hi) at 1. unfold at_work. rewrite omap_app. simpl. by destruct (task_of w).
  - rewrite insert_take_drop by (by eapply lookup_lt_Some). unfold at_work. rewrite omap_app. simpl. by destruct (task_of w').
Qed.

Lemma elem_of_insert_list {A} (l : list A) i x y : x ∈ <[i:=y]> l -> x = y \/ x ∈ l.
Proof.
  intros Hx. apply list_elem_of_lookup in Hx as [j Hj]. apply list_lookup_insert_Some in Hj as [(_ & -> & _)|[_ Hj]]; [by left|].
  right. by eapply list_elem_of_lookup_2.
Qed.

Lemma alone_in_middle {A} (l1 l2 : list A) x l :
  l1 ++ option_list (Some x) ++ l2 = l -> length l <= 1 -> l1 = [] /\ l2 = [].
Proof.
  intros <-. rewrite !length_app. simpl. intros Hl. split; apply nil_length_inv; lia.
Qed.

(** A worker that has not left is not among those that were joined. *)
Lemma joined_insert o ws i w w' :
  ws !! i = Some w -> w <> left_ ->
  match o with
  | created | started => True
  | joining k => forall j, j < k -> j < length ws -> ws !! j = Some left_
  | joined => forall j, j < length ws -> ws !! j = Some left_
  end ->
  match o with
  | created | started => True
  | joining k => forall j, j < k -> j < length (<[i:=w']> ws) -> <[i:=w']> ws !! j = Some left_
  | joined => forall j, j < length (<[i:=w']> ws) -> <[i:=w']> ws !! j = Some left_
  end.
Proof.
  intros Hi Hn. rewrite length_insert. destruct o; auto; intros Hj j.
  - intros Hk Hl. rewrite list_lookup_insert_ne; [auto|]. intros ->. rewrite Hj in Hi by done. congruence.
  - intros Hl. rewrite list_lookup_insert_ne; [auto|]. intros ->. rewrite Hj in Hi by done. congruence.
Qed.

(** A worker that goes on without taking or ending a task. *)
Lemma invariant_worker pool_size s i w w' :
  invariant pool_size s -> workers s !! i = Some w -> w <> left_ -> task_of w = None -> task_of w' = None ->
  (w' = left_ -> stopped (service s) = true) -> invariant pool_size (set_worker i w' s).
Proof.
  intros [Hq Hw Hb Hl Hj Ho] Hi Hn E E' Hs. destruct (at_work_insert (workers s) i w w' Hi) as [W W'].
  rewrite E in W. rewrite E' in W'. constructor; simpl; auto.
  - rewrite W', <- Hw, W. done.
  - intros [<-|]%elem_of_insert_list; auto.
  - by eapply joined_insert.
  - by rewrite length_insert.
Qed.

Context `{!IoContextLaws Ctx Task}.

(** A worker that ends its task. *)
Lemma invariant_finish pool_size s i t w' :
  invariant pool_size s -> workers s !! i = Some (executing t) -> w' = inside \/ w' = entering ->
  invariant pool_size (set_worker i w' (set_service (finish (service s)) s)).
Proof.
  intros [Hq Hw Hb Hl Hj Ho] Hi Hw'. destruct (finish_spec (service s)) as (Fw & Fb & Fs).
  destruct (at_work_insert (workers s) i _ w' Hi) as [W W'].
  assert (Ew : task_of w' = None) by (by destruct Hw' as [->| ->]). rewrite Ew in W'.
  constructor; simpl; rewrite ?Fw, ?Fb, ?Fs; auto.
  - rewrite W in Hw. destruct (alone_in_middle _ _ _ _ Hw) as [E1 E2]; [|by rewrite W', E1, E2].
    destruct (busy (service s)); [destruct (last (begun s))|]; simpl; lia.
  - intros [E|]%elem_of_insert_list; [subst; by destruct Hw'|auto].
  - by eapply joined_insert.
  - by rewrite length_insert.
Qed.

Lemma pool_invariant_step pool_size s l s' : invariant pool_size s -> step pool_size l s s' -> invariant pool_size s'.
Proof.
  intros Hi Hs. destruct Hs.
  - destruct Hi as [Hq Hw Hb Hl Hj Ho]. destruct (post_spec t (service s)) as (Pw & Pb & Ps).
    constructor; simpl; rewrite ?Pw, ?Pb, ?Ps; auto. by rewrite Hq, app_assoc.
  - destruct Hi as [Hq Hw Hb Hl Hj Ho]. rewrite H0 in Ho. destruct Ho as [Es En].
    apply nil_length_inv in En. rewrite En in *. constructor; simpl; rewrite ?En; auto.
    + simpl. rewrite <- Hw. unfold at_work. simpl. induction pool_size; simpl; auto.
    + simpl. by intros [? _]%elem_of_replicate.
    + rewrite app_nil_l. by rewrite length_replicate.
  - by eapply invariant_worker.
  - by eapply invariant_worker.
  - destruct (take_spec _ _ _ H1) as (Ts & Tb & Tw & Tb' & Ts'). destruct Hi as [Hq Hw Hb Hl Hj Ho].
    destruct (at_work_insert (workers s) i _ (executing t) H0) as [W W']. rewrite Tb in Hw. rewrite W in Hw.
    constructor; simpl; rewrite ?Tb', ?Ts'; auto.
    + rewrite Hq, Tw. by rewrite <- app_assoc.
    + rewrite last_snoc, W'. by destruct (at_work (take i (workers s))), (at_work (drop (S i) (workers s))).
    + by destruct (begun s).
    + intros [E|]%elem_of_insert_list; [done|]. rewrite <- Ts. auto.
    + by eapply joined_insert.
    + by rewrite length_insert, <- Ts.
  - eapply invariant_finish; eauto.
  - eapply invariant_finish; eauto.
  - by eapply invariant_worker.
  - destruct Hi as [Hq Hw Hb Hl Hj Ho]. destruct (stop_spec (service s)) as (Sw & Sb & Ss).
    constructor; simpl; rewrite ?Sw, ?Sb, ?Ss; auto.
    + intros i Hi. lia.
    + split; [done|]. destruct H0 as [E|E]; rewrite E in Ho; simpl in Ho; tauto.
  - destruct Hi as [Hq Hw Hb Hl Hj Ho]. rewrite H0 in *. constructor; simpl; auto.
    intros i Hi Hn. destruct (decide (i = k)) as [->|]; [done|]. apply Hj; lia.
  - destruct Hi as [Hq Hw Hb Hl Hj Ho]. rewrite H0 in *. constructor; simpl; auto.
    intros i Hi. apply Hj; lia.
Qed.

Lemma pool_invariant_construct pool_size : invariant pool_size construct.
Proof.
  destruct fresh_spec as (Fw & Fb & Fs). constructor; simpl; rewrite ?Fw, ?Fb, ?Fs; auto; try done.
  by intros ?%not_elem_of_nil.
Qed.

Lemma pool_invariant_reachable pool_size s : reachable pool_size s -> invariant pool_size s.
Proof. induction 1; eauto using pool_invariant_construct, pool_invariant_step. Qed.

(** * Termination *)

(** What a worker, the owner and the tasks that wait have before them, at most. *)
Definition rank (w : Worker) : nat :=
  match w with entering => 2 | inside => 1 | executing _ => 4 | left_ => 0 end.
Definition owner_rank (s : State) : nat :=
  match owner s with joining k => S (length (workers s) - k) | _ => 0 end.
Definition measure (s : State) : nat :=
  4 * length (waiting (service s)) + sum_list_with rank (workers s) + owner_rank s.

Lemma sum_insert ws i w w' :
  ws !! i = Some w -> sum_list_with rank (<[i:=w']> ws) + rank w = sum_list_with rank ws + rank w'.
Proof.
  intros Hi. rewrite insert_take_drop by (by eapply lookup_lt_Some).
  rewrite <- (take_drop_middle ws i w Hi) at 3. rewrite !sum_list_with_app. simpl. lia.
Qed.

Definition internal (pool_size : nat) (s s' : State) : Prop := step pool_size Internal s s'.

Lemma internal_decreases pool_size s s' : internal pool_size s s' -> measure s' < measure s.
Proof.
  assert (Hs : forall i w w' c, workers s !! i = Some w ->
    4 * length (waiting c) + rank w' < 4 * length (waiting (service s)) + rank w ->
    forall t, measure (set_worker i w' (begin_task t (set_service c s))) < measure s /\
              measure (set_worker i w' (set_service c s)) < measure s).
  { intros i w w' c Hi Hr t. pose proof (sum_insert (workers s) i w w' Hi).
    unfold measure, owner_rank. simpl. rewrite length_insert. destruct (owner s); lia. }
  assert (Hs' : forall i w w', workers s !! i = Some w -> rank w' < rank w -> measure (set_worker i w' s) < measure s).
  { intros i w w' Hi Hr. pose proof (sum_insert (workers s) i w w' Hi).
    unfold measure, owner_rank. simpl. rewrite length_insert. destruct (owner s); lia. }
  intros Hst. inversion Hst; subst; try (by eapply Hs'; [eassumption|simpl; lia]).
  - destruct (take_spec _ _ _ H1) as (_ & _ & Tw & _). refine (proj1 (Hs i _ (executing t) c H0 _ t)). rewrite Tw. simpl. lia.
  - destruct (finish_spec (service s)) as (Fw & _). refine (proj2 (Hs i _ _ (finish (service s)) H0 _ t)). rewrite Fw. simpl. lia.
  - destruct (finish_spec (service s)) as (Fw & _). refine (proj2 (Hs i _ _ (finish (service s)) H0 _ t)). rewrite Fw. simpl. lia.
  - unfold measure, owner_rank. simpl. rewrite H0. apply lookup_lt_Some in H1. lia.
  - unfold measure, owner_rank. simpl. rewrite H0. lia.
Qed.

(** What holds where the threads have come to rest. *)
Definition at_rest (pool_size : nat) (s : State) : Prop := forall s', ~ internal pool_size s s'.

Lemma worker_at_rest pool_size s i w :
  at_rest pool_size s -> workers s !! i = Some w ->
  (w = inside /\ stopped (service s) = false /\ take_next (service s) = None) \/ w = left_.
Proof.
  intros Hr Hi. destruct w.
  - exfalso. destruct (stopped (service s)) eqn:E; [by eapply Hr, (run_refuses _ i)|by eapply Hr, (run_enters _ i)].
  - left. split; [done|]. destruct (stopped (service s)) eqn:E.
    + exfalso. eapply Hr. by apply (run_returns _ i).
    + split; [done|]. destruct (take_next (service s)) as [[t c]|] eqn:Et; [|done].
      exfalso. eapply Hr. by eapply (run_takes _ i).
  - exfalso. eapply Hr. by eapply (handler_returns _ i).
  - by right.
Qed.

Lemma not_busy_at_rest pool_size s : invariant pool_size s -> at_rest pool_size s -> busy (service s) = false.
Proof.
  intros Hi Hr. apply not_true_iff_false. intros Hb. pose proof (inv_work _ _ Hi) as Hw. rewrite Hb in Hw.
  pose proof (inv_busy _ _ Hi Hb) as Hn. destruct (last (begun s)) as [t|] eqn:El; [|by apply last_None in El].
  assert (Ht : t ∈ at_work (workers s)) by (rewrite Hw; by left).
  apply list_elem_of_omap in Ht as (w & Hw' & Et). apply list_elem_of_lookup in Hw' as [i Hi'].
  by destruct (worker_at_rest _ _ _ _ Hr Hi') as [(-> & _)| ->].
Qed.

Lemma internal_begun pool_size s s' :
  stopped (service s) = true -> internal pool_size s s' -> begun s' = begun s /\ stopped (service s') = true.
Proof.
  intros Hs Hst. inversion Hst; subst; simpl; auto; try by destruct (finish_spec (service s)) as (_ & _ & ->).
  destruct (take_spec _ _ _ H1) as (Ts & _). congruence.
Qed.

Lemma internal_owner pool_size s s' :
  internal pool_size s s' ->
  match owner s with
  | created | started => owner s' = owner s
  | joining _ => owner s' <> created /\ owner s' <> started
  | joined => owner s' = joined
  end /\ posted s' = posted s.
Proof.
  intros Hst. inversion Hst; subst; simpl; (split; [|done]);
    try match goal with Ho : owner _ = _ |- _ => rewrite Ho end; try (by destruct (owner s)); done.
Qed.

Lemma rest_joined pool_size s :
  invariant pool_size s -> at_rest pool_size s -> stopped (service s) = true ->
  owner s = joined /\ Forall (fun w => w = left_) (workers s).
Proof.
  intros Hi Hr Hs.
  assert (Hl : forall i w, workers s !! i = Some w -> w = left_).
  { intros i w Hw. destruct (worker_at_rest _ _ _ _ Hr Hw) as [(_ & E & _)|]; [congruence|done]. }
  split; [|apply Forall_lookup; eauto]. pose proof (inv_owner _ _ Hi) as Ho. rewrite Hs in Ho.
  destruct (owner s) as [| |k|] eqn:Eo; simpl in Ho; try by destruct Ho.
  exfalso. destruct (decide (length (workers s) <= k)).
  - eapply Hr. by eapply do_return.
  - destruct (lookup_lt_is_Some_2 (workers s) k) as [w Hw]; [lia|]. rewrite (Hl _ _ Hw) in Hw.
    eapply Hr. by eapply do_join.
Qed.

Lemma internal_reachable pool_size s s' :
  reachable pool_size s -> rtc (internal pool_size) s s' -> reachable pool_size s'.
Proof. intros Hr Hs. induction Hs; [done|]. apply IHHs. eapply reachable_step; eauto. Qed.

Lemma internal_begun_rtc pool_size s s' :
  stopped (service s) = true -> rtc (internal pool_size) s s' -> begun s' = begun s /\ stopped (service s') = true.
Proof.
  intros Hs Hr. induction Hr as [|s s1 s' Hst _ IH]; [done|].
  destruct (internal_begun _ _ _ Hs Hst) as [E E']. rewrite <- E. auto.
Qed.

Lemma internal_keeps pool_size s s' :
  owner s = started -> rtc (internal pool_size) s s' -> owner s' = started /\ posted s' = posted s.
Proof.
  intros Ho Hr. induction Hr as [|s s1 s' Hst _ IH]; [done|].
  destruct (internal_owner _ _ _ Hst) as [E E']. rewrite Ho in E. rewrite <- E'. auto.
Qed.

Lemma internal_terminates pool_size s : Acc (fun s' s => internal pool_size s s') s.
Proof.
  assert (H0 : forall n s, measure s < n -> Acc (fun s' s => internal pool_size s s') s); [|by apply (H0 (S (measure s))); lia].
  induction n as [|n IH]; intros s' Hm; [lia|]. constructor. intros s2 Hs%internal_decreases. apply IH. lia.
Qed.

(** * Theorems *)

(** C24: the strand's tasks run one by one. Whatever is dispatched when, and whatever the
    tasks throw: the tasks that began are the first ones that were posted, in that order
    and each once; at most one worker executes a task, the last one that began; and until
    the owner stops the runtime all its workers are there and none has left the loop. *)
Theorem tasks_run_one_by_one (pool_size : nat) (s : State) :
  reachable pool_size s ->
  posted s = begun s ++ waiting (service s) /\
  (forall i j t u, workers s !! i = Some (executing t) -> workers s !! j = Some (executing u) ->
     i = j /\ last (begun s) = Some t) /\
  (owner s = started -> length (workers s) = pool_size /\ left_ ∉ workers s).
Proof.
  intros Hi%pool_invariant_reachable. split_and!; [by apply inv_queue with pool_size| |].
  - intros i j t u Ht Hu. destruct (at_work_insert (workers s) i _ left_ Ht) as [W _].
    pose proof (inv_work _ _ Hi) as Hw. rewrite W in Hw.
    destruct (alone_in_middle _ _ _ _ Hw) as [E1 E2].
    { destruct (busy (service s)); [destruct (last (begun s))|]; simpl; lia. }
    rewrite E1, E2 in Hw. split.
    + assert (Hn : forall ws : list Worker, at_work ws = [] -> executing u ∉ ws).
      { intros ws E Hx. assert (Hx' : u ∈ at_work ws) by (apply list_elem_of_omap; by eexists).
        rewrite E in Hx'. by apply not_elem_of_nil in Hx'. }
      destruct (lt_eq_lt_dec i j) as [[Hlt|]|Hlt]; [|done|]; exfalso.
      * apply (Hn _ E2), (list_elem_of_lookup_2 _ (j - S i)). rewrite lookup_drop, <- Hu. f_equal. lia.
      * apply (Hn _ E1), (list_elem_of_lookup_2 _ j). by rewrite lookup_take_lt.
    + destruct (busy (service s)), (last (begun s)); simpl in Hw; congruence.
  - intros Eo. pose proof (inv_owner _ _ Hi) as Ho. rewrite Eo in Ho. destruct Ho as [Es En]. split; [done|].
    intros Hl%(inv_left _ _ Hi). congruence.
Qed.

(** C25: the runtime comes to rest. From any reachable state the threads cannot go on for
    ever without a new task or a call of the owner; where they rest, every task that was
    dispatched to a started pool has begun and no worker executes any; and a runtime that
    is being stopped only rests when [stop] has returned, all workers have left their loops
    and no task has begun since. *)
Theorem pool_comes_to_rest (pool_size : nat) (s : State) :
  reachable pool_size s ->
  Acc (fun s' s => internal pool_size s s') s /\
  forall s', rtc (internal pool_size) s s' -> at_rest pool_size s' ->
  (owner s = started -> 0 < pool_size ->
     begun s' = posted s /\ waiting (service s') = [] /\ Forall (fun w => w = inside) (workers s')) /\
  (stopped (service s) = true ->
     owner s' = joined /\ Forall (fun w => w = left_) (workers s') /\ begun s' = begun s).
Proof.
  intros Hr. split; [apply internal_terminates|]. intros s' Hs Hrest.
  pose proof (pool_invariant_reachable _ _ (internal_reachable _ _ _ Hr Hs)) as Hi. split.
  - intros Ho Hp. destruct (internal_keeps _ _ _ Ho Hs) as [Ho' <-].
    pose proof (inv_owner _ _ Hi) as Hown. rewrite Ho' in Hown. destruct Hown as [Es En].
    assert (Hw : Forall (fun w => w = inside) (workers s')).
    { apply Forall_lookup. intros i w Hw. destruct (worker_at_rest _ _ _ _ Hrest Hw) as [[-> _]| ->]; [done|].
      pose proof (inv_left _ _ Hi (list_elem_of_lookup_2 _ _ _ Hw)). congruence. }
    assert (E : waiting (service s') = []).
    { destruct (waiting (service s')) as [|t ts] eqn:Ew; [done|]. exfalso.
      destruct (take_ready (service s') t ts Es (not_busy_at_rest _ _ Hi Hrest) Ew) as [c Ec].
      destruct (lookup_lt_is_Some_2 (workers s') 0) as [w Hw0]; [lia|].
      destruct (worker_at_rest _ _ _ _ Hrest Hw0) as [(_ & _ & En')| ->]; [congruence|].
      apply list_elem_of_lookup_2 in Hw0. rewrite Forall_forall in Hw. by specialize (Hw _ Hw0). }
    split_and!; [|done..]. by rewrite (inv_queue _ _ Hi), E, app_nil_r.
  - intros Hst. destruct (internal_begun_rtc _ _ _ Hst Hs) as [Eb Es].
    destruct (rest_joined _ _ Hi Hrest Es) as [Ho Hl]. by split_and!.
Qed.
End Pool.

(** A context that is a queue. *)
Record Queue : Type := MkQueue { queued : list nat; is_busy : bool; is_stopped : bool }.
#[local] Instance queue_context : IoContext Queue nat := {|
  fresh_context := MkQueue [] false false;
  post t c := MkQueue (queued c ++ [t]) (is_busy c) (is_stopped c);
  take_next c := match queued c with
                 | t :: ts => if is_busy c || is_stopped c then None else Some (t, MkQueue ts true (is_stopped c))
                 | [] => None
                 end;
  finish c := MkQueue (queued c) false (is_stopped c);
  stop_context c := MkQueue (queued c) (is_busy c) true;
  stopped c := is_stopped c;
  waiting c := queued c;
  busy c := is_busy c
|}.
#[local] Instance queue_context_laws : IoContextLaws Queue nat.
Proof.
  split; simpl; try done.
  - intros [[|t ts] [] []] t' c'; simpl; try done. by intros [= <- <-].
  - intros [q b st] t ts; simpl. intros -> -> ->. eauto.
Qed.

(** One worker, one task that was dispatched before the start. *)
Definition one_task : State (Ctx := Queue) (Task := nat) := start 1 (dispatch 7 construct).

Lemma one_task_reachable : reachable (Ctx := Queue) 1 one_task.
Proof.
  eapply reachable_step; [eapply reachable_step; [apply reachable_construct|apply do_dispatch]|by apply do_start].
Qed.

Lemma tasks_run_one_by_one_witness :
  reachable (Ctx := Queue) 1 one_task /\ posted one_task = begun one_task ++ [7] /\
  length (workers one_task) = 1.
Proof.
  destruct (tasks_run_one_by_one (Ctx := Queue) 1 one_task one_task_reachable) as (E & _ & Hw).
  split; [exact one_task_reachable|]. split; [exact E|]. exact (proj1 (Hw eq_refl)).
Defined.

Lemma pool_comes_to_rest_witness :
  let s := MkState (MkQueue [] false false) [inside] started [7] [7] in
  rtc (internal (Ctx := Queue) 1) one_task s /\ at_rest 1 s /\ begun s = posted one_task.
Proof.
  cbv zeta.
  assert (Hs : rtc (internal (Ctx := Queue) 1) one_task (MkState (MkQueue [] false false) [inside] started [7] [7])).
  { eapply rtc_l; [by apply (run_enters 1 0)|]. eapply rtc_l; [by apply (run_takes 1 0 7 (MkQueue [] true false))|].
    eapply rtc_l; [by apply (handler_returns 1 0 7)|]. apply rtc_refl. }
  assert (Hr : at_rest (Ctx := Queue) 1 (MkState (MkQueue [] false false) [inside] started [7] [7])).
  { intros s' Hst. inversion Hst; subst; simpl in *; try done; by destruct i as [|[]]. }
  split; [exact Hs|]. split; [exact Hr|].
  destruct (pool_comes_to_rest (Ctx := Queue) 1 one_task one_task_reachable) as [_ H].
  exact (proj1 (proj1 (H _ Hs Hr) eq_refl ltac:(lia))).
Defined.
End Runtime.
