(* ===== verification/Floats.v ===== *)
(** IEEE 754 numbers as the source uses them: [double] for positions,
    accuracies, velocities and headings, [float] for signal strengths.  Both are
    Rocq's executable [spec_float], so comparisons with NaN, rounding and the
    truncating cast to [int] compute exactly as the C++ expressions do.  The
    comparison operators are characterised by a rank, which yields the order
    lemmas the components use. *)
From Stdlib Require Import ZArith Lia SpecFloat.
From stdpp Require Import base list.
From S2P Require Import Prelude.
Local Open Scope Z_scope.

Definition double : Type := spec_float.
Definition float : Type := spec_float.

#[export] Instance spec_float_eq_dec : EqDecision spec_float.
Proof. solve_decision. Defined.

(** [<], [<=], [==] on floating point values: false as soon as a side is NaN. *)
Definition dlt (x y : double) : bool := SFltb x y.
Definition dle (x y : double) : bool := SFleb x y.
Definition deq (x y : double) : bool := SFeqb x y.
Definition isnan (x : double) : bool := match x with S754_nan => true | _ => false end.
Definition isfinite (x : double) : bool :=
  match x with S754_zero _ | S754_finite _ _ _ => true | _ => false end.
(** The conversion to [bool] in [if (x)]: true iff [x != 0]. *)
Definition dtest (x : double) : bool :=
  match x with S754_zero _ => false | _ => true end.

(** Arithmetic at the two widths. *)
Definition d_of_Z (z : Z) : double := binary_normalize 53 1024 z 0 false.
Definition f_of_Z (z : Z) : float := binary_normalize 24 128 z 0 false.
Definition dsub (x y : double) : double := SFsub 53 1024 x y.
Definition fadd (x y : float) : float := SFadd 24 128 x y.
Definition fmul (x y : float) : float := SFmul 24 128 x y.
Definition fdiv (x y : float) : float := SFdiv 24 128 x y.

(** The value of a [float] seen as a [double], and a [double] narrowed to a
    [float]. *)
Definition renormalize (prec emax : Z) (x : spec_float) : spec_float :=
  match x with
  | S754_finite s m e => binary_normalize prec emax (if s then Zneg m else Zpos m) e s
  | _ => x
  end.
Definition double_of_float : float -> double := renormalize 53 1024.
Definition float_of_double : double -> float := renormalize 24 128.

(** [static_cast<int>]: truncation towards zero.  [None] where C++ leaves the
    result undefined (NaN, infinities, values out of [int]'s range). *)
Definition to_int (x : spec_float) : option Z :=
  match x with
  | S754_zero _ => Some 0
  | S754_finite s m e =>
      let a := Z.shiftl (Zpos m) e in
      let v := if s then - a else a in
      if (INT_MIN <=? v) && (v <=? INT_MAX) then Some v else None
  | S754_infinity _ | S754_nan => None
  end.

(** [std::max(a, b)] is [(a < b) ? b : a], [std::min(a, b)] is [(b < a) ? b : a]. *)
Definition std_max (a b : float) : float := if dlt a b then b else a.
Definition std_min (a b : float) : float := if dlt b a then b else a.

(** [std::fabs] *)
Definition fabs (x : double) : double := SFabs x.
(** [std::numeric_limits<double>::epsilon()], 2^-52. *)
Definition double_epsilon : double := S754_finite false 4503599627370496 (-104).

(** * Order *)

(** The position of a number in the order [SFcompare] decides. *)
Definition rank (x : spec_float) : option (Z * Z * Z) :=
  match x with
  | S754_nan => None
  | S754_zero _ => Some (0, 0, 0)
  | S754_infinity s => Some (if s then -2 else 2, 0, 0)
  | S754_finite s m e => Some (if s then (-1, - e, Zneg m) else (1, e, Zpos m))
  end.

Definition lex (a b : Z * Z * Z) : comparison :=
  match a.1.1 ?= b.1.1 with
  | Eq => match a.1.2 ?= b.1.2 with Eq => a.2 ?= b.2 | c => c end
  | c => c
  end.

Lemma SFcompare_rank x y :
  SFcompare x y =
  match rank x, rank y with Some a, Some b => Some (lex a b) | _, _ => None end.
Proof.
  destruct x as [s|s| |s m e], y as [s'|s'| |s' m' e']; try destruct s; try destruct s';
    simpl; try reflexivity.
  - unfold lex; simpl. rewrite Z.compare_opp, (Z.compare_antisym e e').
    destruct (e ?= e'); reflexivity.
Qed.

Lemma lex_spec a b :
  match lex a b with
  | Lt => a.1.1 < b.1.1 \/ (a.1.1 = b.1.1 /\ (a.1.2 < b.1.2 \/ (a.1.2 = b.1.2 /\ a.2 < b.2)))
  | Eq => a = b
  | Gt => b.1.1 < a.1.1 \/ (a.1.1 = b.1.1 /\ (b.1.2 < a.1.2 \/ (a.1.2 = b.1.2 /\ b.2 < a.2)))
  end.
Proof.
  destruct a as [[a1 a2] a3], b as [[b1 b2] b3]; unfold lex; simpl.
  destruct (Z.compare_spec a1 b1); simpl; try lia.
  destruct (Z.compare_spec a2 b2); simpl; try lia.
  destruct (Z.compare_spec a3 b3); simpl; try lia. congruence.
Qed.

Lemma dlt_rank x y : dlt x y = true <-> exists a b, rank x = Some a /\ rank y = Some b /\ lex a b = Lt.
Proof.
  unfold dlt, SFltb. rewrite SFcompare_rank.
  destruct (rank x) as [a|], (rank y) as [b|]; split; try discriminate;
    try (intros (? & ? & ? & ? & ?); discriminate).
  - destruct (lex a b) eqn:E; [discriminate| |discriminate]. intros _. by exists a, b.
  - intros (a' & b' & [= <-] & [= <-] & ->). reflexivity.
Qed.

Lemma dle_rank x y :
  dle x y = true <-> exists a b, rank x = Some a /\ rank y = Some b /\ lex a b <> Gt.
Proof.
  unfold dle, SFleb. rewrite SFcompare_rank.
  destruct (rank x) as [a|], (rank y) as [b|]; split; try discriminate;
    try (intros (? & ? & ? & ? & ?); discriminate).
  - destruct (lex a b) eqn:E; [| |discriminate]; intros _; exists a, b; by rewrite E.
  - intros (a' & b' & [= <-] & [= <-] & L). by destruct (lex a b).
Qed.

Lemma dlt_irrefl x : dlt x x = false.
Proof.
  apply not_true_is_false. intros (a & b & Ha & Hb & L)%dlt_rank.
  assert (a = b) as -> by congruence. pose proof (lex_spec b b) as S. rewrite L in S. lia.
Qed.

Lemma dlt_trans x y z : dlt x y = true -> dlt y z = true -> dlt x z = true.
Proof.
  rewrite !dlt_rank. intros (a & b & Ha & Hb & L) (b' & c & Hb' & Hc & L').
  assert (b' = b) as -> by congruence. exists a, c. split_and!; [done..|].
  pose proof (lex_spec a b) as S. pose proof (lex_spec b c) as S'. pose proof (lex_spec a c) as S''.
  rewrite L in S. rewrite L' in S'. destruct (lex a c); [subst|done|]; lia.
Qed.

Lemma dle_trans x y z : dle x y = true -> dle y z = true -> dle x z = true.
Proof.
  rewrite !dle_rank. intros (a & b & Ha & Hb & L) (b' & c & Hb' & Hc & L').
  assert (b' = b) as -> by congruence. exists a, c. split_and!; [done..|].
  pose proof (lex_spec a b) as S. pose proof (lex_spec b c) as S'. pose proof (lex_spec a c) as S''.
  destruct (lex a b), (lex b c), (lex a c); subst; try done; lia.
Qed.

Lemma rank_not_nan x : isnan x = false <-> is_Some (rank x).
Proof. destruct x; simpl; split; try discriminate; eauto; intros [? ?]; done. Qed.

Lemma dle_refl x : isnan x = false -> dle x x = true.
Proof.
  intros [a Ha]%rank_not_nan. apply dle_rank. exists a, a. split_and!; [done..|].
  pose proof (lex_spec a a) as S. destruct (lex a a); [done..|lia].
Qed.

(** Two numbers that are not NaN are always ordered. *)
Lemma dlt_dle_total x y : isnan x = false -> isnan y = false -> dle x y = negb (dlt y x).
Proof.
  intros [a Ha]%rank_not_nan [b Hb]%rank_not_nan.
  unfold dle, dlt, SFleb, SFltb. rewrite !SFcompare_rank, Ha, Hb.
  pose proof (lex_spec a b) as S. pose proof (lex_spec b a) as S'.
  destruct (lex a b), (lex b a); try reflexivity; subst; exfalso; (congruence || lia).
Qed.

Lemma dlt_dle x y : dlt x y = true -> dle x y = true.
Proof.
  rewrite dlt_rank, dle_rank. intros (a & b & ? & ? & L). exists a, b.
  split_and!; [done..|]. by rewrite L.
Qed.

(** A comparison with NaN is false. *)
Lemma dlt_nan_l y : dlt S754_nan y = false.
Proof. by destruct y. Qed.
Lemma dlt_nan_r x : dlt x S754_nan = false.
Proof. by destruct x. Qed.
Lemma dle_nan_l y : dle S754_nan y = false.
Proof. by destruct y. Qed.
Lemma dle_nan_r x : dle x S754_nan = false.
Proof. by destruct x. Qed.

Lemma deq_refl x : isnan x = false -> deq x x = true.
Proof.
  intros [a Ha]%rank_not_nan. unfold deq, SFeqb. rewrite SFcompare_rank, Ha.
  pose proof (lex_spec a a) as S. destruct (lex a a); [done|lia..].
Qed.

#[export] Hint Resolve dle_refl dlt_dle dle_trans dlt_trans deq_refl : ls.

(** * Widening and narrowing *)

(** The digits and the right shift of a mantissa that was shifted left. *)
Lemma digits_shifted p m : Zpos (digits2_pos (Pos.iter xO m p)) = Zpos (digits2_pos m) + Zpos p.
Proof.
  revert m. induction p as [|p IH] using Pos.peano_ind; intros m; simpl; [lia|].
  rewrite Pos.iter_succ; simpl. specialize (IH m). lia.
Qed.

Lemma shr_shifted p m :
  SpecFloat.iter_pos shr_1 p {| shr_m := Zpos (Pos.iter xO m p); shr_r := false; shr_s := false |} =
  {| shr_m := Zpos m; shr_r := false; shr_s := false |}.
Proof. revert m. induction p as [p IH|p IH|]; intros m; simpl; rewrite ?IH; done. Qed.

Lemma shr_fexp_canonical prec emax m e :
  fexp prec emax (Zpos (digits2_pos m) + e) = e ->
  shr_fexp prec emax (Zpos m) e loc_Exact = ({| shr_m := Zpos m; shr_r := false; shr_s := false |}, e).
Proof. intros H. unfold shr_fexp. simpl Zdigits2. by rewrite H, Z.sub_diag. Qed.

Lemma binary_round_aux_canonical prec emax s m e :
  bounded prec emax m e = true ->
  binary_round_aux prec emax s (Zpos m) e loc_Exact = S754_finite s m e.
Proof.
  intros [Hc He]%andb_prop. apply Z.eqb_eq in Hc. unfold binary_round_aux.
  rewrite shr_fexp_canonical by done. simpl. rewrite shr_fexp_canonical by done. simpl. by rewrite He.
Qed.

(** A number that fits a wider format keeps its value: its mantissa is shifted left. *)
Lemma binary_round_widen prec emax s m e p :
  fexp prec emax (Zpos (digits2_pos m) + e) = e - Zpos p -> e - Zpos p <= emax - prec ->
  binary_round prec emax s m e = S754_finite s (Pos.iter xO m p) (e - Zpos p).
Proof.
  intros Hf He. unfold binary_round, shl_align. rewrite Hf.
  replace (e - Z.pos p - e) with (Z.neg p) by lia. apply binary_round_aux_canonical.
  unfold bounded, canonical_mantissa. rewrite digits_shifted.
  replace (Zpos (digits2_pos m) + Zpos p + (e - Zpos p)) with (Zpos (digits2_pos m) + e) by lia.
  rewrite Hf, Z.eqb_refl. simpl. by apply Z.leb_le.
Qed.

(** The way back is exact. *)
Lemma binary_round_narrow prec emax s m e p :
  bounded prec emax m e = true ->
  binary_round prec emax s (Pos.iter xO m p) (e - Zpos p) = S754_finite s m e.
Proof.
  intros Hb. pose proof Hb as [Hc He]%andb_prop. apply Z.eqb_eq in Hc.
  assert (E : Zpos (digits2_pos (Pos.iter xO m p)) + (e - Zpos p) = Zpos (digits2_pos m) + e)
    by (rewrite digits_shifted; lia).
  unfold binary_round. rewrite E, Hc. unfold shl_align. replace (e - (e - Zpos p)) with (Zpos p) by lia.
  unfold binary_round_aux, shr_fexp. simpl Zdigits2. rewrite E, Hc.
  replace (e - (e - Zpos p)) with (Zpos p) by lia. simpl shr. rewrite shr_shifted.
  replace (e - Z.pos p + Z.pos p) with e by lia. simpl.
  rewrite Hc, Z.sub_diag. simpl. by rewrite He.
Qed.

(** A [float] survives being carried as a [double]. *)
Lemma float_of_double_of_float x : valid_binary 24 128 x = true -> float_of_double (double_of_float x) = x.
Proof.
  destruct x as [| | |s m e]; simpl; try done. intros Hb.
  pose proof Hb as [Hc He]%andb_prop. apply Z.eqb_eq in Hc. apply Z.leb_le in He.
  assert (Hw : forall prec emax s m e, binary_normalize prec emax (if s : bool then Zneg m else Zpos m) e s =
    binary_round prec emax s m e) by (by intros ? ? []).
  unfold double_of_float, float_of_double, renormalize. rewrite Hw.
  set (k := e - fexp 53 1024 (Zpos (digits2_pos m) + e)).
  assert (0 < k) by (unfold k, fexp, emin in *; lia).
  destruct k as [|p|p] eqn:Ek; try lia. unfold k in Ek.
  rewrite (binary_round_widen 53 1024 s m e p) by lia. by rewrite Hw, binary_round_narrow.
Qed.
