(* ===== verification/Geometry.v ===== *)
(** Positions, updates and space vehicles: the values the service
    passes around.  Models [wgs84/coordinate.h], [wgs84/latitude.h],
    [wgs84/longitude.h], [position.h/.cpp], [update.h] and [space_vehicle.h].  A quantity is its [double]; [boost::optional] is [option]
    and its comparison operators come from an interface that states what their
    documentation promises. *)
From Stdlib Require Import ZArith Lia SpecFloat Sorted.
From stdpp Require Import base gmap strings list fin_maps.
From S2P Require Import Prelude Floats.
Local Open Scope Z_scope.
#[local] Set Warnings "-clear-no-such-hyp".

(** [boost::optional]'s comparison operators, on optional quantities. *)
Class BoostOptional : Type := {
  opt_eq : option double -> option double -> bool;
  opt_lt : option double -> option double -> bool;
  opt_le : option double -> option double -> bool;
  opt_eq_some : forall x y, opt_eq (Some x) (Some y) = deq x y;
  opt_eq_none : opt_eq None None = true;
  opt_eq_mixed : forall x, opt_eq (Some x) None = false /\ opt_eq None (Some x) = false;
  opt_lt_some : forall x y, opt_lt (Some x) (Some y) = dlt x y;
  opt_le_some : forall x y, opt_le (Some x) (Some y) = negb (dlt y x)
}.

(** The reading of the documentation used to instantiate the interface. *)
#[export] Instance documented_optional : BoostOptional.
Proof.
  refine {|
    opt_eq x y := match x, y with
                  | Some a, Some b => deq a b | None, None => true | _, _ => false end;
    opt_lt x y := match x, y with
                  | _, None => false | None, Some _ => true | Some a, Some b => dlt a b end;
    opt_le x y := negb (match y, x with
                  | _, None => false | None, Some _ => true | Some a, Some b => dlt a b end)
  |}; auto.
Defined.

(** * wgs84 coordinates *)
Module Wgs84.

Definition latitude_min : double := d_of_Z (-90).
Definition latitude_max : double := d_of_Z 90.
Definition longitude_min : double := d_of_Z (-180).
Definition longitude_max : double := d_of_Z 180.

(** [CoordinateTraits<Latitude>::check_and_throw_if_invalid] *)
Definition check_latitude (c : double) : res unit :=
  if dlt c latitude_min then Throw (out_of_range "Latitude(coordinate.value() < min())")
  else if dlt latitude_max c then Throw (out_of_range "Latitude(coordinate.value() > max())")
  else Ok tt.

Definition check_longitude (c : double) : res unit :=
  if dlt c longitude_min then Throw (out_of_range "Longitude(coordinate.value() < min())")
  else if dlt longitude_max c then Throw (out_of_range "Longitude(coordinate.value() > max())")
  else Ok tt.

(** [CoordinateTraits<Altitude>::check_and_throw_if_invalid] *)
Definition check_altitude (c : double) : res unit := Ok tt.

(** [Coordinate(const Quantity&)], for the traits of the instance. *)
Definition Coordinate (check : double -> res unit) (value : double) : res double :=
  match check value with
  | Ok _ => Ok value
  | Throw e => Throw e
  end.
Definition Latitude : double -> res double := Coordinate check_latitude.
Definition Longitude : double -> res double := Coordinate check_longitude.
Definition Altitude : double -> res double := Coordinate check_altitude.

(** [operator-(lhs, rhs)]: the difference is itself a coordinate of the tag, and
    it is [rhs.value - lhs.value]. *)
Definition minus (check : double -> res unit) (lhs rhs : double) : res double :=
  Coordinate check (dsub rhs lhs).

Definition coordinate_eq (lhs rhs : double) : bool := deq lhs rhs.

Lemma Latitude_ok c : Latitude c = Ok c <-> dlt c latitude_min = false /\ dlt latitude_max c = false.
Proof.
  unfold Latitude, Coordinate, check_latitude.
  destruct (dlt c latitude_min), (dlt latitude_max c); split; try done; by intros [? ?].
Qed.

Lemma Longitude_ok c :
  Longitude c = Ok c <-> dlt c longitude_min = false /\ dlt longitude_max c = false.
Proof.
  unfold Longitude, Coordinate, check_longitude.
  destruct (dlt c longitude_min), (dlt longitude_max c); split; try done; by intros [? ?].
Qed.

End Wgs84.

(** * Positions *)

Record Position : Type := MkPosition {
  latitude : double;
  longitude : double;
  altitude : option double;
  horizontal : option double;   (* accuracy.horizontal *)
  vertical : option double      (* accuracy.vertical *)
}.

#[export] Instance Position_eq_dec : EqDecision Position.
Proof. solve_decision. Defined.

Module Pos.

(** [Position()]: the member initialisers. *)
Definition default_position : Position := MkPosition (S754_zero false) (S754_zero false) None None None.

(** [Position(lat, lon)], [Position(lat, lon, alt)] and the two constructors that
    add accuracies. *)
Definition of_lat_lon (lat lon : double) : Position := MkPosition lat lon None None None.
Definition of_lat_lon_alt (lat lon alt : double) : Position :=
  MkPosition lat lon (Some alt) None None.
Definition of_lat_lon_alt_hor (lat lon alt hor_acc : double) : Position :=
  let p := of_lat_lon_alt lat lon alt in
  MkPosition (latitude p) (longitude p) (altitude p) (Some hor_acc) (vertical p).
Definition of_lat_lon_alt_hor_ver (lat lon alt hor_acc ver_acc : double) : Position :=
  let p := of_lat_lon_alt_hor lat lon alt hor_acc in
  MkPosition (latitude p) (longitude p) (altitude p) (horizontal p) (Some ver_acc).

Section Equality.
Context `{BoostOptional}.

(** [Position::operator==] *)
Definition position_eq (lhs rhs : Position) : bool :=
  deq (latitude lhs) (latitude rhs) &&
  deq (longitude lhs) (longitude rhs) &&
  opt_eq (altitude lhs) (altitude rhs) &&
  opt_eq (horizontal lhs) (horizontal rhs) &&
  opt_eq (vertical lhs) (vertical rhs).

(** [Position::operator!=] *)
Definition position_neq (lhs rhs : Position) : bool := negb (position_eq lhs rhs).
End Equality.

(** [haversine_distance]: the trigonometry is a parameter. *)
Section Haversine.
Variables (pow : double -> Z -> double) (usin ucos sqrt : double -> double)
          (atan2 : double -> double -> double)
          (dadd dmul ddiv : double -> double -> double) (radius_of_earth : double).

Definition haversine_distance (p1 p2 : Position) : res double :=
  dLat ← Wgs84.minus Wgs84.check_latitude (latitude p2) (latitude p1);
  dLon ← Wgs84.minus Wgs84.check_longitude (longitude p2) (longitude p1);
  let a := dadd (pow (usin (ddiv dLat (d_of_Z 2))) 2)
                (dmul (dmul (pow (usin (ddiv dLon (d_of_Z 2))) 2) (ucos (latitude p1)))
                      (ucos (latitude p2))) in
  let c := dmul (d_of_Z 2) (atan2 (sqrt a) (sqrt (dsub (d_of_Z 1) a))) in
  Ok (dmul radius_of_earth c).

(** The distance is there exactly when both differences are coordinates themselves. *)
Lemma haversine_domain p1 p2 :
  is_ok (haversine_distance p1 p2) =
  is_ok (Wgs84.Latitude (dsub (latitude p1) (latitude p2))) &&
  is_ok (Wgs84.Longitude (dsub (longitude p1) (longitude p2))).
Proof.
  unfold haversine_distance, Wgs84.minus, Wgs84.Latitude, Wgs84.Longitude, Wgs84.Coordinate.
  destruct (Wgs84.check_latitude _); [|done]. cbn [mbind res_bind]. by destruct (Wgs84.check_longitude _).
Qed.

(** Two points two degrees apart have no distance if the antimeridian is between them, and
    a point in each hemisphere has none if they are more than ninety degrees apart. *)
Lemma haversine_crosses_no_antimeridian :
  let fiji := Pos.of_lat_lon (d_of_Z (-17)) (d_of_Z 179) in
  let taveuni := Pos.of_lat_lon (d_of_Z (-17)) (d_of_Z (-179)) in
  let oslo := Pos.of_lat_lon (d_of_Z 60) (d_of_Z 11) in
  let cape_town := Pos.of_lat_lon (d_of_Z (-34)) (d_of_Z 18) in
  Wgs84.Longitude (longitude fiji) = Ok (longitude fiji) /\
  Wgs84.Longitude (longitude taveuni) = Ok (longitude taveuni) /\
  haversine_distance fiji taveuni = Throw (out_of_range "Longitude(coordinate.value() > max())") /\
  haversine_distance oslo cape_town = Throw (out_of_range "Latitude(coordinate.value() > max())").
Proof. by vm_compute. Qed.
End Haversine.

Lemma position_eq_refl `{BoostOptional} p :
  isnan (latitude p) = false -> isnan (longitude p) = false ->
  (forall x, altitude p = Some x \/ horizontal p = Some x \/ vertical p = Some x -> isnan x = false) ->
  position_eq p p = true.
Proof.
  intros H1 H2 H3. unfold position_eq. rewrite !deq_refl by done.
  assert (forall o, (forall x, o = Some x -> isnan x = false) -> opt_eq o o = true) as Ho.
  { intros [x|] Hx; [rewrite opt_eq_some; auto with ls | apply opt_eq_none]. }
  rewrite !Ho by (intros; apply H3; tauto). done.
Qed.

End Pos.

(** * Time-stamped updates *)

(** [when] is the count of nanoseconds of the time stamp. *)
Record Update (T : Type) : Type := MkUpdate { value : T; when_ : Z }.
Arguments MkUpdate {T} value when_.
Arguments value {T} u : rename.
Arguments when_ {T} u : rename.

Definition Velocity : Type := double.
Definition Heading : Type := double.

(** [Update::operator==], for the equality of the carried type. *)
Definition update_eq {T} (teq : T -> T -> bool) (lhs rhs : Update T) : bool :=
  teq (value lhs) (value rhs) && (when_ lhs =? when_ rhs).
Definition update_neq {T} (teq : T -> T -> bool) (lhs rhs : Update T) : bool :=
  negb (teq (value lhs) (value rhs) && (when_ lhs =? when_ rhs)).

(** * Space vehicles *)
Module SV.

Inductive Type_ : Set :=
  unknown | beidou | galileo | glonass | gps | compass | irnss | qzss.

#[export] Instance Type_eq_dec : EqDecision Type_.
Proof. solve_decision. Defined.

(** The value of the enumerator. *)
Definition type_index (t : Type_) : Z :=
  match t with
  | unknown => 0 | beidou => 1 | galileo => 2 | glonass => 3
  | gps => 4 | compass => 5 | irnss => 6 | qzss => 7
  end.

Record Key : Set := MkKey { type : Type_; id : Z }.

#[export] Instance Key_eq_dec : EqDecision Key.
Proof. solve_decision. Defined.

(** [SpaceVehicle::Key::operator==] and [operator<]. *)
Definition key_eq (l r : Key) : bool :=
  (type_index (type l) =? type_index (type r)) && (id l =? id r).
Definition key_lt (l r : Key) : bool :=
  if negb (type_index (type l) =? type_index (type r))
  then type_index (type l) <? type_index (type r)
  else id l <? id r.

Record SpaceVehicle : Type := MkSV {
  key : Key;
  snr : float;
  has_almanac_data : bool;
  has_ephimeris_data : bool;
  used_in_fix : bool;
  azimuth : double;
  elevation : double
}.

#[export] Instance SpaceVehicle_eq_dec : EqDecision SpaceVehicle.
Proof. solve_decision. Defined.

(** [units::roughly_equals] *)
Definition roughly_equals (l r : double) : bool := dle (fabs (dsub l r)) double_epsilon.

(** [SpaceVehicle::operator==] and [operator<]: a vehicle is ordered by its key. *)
Definition sv_eq (l r : SpaceVehicle) : bool :=
  key_eq (key l) (key r) &&
  Bool.eqb (has_almanac_data l) (has_almanac_data r) &&
  Bool.eqb (has_ephimeris_data l) (has_ephimeris_data r) &&
  Bool.eqb (used_in_fix l) (used_in_fix r) &&
  roughly_equals (azimuth l) (azimuth r) &&
  roughly_equals (elevation l) (elevation r).
Definition sv_lt (l r : SpaceVehicle) : bool := key_lt (key l) (key r).

Lemma type_index_inj t u : type_index t = type_index u -> t = u.
Proof. by destruct t, u. Qed.

Lemma key_lt_irrefl k : key_lt k k = false.
Proof. unfold key_lt. rewrite Z.eqb_refl. simpl. apply Z.ltb_irrefl. Qed.

Lemma key_lt_trans a b c : key_lt a b = true -> key_lt b c = true -> key_lt a c = true.
Proof.
  unfold key_lt. repeat case_bool; intros; zbool; rewrite ?negb_true_iff, ?negb_false_iff in *; zbool; try lia;
    apply Z.ltb_lt; lia.
Qed.

Lemma key_lt_total a b : key_lt a b = true \/ a = b \/ key_lt b a = true.
Proof.
  destruct a as [t i], b as [u j]. unfold key_lt; simpl.
  destruct (Z.eqb_spec (type_index t) (type_index u)) as [E|E]; simpl.
  - rewrite <- E, Z.eqb_refl. simpl. apply type_index_inj in E as ->.
    rewrite !Z.ltb_lt. destruct (Z.lt_total i j) as [|[->|]]; auto.
  - destruct (Z.eqb_spec (type_index u) (type_index t)); [lia|]. simpl. rewrite !Z.ltb_lt. lia.
Qed.

(** [std::map<SpaceVehicle::Key, SpaceVehicle>]: an association list ascending
    in the key; [insert_or_assign] is [dest[k] = v], [insert] keeps what is there. *)
Fixpoint insert_or_assign (k : Key) (v : SpaceVehicle) (m : list (Key * SpaceVehicle))
  : list (Key * SpaceVehicle) :=
  match m with
  | [] => [(k, v)]
  | (k', v') :: m' =>
      if key_lt k k' then (k, v) :: m
      else if key_lt k' k then (k', v') :: insert_or_assign k v m'
      else (k, v) :: m'
  end.

Fixpoint find (k : Key) (m : list (Key * SpaceVehicle)) : option SpaceVehicle :=
  match m with
  | [] => None
  | (k', v') :: m' => if key_lt k' k then find k m' else if key_lt k k' then None else Some v'
  end.

Definition insert (k : Key) (v : SpaceVehicle) (m : list (Key * SpaceVehicle))
  : list (Key * SpaceVehicle) :=
  match find k m with Some _ => m | None => insert_or_assign k v m end.

(** [std::set<SpaceVehicle>::insert]: an element with an equivalent key stays. *)
Fixpoint set_insert (sv : SpaceVehicle) (s : list SpaceVehicle) : list SpaceVehicle :=
  match s with
  | [] => [sv]
  | x :: s' => if sv_lt sv x then sv :: s else if sv_lt x sv then x :: set_insert sv s' else s
  end.

(** Ascending in the key. *)
Fixpoint ascending (m : list (Key * SpaceVehicle)) : Prop :=
  match m with
  | [] => True
  | (k, _) :: m' => Forall (fun p => key_lt k p.1 = true) m' /\ ascending m'
  end.

Lemma insert_or_assign_keys k v m p :
  In p (insert_or_assign k v m) -> p = (k, v) \/ In p m.
Proof.
  induction m as [|[k' v'] m IH]; simpl; [naive_solver|].
  case_bool; simpl; [naive_solver|]. case_bool; simpl; naive_solver.
Qed.

Lemma insert_or_assign_ascending k v m : ascending m -> ascending (insert_or_assign k v m).
Proof.
  induction m as [|[k' v'] m IH]; simpl; [by auto|]. intros [Hf Ha].
  destruct (key_lt k k') eqn:E; simpl.
  - split; [|done]. constructor; [done|]. eapply Forall_impl; [exact Hf|].
    intros p Hp. by eapply key_lt_trans.
  - destruct (key_lt k' k) eqn:E'; simpl.
    + split; [|auto]. apply List.Forall_forall. intros p [->|Hp]%insert_or_assign_keys; [done|].
      rewrite List.Forall_forall in Hf. auto.
    + destruct (key_lt_total k k') as [|[->|]]; [congruence| |congruence]. done.
Qed.

Lemma find_Forall_lt k m : Forall (fun p => key_lt k p.1 = true) m -> find k m = None.
Proof.
  destruct m as [|[k' v'] m]; [done|]. intros H. apply Forall_cons in H as [H _]; simpl in *.
  rewrite H. destruct (key_lt k' k) eqn:E; [|done].
  exfalso. pose proof (key_lt_trans _ _ _ H E) as A. rewrite key_lt_irrefl in A. done.
Qed.

Lemma find_insert_or_assign_eq k v m : ascending m -> find k (insert_or_assign k v m) = Some v.
Proof.
  induction m as [|[k' v'] m IH]; simpl; [by rewrite key_lt_irrefl|]. intros [Hf Ha].
  destruct (key_lt k k') eqn:E; simpl; [by rewrite key_lt_irrefl|].
  destruct (key_lt k' k) eqn:E'; simpl; [rewrite E'; auto|]. by rewrite key_lt_irrefl.
Qed.

Lemma find_insert_or_assign_ne k k1 v m :
  ascending m -> k <> k1 -> find k1 (insert_or_assign k v m) = find k1 m.
Proof.
  intros Ha Hne. induction m as [|[k' v'] m IH]; simpl.
  - destruct (key_lt_total k k1) as [E|[E|E]]; [by rewrite E|done|]. rewrite E.
    by destruct (key_lt k k1).
  - destruct Ha as [Hf Ha]. destruct (key_lt k k') eqn:E; simpl.
    + destruct (key_lt k k1) eqn:E1; [done|].
      destruct (key_lt_total k k1) as [|[|E2]]; [congruence|done|]. rewrite E2.
      rewrite (key_lt_trans _ _ _ E2 E).
      destruct (key_lt k' k1) eqn:E3; [|done].
      exfalso. pose proof (key_lt_trans _ _ _ E E3). congruence.
    + destruct (key_lt k' k) eqn:E'; simpl; [by rewrite IH|].
      destruct (key_lt_total k k') as [|[->|]]; [congruence| |congruence].
      destruct (key_lt_total k' k1) as [E1|[|E1]]; [by rewrite E1|done|]. rewrite E1.
      by destruct (key_lt k' k1).
Qed.

(** Inserting behind the last key. *)
Lemma insert_last k v m : Forall (fun p => key_lt p.1 k = true) m -> insert k v m = m ++ [(k, v)].
Proof.
  intros Hm. unfold insert. enough (find k m = None /\ insert_or_assign k v m = m ++ [(k, v)]) as [-> ->] by done.
  induction Hm as [|[k' v'] m Hk _ [IH1 IH2]]; simpl in *; [done|]. rewrite Hk, IH1, IH2.
  destruct (key_lt k k') eqn:E; [|done].
  pose proof (key_lt_trans _ _ _ E Hk) as C. by rewrite key_lt_irrefl in C.
Qed.

Lemma ascending_before m1 k v m2 :
  ascending (m1 ++ (k, v) :: m2) -> Forall (fun p => key_lt p.1 k = true) m1.
Proof.
  induction m1 as [|[k' v'] m1 IH]; [by intros|]. simpl. intros [Hf Ha]. constructor; [|by apply IH].
  rewrite Forall_forall in Hf. apply (Hf (k, v)). set_solver.
Qed.

(** The elements of a [std::set<SpaceVehicle>] in its order. *)
Abbreviation set_ascending := (StronglySorted (fun a b => sv_lt a b = true)).

Lemma set_insert_elem sv s v :
  set_ascending s ->
  v ∈ set_insert sv s <-> v ∈ s \/ (v = sv /\ forall x, x ∈ s -> key x <> key sv).
Proof.
  induction s as [|x s IH]; intros Hs; simpl.
  - rewrite list_elem_of_singleton. split; [intros ->; right; split; [done|]; by intros x Hx%not_elem_of_nil|].
    intros [Hv|[-> _]]; [by apply not_elem_of_nil in Hv|done].
  - inversion Hs as [|? ? Hs' Hf]; subst. specialize (IH Hs'). rewrite Forall_forall in Hf.
    assert (Hlt : forall a b, sv_lt a b = true -> key a <> key b).
    { intros a b Hab Ek. unfold sv_lt in Hab. by rewrite Ek, key_lt_irrefl in Hab. }
    destruct (sv_lt sv x) eqn:E; [|destruct (sv_lt x sv) eqn:E'].
    + rewrite (elem_of_cons (x :: s)). split; [|naive_solver]. intros [->|Hv]; [right; split; [done|]|by left].
      intros y [->|Hy]%elem_of_cons; [by intros Hk; apply (Hlt sv x)|].
      intros Hk. apply (Hlt sv y); [by eapply key_lt_trans, Hf|done].
    + rewrite !elem_of_cons, IH. split.
      * intros [->|[Hv|[-> Hn]]]; [by left; left|by left; right|]. right. split; [done|].
        intros y [->|Hy]%elem_of_cons; [by apply Hlt|by apply Hn].
      * intros [[->|Hv]|[-> Hn]]; [by left|by right; left|]. right; right. split; [done|].
        intros y Hy. apply Hn. by apply elem_of_cons; right.
    + split; [by left|]. intros [Hv|[-> Hn]]; [done|]. exfalso.
      apply (Hn x); [apply elem_of_cons; by left|]. unfold sv_lt in *.
      destruct (key_lt_total (key sv) (key x)) as [|[|]]; congruence.
Qed.

Lemma set_insert_ascending sv s : set_ascending s -> set_ascending (set_insert sv s).
Proof.
  induction s as [|x s IH]; intros Hs; simpl; [by repeat constructor|].
  inversion Hs as [|? ? Hs' Hf]; subst. destruct (sv_lt sv x) eqn:E; [|destruct (sv_lt x sv) eqn:E'; [|done]].
  - constructor; [done|]. constructor; [done|]. eapply Forall_impl; [exact Hf|].
    intros y Hy. by eapply key_lt_trans.
  - constructor; [auto|]. apply Forall_forall. intros y Hy%set_insert_elem; [|done].
    rewrite Forall_forall in Hf. destruct Hy as [Hy|[-> _]]; auto.
Qed.

End SV.
