(* ===== verification/Criteria.v ===== *)
(** The criteria of a client session ([criteria.h], [criteria.cpp]): what a
    client requires, how accurate it must be, how two criteria are merged
    ([operator+]) and the check [satisfies].  [meets] is the specification: the
    relation the header's comments describe.  Merging is shown to be the greatest
    lower bound for it; [satisfies] is shown not to decide it. *)
From Stdlib Require Import ZArith Lia SpecFloat.
From stdpp Require Import base gmap strings list.
From S2P Require Import Prelude Floats Geometry.
Local Open Scope Z_scope.

Module Criteria.

Record Requires : Type := MkRequires {
  position : bool;
  altitude : bool;
  velocity : bool;
  heading : bool
}.

Record Accuracy : Type := MkAccuracy {
  horizontal : double;
  vertical : option double;
  acc_velocity : option double;
  acc_heading : option double
}.

Record Criteria : Type := MkCriteria { requires : Requires; accuracy : Accuracy }.

#[export] Instance Requires_eq_dec : EqDecision Requires.
Proof. solve_decision. Defined.
#[export] Instance Accuracy_eq_dec : EqDecision Accuracy.
Proof. solve_decision. Defined.
#[export] Instance Criteria_eq_dec : EqDecision Criteria.
Proof. solve_decision. Defined.

(** [Criteria{}]: the member initialisers. *)
Definition default : Criteria :=
  MkCriteria (MkRequires true false false false) (MkAccuracy (d_of_Z 3000) None None None).

Section WithOptional.
Context `{BoostOptional}.

(** [Criteria::satisfies], statement by statement: [result] starts as [false]. *)
Definition satisfies (this rhs : Criteria) : bool :=
  let result := false in
  let result := if position (requires rhs) then result && position (requires this) else result in
  let result := if altitude (requires rhs) then result && altitude (requires this) else result in
  let result := if heading (requires rhs) then result && heading (requires this) else result in
  let result := if velocity (requires rhs) then result && velocity (requires this) else result in
  let result := result && dle (horizontal (accuracy this)) (horizontal (accuracy rhs)) in
  let engaged (o : option double) := match o with Some _ => true | None => false end in
  let bound (get : Accuracy -> option double) (result : bool) :=
    if engaged (get (accuracy rhs))
    then result && (engaged (get (accuracy this)) &&
                    opt_le (get (accuracy this)) (get (accuracy rhs)))
    else result in
  let result := bound vertical result in
  let result := bound acc_heading result in
  let result := bound acc_velocity result in
  result.

(** The three identical blocks of [operator+] on an optional accuracy. *)
Definition merge_optional (result rhs : option double) : option double :=
  match result with
  | Some _ =>
      match rhs with
      | Some _ => if opt_lt rhs result then rhs else result
      | None => result
      end
  | None => rhs
  end.

(** [operator+(lhs, rhs)] *)
Definition plus (lhs rhs : Criteria) : Criteria :=
  let l := requires lhs in let r := requires rhs in
  let la := accuracy lhs in let ra := accuracy rhs in
  MkCriteria
    (MkRequires (position l || position r) (altitude l || altitude r)
                (velocity l || velocity r) (heading l || heading r))
    (MkAccuracy
       (if dlt (horizontal ra) (horizontal la) then horizontal ra else horizontal la)
       (merge_optional (vertical la) (vertical ra))
       (merge_optional (acc_velocity la) (acc_velocity ra))
       (merge_optional (acc_heading la) (acc_heading ra))).

End WithOptional.

(** * Specification *)

(** [meets_acc a b]: wherever [b] bounds an accuracy, [a] bounds it at least as
    tightly. *)
Definition meets_acc (a b : option double) : Prop :=
  forall y, b = Some y -> exists x, a = Some x /\ dle x y = true.

Record meets (c d : Criteria) : Prop := {
  meets_position : position (requires d) = true -> position (requires c) = true;
  meets_altitude : altitude (requires d) = true -> altitude (requires c) = true;
  meets_velocity : velocity (requires d) = true -> velocity (requires c) = true;
  meets_heading : heading (requires d) = true -> heading (requires c) = true;
  meets_horizontal : dle (horizontal (accuracy c)) (horizontal (accuracy d)) = true;
  meets_vertical : meets_acc (vertical (accuracy c)) (vertical (accuracy d));
  meets_acc_velocity : meets_acc (acc_velocity (accuracy c)) (acc_velocity (accuracy d));
  meets_acc_heading : meets_acc (acc_heading (accuracy c)) (acc_heading (accuracy d))
}.

Definition opt_not_nan (o : option double) : Prop := forall x, o = Some x -> isnan x = false.

(** No accuracy of the criteria is NaN. *)
Record numeric (c : Criteria) : Prop := {
  numeric_horizontal : isnan (horizontal (accuracy c)) = false;
  numeric_vertical : opt_not_nan (vertical (accuracy c));
  numeric_velocity : opt_not_nan (acc_velocity (accuracy c));
  numeric_heading : opt_not_nan (acc_heading (accuracy c))
}.

(** * Lemmas *)

Lemma meets_acc_refl o : opt_not_nan o -> meets_acc o o.
Proof. intros Hn y ->. exists y. auto with ls. Qed.

Lemma merge_optional_meets `{BoostOptional} a b :
  opt_not_nan a -> opt_not_nan b ->
  meets_acc (merge_optional a b) a /\ meets_acc (merge_optional a b) b.
Proof.
  intros Ha Hb. destruct a as [x|], b as [y|]; simpl.
  - rewrite opt_lt_some. specialize (Ha x eq_refl). specialize (Hb y eq_refl).
    destruct (dlt y x) eqn:E; split; intros z [= <-]; eexists; split; eauto with ls.
    by rewrite (dlt_dle_total x y Ha Hb), E.
  - split; [by apply meets_acc_refl|]. by intros z.
  - split; [by intros z|]. by apply meets_acc_refl.
  - split; by intros z.
Qed.

Lemma merge_optional_glb `{BoostOptional} a b c :
  meets_acc c a -> meets_acc c b -> meets_acc c (merge_optional a b).
Proof.
  intros Ha Hb. destruct a as [x|], b as [y|]; simpl; try done.
  rewrite opt_lt_some. by destruct (dlt y x).
Qed.

Lemma min_horizontal_le x y :
  isnan x = false -> isnan y = false ->
  let m := if dlt y x then y else x in dle m x = true /\ dle m y = true.
Proof.
  intros Hx Hy. destruct (dlt y x) eqn:E; simpl; split; auto with ls.
  by rewrite (dlt_dle_total x y Hx Hy), E.
Qed.

(** * Properties *)

Lemma plus_below_both `{BoostOptional} (l r : Criteria) :
  numeric l -> numeric r -> meets (plus l r) l /\ meets (plus l r) r.
Proof.
  intros [] [].
  destruct (min_horizontal_le (horizontal (accuracy l)) (horizontal (accuracy r))); [done..|].
  destruct (merge_optional_meets (vertical (accuracy l)) (vertical (accuracy r))); [done..|].
  destruct (merge_optional_meets (acc_velocity (accuracy l)) (acc_velocity (accuracy r))); [done..|].
  destruct (merge_optional_meets (acc_heading (accuracy l)) (acc_heading (accuracy r))); [done..|].
  split; constructor; simpl; auto; intros ->; auto using orb_true_r, orb_true_l.
Qed.

Lemma plus_above_others `{BoostOptional} (c l r : Criteria) :
  meets c l -> meets c r -> meets c (plus l r).
Proof.
  intros [] []. constructor; simpl; auto using merge_optional_glb;
    try (intros [?|?]%orb_true_iff; auto).
  by destruct (dlt (horizontal (accuracy r)) (horizontal (accuracy l))).
Qed.

(** C11: merging two criteria without NaN accuracies gives the greatest lower bound of the
    two: the merge meets both sides ([operator+] "merges lhs and rhs such that satisfying
    the new criteria satisfies lhs and rhs"), every requirement of either being required
    and every accuracy bounded at least as tightly, and it asks for nothing more: whatever
    meets both sides meets the merge. *)
Theorem plus_is_greatest_lower_bound `{BoostOptional} (l r : Criteria) :
  numeric l -> numeric r ->
  meets (plus l r) l /\ meets (plus l r) r /\
  forall c, meets c l -> meets c r -> meets c (plus l r).
Proof.
  intros Hl Hr. destruct (plus_below_both l r Hl Hr). split_and!; [done..|].
  intros c. apply plus_above_others.
Qed.

Definition sample_fine : Criteria :=
  MkCriteria (MkRequires true true false false)
    (MkAccuracy (d_of_Z 20) (Some (d_of_Z 5)) None None).

Lemma plus_is_greatest_lower_bound_witness :
  numeric default /\ numeric sample_fine /\
  meets (plus default sample_fine) default /\ meets (plus default sample_fine) sample_fine /\
  forall c, meets c default -> meets c sample_fine -> meets c (plus default sample_fine).
Proof.
  assert (numeric default) as Hd by (split; [reflexivity|intros x [=]..]).
  assert (numeric sample_fine) as Hs.
  { split; [reflexivity| |intros x [=]..]. intros x [= <-]. reflexivity. }
  split; [exact Hd|]. split; [exact Hs|]. exact (plus_is_greatest_lower_bound default sample_fine Hd Hs).
Defined.

(** [satisfies] answers [false] for every pair of criteria, also where one meets
    the other: its accumulator starts as [false] and is only ever and-ed. *)
Theorem satisfies_always_false `{BoostOptional} (this rhs : Criteria) :
  satisfies this rhs = false.
Proof.
  unfold satisfies. simpl. by repeat case_match.
Qed.

End Criteria.
