(* ===== verification/UpdatePolicy.v ===== *)
(** How an update is accepted as the new estimate: [update_policy.h],
    [time_based_update_policy.h/.cpp] (the engine's policy), [update_selector.h],
    [newer_update_selector.h] and [newer_or_more_accurate_update_selector.h] (the
    selectors of the fusion provider). *)
From Stdlib Require Import ZArith Lia SpecFloat.
From stdpp Require Import base gmap strings list.
From S2P Require Import Prelude Floats Geometry.
Local Open Scope Z_scope.
#[local] Set Warnings "-clear-no-such-hyp".

(** Nanoseconds in a second, and the conversion of minutes to nanoseconds, which are
    counted with 64 bits. *)
Definition ns_of_s (s : Z) : Z := s * 1000000000.
Definition ns_of_min (m : Z) : Z := wrap_s 64 (m * 60000000000).

Lemma ns_of_min_opp m : ns_of_min m <> - 2 ^ 63 -> ns_of_min (-1 * m) = - ns_of_min m.
Proof.
  unfold ns_of_min, wrap_s. replace (-1 * m * 60000000000) with (- (m * 60000000000)) by lia.
  generalize (m * 60000000000). intros z H. change (64 - 1) with 63 in *.
  pose proof (Z.div_mod (z + 2 ^ 63) (2 ^ 64) ltac:(lia)) as E1.
  pose proof (Z.mod_pos_bound (z + 2 ^ 63) (2 ^ 64) ltac:(lia)).
  pose proof (Z.div_mod (- z + 2 ^ 63) (2 ^ 64) ltac:(lia)) as E2.
  pose proof (Z.mod_pos_bound (- z + 2 ^ 63) (2 ^ 64) ltac:(lia)).
  generalize dependent ((z + 2 ^ 63) mod 2 ^ 64). generalize dependent ((- z + 2 ^ 63) mod 2 ^ 64).
  generalize ((z + 2 ^ 63) / 2 ^ 64) ((- z + 2 ^ 63) / 2 ^ 64). clear m. intros. lia.
Qed.
Lemma ns_of_min_exact m : 0 <= m < 150000000 -> ns_of_min m = m * 60000000000.
Proof. intros. unfold ns_of_min. apply wrap_s_small; lia. Qed.

Module TimeBased.

(** [UpdatePolicy::is_significantly_newer] / [is_significantly_older]: the
    difference of two time stamps is a 64-bit count. *)
Definition delta (last update : Z) : Z := wrap_s 64 (update - last).
Definition is_significantly_newer {T} (last update : Update T) (limit : Z) : bool :=
  ns_of_min limit <? delta (when_ last) (when_ update).
Definition is_significantly_older {T} (last update : Update T) (limit : Z) : bool :=
  delta (when_ last) (when_ update) <? ns_of_min (-1 * limit).

Record TimeBasedUpdatePolicy : Type := MkPolicy {
  last_position_update : Update Position;
  last_heading_update : Update Heading;
  last_velocity_update : Update Velocity;
  limit : Z   (* minutes *)
}.

(** [default_timeout()] *)
Definition default_timeout : Z := 2.

(** The constructor: the remembered updates are default constructed, so each is
    stamped with the time of construction. *)
Definition construct (mins now : Z) : TimeBasedUpdatePolicy :=
  MkPolicy (MkUpdate Pos.default_position now) (MkUpdate (S754_zero false) now)
           (MkUpdate (S754_zero false) now) mins.

(** [verify_update] for positions: the returned update and the policy after it. *)
Definition verify_position (this : TimeBasedUpdatePolicy) (update : Update Position)
  : Update Position * TimeBasedUpdatePolicy :=
  let last := last_position_update this in
  let use_new_update :=
    if is_significantly_newer last update (limit this) then true
    else if is_significantly_older last update (limit this) then false
    else match horizontal (value last) with
         | None => true
         | Some old_acc =>
             match horizontal (value update) with
             | Some new_acc => dle new_acc old_acc
             | None => false
             end
         end in
  if use_new_update
  then (update, MkPolicy update (last_heading_update this) (last_velocity_update this) (limit this))
  else (last, this).

(** [verify_update] for headings and velocities.  [uninitialized] is the value the
    local [use_new_update] happens to have where no branch assigns it. *)
Definition verify_heading (uninitialized : bool) (this : TimeBasedUpdatePolicy)
  (update : Update Heading) : Update Heading * TimeBasedUpdatePolicy :=
  let last := last_heading_update this in
  let use_new_update :=
    if is_significantly_newer last update (limit this) then true
    else if is_significantly_older last update (limit this) then false
    else uninitialized in
  if use_new_update
  then (update, MkPolicy (last_position_update this) update (last_velocity_update this) (limit this))
  else (last, this).

Definition verify_velocity (uninitialized : bool) (this : TimeBasedUpdatePolicy)
  (update : Update Velocity) : Update Velocity * TimeBasedUpdatePolicy :=
  let last := last_velocity_update this in
  let use_new_update :=
    if is_significantly_newer last update (limit this) then true
    else if is_significantly_older last update (limit this) then false
    else uninitialized in
  if use_new_update
  then (update, MkPolicy (last_position_update this) (last_heading_update this) update (limit this))
  else (last, this).

(** A sequence of position updates, as the engine feeds them. *)
Fixpoint verify_positions (this : TimeBasedUpdatePolicy) (us : list (Update Position))
  : TimeBasedUpdatePolicy :=
  match us with
  | [] => this
  | u :: us => verify_positions (verify_position this u).2 us
  end.

(** * Specification *)

(** A time stamp of the clock after its epoch. *)
Definition valid_time (t : Z) : Prop := 0 <= t < 2 ^ 63.
(** A limit whose nanosecond count is a 64-bit integer. *)
Definition valid_limit (l : Z) : Prop := 0 <= l < 150000000.

(** [at_least_as_accurate new old]: [old] claims no accuracy, or both do and the new
    circle is not larger. *)
Definition at_least_as_accurate (new old : Position) : Prop :=
  horizontal old = None \/
  exists a b, horizontal new = Some a /\ horizontal old = Some b /\ dle a b = true.

(** When a position update replaces the remembered one. *)
Definition accepts (this : TimeBasedUpdatePolicy) (u : Update Position) : Prop :=
  let last := last_position_update this in
  let window := ns_of_min (limit this) in
  when_ last + window < when_ u \/
  (when_ last - window <= when_ u <= when_ last + window /\
   at_least_as_accurate (value u) (value last)).

Lemma delta_exact a b : valid_time a -> valid_time b -> delta a b = b - a.
Proof. unfold valid_time, delta. intros. apply wrap_s_small; lia. Qed.

Lemma newer_iff {T} (last u : Update T) l :
  valid_time (when_ last) -> valid_time (when_ u) ->
  is_significantly_newer last u l = true <-> when_ last + ns_of_min l < when_ u.
Proof.
  intros. unfold is_significantly_newer. rewrite delta_exact by done. rewrite Z.ltb_lt. lia.
Qed.

Lemma older_iff {T} (last u : Update T) l :
  valid_time (when_ last) -> valid_time (when_ u) -> ns_of_min l <> - 2 ^ 63 ->
  is_significantly_older last u l = true <-> when_ u < when_ last - ns_of_min l.
Proof.
  intros. unfold is_significantly_older. rewrite delta_exact, ns_of_min_opp by done.
  rewrite Z.ltb_lt. lia.
Qed.

Lemma accuracy_branch new old :
  match horizontal old with
  | None => true
  | Some o => match horizontal new with Some n => dle n o | None => false end
  end = true <-> at_least_as_accurate new old.
Proof.
  unfold at_least_as_accurate.
  destruct (horizontal old) as [o|]; [|split; auto].
  destruct (horizontal new) as [n|]; split.
  - intros E. right. by exists n, o.
  - intros [E|(a & b & [= ->] & [= ->] & E)]; [discriminate E|done].
  - intros [=].
  - intros [E|(a & b & E & _)]; discriminate E.
Qed.

(** The branch the code takes is the acceptance predicate. *)
Lemma verify_position_cases this u :
  valid_time (when_ (last_position_update this)) -> valid_time (when_ u) -> 0 <= limit this ->
  (accepts this u /\ verify_position this u =
     (u, MkPolicy u (last_heading_update this) (last_velocity_update this) (limit this))) \/
  (~ accepts this u /\ verify_position this u = (last_position_update this, this)).
Proof.
  intros Hl Hu Hlim. set (last := last_position_update this).
  unfold verify_position. fold last.
  pose proof (newer_iff last u (limit this) Hl Hu) as HN.
  pose proof (older_iff last u (limit this) Hl Hu) as HO.
  pose proof (accuracy_branch (value u) (value last)) as HA.
  unfold accepts. fold last.
  destruct (is_significantly_newer last u (limit this)).
  { left. split; [left; by apply HN|done]. }
  assert (~ when_ last + ns_of_min (limit this) < when_ u) as HN' by (intros ?%HN; discriminate).
  assert (ns_of_min (limit this) <> - 2 ^ 63) as Hm by (fold last in Hl; unfold valid_time in *; lia).
  specialize (HO Hm). destruct (is_significantly_older last u (limit this)).
  { right. split; [|done]. assert (when_ u < when_ last - ns_of_min (limit this)) by (by apply HO).
    intros [?|[? _]]; lia. }
  assert (~ when_ u < when_ last - ns_of_min (limit this)) as HO' by (intros ?%HO; discriminate).
  destruct (match horizontal (value last) with None => true | _ => _ end).
  - left. split; [|done]. right. split; [lia|]. by apply HA.
  - right. split; [|done]. intros [?|[_ HA']]; [lia|]. apply HA in HA'. discriminate.
Qed.

(** C29: the position policy accepts exactly the updates that are significantly newer
    than the remembered one, or inside the window around it (the limit as a 64-bit
    count of nanoseconds) and at least as accurate; the update it returns is then the new one, otherwise the remembered
    one, and it is what the policy remembers afterwards. *)
Theorem verify_position_accepts (this : TimeBasedUpdatePolicy) (u : Update Position) :
  valid_time (when_ (last_position_update this)) -> valid_time (when_ u) -> 0 <= limit this ->
  let r := verify_position this u in
  last_position_update r.2 = r.1 /\
  (accepts this u -> r.1 = u) /\
  (~ accepts this u -> r.2 = this) /\
  last_heading_update r.2 = last_heading_update this /\
  last_velocity_update r.2 = last_velocity_update this /\ limit r.2 = limit this.
Proof.
  intros Hl Hu Hlim r. subst r.
  destruct (verify_position_cases this u Hl Hu Hlim) as [[A ->]|[A ->]]; simpl;
    split_and!; auto; tauto.
Qed.

Definition sample_update (acc : option double) (t : Z) : Update Position :=
  MkUpdate (MkPosition (d_of_Z 9) (d_of_Z 53) None acc None) t.

Lemma verify_position_accepts_witness :
  let this := construct default_timeout 1000 in
  let u := sample_update (Some (d_of_Z 10)) 2000 in
  valid_time (when_ (last_position_update this)) /\ valid_time (when_ u) /\
  (accepts this u -> (verify_position this u).1 = u).
Proof.
  assert (valid_time 1000) as H1 by (unfold valid_time; lia).
  assert (valid_time 2000) as H2 by (unfold valid_time; lia).
  split; [exact H1|]. split; [exact H2|].
  apply (verify_position_accepts (construct default_timeout 1000)
           (sample_update (Some (d_of_Z 10)) 2000) H1 H2).
  unfold default_timeout. simpl. lia.
Defined.

(** One step of the run invariant below. *)
Definition no_jump (this : TimeBasedUpdatePolicy) (us : list (Update Position)) : Prop :=
  forall u, In u us -> valid_time (when_ u).

(** The run invariant: the remembered accuracy does not get worse from [p] to [q]. *)
Definition accuracy_kept (p q : TimeBasedUpdatePolicy) : Prop :=
  forall b, horizontal (value (last_position_update p)) = Some b -> isnan b = false ->
  exists a, horizontal (value (last_position_update q)) = Some a /\ isnan a = false /\ dle a b = true.

Lemma dle_not_nan_l a b : dle a b = true -> isnan a = false.
Proof. intros (x & _ & H & _)%dle_rank. apply rank_not_nan. eauto. Qed.

Lemma accuracy_kept_step this u :
  valid_time (when_ (last_position_update this)) -> valid_time (when_ u) -> 0 <= limit this ->
  when_ u <= when_ (last_position_update this) + ns_of_min (limit this) ->
  accuracy_kept this (verify_position this u).2.
Proof.
  intros Hl Hu Hlim Hw b Hb Hn.
  destruct (verify_position_cases this u Hl Hu Hlim) as [[A ->]|[A ->]]; simpl.
  - destruct A as [?|[_ [?|(a & b' & Ha & Hb' & Hle)]]]; [lia|congruence|].
    exists a. assert (b' = b) as -> by congruence. eauto using dle_not_nan_l.
  - exists b. auto with ls.
Qed.

(** Every update of the run is at most the limit newer than what is remembered when
    it arrives. *)
Fixpoint within_window (this : TimeBasedUpdatePolicy) (us : list (Update Position)) : Prop :=
  match us with
  | [] => True
  | u :: us =>
      valid_time (when_ u) /\
      when_ u <= when_ (last_position_update this) + ns_of_min (limit this) /\
      within_window (verify_position this u).2 us
  end.

Lemma verify_position_valid this u :
  valid_time (when_ (last_position_update this)) -> valid_time (when_ u) -> 0 <= limit this ->
  valid_time (when_ (last_position_update (verify_position this u).2)) /\
  limit (verify_position this u).2 = limit this.
Proof.
  intros Hl Hu Hlim.
  destruct (verify_position_cases this u Hl Hu Hlim) as [[A ->]|[A ->]]; auto.
Qed.

(** over any run of updates none of which is significantly newer than what is
    remembered when it arrives, the accuracy of the remembered position never gets
    worse. *)
Theorem verify_positions_accuracy (us : list (Update Position)) (this : TimeBasedUpdatePolicy) :
  valid_time (when_ (last_position_update this)) -> 0 <= limit this -> within_window this us ->
  accuracy_kept this (verify_positions this us).
Proof.
  revert this. induction us as [|u us IH]; intros this Hl Hlim; simpl.
  { intros _ b Hb Hn. exists b. auto with ls. }
  intros (Hu & Hw & Hrun) b Hb Hn.
  destruct (accuracy_kept_step this u Hl Hu Hlim Hw b Hb Hn) as (a & Ha & Hna & Hab).
  destruct (verify_position_valid this u Hl Hu Hlim) as [Hl' Hlim'].
  destruct (IH _ Hl' ltac:(lia) Hrun a Ha Hna) as (c & Hc & Hnc & Hca).
  exists c. split_and!; [done..|]. by eapply dle_trans.
Qed.

Lemma verify_positions_accuracy_witness :
  let this := (verify_position (construct 2 1000) (sample_update (Some (d_of_Z 10)) 2000)).2 in
  let us := [sample_update (Some (d_of_Z 30)) 3000; sample_update (Some (d_of_Z 4)) 4000] in
  within_window this us /\ accuracy_kept this (verify_positions this us).
Proof.
  simpl.
  match goal with |- ?P /\ _ => assert P as HW end.
  { vm_compute. repeat split; intros [=]. }
  split; [exact HW|].
  apply (verify_positions_accuracy
           [sample_update (Some (d_of_Z 30)) 3000; sample_update (Some (d_of_Z 4)) 4000]
           (verify_position (construct 2 1000) (sample_update (Some (d_of_Z 10)) 2000)).2);
    [vm_compute; repeat split; intros [=]|vm_compute; intros [=]|exact HW].
Defined.

(** an update whose time stamp lies before the construction of the policy by
    more than the limit is answered with the default position, latitude 0 and
    longitude 0, which no provider reported. *)
Theorem verify_first_update_too_old (now mins : Z) (u : Update Position) :
  valid_time now -> valid_time (when_ u) -> valid_limit mins ->
  when_ u < now - ns_of_min mins ->
  verify_position (construct mins now) u = (MkUpdate Pos.default_position now, construct mins now).
Proof.
  intros Hn Hu Hm Hold.
  destruct (verify_position_cases (construct mins now) u Hn Hu (proj1 Hm)) as [[A _]|[_ ->]]; [|done].
  exfalso. unfold valid_limit in Hm. rewrite ns_of_min_exact in Hold by done.
  destruct A as [A|[[A _] _]]; simpl in A; rewrite ns_of_min_exact in A by done; lia.
Qed.

Lemma verify_first_update_too_old_witness :
  let now := 300000000000 in
  let u := sample_update (Some (d_of_Z 1)) 100000000000 in
  when_ u < now - ns_of_min default_timeout /\
  verify_position (construct default_timeout now) u =
    (MkUpdate Pos.default_position now, construct default_timeout now).
Proof.
  split; [reflexivity|].
  apply (verify_first_update_too_old 300000000000 default_timeout
           (sample_update (Some (d_of_Z 1)) 100000000000));
    [unfold valid_time; simpl; lia|unfold valid_time; simpl; lia|unfold valid_limit, default_timeout; lia|reflexivity].
Defined.

(** inside the window neither the heading nor the velocity branch assigns the
    local that decides: the answer is whatever that uninitialised variable holds. *)
Theorem verify_heading_velocity_undetermined (b : bool) (this : TimeBasedUpdatePolicy)
    (h : Update Heading) (v : Update Velocity) :
  valid_time (when_ (last_heading_update this)) -> valid_time (when_ h) ->
  valid_time (when_ (last_velocity_update this)) -> valid_time (when_ v) ->
  let w := ns_of_min (limit this) in
  when_ (last_heading_update this) - w <= when_ h <= when_ (last_heading_update this) + w ->
  when_ (last_velocity_update this) - w <= when_ v <= when_ (last_velocity_update this) + w ->
  (verify_heading b this h).1 = (if b then h else last_heading_update this) /\
  (verify_velocity b this v).1 = (if b then v else last_velocity_update this).
Proof.
  intros H1 H2 H3 H4 w Hh Hv. unfold verify_heading, verify_velocity.
  assert (w <> - 2 ^ 63) as Hw by lia.
  assert (is_significantly_newer (last_heading_update this) h (limit this) = false) as ->
    by (apply not_true_is_false; intros ?%newer_iff; [lia|done..]).
  assert (is_significantly_older (last_heading_update this) h (limit this) = false) as ->
    by (apply not_true_is_false; intros ?%older_iff; [lia|done..]).
  assert (is_significantly_newer (last_velocity_update this) v (limit this) = false) as ->
    by (apply not_true_is_false; intros ?%newer_iff; [lia|done..]).
  assert (is_significantly_older (last_velocity_update this) v (limit this) = false) as ->
    by (apply not_true_is_false; intros ?%older_iff; [lia|done..]).
  by destruct b.
Qed.

Lemma verify_heading_velocity_undetermined_witness :
  let this := construct 2 1000 in
  (verify_heading true this (MkUpdate (d_of_Z 90) 2000)).1 = MkUpdate (d_of_Z 90) 2000 /\
  (verify_heading false this (MkUpdate (d_of_Z 90) 2000)).1 = MkUpdate (S754_zero false) 1000.
Proof.
  split.
  - apply (verify_heading_velocity_undetermined true (construct 2 1000)
             (MkUpdate (d_of_Z 90) 2000) (MkUpdate (d_of_Z 3) 2000));
    by vm_compute.
  - apply (verify_heading_velocity_undetermined false (construct 2 1000)
             (MkUpdate (d_of_Z 90) 2000) (MkUpdate (d_of_Z 3) 2000));
    by vm_compute.
Defined.

End TimeBased.

(** * The selectors of the fusion provider *)
Module Selector.

(** [WithSource<T>]: a provider is identified by its address. *)
Record WithSource (T : Type) : Type := MkWithSource { source : nat; content : T }.
Arguments MkWithSource {T}.
Arguments source {T}.
Arguments content {T}.

Section WithOptional.
Context `{BoostOptional}.

(** [NewerUpdateSelector::select] *)
Definition select_newer (older newer : WithSource (Update Position)) := newer.

(** [NewerOrMoreAccurateUpdateSelector::select] *)
Definition cutoff : Z := ns_of_s 11.
Definition select_newer_or_more_accurate (older newer : WithSource (Update Position))
  : WithSource (Update Position) :=
  if Nat.eqb (source newer) (source older) then newer
  else if when_ (content older) + cutoff <? when_ (content newer) then newer
  else match horizontal (value (content older)) with
       | None => newer
       | Some _ =>
           match horizontal (value (content newer)) with
           | None => older
           | Some _ =>
               if opt_lt (horizontal (value (content newer))) (horizontal (value (content older)))
               then newer else older
           end
       end.
End WithOptional.

(** the fusion selector keeps the older position exactly when the newer one comes
    from another source, within the cut-off of eleven seconds, and the older one
    has an accuracy that the newer one does not improve on. *)
Theorem select_keeps_older `{BoostOptional} (older newer : WithSource (Update Position)) :
  older <> newer ->
  select_newer_or_more_accurate older newer = older <->
  source newer <> source older /\
  when_ (content newer) <= when_ (content older) + 11000000000 /\
  exists a, horizontal (value (content older)) = Some a /\
    forall b, horizontal (value (content newer)) = Some b -> dlt b a = false.
Proof.
  intros Hne. unfold select_newer_or_more_accurate, cutoff, ns_of_s.
  destruct (Nat.eqb_spec (source newer) (source older)) as [Es|Es]; [naive_solver|].
  case_bool; zbool.
  { split; [congruence|]. lia. }
  destruct (horizontal (value (content older))) as [a|]; [|naive_solver].
  destruct (horizontal (value (content newer))) as [b|].
  - rewrite opt_lt_some. destruct (dlt b a) eqn:Eab; split; try congruence.
    + intros (_ & _ & a' & [= ->] & Hb). by rewrite (Hb b) in Eab.
    + intros _. split_and!; [done|lia|]. exists a. split; [done|]. by intros ? [= <-].
  - split; [|done]. intros _. split_and!; [done|lia|]. exists a. split; [done|]. by intros ? [=].
Qed.

Lemma select_keeps_older_witness :
  let older := MkWithSource 1%nat (TimeBased.sample_update (Some (d_of_Z 10)) 0) in
  let newer := MkWithSource 2%nat (TimeBased.sample_update (Some (d_of_Z 50)) 5000000000) in
  older <> newer /\ select_newer_or_more_accurate older newer = older.
Proof.
  assert (MkWithSource 1%nat (TimeBased.sample_update (Some (d_of_Z 10)) 0) <>
          MkWithSource 2%nat (TimeBased.sample_update (Some (d_of_Z 50)) 5000000000)) as Hne
    by (intros [=]).
  split; [exact Hne|].
  apply (select_keeps_older _ _ Hne). simpl. split; [lia|]. split; [lia|].
  eexists. split; [reflexivity|]. intros b [= <-]. reflexivity.
Defined.

End Selector.
