(* ===== verification/Provider.v ===== *)
(** The provider base class and its reference-counting controller
    ([provider.h], [provider.cpp]).  The controller is written over an arbitrary
    world [W]: its three counters are cells of [W] and the virtual calls on the
    provider are statements over [W], so the same definitions drive the stand-alone
    controller of this file and the providers inside the engine. *)
From Stdlib Require Import ZArith Lia SpecFloat.
From stdpp Require Import base gmap strings list.
From S2P Require Import Prelude Floats Geometry Criteria.
Local Open Scope Z_scope.
#[local] Set Warnings "-clear-no-such-hyp".

(** * Feature and requirement flags *)
Module Flags.

(** [Provider::Features] *)
Definition features_none : Z := 0.
Definition features_position : Z := Z.shiftl 1 0.
Definition features_velocity : Z := Z.shiftl 1 1.
Definition features_heading : Z := Z.shiftl 1 2.

(** [Provider::Requirements] *)
Definition requirements_none : Z := 0.
Definition satellites : Z := Z.shiftl 1 0.
Definition cell_network : Z := Z.shiftl 1 1.
Definition data_network : Z := Z.shiftl 1 2.
Definition monetary_spending : Z := Z.shiftl 1 3.

(** [operator|] and [operator&]: both sides are cast to [unsigned int]. *)
Definition flag_or (lhs rhs : Z) : Z := Z.lor (wrap_u 32 lhs) (wrap_u 32 rhs).
Definition flag_and (lhs rhs : Z) : Z := Z.land (wrap_u 32 lhs) (wrap_u 32 rhs).

(** [Provider::supports] and [Provider::requires], on the provider's own flags. *)
Definition supports (features f : Z) : bool := negb (flag_and features f =? features_none).
Definition requires (requirements r : Z) : bool :=
  negb (flag_and requirements r =? requirements_none).

End Flags.

(** * The controller *)
Module Controller.

(** The provider functions the controller calls, virtual and empty by default. *)
Record Instance (W : Type) : Type := MkInstance {
  i_start_position : M W unit;
  i_stop_position : M W unit;
  i_start_heading : M W unit;
  i_stop_heading : M W unit;
  i_start_velocity : M W unit;
  i_stop_velocity : M W unit
}.
Arguments MkInstance {W}.
Arguments i_start_position {W}.
Arguments i_stop_position {W}.
Arguments i_start_heading {W}.
Arguments i_stop_heading {W}.
Arguments i_start_velocity {W}.
Arguments i_stop_velocity {W}.

(** [Provider]'s own bodies. *)
Definition base_instance {W} : Instance W := MkInstance skip skip skip skip skip skip.

Record Controller (W : Type) : Type := MkController {
  instance : Instance W;
  position_updates_counter : Cell W Z;
  heading_updates_counter : Cell W Z;
  velocity_updates_counter : Cell W Z
}.
Arguments MkController {W}.
Arguments instance {W}.
Arguments position_updates_counter {W}.
Arguments heading_updates_counter {W}.
Arguments velocity_updates_counter {W}.

Definition our_magic_disabling_value : Z := -1.

(** [++counter] and [--counter] on a [std::atomic<int>]. *)
Definition increment {W} (c : Cell W Z) : M W Z :=
  n ← read c; write c (wrap_s 32 (n + 1));; mret (wrap_s 32 (n + 1)).
Definition decrement {W} (c : Cell W Z) : M W Z :=
  n ← read c; write c (wrap_s 32 (n - 1));; mret (wrap_s 32 (n - 1)).

(** The common shape of the start and stop functions. *)
Definition start_updates {W} (counter : Cell W Z) (start : M W unit) : M W unit :=
  n ← read counter;
  if n <? 0 then skip
  else n' ← increment counter; when (n' =? 1) start.

Definition stop_updates {W} (counter : Cell W Z) (stop : M W unit) : M W unit :=
  n ← read counter;
  if n <? 0 then skip
  else n' ← decrement counter; when (n' =? 0) stop.

Definition are_updates_running {W} (counter : Cell W Z) (w : W) : bool := 0 <? rd counter w.

Section Operations.
Context {W : Type} (c : Controller W).

Definition enable : M W unit :=
  write (position_updates_counter c) 0;;
  write (heading_updates_counter c) 0;;
  write (velocity_updates_counter c) 0.

Definition disable : M W unit :=
  p ← read (position_updates_counter c);
  when (0 <? p) (i_stop_position (instance c));;
  h ← read (heading_updates_counter c);
  when (0 <? h) (i_stop_heading (instance c));;
  v ← read (velocity_updates_counter c);
  when (0 <? v) (i_stop_velocity (instance c));;
  write (position_updates_counter c) our_magic_disabling_value;;
  write (heading_updates_counter c) our_magic_disabling_value;;
  write (velocity_updates_counter c) our_magic_disabling_value.

Definition start_position_updates : M W unit :=
  start_updates (position_updates_counter c) (i_start_position (instance c)).
Definition stop_position_updates : M W unit :=
  stop_updates (position_updates_counter c) (i_stop_position (instance c)).
Definition are_position_updates_running : W -> bool :=
  are_updates_running (position_updates_counter c).

Definition start_heading_updates : M W unit :=
  start_updates (heading_updates_counter c) (i_start_heading (instance c)).
Definition stop_heading_updates : M W unit :=
  stop_updates (heading_updates_counter c) (i_stop_heading (instance c)).
Definition are_heading_updates_running : W -> bool :=
  are_updates_running (heading_updates_counter c).

Definition start_velocity_updates : M W unit :=
  start_updates (velocity_updates_counter c) (i_start_velocity (instance c)).
Definition stop_velocity_updates : M W unit :=
  stop_updates (velocity_updates_counter c) (i_stop_velocity (instance c)).
Definition are_velocity_updates_running : W -> bool :=
  are_updates_running (velocity_updates_counter c).
End Operations.

(** ** The three counters as a value *)

Record Counters : Type := MkCounters { c_position : Z; c_heading : Z; c_velocity : Z }.

#[export] Instance Counters_eq_dec : EqDecision Counters.
Proof. solve_decision. Defined.

(** The constructor's initialisers. *)
Definition initial_counters : Counters := MkCounters 0 0 0.
Definition disabled_counters : Counters :=
  MkCounters our_magic_disabling_value our_magic_disabling_value our_magic_disabling_value.

Definition position_cell : Cell Counters Z :=
  MkCell c_position (fun z c => MkCounters z (c_heading c) (c_velocity c)).
Definition heading_cell : Cell Counters Z :=
  MkCell c_heading (fun z c => MkCounters (c_position c) z (c_velocity c)).
Definition velocity_cell : Cell Counters Z :=
  MkCell c_velocity (fun z c => MkCounters (c_position c) (c_heading c) z).

#[export] Instance position_cell_laws : CellLaws position_cell.
Proof. split; [done..|]. by intros []. Qed.
#[export] Instance heading_cell_laws : CellLaws heading_cell.
Proof. split; [done..|]. by intros []. Qed.
#[export] Instance velocity_cell_laws : CellLaws velocity_cell.
Proof. split; [done..|]. by intros []. Qed.

(** A cell inside a cell. *)
Definition focus {W A B} (outer : Cell W A) (inner : Cell A B) : Cell W B :=
  MkCell (fun w => rd inner (rd outer w))
         (fun b w => wr outer (wr inner b (rd outer w)) w).

#[export] Instance focus_laws {W A B} (outer : Cell W A) (inner : Cell A B) :
  CellLaws outer -> CellLaws inner -> CellLaws (focus outer inner).
Proof.
  intros Ho Hi. split; simpl; intros.
  - by rewrite rd_wr, rd_wr.
  - by rewrite !rd_wr, wr_wr, wr_wr.
  - by rewrite wr_rd, wr_rd.
Qed.

(** The controller of a provider whose counters are the cell [cs] of the world. *)
Definition controller_at {W} (cs : Cell W Counters) (i : Instance W) : Controller W :=
  MkController i (focus cs position_cell) (focus cs heading_cell) (focus cs velocity_cell).

(** ** A stand-alone controller that logs the calls on its provider *)

Inductive Kind : Set := Position | Heading | Velocity.
Inductive Call : Set := Start (k : Kind) | Stop (k : Kind).

#[export] Instance Kind_eq_dec : EqDecision Kind.
Proof. solve_decision. Defined.
#[export] Instance Call_eq_dec : EqDecision Call.
Proof. solve_decision. Defined.

Record Standalone : Type := MkStandalone { counters : Counters; log : list Call }.

Definition emit (c : Call) : M Standalone unit :=
  modify (fun w => MkStandalone (counters w) (log w ++ [c])).

Definition recorder : Instance Standalone :=
  MkInstance (emit (Start Position)) (emit (Stop Position)) (emit (Start Heading))
             (emit (Stop Heading)) (emit (Start Velocity)) (emit (Stop Velocity)).

Definition counters_cell : Cell Standalone Counters :=
  MkCell counters (fun cs w => MkStandalone cs (log w)).

Definition standalone : Controller Standalone := controller_at counters_cell recorder.

Definition counter_of (k : Kind) (cs : Counters) : Z :=
  match k with Position => c_position cs | Heading => c_heading cs | Velocity => c_velocity cs end.

Definition set_counter (k : Kind) (z : Z) (cs : Counters) : Counters :=
  match k with
  | Position => MkCounters z (c_heading cs) (c_velocity cs)
  | Heading => MkCounters (c_position cs) z (c_velocity cs)
  | Velocity => MkCounters (c_position cs) (c_heading cs) z
  end.

(** An observer's request on the controller: the same constructors as the calls. *)
Definition request {W} (c : Controller W) (r : Call) : M W unit :=
  match r with
  | Start Position => start_position_updates c
  | Stop Position => stop_position_updates c
  | Start Heading => start_heading_updates c
  | Stop Heading => stop_heading_updates c
  | Start Velocity => start_velocity_updates c
  | Stop Velocity => stop_velocity_updates c
  end.

(** The counter a stream is kept in. *)
Definition cell_for {W} (c : Controller W) (k : Kind) : Cell W Z :=
  match k with
  | Position => position_updates_counter c
  | Heading => heading_updates_counter c
  | Velocity => velocity_updates_counter c
  end.

Definition fresh : Standalone := MkStandalone initial_counters [].
Definition run (rs : list Call) (w : Standalone) : Standalone :=
  fold_left (fun w r => exec (request standalone r) w) rs w.

#[global] Arguments run : simpl never.

(** ** The specification: observers are counted, the provider sees the edges *)

Definition stream (r : Call) : Kind := match r with Start k | Stop k => k end.
Definition change (r : Call) : Z := match r with Start _ => 1 | Stop _ => -1 end.

(** The number of observers of [k] after the requests [rs]. *)
Fixpoint observers (k : Kind) (rs : list Call) : Z :=
  match rs with
  | [] => 0
  | r :: rs => (if decide (stream r = k) then change r else 0) + observers k rs
  end.

(** Each prefix of the requests has stopped no stream more often than it started
    it, and no count exceeds an [int]. *)
Definition well_bracketed (rs : list Call) : Prop :=
  forall k n, 0 <= observers k (take n rs) <= INT_MAX.

(** What the provider must see when the number of observers of [k] goes from [before]
    to [after]. *)
Definition edge (k : Kind) (before after : Z) : list Call :=
  match 0 <? before, 0 <? after with
  | false, true => [Start k]
  | true, false => [Stop k]
  | _, _ => []
  end.

(** The calls the provider must see over [rs], given the [counts] before them. *)
Fixpoint edges (counts : Kind -> Z) (rs : list Call) : list Call :=
  match rs with
  | [] => []
  | r :: rs =>
      let k := stream r in
      let n := counts k + change r in
      edge k (counts k) n ++
      edges (fun j => if decide (j = k) then n else counts j) rs
  end.

(** ** Lemmas *)

Lemma observers_app k rs rs' : observers k (rs ++ rs') = observers k rs + observers k rs'.
Proof. induction rs as [|r rs IH]; simpl; [done|]. rewrite IH. lia. Qed.

Lemma counter_set_eq k z cs : counter_of k (set_counter k z cs) = z.
Proof. by destruct k. Qed.
Lemma counter_set_ne k j z cs : k <> j -> counter_of j (set_counter k z cs) = counter_of j cs.
Proof. by destruct k, j. Qed.

(** A negative counter means that requests are ignored. *)
Lemma request_ignored {W} (c : Controller W) r w :
  rd (cell_for c (stream r)) w < 0 -> request c r w = (Ok tt, w).
Proof.
  intros Hn. destruct r as [[]|[]]; simpl in *;
    unfold start_position_updates, start_heading_updates, start_velocity_updates,
      stop_position_updates, stop_heading_updates, stop_velocity_updates, start_updates, stop_updates;
    unfold_m; by replace (_ <? 0) with true by lia.
Qed.

(** A controller keeps what its counters and its provider keep. *)
Section Keeps.
Context {W : Type} (P : W -> Prop).

Record keeps (c : Controller W) : Prop := {
  keeps_position : stable P (position_updates_counter c);
  keeps_heading : stable P (heading_updates_counter c);
  keeps_velocity : stable P (velocity_updates_counter c);
  keeps_start_position : preserves P (i_start_position (instance c));
  keeps_stop_position : preserves P (i_stop_position (instance c));
  keeps_start_heading : preserves P (i_start_heading (instance c));
  keeps_stop_heading : preserves P (i_stop_heading (instance c));
  keeps_start_velocity : preserves P (i_start_velocity (instance c));
  keeps_stop_velocity : preserves P (i_stop_velocity (instance c))
}.

Lemma preserves_increment (c : Cell W Z) : stable P c -> preserves P (increment c).
Proof. intros. unfold increment. auto 8 with ls. Qed.
Lemma preserves_decrement (c : Cell W Z) : stable P c -> preserves P (decrement c).
Proof. intros. unfold decrement. auto 8 with ls. Qed.

Lemma preserves_start (c : Cell W Z) start :
  stable P c -> preserves P start -> preserves P (start_updates c start).
Proof. intros. unfold start_updates. auto 9 using preserves_increment with ls. Qed.
Lemma preserves_stop (c : Cell W Z) stop :
  stable P c -> preserves P stop -> preserves P (stop_updates c stop).
Proof. intros. unfold stop_updates. auto 9 using preserves_decrement with ls. Qed.

Lemma preserves_request c r : keeps c -> preserves P (request c r).
Proof.
  intros []. destruct r as [[]|[]]; simpl; by (apply preserves_start || apply preserves_stop).
Qed.
Lemma preserves_enable (c : Controller W) :
  stable P (position_updates_counter c) -> stable P (heading_updates_counter c) ->
  stable P (velocity_updates_counter c) -> preserves P (enable c).
Proof. intros. unfold enable. auto 8 with ls. Qed.
Lemma preserves_disable c : keeps c -> preserves P (disable c).
Proof. intros []. unfold disable. auto 20 with ls. Qed.
End Keeps.

(** Nor does anything throw where the provider does not. *)
Section Obeys.
Context {W : Type} (P Q : W -> Prop).

Record obeys (c : Controller W) : Prop := {
  obeys_position : stable P (position_updates_counter c);
  obeys_heading : stable P (heading_updates_counter c);
  obeys_velocity : stable P (velocity_updates_counter c);
  obeys_start_position : leads P (i_start_position (instance c)) P;
  obeys_stop_position : leads P (i_stop_position (instance c)) P;
  obeys_start_heading : leads P (i_start_heading (instance c)) P;
  obeys_stop_heading : leads P (i_stop_heading (instance c)) P;
  obeys_start_velocity : leads P (i_start_velocity (instance c)) P;
  obeys_stop_velocity : leads P (i_stop_velocity (instance c)) P
}.

Lemma leads_increment (c : Cell W Z) : stable P c -> leads P (increment c) P.
Proof. intros Hc. unfold increment. leads_steps. auto with ls. Qed.
Lemma leads_decrement (c : Cell W Z) : stable P c -> leads P (decrement c) P.
Proof. intros Hc. unfold decrement. leads_steps. auto with ls. Qed.

Lemma leads_start (c : Cell W Z) start :
  stable P c -> leads P start P -> leads P (start_updates c start) P.
Proof.
  intros Hc Hs. unfold start_updates. leads_steps. apply leads_if; [apply leads_skip|].
  eapply leads_bind; [by apply leads_increment|]. intros n'. auto with ls.
Qed.
Lemma leads_stop (c : Cell W Z) stop :
  stable P c -> leads P stop P -> leads P (stop_updates c stop) P.
Proof.
  intros Hc Hs. unfold stop_updates. leads_steps. apply leads_if; [apply leads_skip|].
  eapply leads_bind; [by apply leads_decrement|]. intros n'. auto with ls.
Qed.

Lemma leads_request c r : obeys c -> leads P (request c r) P.
Proof. intros []. destruct r as [[]|[]]; simpl; by (apply leads_start || apply leads_stop). Qed.

(** All three counters at once. *)
Definition set_counters (c : Controller W) (z : Z) (w : W) : W :=
  wr (velocity_updates_counter c) z (wr (heading_updates_counter c) z (wr (position_updates_counter c) z w)).

Lemma leads_enable c : (forall w, P w -> Q (set_counters c 0 w)) -> leads P (enable c) Q.
Proof. intros HPQ w Hw. exists tt, (set_counters c 0 w). split; [done|by apply HPQ]. Qed.

Lemma leads_disable c :
  obeys c -> (forall w, P w -> Q (set_counters c our_magic_disabling_value w)) -> leads P (disable c) Q.
Proof.
  intros [] HPQ. unfold disable. do 6 (eapply leads_bind; [solve [auto with ls]|intros ?]).
  intros w Hw. exists tt, (set_counters c our_magic_disabling_value w). split; [reflexivity|by apply HPQ].
Qed.
End Obeys.

(** What a request does to a controller that is not disabled. *)
Lemma request_effect r w :
  0 <= counter_of (stream r) (counters w) ->
  INT_MIN <= counter_of (stream r) (counters w) + change r <= INT_MAX ->
  let k := stream r in
  let n := counter_of k (counters w) in
  exec (request standalone r) w =
  MkStandalone (set_counter k (n + change r) (counters w))
               (log w ++ match r with
                         | Start _ => if n + 1 =? 1 then [r] else []
                         | Stop _ => if n - 1 =? 0 then [r] else []
                         end).
Proof.
  destruct w as [[p h v] l]. intros Hn Hr.
  destruct r as [[]|[]]; simpl in *; unfold_m; unfold start_position_updates,
    stop_position_updates, start_heading_updates, stop_heading_updates, start_velocity_updates,
    stop_velocity_updates, start_updates, stop_updates, increment, decrement; unfold_m;
    repeat match goal with |- context [?x <? 0] => replace (x <? 0) with false by lia end;
    simpl; rewrite wrap_s32_small by lia; case_bool; simpl; by rewrite ?app_nil_r.
Qed.

(** A disabled stream ignores every request. *)
Lemma request_disabled r w :
  counter_of (stream r) (counters w) < 0 -> exec (request standalone r) w = w.
Proof.
  destruct w as [[p h v] l]. intros Hn.
  destruct r as [[]|[]]; simpl in *; unfold_m; unfold start_position_updates,
    stop_position_updates, start_heading_updates, stop_heading_updates, start_velocity_updates,
    stop_velocity_updates, start_updates, stop_updates; unfold_m;
    repeat match goal with |- context [?x <? 0] => replace (x <? 0) with true by lia end; done.
Qed.

Lemma edge_call r n :
  0 <= n -> 0 <= n + change r ->
  edge (stream r) n (n + change r) =
  match r with
  | Start _ => if n + 1 =? 1 then [r] else []
  | Stop _ => if n - 1 =? 0 then [r] else []
  end.
Proof.
  intros. unfold edge. destruct r; simpl in *;
    destruct (Z.ltb_spec 0 n); destruct (Z.ltb_spec 0 (n + 1)); destruct (Z.eqb_spec (n + 1) 1);
    destruct (Z.ltb_spec 0 (n + -1)); destruct (Z.eqb_spec (n - 1) 0); try done; lia.
Qed.

Lemma edges_ext f g rs : (forall k, f k = g k) -> edges f rs = edges g rs.
Proof.
  revert f g. induction rs as [|r rs IH]; intros f g E; simpl; [done|].
  rewrite !E. f_equal. apply IH. intros k. by rewrite E.
Qed.

Lemma run_cons r rs w : run (r :: rs) w = run rs (exec (request standalone r) w).
Proof. done. Qed.

(** The counting invariant along a run, from any state whose counts are known. *)
Lemma run_counts rs w :
  (forall k n, 0 <= counter_of k (counters w) + observers k (take n rs) <= INT_MAX) ->
  let w' := run rs w in
  (forall k, counter_of k (counters w') = counter_of k (counters w) + observers k rs) /\
  log w' = log w ++ edges (fun k => counter_of k (counters w)) rs.
Proof.
  revert w. induction rs as [|r rs IH]; intros w H; cbv zeta; rewrite ?run_cons.
  { split; [intros; simpl; unfold run; simpl; lia|simpl; by rewrite app_nil_r]. }
  pose proof (H (stream r) 0%nat) as H0. pose proof (H (stream r) 1%nat) as H1. simpl in H0, H1.
  rewrite decide_True in H1 by done. unfold INT_MAX in *.
  rewrite request_effect by (unfold INT_MIN, INT_MAX; lia).
  rewrite <- edge_call by lia.
  match goal with |- context [run rs ?w1] => destruct (IH w1) as [IHc IHl] end.
  { intros k n. specialize (H k (S n)). simpl in H. simpl. destruct (decide (stream r = k)) as [<-|Hne].
    - rewrite counter_set_eq. lia.
    - rewrite counter_set_ne by done. lia. }
  split.
  - intros k. rewrite IHc. simpl. destruct (decide (stream r = k)) as [<-|Hne].
    + rewrite counter_set_eq. lia.
    + rewrite counter_set_ne by done. lia.
  - rewrite IHl. simpl. rewrite <- app_assoc. do 2 f_equal.
    apply edges_ext. intros k. case_decide as E; [subst; by rewrite counter_set_eq|].
    by rewrite counter_set_ne.
Qed.

Lemma disable_effect p h v l :
  exec (disable standalone) (MkStandalone (MkCounters p h v) l) =
  MkStandalone disabled_counters
    (l ++ (if 0 <? p then [Stop Position] else [])
       ++ (if 0 <? h then [Stop Heading] else [])
       ++ (if 0 <? v then [Stop Velocity] else [])).
Proof.
  unfold disable. unfold_m.
  destruct (0 <? p); simpl; (destruct (0 <? h); simpl; (destruct (0 <? v); simpl));
    by rewrite <- ?app_assoc, ?app_nil_r.
Qed.

(** * Properties *)

(** C1: the controller refines observer counting.  After any well bracketed
    sequence of start and stop requests each counter is the number of observers,
    [are_*_updates_running] says whether there is one, and the provider has been
    called exactly at the edges: started when the first observer of a stream
    arrives, stopped when the last one leaves. *)
Theorem controller_counts_observers (rs : list Call) :
  well_bracketed rs ->
  let w := run rs fresh in
  (forall k, counter_of k (counters w) = observers k rs) /\
  are_position_updates_running standalone w = (0 <? observers Position rs) /\
  are_heading_updates_running standalone w = (0 <? observers Heading rs) /\
  are_velocity_updates_running standalone w = (0 <? observers Velocity rs) /\
  log w = edges (fun _ => 0) rs.
Proof.
  intros H w. destruct (run_counts rs fresh) as [Hc Hl].
  { intros k n. specialize (H k n). by destruct k. }
  assert (forall k, counter_of k (counters w) = observers k rs) as Hk.
  { intros k. subst w. rewrite Hc. by destruct k. }
  split; [done|].
  pose proof (Hk Position) as E1. pose proof (Hk Heading) as E2. pose proof (Hk Velocity) as E3.
  split_and!.
  - by rewrite <- E1.
  - by rewrite <- E2.
  - by rewrite <- E3.
  - subst w. rewrite Hl. simpl. apply edges_ext. by intros [].
Qed.

Definition two_clients : list Call :=
  [Start Position; Start Position; Start Velocity; Stop Position; Stop Position].

Lemma two_clients_bracketed : well_bracketed two_clients.
Proof.
  intros k n. do 6 (destruct n as [|n]; [destruct k; vm_compute; split; intros [=]|]).
  destruct n, k; vm_compute; split; intros [=].
Qed.

Lemma controller_counts_observers_witness :
  well_bracketed two_clients /\
  log (run two_clients fresh) = [Start Position; Start Velocity; Stop Position].
Proof.
  split; [exact two_clients_bracketed|].
  destruct (controller_counts_observers two_clients two_clients_bracketed) as (_ & _ & _ & _ & E).
  exact E.
Defined.

(** C21: disabling stops exactly the running streams, in the order position, heading,
    velocity, and afterwards no request reaches the provider or changes a counter
    until the controller is enabled again ("subsequent calls to start* methods
    fail"). *)
Theorem disable_stops_and_ignores (w : Standalone) (rs : list Call) :
  let w' := exec (disable standalone) w in
  counters w' = disabled_counters /\
  log w' = log w ++ (if 0 <? c_position (counters w) then [Stop Position] else [])
                 ++ (if 0 <? c_heading (counters w) then [Stop Heading] else [])
                 ++ (if 0 <? c_velocity (counters w) then [Stop Velocity] else []) /\
  run rs w' = w' /\
  exec (enable standalone) (run rs w') = MkStandalone initial_counters (log w').
Proof.
  destruct w as [[p h v] l]. cbv zeta. rewrite disable_effect. simpl.
  set (w' := MkStandalone _ _).
  assert (run rs w' = w') as Hr.
  { induction rs as [|r rs IH]; [done|].
    rewrite run_cons, request_disabled; [done|]. by destruct r as [[]|[]]. }
  split_and!; [done..|]. by rewrite Hr.
Qed.

(** one stop request without an observer takes the counter to the value that
    means "disabled": from then on the stream ignores every observer, although
    nobody disabled the provider. *)
Theorem unmatched_stop_disables (k : Kind) (w : Standalone) (rs : list Call) :
  counter_of k (counters w) = 0 ->
  Forall (fun r => stream r = k) rs ->
  let w' := run (Stop k :: rs) w in
  counter_of k (counters w') = our_magic_disabling_value /\ log w' = log w.
Proof.
  intros H0 Hrs. cbv zeta. rewrite run_cons, request_effect; simpl; rewrite ?H0; [|done..].
  set (w1 := MkStandalone _ _).
  assert (run rs w1 = w1) as Hr.
  { assert (counter_of k (counters w1) = -1) as E by (subst w1; simpl; by rewrite counter_set_eq).
    clearbody w1. induction Hrs as [|r rs Hs _ IH]; [done|].
    rewrite run_cons, request_disabled; [done|]. by rewrite Hs, E. }
  rewrite Hr. subst w1; simpl. rewrite counter_set_eq. by rewrite app_nil_r.
Qed.

Lemma unmatched_stop_disables_witness :
  counter_of Heading (counters fresh) = 0 /\
  Forall (fun r => stream r = Heading) [Start Heading] /\
  log (run [Stop Heading; Start Heading] fresh) = [].
Proof.
  assert (Forall (fun r => stream r = Heading) [Start Heading]) as HF by (repeat constructor).
  split; [reflexivity|]. split; [exact HF|].
  exact (proj2 (unmatched_stop_disables Heading fresh [Start Heading] eq_refl HF)).
Defined.

(** disabling and enabling a controller while an observer holds a stream loses
    that observer: its later stop request disables the stream. *)
Theorem disable_enable_loses_observer (k : Kind) (l : list Call) :
  let held := run [Start k] (MkStandalone initial_counters l) in
  let cycled := exec (enable standalone) (exec (disable standalone) held) in
  counter_of k (counters cycled) = 0 /\
  counter_of k (counters (run [Stop k] cycled)) = our_magic_disabling_value /\
  log (run [Stop k; Start k] cycled) = l ++ [Start k; Stop k].
Proof.
  destruct k; (split; [reflexivity|]); (split; [reflexivity|]);
    (etransitivity; [reflexivity|]); simpl; by rewrite <- app_assoc.
Qed.

End Controller.
