(* ===== verification/Interleaving.v ===== *)
(** Threads that share one controller ([provider.h], [provider.cpp]).  The three counters
    are atomic, the functions around them are not: a request is a load, an increment or a
    decrement, and a call on the provider, and [enable] and [disable] are loads, calls and
    stores.  The threads are interleaved at these steps. *)
From Stdlib Require Import ZArith Lia.
From stdpp Require Import base list.
From S2P Require Import Prelude Provider.
Local Open Scope Z_scope.

Module Interleaving.
Import Controller.

(** * Threads *)

(** What a thread asks of the controller. *)
Inductive Operation : Type := Ask (c : Call) | Enable | Disable.

(** Where a thread is inside an operation: in front of the comparison of a request, of its
    increment or decrement, of the call on the provider; in [disable] in front of the
    comparison for the first stream of [ks], of the call it leads to; in front of the
    stores of [v] to the counters of [ks]. *)
Inductive Pc : Type :=
| Checking (c : Call)
| Counting (c : Call)
| Performing (c : Call)
| Stopping (ks : list Kind)
| PerformingStop (k : Kind) (ks : list Kind)
| Storing (v : Z) (ks : list Kind).

Definition streams : list Kind := [Position; Heading; Velocity].

Definition begin (o : Operation) : Pc :=
  match o with
  | Ask c => Checking c
  | Enable => Storing 0 streams
  | Disable => Stopping streams
  end.

Definition store_counter (k : Kind) (z : Z) (w : Standalone) : Standalone :=
  MkStandalone (set_counter k z (counters w)) (log w).

(** One step of a thread on the controller and its provider; [None] is the return. *)
Definition advance (p : Pc) (w : Standalone) : option Pc * Standalone :=
  match p with
  | Checking c =>
      if counter_of (stream c) (counters w) <? 0 then (None, w) else (Some (Counting c), w)
  | Counting c =>
      let n := wrap_s 32 (counter_of (stream c) (counters w) + change c) in
      (if n =? match c with Start _ => 1 | Stop _ => 0 end then Some (Performing c) else None,
       store_counter (stream c) n w)
  | Performing c => (None, exec (emit c) w)
  | Stopping [] => (Some (Storing our_magic_disabling_value streams), w)
  | Stopping (k :: ks) =>
      if 0 <? counter_of k (counters w) then (Some (PerformingStop k ks), w) else (Some (Stopping ks), w)
  | PerformingStop k ks => (Some (Stopping ks), exec (emit (Stop k)) w)
  | Storing v [] => (None, w)
  | Storing v (k :: ks) =>
      (match ks with [] => None | _ => Some (Storing v ks) end, store_counter k v w)
  end.

Record Thread : Type := MkThread { at_ : option Pc; todo : list Operation }.
Record World : Type := MkWorld { threads : list Thread; shared : Standalone }.

(** The [i]-th thread makes a step: inside its operation, or at the first of the next. *)
Definition step (i : nat) (w : World) : World :=
  match threads w !! i with
  | None => w
  | Some t =>
      match at_ t, todo t with
      | Some p, _ =>
          let (p', s) := advance p (shared w) in
          MkWorld (<[i := MkThread p' (todo t)]> (threads w)) s
      | None, [] => w
      | None, o :: os =>
          let (p', s) := advance (begin o) (shared w) in
          MkWorld (<[i := MkThread p' os]> (threads w)) s
      end
  end.

(** A schedule says whose turn it is. *)
Definition play (turns : list nat) : World -> World := fold_left (fun w i => step i w) turns.

Definition idle (t : Thread) : Prop := at_ t = None /\ todo t = [].
Definition at_rest (w : World) : Prop := Forall idle (threads w).
Definition spawn (programs : list (list Operation)) : World := MkWorld (MkThread None <$> programs) fresh.

(** * A thread alone *)

(** The steps of one operation up to its return. *)
Fixpoint finish_alone (fuel : nat) (p : option Pc) (w : Standalone) : option Pc * Standalone :=
  match p, fuel with
  | Some p, S fuel => let (p', w') := advance p w in finish_alone fuel p' w'
  | p, _ => (p, w)
  end.

Definition statement (o : Operation) : M Standalone unit :=
  match o with Ask c => request standalone c | Enable => enable standalone | Disable => disable standalone end.

(** Undisturbed, the steps of an operation are the operation. *)
Lemma alone_is_sequential (o : Operation) (w : Standalone) :
  finish_alone 11 (Some (begin o)) w = (None, exec (statement o) w).
Proof.
  destruct w as [[p h v] l]. destruct o as [[[]|[]]| |]; cbn [finish_alone begin advance streams stream].
  all: unfold statement, request, enable, disable, start_position_updates, start_heading_updates,
    start_velocity_updates, stop_position_updates, stop_heading_updates, stop_velocity_updates,
    start_updates, stop_updates, increment, decrement; unfold_m;
    repeat match goal with
           | |- context [?n + -1] => change (n + -1) with (n - 1)
           | |- context [if _ then _ else _] => case_bool; simpl; try done
           end; try done.
Qed.

(** * Observers *)

(** A thread that is an observer stops what it has started and starts what it does not
    hold. *)
Definition upd (k : Kind) (b : bool) (held : Kind -> bool) (j : Kind) : bool :=
  if decide (j = k) then b else held j.
Definition starts (c : Call) : bool := match c with Start _ => true | Stop _ => false end.
Fixpoint observes (held : Kind -> bool) (os : list Operation) : Prop :=
  match os with
  | [] => True
  | Ask c :: os => held (stream c) = negb (starts c) /\ observes (upd (stream c) (starts c) held) os
  | _ => False
  end.

(** ** Sums over threads *)

Definition total {A} (f : A -> Z) (l : list A) : Z := foldr (fun x z => f x + z) 0 l.

Lemma total_insert {A} (f : A -> Z) l i x y :
  l !! i = Some x -> total f (<[i := y]> l) = total f l - f x + f y.
Proof.
  revert i. induction l as [|z l IH]; intros [|i] H; simpl in *; simplify_eq; [lia|].
  rewrite IH by done. lia.
Qed.

Lemma total_bounds {A} (f : A -> Z) l :
  (forall x, 0 <= f x <= 1) -> 0 <= total f l <= Z.of_nat (length l).
Proof. intros H. induction l as [|x l IH]; simpl; [lia|]. specialize (H x). lia. Qed.

Lemma total_zero {A} (f : A -> Z) l : Forall (fun x => f x = 0) l -> total f l = 0.
Proof. induction 1 as [|x l E _ IH]; simpl; lia. Qed.

(** ** The invariant *)

Definition holder (k : Kind) (held : Kind -> bool) : Z := if held k then 1 else 0.

(** The requests of a program. *)
Fixpoint asked (os : list Operation) : list Call :=
  match os with [] => [] | Ask c :: os => c :: asked os | _ :: os => asked os end.

(** The call a thread is about to make, and what it has still to count. *)
Definition weight (k : Kind) (c : Call) : Z := if decide (stream c = k) then change c else 0.
Definition pending (k : Kind) (t : Thread) : Z :=
  match at_ t with Some (Performing c) => weight k c | _ => 0 end.
Definition uncounted (k : Kind) (t : Thread) : Z :=
  match at_ t with Some (Checking c) | Some (Counting c) => weight k c | _ => 0 end +
  observers k (asked (todo t)).

Definition sane (t : Thread) (held : Kind -> bool) : Prop :=
  match at_ t with
  | None | Some (Performing _) => observes held (todo t)
  | Some (Checking c) | Some (Counting c) => observes held (Ask c :: todo t)
  | _ => False
  end.

Record balanced (goal : Kind -> Z) (w : World) (hs : list (Kind -> bool)) : Prop := {
  balanced_threads : Forall2 sane (threads w) hs;
  balanced_few : Z.of_nat (length hs) <= INT_MAX;
  balanced_counters : forall k, counter_of k (counters (shared w)) = total (holder k) hs;
  balanced_goal : forall k, counter_of k (counters (shared w)) + total (uncounted k) (threads w) = goal k;
  balanced_calls : forall k,
    observers k (log (shared w)) + total (pending k) (threads w) =
    if 0 <? counter_of k (counters (shared w)) then 1 else 0
}.

Lemma holders_nonnegative k hs : 0 <= total (holder k) hs <= Z.of_nat (length hs).
Proof. apply total_bounds. intros x. unfold holder. case_match; lia. Qed.

(** A step that is neither an increment nor a call. *)
Lemma balanced_move goal w hs i t t' h :
  balanced goal w hs -> threads w !! i = Some t -> hs !! i = Some h -> sane t' h ->
  (forall k, pending k t' = pending k t) -> (forall k, uncounted k t' = uncounted k t) ->
  balanced goal (MkWorld (<[i := t']> (threads w)) (shared w)) hs.
Proof.
  intros [Ht Hf Hc Hg Hb] Hi Hh Hs Hp Hu. split; simpl; [|done|done| |].
  - rewrite <- (list_insert_id hs i h) by done. by apply Forall2_insert.
  - intros k. rewrite (total_insert _ _ _ _ _ Hi), Hu, <- Hg. lia.
  - intros k. rewrite (total_insert _ _ _ _ _ Hi), Hp, <- Hb. lia.
Qed.

(** The call on the provider. *)
Lemma balanced_perform goal w hs i os h c :
  balanced goal w hs -> threads w !! i = Some (MkThread (Some (Performing c)) os) -> hs !! i = Some h ->
  balanced goal (MkWorld (<[i := MkThread None os]> (threads w)) (exec (emit c) (shared w))) hs.
Proof.
  intros [Ht Hf Hc Hg Hb] Hi Hh. split; simpl; [|done|done| |].
  - rewrite <- (list_insert_id hs i h) by done. apply Forall2_insert; [done|].
    exact (Forall2_lookup_lr _ _ _ _ _ _ Ht Hi Hh).
  - intros k. rewrite (total_insert _ _ _ _ _ Hi), <- Hg. unfold uncounted at 2 3. simpl. lia.
  - intros k. rewrite observers_app, (total_insert _ _ _ _ _ Hi), <- Hb. unfold pending at 2 3. simpl.
    unfold weight. lia.
Qed.

(** The increment or decrement. *)
Lemma balanced_count goal w hs i os h c :
  balanced goal w hs -> threads w !! i = Some (MkThread (Some (Counting c)) os) -> hs !! i = Some h ->
  let (p, s) := advance (Counting c) (shared w) in
  balanced goal (MkWorld (<[i := MkThread p os]> (threads w)) s)
           (<[i := upd (stream c) (starts c) h]> hs).
Proof.
  intros [Ht Hf Hc Hg Hb] Hi Hh. destruct (Forall2_lookup_lr _ _ _ _ _ _ Ht Hi Hh) as [Hk Ho].
  assert (forall k, total (holder k) (<[i := upd (stream c) (starts c) h]> hs) =
            total (holder k) hs + weight k c) as Hs.
  { intros k. rewrite (total_insert _ _ _ _ _ Hh). unfold holder, upd, weight.
    destruct (decide (k = stream c)) as [->|Hne].
    - rewrite Hk, decide_True by done. destruct c; simpl; lia.
    - rewrite decide_False by congruence. lia. }
  pose proof (holders_nonnegative (stream c) (<[i := upd (stream c) (starts c) h]> hs)) as Hr.
  pose proof (holders_nonnegative (stream c) hs) as Hr'.
  rewrite length_insert, Hs in Hr. unfold weight in Hr. rewrite decide_True in Hr by done.
  simpl. rewrite Hc, wrap_s32_small by (unfold INT_MIN, INT_MAX in *; lia).
  assert (forall k, counter_of k (set_counter (stream c) (total (holder (stream c)) hs + change c)
            (counters (shared w))) = total (holder k) hs + weight k c) as Hn.
  { intros k. unfold weight. destruct (decide (stream c = k)) as [<-|Hne]; [by rewrite counter_set_eq|].
    rewrite counter_set_ne by done. rewrite Hc. lia. }
  split; cbn [threads shared store_counter counters log].
  - apply Forall2_insert; [done|]. unfold sane. simpl. by case_bool.
  - by rewrite length_insert.
  - intros k. by rewrite Hn, Hs.
  - intros k. rewrite (total_insert _ _ _ _ _ Hi), Hn, <- Hg, Hc. unfold uncounted at 2 3. simpl.
    case_bool; lia.
  - intros k. rewrite (total_insert _ _ _ _ _ Hi), Hn. specialize (Hb k). rewrite Hc in Hb.
    unfold pending at 2 3. simpl. unfold weight.
    destruct (decide (stream c = k)) as [<-|Hne].
    + destruct c as [k|k]; simpl in *;
        match goal with |- context [if ?n =? ?m then _ else _] => destruct (Z.eqb_spec n m) end;
        simpl; rewrite ?decide_True by done;
        destruct (Z.ltb_spec 0 (total (holder k) hs)); case_bool; zbool; lia.
    + rewrite Z.add_0_r. case_bool; simpl; rewrite ?decide_False by done; lia.
Qed.

(** The comparison lets an observer through: the counter is never negative. *)
Lemma balanced_check goal w hs c :
  balanced goal w hs -> advance (Checking c) (shared w) = (Some (Counting c), shared w).
Proof.
  intros H. simpl. rewrite (balanced_counters _ _ _ H).
  pose proof (holders_nonnegative (stream c) hs). by replace (_ <? 0) with false by lia.
Qed.

Lemma balanced_step goal i w hs : balanced goal w hs -> exists hs', balanced goal (step i w) hs'.
Proof.
  intros H. unfold step. destruct (threads w !! i) as [[p os]|] eqn:Hi; [|by exists hs].
  destruct (Forall2_lookup_l _ _ _ _ _ (balanced_threads _ _ _ H) Hi) as (h & Hh & Hs). simpl.
  destruct p as [p|].
  - destruct p as [c|c|c|ks|k ks|v ks]; try done.
    + rewrite (balanced_check _ _ _ _ H). exists hs. by eapply balanced_move.
    + pose proof (balanced_count _ _ _ _ _ _ _ H Hi Hh) as Hc. destruct (advance (Counting c) (shared w)).
      by eexists.
    + exists hs. simpl. by eapply balanced_perform.
  - destruct os as [|[c| |] os]; [by exists hs| |by destruct Hs..]. cbn [begin].
    rewrite (balanced_check _ _ _ _ H). exists hs. eapply balanced_move; [done..|].
    intros k. unfold uncounted, weight. simpl. lia.
Qed.

Lemma balanced_play goal turns w hs : balanced goal w hs -> exists hs', balanced goal (play turns w) hs'.
Proof.
  revert w hs. induction turns as [|i turns IH]; intros w hs H; [by exists hs|].
  destruct (balanced_step goal i w hs H) as [hs' H']. exact (IH _ _ H').
Qed.

(** What the observers have asked for in the end. *)
Definition outcome (programs : list (list Operation)) (k : Kind) : Z :=
  total (fun os => observers k (asked os)) programs.

Lemma balanced_spawn programs :
  Forall (observes (fun _ => false)) programs -> Z.of_nat (length programs) <= INT_MAX ->
  balanced (outcome programs) (spawn programs) ((fun _ _ => false) <$> programs).
Proof.
  intros Hp Hn. unfold spawn. split; cbn [threads shared fresh counters log].
  - clear Hn. induction Hp; simpl; by constructor.
  - by rewrite length_fmap.
  - intros k. rewrite total_zero; [by destruct k|]. apply Forall_fmap, Forall_true. done.
  - intros k. replace (counter_of k initial_counters) with 0 by (by destruct k). unfold outcome, total. rewrite Z.add_0_l. simpl.
    clear. induction programs as [|os programs IH]; [done|]. cbn. f_equal. exact IH.
  - intros k. replace (0 <? counter_of k initial_counters) with false by (by destruct k). simpl.
    apply total_zero, Forall_fmap, Forall_true. done.
Qed.

(** * Rest *)

(** The steps a thread has still to make, at most. *)
Definition steps_of (p : Pc) : nat :=
  match p with
  | Checking _ => 3
  | Counting _ => 2
  | Performing _ => 1
  | Stopping ks => 2 * length ks + 5
  | PerformingStop _ ks => 2 * length ks + 6
  | Storing _ ks => S (length ks)
  end.
Definition steps_left (p : option Pc) : nat := match p with Some p => steps_of p | None => 0 end.
Definition operation_steps : nat := 12.
Definition work (t : Thread) : nat := steps_left (at_ t) + operation_steps * length (todo t).

Lemma advance_works p s : (steps_left (advance p s).1 < steps_of p)%nat.
Proof.
  destruct p as [c|c|c|[|k ks]|k ks|v [|k [|j ks]]]; simpl; try lia; case_bool; simpl; lia.
Qed.

Lemma begin_bounded o : (steps_of (begin o) < operation_steps)%nat.
Proof. destruct o; simpl; unfold operation_steps; lia. Qed.

(** A turn is progress of the thread whose turn it is, and no one else's loss. *)
Lemma step_works i j w t :
  threads w !! j = Some t ->
  exists t', threads (step i w) !! j = Some t' /\
    (work t' <= work t - (if decide (i = j) then 1 else 0))%nat.
Proof.
  intros Hj. unfold step. destruct (decide (i = j)) as [<-|Hne].
  - rewrite Hj. destruct t as [[p|] os]; simpl.
    + pose proof (advance_works p (shared w)) as Hp. destruct (advance p (shared w)) as [p' s]. simpl in *.
      eexists. rewrite list_lookup_insert_eq by (by eapply lookup_lt_Some). split; [done|].
      unfold work. simpl. lia.
    + destruct os as [|o os]; [by eexists|].
      pose proof (advance_works (begin o) (shared w)) as Hp. pose proof (begin_bounded o).
      destruct (advance (begin o) (shared w)) as [p' s]. simpl in *.
      eexists. rewrite list_lookup_insert_eq by (by eapply lookup_lt_Some). split; [done|].
      unfold work, operation_steps in *. simpl. lia.
  - assert (forall p os s, threads (MkWorld (<[i := MkThread p os]> (threads w)) s) !! j = Some t) as Ho
      by (intros; simpl; by rewrite list_lookup_insert_ne).
    exists t. split; [|lia].
    destruct (threads w !! i) as [[[p|] [|o os]]|]; simpl; try done; repeat case_match; apply Ho || done.
Qed.

Lemma play_works turns j w t :
  threads w !! j = Some t ->
  exists t', threads (play turns w) !! j = Some t' /\ (work t' <= work t - count_occ Nat.eq_dec turns j)%nat.
Proof.
  revert w t. induction turns as [|i turns IH]; intros w t Hj.
  { exists t. split; [done|]. simpl. lia. }
  destruct (step_works i j w t Hj) as (t1 & H1 & Hw1). destruct (IH _ _ H1) as (t2 & H2 & Hw2).
  exists t2. split; [done|]. simpl. destruct (Nat.eq_dec i j); case_decide; try done; lia.
Qed.

Lemma step_threads i w : length (threads (step i w)) = length (threads w).
Proof.
  unfold step. repeat case_match; simpl; by rewrite ?length_insert.
Qed.

Lemma play_threads programs turns : length (threads (play turns (spawn programs))) = length programs.
Proof.
  transitivity (length (threads (spawn programs))); [|simpl; by rewrite length_fmap].
  generalize (spawn programs). induction turns as [|i turns IH]; intros w; [done|].
  simpl. by rewrite IH, step_threads.
Qed.

(** Every thread that has had its turns has returned from its last operation. *)
Lemma rest_reached programs turns :
  (forall i os, programs !! i = Some os -> (operation_steps * length os <= count_occ Nat.eq_dec turns i)%nat) ->
  at_rest (play turns (spawn programs)).
Proof.
  intros Hf. apply Forall_lookup. intros j t Hj.
  destruct (lookup_lt_is_Some_2 programs j) as [os Hos].
  { rewrite <- (play_threads programs turns). by eapply lookup_lt_Some. }
  destruct (play_works turns j (spawn programs) (MkThread None os)) as (t' & Ht' & Hw).
  { simpl. rewrite list_lookup_fmap, Hos. done. }
  rewrite Hj in Ht'. injection Ht' as <-. specialize (Hf _ _ Hos).
  destruct t as [p [|o os']]; unfold work, operation_steps in *; simpl in *; [|lia].
  destruct p as [p|]; [|done]. exfalso. destruct p; simpl in *; lia.
Qed.

(** * Properties *)

(** C9: threads that share a controller.  However observers on several threads interleave,
    each of which stops what it started: no counter is ever negative, so that no request is
    mistaken for one on a disabled controller; every thread that gets its turns returns;
    and when all have returned, each counter is the number of starts without a stop, and
    the provider was started once more than it was stopped if there is an observer, and as
    often as it was stopped if there is none. *)
Theorem calls_balance (programs : list (list Operation)) (turns : list nat) (k : Kind) :
  Forall (observes (fun _ => false)) programs -> Z.of_nat (length programs) <= INT_MAX ->
  let w := play turns (spawn programs) in
  0 <= counter_of k (counters (shared w)) <= Z.of_nat (length programs) /\
  ((forall i os, programs !! i = Some os ->
      (operation_steps * length os <= count_occ Nat.eq_dec turns i)%nat) -> at_rest w) /\
  (at_rest w ->
     counter_of k (counters (shared w)) = outcome programs k /\
     observers k (log (shared w)) = if 0 <? outcome programs k then 1 else 0).
Proof.
  intros Hp Hn w.
  destruct (balanced_play (outcome programs) turns _ _ (balanced_spawn programs Hp Hn)) as [hs H].
  fold w in H. split; [|split].
  - rewrite (balanced_counters _ _ _ H). pose proof (holders_nonnegative k hs).
    pose proof (Forall2_length _ _ _ (balanced_threads _ _ _ H)) as Hl. unfold w in Hl. rewrite play_threads in Hl. lia.
  - apply rest_reached.
  - intros Hr. pose proof (balanced_goal _ _ _ H k) as Hg. pose proof (balanced_calls _ _ _ H k) as Hb.
    rewrite total_zero in Hg, Hb; cycle 1.
    { eapply Forall_impl; [exact Hr|]. intros [p os] [E1 E2]. simpl in *. by subst. }
    { eapply Forall_impl; [exact Hr|]. intros [p os] [E1 E2]. simpl in *. by subst. }
    rewrite Z.add_0_r in Hg, Hb. by rewrite <- Hg.
Qed.

(** Three observers; the second and third have not stopped. *)
Definition three_observers : list (list Operation) :=
  [[Ask (Start Position); Ask (Stop Position)]; [Ask (Start Position)]; [Ask (Start Position)]].
Definition turn_by_turn : list nat := concat (replicate 24 [0; 1; 2]%nat).

Lemma calls_balance_witness :
  at_rest (play turn_by_turn (spawn three_observers)) /\
  counter_of Position (counters (shared (play turn_by_turn (spawn three_observers)))) = 2 /\
  observers Position (log (shared (play turn_by_turn (spawn three_observers)))) = 1.
Proof.
  assert (Forall (observes (fun _ => false)) three_observers) as Ho by (repeat constructor).
  assert (Z.of_nat (length three_observers) <= INT_MAX) as Hn by (vm_compute; discriminate).
  destruct (calls_balance three_observers turn_by_turn Position Ho Hn) as (_ & Hr & Hb).
  assert (at_rest (play turn_by_turn (spawn three_observers))) as H.
  { apply Hr. intros [|[|[|i]]] os E; simpl in E; try (injection E as <-); try discriminate E;
      vm_compute; repeat constructor. }
  split; [exact H|]. exact (Hb H).
Defined.

(** C40: the order of the calls is not kept.  A thread that stops as the last observer can
    be overtaken between its decrement and its call: another starts, is the first observer
    and starts the provider, and then the stop arrives.  Two observers are counted, and the
    provider is stopped, until all of them have left and one comes back.  A request that is
    overtaken by [disable] between its comparison and its increment leaves the counter at
    zero, so that the next observer starts a provider that was disabled. *)
Theorem late_calls_win (k : Kind) :
  let race := [[Ask (Start k); Ask (Stop k)]; [Ask (Start k)]; [Ask (Start k)]] in
  let disabling := [[Ask (Start k)]; [Disable]; [Ask (Start k)]] in
  (exists turns, let w := play turns (spawn race) in
     Forall (observes (fun _ => false)) race /\ at_rest w /\
     counter_of k (counters (shared w)) = 2 /\ log (shared w) = [Start k; Start k; Stop k]) /\
  (exists turns, let w := play turns (spawn disabling) in
     at_rest w /\ counter_of k (counters (shared w)) = 1 /\ log (shared w) = [Start k]).
Proof.
  split.
  - exists [0; 0; 0; 0; 0; 1; 1; 1; 0; 2; 2; 2]%nat.
    destruct k; (split; [repeat constructor|]); (split; [repeat constructor|]); by vm_compute.
  - exists ([0; 1; 1; 1; 1; 1; 1; 1; 0; 2; 2; 2])%nat.
    destruct k; (split; [repeat constructor|]); by vm_compute.
Qed.
End Interleaving.
