(* ===== verification/Property.v ===== *)
(** [core::Property], the observable value the components communicate through.
    Its source is not part of the repository: an interface states when an
    assignment emits [changed()], and [assign] runs the slots on the world. *)
From Stdlib Require Import ZArith Lia.
From stdpp Require Import base list.
From S2P Require Import Prelude.

(** [emits neq old new]: whether assigning [new] to a property that holds [old]
    emits [changed()]; [neq] is the [operator!=] of the value type. *)
Class CoreProperty : Type := {
  emits : forall {A : Type}, (A -> A -> bool) -> A -> A -> bool;
  emits_iff_different : forall {A : Type} (neq : A -> A -> bool) old new,
    emits neq old new = neq old new
}.

#[export] Instance documented_property : CoreProperty :=
  {| emits A neq old new := neq old new;
     emits_iff_different A neq old new := eq_refl |}.

(** [operator!=] of an enumeration or another type with decidable equality. *)
Definition neqb {A} `{EqDecision A} (x y : A) : bool := bool_decide (x ≠ y).

Section Assign.
Context `{CoreProperty} {W A : Type}.

(** [property = new]: the value is stored and the slots run, on the calling thread
    and in the order of their connection, before the assignment returns. *)
Definition assign (neq : A -> A -> bool) (c : Cell W A) (new : A) (slots : A -> M W unit)
  : M W unit :=
  old ← read c;
  if emits neq old new then write c new;; slots new else skip.

Lemma assign_same (neq : A -> A -> bool) c new slots w :
  neq (rd c w) new = false -> assign neq c new slots w = (Ok tt, w).
Proof. intros E. unfold assign. unfold_m. by rewrite emits_iff_different, E. Qed.

Lemma assign_differs (neq : A -> A -> bool) c new slots w :
  neq (rd c w) new = true -> assign neq c new slots w = slots new (wr c new w).
Proof. intros E. unfold assign. unfold_m. by rewrite emits_iff_different, E. Qed.

Lemma nothrow_assign (neq : A -> A -> bool) c new slots :
  (forall a, nothrow (slots a)) -> nothrow (assign neq c new slots).
Proof.
  intros Hs w. unfold assign, result. unfold_m. destruct (emits neq (rd c w) new).
  - destruct (Hs new (wr c new w)) as [a Ha]. exists a. by unfold result in Ha.
  - by exists tt.
Qed.

(** An assignment keeps what the write and the slots keep. *)
Lemma preserves_assign (P : W -> Prop) (neq : A -> A -> bool) c new slots :
  stable P c -> (forall a, preserves P (slots a)) -> preserves P (assign neq c new slots).
Proof.
  intros Hc Hs. unfold assign. apply preserves_bind; [apply preserves_read|]. intros old.
  apply preserves_if; [|apply preserves_skip].
  apply preserves_bind; [by apply preserves_write|]. intros _. apply Hs.
Qed.

(** An assignment ends when its slots do. *)
Lemma leads_assign (P : W -> Prop) (neq : A -> A -> bool) c new slots :
  (forall w, P w -> P (wr c new w)) -> leads P (slots new) P -> leads P (assign neq c new slots) P.
Proof.
  intros Hc Hs w Hw. destruct (neq (rd c w) new) eqn:N.
  - rewrite (assign_differs neq c new slots w N). by apply Hs, Hc.
  - rewrite (assign_same neq c new slots w N). by exists tt, w.
Qed.

End Assign.

Lemma neqb_refl {A} `{EqDecision A} (x : A) : neqb x x = false.
Proof. unfold neqb. by rewrite bool_decide_false by auto. Qed.

Lemma neqb_ne {A} `{EqDecision A} (x y : A) : x ≠ y -> neqb x y = true.
Proof. intros. unfold neqb. by rewrite bool_decide_true. Qed.

#[export] Hint Resolve nothrow_assign preserves_assign leads_assign : ls.
