(* ===== verification/Settings.v ===== *)
(** Persistent settings and the textual form of the state enumerations:
    [settings.h/.cpp], [boost_ptree_settings.h/.cpp],
    [satellite_based_positioning_state.h/.cpp],
    [wifi_and_cell_reporting_state.h/.cpp], the stream operators of
    [Engine::Status] in [engine.cpp] and of [service::State] in
    [service/state.h/.cpp].  [Settings] is the interface the engine uses;
    [BoostPtreeSettings] and [SyncingSettings] implement it. *)
From Stdlib Require Import ZArith Lia.
From stdpp Require Import base gmap strings list.
From S2P Require Import Prelude.
#[local] Set Warnings "-clear-no-such-hyp".

(** * [in >> s]: one whitespace separated token *)

Definition is_space (c : Ascii.ascii) : bool :=
  let n := Ascii.nat_of_ascii c in (n =? 32)%nat || ((9 <=? n)%nat && (n <=? 13)%nat).

Fixpoint take_token (s : string) : string :=
  match s with
  | String.EmptyString => String.EmptyString
  | String.String c s' => if is_space c then String.EmptyString else String.String c (take_token s')
  end.

Fixpoint read_token (s : string) : string :=
  match s with
  | String.EmptyString => String.EmptyString
  | String.String c s' => if is_space c then read_token s' else take_token s
  end.

(** * The enumerations *)
Module Enums.

(** [SatelliteBasedPositioningState] *)
Inductive Satellite : Set := sat_on | sat_off.
(** [WifiAndCellIdReportingState] *)
Inductive Wifi : Set := wifi_on | wifi_off.
(** [Engine::Status] *)
Inductive Status : Set := off | on | active.
(** [service::State] *)
Inductive State : Set := disabled | enabled | state_active.

#[export] Instance Satellite_eq_dec : EqDecision Satellite.
Proof. solve_decision. Defined.
#[export] Instance Wifi_eq_dec : EqDecision Wifi.
Proof. solve_decision. Defined.
#[export] Instance Status_eq_dec : EqDecision Status.
Proof. solve_decision. Defined.
#[export] Instance State_eq_dec : EqDecision State.
Proof. solve_decision. Defined.

(** The look-up [lut.find(s)] of the input operators: the state, or the exception
    with the operator's message. *)
Definition lookup_or_throw {T} (lut : list (string * T)) (message s : string) : res T :=
  match List.find (fun p => String.eqb p.1 s) lut with
  | Some p => Ok p.2
  | None => Throw (runtime_error (message ++ s))
  end.

(** [operator<<] and [operator>>] of [SatelliteBasedPositioningState]. *)
Definition print_satellite (s : Satellite) : string :=
  match s with
  | sat_off => "SatelliteBasedPositioningState::off"
  | sat_on => "SatelliteBasedPositioningState::on"
  end.
Definition parse_satellite (input : string) : res Satellite :=
  lookup_or_throw
    [("SatelliteBasedPositioningState::off", sat_off);
     ("SatelliteBasedPositioningState::on", sat_on)]
    "location::operator>>(std::istream&, SatelliteBasedPositioningState&): Could not resolve state "
    (read_token input).

(** [operator<<] and [operator>>] of [WifiAndCellIdReportingState]. *)
Definition print_wifi (s : Wifi) : string :=
  match s with
  | wifi_off => "WifiAndCellIdReportingState::off"
  | wifi_on => "WifiAndCellIdReportingState::on"
  end.
Definition parse_wifi (input : string) : res Wifi :=
  lookup_or_throw
    [("WifiAndCellIdReportingState::off", wifi_off);
     ("WifiAndCellIdReportingState::on", wifi_on)]
    "location::operator>>(std::istream&, WifiAndCellIdReportingState&): Could not resolve state "
    (read_token input).

(** [operator<<] and [operator>>] of [Engine::Status]. *)
Definition print_status (s : Status) : string :=
  match s with
  | off => "Engine::Status::off"
  | on => "Engine::Status::on"
  | active => "Engine::Status::active"
  end.
Definition parse_status (input : string) : res Status :=
  lookup_or_throw
    [("Engine::Status::off", off); ("Engine::Status::on", on); ("Engine::Status::active", active)]
    "cll::operator>>(std::istream&, Engine::Status&): Could not resolve state "
    (read_token input).

(** [operator<<] and [operator>>] of [service::State]: [lut().second.at(s)] throws
    [std::out_of_range] itself. *)
Definition print_state (s : State) : string :=
  match s with
  | disabled => "disabled"
  | enabled => "enabled"
  | state_active => "active"
  end.
Definition parse_state (input : string) : res State :=
  let s := read_token input in
  match List.find (fun p => String.eqb p.1 s)
          [("disabled", disabled); ("enabled", enabled); ("active", state_active)] with
  | Some p => Ok p.2
  | None => Throw (out_of_range "map::at")
  end.

(** A printable enumeration: what [Settings]' templates need of their argument. *)
Class Streamable (T : Type) : Type := {
  print : T -> string;
  parse : string -> res T;
  parse_print : forall t, parse (print t) = Ok t
}.

Lemma parse_print_satellite x : parse_satellite (print_satellite x) = Ok x.
Proof. by destruct x. Qed.
#[export] Instance Streamable_Satellite : Streamable Satellite :=
  {| print := print_satellite; parse := parse_satellite; parse_print := parse_print_satellite |}.
Lemma parse_print_wifi x : parse_wifi (print_wifi x) = Ok x.
Proof. by destruct x. Qed.
#[export] Instance Streamable_Wifi : Streamable Wifi :=
  {| print := print_wifi; parse := parse_wifi; parse_print := parse_print_wifi |}.
Lemma parse_print_status x : parse_status (print_status x) = Ok x.
Proof. by destruct x. Qed.
#[export] Instance Streamable_Status : Streamable Status :=
  {| print := print_status; parse := parse_status; parse_print := parse_print_status |}.
Lemma parse_print_state x : parse_state (print_state x) = Ok x.
Proof. by destruct x. Qed.
#[export] Instance Streamable_State : Streamable State :=
  {| print := print_state; parse := parse_state; parse_print := parse_print_state |}.

End Enums.
Import Enums.

(** * The settings interface *)

(** The virtual functions of [Settings] over a store [S]. *)
Class Settings (S : Type) : Type := {
  sync : M S unit;
  has_value_for_key : string -> S -> bool;
  get_string_for_key_or_throw : string -> M S string;
  set_string_for_key : string -> string -> M S bool
}.

Section Derived.
Context {S : Type} `{HS : Settings S}.

(** [Settings::get_string_for_key] *)
Definition get_string_for_key (key default_value : string) : M S string :=
  b ← gets (has_value_for_key key);
  if negb b then mret default_value else get_string_for_key_or_throw key.

(** [Settings::get_enum_for_key], [get_enum_for_key_or_throw], [set_enum_for_key] *)
Definition get_enum_for_key {T} `{Streamable T} (key : string) (default_value : T) : M S T :=
  s ← get_string_for_key key (print default_value); lift (parse s).
Definition get_enum_for_key_or_throw {T} `{Streamable T} (key : string) : M S T :=
  s ← get_string_for_key_or_throw key; lift (parse s).
Definition set_enum_for_key {T} `{Streamable T} (key : string) (value : T) : M S bool :=
  set_string_for_key key (print value).
End Derived.

(** What the engine relies on, for the keys [P] it uses: a stored value is read
    back, other keys keep theirs, reading changes nothing. *)
Class SettingsLaws (S : Type) `{Settings S} (P : string -> Prop) : Prop := {
  set_then_get : forall k v s, P k -> result (set_string_for_key k v) s = Ok true ->
    let s' := exec (set_string_for_key k v) s in
    has_value_for_key k s' = true /\ get_string_for_key_or_throw k s' = (Ok v, s');
  set_keeps_others : forall k k' v s, P k -> P k' -> k <> k' ->
    let s' := exec (set_string_for_key k v) s in
    has_value_for_key k' s' = has_value_for_key k' s /\
    result (get_string_for_key_or_throw k') s' = result (get_string_for_key_or_throw k') s;
  get_is_pure : forall k s, P k -> exec (get_string_for_key_or_throw k) s = s;
  set_total : forall k v s, P k -> exists b, result (set_string_for_key k v) s = Ok b
}.

(** * [BoostPtreeSettings] *)
Module Ptree.

(** [boost::property_tree::ptree] and its INI reader and writer: [read_ini] and
    [write_ini] act on the contents of the file; [is_ini_parser_error] recognises the
    exceptions of the two. *)
Class PropertyTree (T File : Type) : Type := {
  empty_tree : T;
  count : string -> T -> nat;
  get : string -> T -> res string;
  put : string -> string -> T -> res T;
  read_ini : File -> res T;
  write_ini : T -> File -> res File;
  is_ini_parser_error : exn -> bool
}.

(** ** What an INI file can hold *)

Definition chars (s : string) : list Ascii.ascii := String.list_ascii_of_string s.
Definition char_is (n : nat) (c : Ascii.ascii) : bool := (Ascii.nat_of_ascii c =? n)%nat.
Definition newline : nat := 10.
Definition hash : nat := 35.
Definition dot : nat := 46.
Definition semicolon : nat := 59.
Definition equals_sign : nat := 61.
Definition bracket : nat := 91.

Definition lacks (n : nat) (l : list Ascii.ascii) : bool := forallb (fun c => negb (char_is n c)) l.

(** Neither the first nor the last character is a space. *)
Definition trimmed (l : list Ascii.ascii) : bool :=
  match l with
  | [] => true
  | c :: _ => negb (is_space c) && negb (is_space (List.last l c))
  end.

(** A key that names a child of the root: not empty, without the separator of paths. *)
Definition path_key (k : string) : bool := negb (String.eqb k "") && lacks dot (chars k).

(** A key and a value that the file format does not alter: the reader takes one line per
    entry, trims it, ignores lines that begin with a semicolon or a hash, takes those that
    begin with a bracket for sections, splits the others at the first equals sign and
    trims both parts. *)
Definition ini_key (k : string) : bool :=
  path_key k && trimmed (chars k) && lacks newline (chars k) && lacks equals_sign (chars k) &&
  match chars k with
  | c :: _ => negb (char_is semicolon c) && negb (char_is hash c) && negb (char_is bracket c)
  | [] => false
  end.
Definition ini_value (v : string) : bool := trimmed (chars v) && lacks newline (chars v).

(** The documented behaviour of [put], [get] and [count] on the children of the root
    ([put] of a string does not fail), and of the reader and the writer on the trees
    [from_ini]: those the reader makes and those that come from putting entries the
    format does not alter. *)
Class PropertyTreeLaws (T File : Type) `{PropertyTree T File} : Type := {
  from_ini : T -> Prop;
  put_ok : forall k v t, path_key k = true -> exists t', put k v t = Ok t';
  get_put : forall k v t t', path_key k = true -> put k v t = Ok t' -> get k t' = Ok v /\ count k t' <> 0%nat;
  get_put_other : forall k k' v t t', path_key k = true -> path_key k' = true -> k <> k' ->
    put k v t = Ok t' -> get k' t' = get k' t /\ count k' t' = count k' t;
  from_ini_empty : from_ini empty_tree;
  from_ini_read : forall f t, read_ini f = Ok t -> from_ini t;
  from_ini_put : forall k v t t', from_ini t -> ini_key k = true -> ini_value v = true ->
    put k v t = Ok t' -> from_ini t';
  write_read : forall t f f', from_ini t -> write_ini t f = Ok f' ->
    exists t', read_ini f' = Ok t' /\
    forall k, ini_key k = true -> get k t' = get k t /\ count k t' = count k t;
  ini_throws : forall e, (exists t f, write_ini t f = Throw e) \/ (exists f, read_ini f = Throw e) ->
    is_ini_parser_error e = true
}.

Lemma ini_key_path k : ini_key k = true -> path_key k = true.
Proof. unfold ini_key. rewrite !andb_true_iff. tauto. Qed.

Section Store.
Context {T File : Type} `{PropertyTree T File}.

(** The settings object: its tree and the file it reads and writes. *)
Record BoostPtreeSettings : Type := MkPtree { tree : T; file : File }.

(** [BoostPtreeSettings(fn)]: a file that cannot be opened or parsed is ignored; only
    [ini_parser_error] is caught. *)
Definition construct (f : File) : res BoostPtreeSettings :=
  match read_ini f with
  | Ok t => Ok (MkPtree t f)
  | Throw e => if is_ini_parser_error e then Ok (MkPtree empty_tree f) else Throw e
  end.

(** [sync()]: a failure to write is only logged. *)
Definition ptree_sync : M BoostPtreeSettings unit := fun s =>
  match write_ini (tree s) (file s) with
  | Ok f => (Ok tt, MkPtree (tree s) f)
  | Throw e => (if is_ini_parser_error e then Ok tt else Throw e, s)
  end.

Definition ptree_has_value_for_key (key : string) (s : BoostPtreeSettings) : bool :=
  (0 <? count key (tree s))%nat.

(** Whatever [tree.get] throws becomes [NoValueForKey]. *)
Definition ptree_get_string_for_key_or_throw (key : string) : M BoostPtreeSettings string := fun s =>
  match get key (tree s) with
  | Ok v => (Ok v, s)
  | Throw _ => (Throw (NoValueForKey key), s)
  end.

(** Only [ptree_bad_data] is turned into [false]: [is_bad_data] recognises it. *)
Variable is_bad_data : exn -> bool.
Definition ptree_set_string_for_key (key value : string) : M BoostPtreeSettings bool := fun s =>
  match put key value (tree s) with
  | Ok t => (Ok true, MkPtree t (file s))
  | Throw e => if is_bad_data e then (Ok false, s) else (Throw e, s)
  end.

#[local] Instance ptree_settings : Settings BoostPtreeSettings :=
  {| sync := ptree_sync; has_value_for_key := ptree_has_value_for_key;
     get_string_for_key_or_throw := ptree_get_string_for_key_or_throw;
     set_string_for_key := ptree_set_string_for_key |}.

(** The laws hold for keys that name a child of the root. *)
Lemma ptree_laws `{!PropertyTreeLaws T File} :
  SettingsLaws BoostPtreeSettings (fun k => path_key k = true).
Proof.
  split; simpl.
  - intros k v s Hk. unfold ptree_set_string_for_key, result, exec. destruct (put_ok k v (tree s) Hk) as [t Ht].
    rewrite Ht. simpl. intros _. destruct (get_put _ _ _ _ Hk Ht) as [Hg Hc].
    unfold ptree_has_value_for_key, ptree_get_string_for_key_or_throw; simpl. rewrite Hg.
    split; [|done]. apply Nat.ltb_lt. lia.
  - intros k k' v s Hk Hk' Hne. unfold ptree_set_string_for_key, result, exec.
    destruct (put_ok k v (tree s) Hk) as [t Ht]. rewrite Ht. simpl.
    destruct (get_put_other _ _ _ _ _ Hk Hk' Hne Ht) as [Hg Hc].
    unfold ptree_has_value_for_key, ptree_get_string_for_key_or_throw; simpl. rewrite Hg, Hc.
    split; [done|]. by destruct (get k' (tree s)).
  - intros k s _. unfold exec, ptree_get_string_for_key_or_throw. by destruct (get k (tree s)).
  - intros k v s Hk. unfold ptree_set_string_for_key, result.
    destruct (put_ok k v (tree s) Hk) as [t ->]. by exists true.
Qed.

End Store.
Arguments BoostPtreeSettings : clear implicits.
Arguments MkPtree {T File}.
Arguments tree {T File}.
Arguments file {T File}.

End Ptree.

(** * [SyncingSettings] *)
Module Syncing.
Section Store.
Context {S : Type} (impl : Settings S).

Definition syncing_sync : M S unit := sync.
Definition syncing_has_value_for_key (key : string) (s : S) : bool := has_value_for_key key s.
Definition syncing_get_string_for_key_or_throw (key : string) : M S string :=
  get_string_for_key_or_throw key.
Definition syncing_set_string_for_key (key value : string) : M S bool :=
  r ← set_string_for_key key value;
  when r sync;;
  mret r.

Definition SyncingSettings : Settings S :=
  {| sync := syncing_sync; has_value_for_key := syncing_has_value_for_key;
     get_string_for_key_or_throw := syncing_get_string_for_key_or_throw;
     set_string_for_key := syncing_set_string_for_key |}.

(** Syncing does not change what is stored. *)
Definition sync_transparent (P : string -> Prop) : Prop :=
  forall s, result sync s = Ok tt /\
  forall k, P k ->
    has_value_for_key k (exec sync s) = has_value_for_key k s /\
    result (get_string_for_key_or_throw k) (exec sync s) = result (get_string_for_key_or_throw k) s.

Lemma syncing_set_result P k v s b :
  sync_transparent P -> result (set_string_for_key k v) s = Ok b ->
  syncing_set_string_for_key k v s =
  (Ok b, if b then exec sync (exec (set_string_for_key k v) s) else exec (set_string_for_key k v) s).
Proof.
  intros Ht Hb. unfold syncing_set_string_for_key, result, exec in *. unfold_m.
  destruct (set_string_for_key k v s) as [r s'] eqn:E. simpl in Hb. subst r. destruct b; simpl; [|done].
  destruct (Ht s') as [Hs _]. unfold result in Hs. destruct (sync s') as [r s'']. simpl in *. by subst r.
Qed.

Lemma syncing_laws P :
  @SettingsLaws S impl P -> sync_transparent P -> @SettingsLaws S SyncingSettings P.
Proof.
  intros HL Ht.
  assert (forall k s, P k -> get_string_for_key_or_throw k s =
            (result (get_string_for_key_or_throw k) s, s)) as Hpure.
  { intros k s Hk. pose proof (get_is_pure k s Hk) as E. unfold result, exec in *.
    destruct (get_string_for_key_or_throw k s); simpl in *; congruence. }
  split; simpl.
  - intros k v s Hk Hr. destruct (set_total k v s Hk) as [b Hb].
    pose proof (syncing_set_result P k v s b Ht Hb) as E.
    unfold result, exec in Hr |- *. rewrite E in Hr |- *. simpl in *. injection Hr as ->.
    destruct (set_then_get k v s Hk Hb) as [Hh Hg].
    destruct (Ht (exec (set_string_for_key k v) s)) as [_ Hs].
    destruct (Hs k Hk) as [Hh' Hg']. unfold syncing_has_value_for_key, syncing_get_string_for_key_or_throw.
    split; [by rewrite Hh'|]. rewrite Hpure, Hg' by done. unfold result. by rewrite Hg.
  - intros k k' v s Hk Hk' Hne. destruct (set_total k v s Hk) as [b Hb].
    pose proof (syncing_set_result P k v s b Ht Hb) as E. cbv zeta.
    assert (exec (syncing_set_string_for_key k v) s =
      if b then exec sync (exec (set_string_for_key k v) s) else exec (set_string_for_key k v) s) as ->
      by (unfold exec at 1; by rewrite E).
    unfold syncing_has_value_for_key, syncing_get_string_for_key_or_throw.
    destruct (set_keeps_others k k' v s Hk Hk' Hne) as [Hh Hg].
    destruct b; [|done].
    destruct (Ht (exec (set_string_for_key k v) s)) as [_ Hs]. destruct (Hs k' Hk') as [Hh' Hg'].
    by rewrite Hh', Hg'.
  - intros k s Hk. by apply get_is_pure.
  - intros k v s Hk. destruct (set_total k v s Hk) as [b Hb]. exists b.
    unfold result. by rewrite (syncing_set_result P k v s b Ht Hb).
Qed.

End Store.
End Syncing.

(** * A store in an INI file *)

(** A reader and a writer of files without sections that satisfy the laws: the tree is
    the list of entries, the file a text. *)
Module Ini.
Import Ptree.
Abbreviation text := (list Ascii.ascii).
Abbreviation entries := (list (string * string)).

Definition str (l : text) : string := String.string_of_list_ascii l.
Definition char (n : nat) : Ascii.ascii := Ascii.ascii_of_nat n.

Fixpoint drop_spaces (l : text) : text :=
  match l with
  | [] => []
  | c :: l' => if is_space c then drop_spaces l' else l
  end.
Fixpoint drop_end (l : text) : text :=
  match l with
  | [] => []
  | c :: l => match drop_end l with
              | [] => if is_space c then [] else [c]
              | l => c :: l
              end
  end.
Definition trim (l : text) : text := drop_end (drop_spaces l).

(** The lines, and what is before and after the first character [n]. *)
Fixpoint split_lines (l : text) : list text :=
  match l with
  | [] => [[]]
  | c :: l => if char_is newline c then [] :: split_lines l
              else match split_lines l with
                   | line :: lines => (c :: line) :: lines
                   | [] => [[c]]
                   end
  end.
Fixpoint split_at (n : nat) (l : text) : option (text * text) :=
  match l with
  | [] => None
  | c :: l => if char_is n c then Some ([], l)
              else '(a, b) ← split_at n l; Some (c :: a, b)
  end.

Fixpoint look (k : string) (t : entries) : option string :=
  match t with
  | [] => None
  | (k', v) :: t => if String.eqb k' k then Some v else look k t
  end.
Fixpoint update (k v : string) (t : entries) : entries :=
  match t with
  | [] => [(k, v)]
  | (k', v') :: t => if String.eqb k' k then (k, v) :: t else (k', v') :: update k v t
  end.

Definition read_line (t : entries) (line : text) : option entries :=
  match trim line with
  | [] => Some t
  | (c :: _) as l =>
      if char_is semicolon c || char_is hash c then Some t
      else if char_is bracket c then None
      else
        '(a, b) ← split_at equals_sign l;
        match a with
        | [] => None
        | _ => match look (str (trim a)) t with
               | Some _ => None
               | None => Some (t ++ [(str (trim a), str (trim b))])
               end
        end
  end.
Fixpoint read_lines (t : entries) (lines : list text) : option entries :=
  match lines with
  | [] => Some t
  | line :: lines => t ← read_line t line; read_lines t lines
  end.

Definition entry_line (kv : string * string) : text := chars kv.1 ++ char equals_sign :: chars kv.2.
Definition write_lines (t : entries) : text := concat (map (fun kv => entry_line kv ++ [char newline]) t).

Definition or_error {A} (o : option A) : res A :=
  match o with Some a => Ok a | None => Throw (runtime_error "ini") end.

#[export] Instance ini_tree : PropertyTree entries string := {|
  empty_tree := [];
  count k t := match look k t with Some _ => 1%nat | None => 0%nat end;
  get k t := or_error (if path_key k then look k t else None);
  put k v t := or_error (if path_key k then Some (update k v t) else None);
  read_ini f := or_error (read_lines [] (split_lines (chars f)));
  write_ini t _ := or_error (if bool_decide (NoDup (map fst t)) then Some (str (write_lines t)) else None);
  is_ini_parser_error := is_std_exception
|}.

(** ** Texts *)

Lemma chars_str l : chars (str l) = l.
Proof. apply String.list_ascii_of_string_of_list_ascii. Qed.
Lemma str_chars s : str (chars s) = s.
Proof. apply String.string_of_list_ascii_of_string. Qed.

Lemma lacks_app n l m : lacks n (l ++ m) = lacks n l && lacks n m.
Proof. apply forallb_app. Qed.

Lemma drop_spaces_id c l : is_space c = false -> drop_spaces (c :: l) = c :: l.
Proof. simpl. by intros ->. Qed.

Lemma drop_end_id l d : is_space (List.last l d) = false -> drop_end l = l.
Proof.
  revert d. induction l as [|c [|c' l] IH]; intros d Hl; [done|simpl in *; by rewrite Hl|].
  change (drop_end (c :: c' :: l)) with (match drop_end (c' :: l) with [] => if is_space c then [] else [c] | m => c :: m end).
  by rewrite (IH d) by exact Hl.
Qed.

Lemma drop_end_last l d : drop_end l <> [] -> is_space (List.last (drop_end l) d) = false.
Proof.
  induction l as [|c l IH]; [done|]. simpl. destruct (drop_end l) as [|e m] eqn:E.
  - destruct (is_space c) eqn:Ec; done.
  - intros _. change (is_space (List.last (e :: m) d) = false). by apply IH.
Qed.

Lemma drop_end_cons c l : is_space c = false -> exists m, drop_end (c :: l) = c :: m.
Proof. intros Hc. simpl. rewrite Hc. destruct (drop_end l); eauto. Qed.

Lemma last_default (l : text) c d : l <> [] -> List.last l c = List.last l d.
Proof. induction l as [|e [|e' l] IH]; [done|done|]. intros _. by apply IH. Qed.

Lemma last_app_cons (l : text) e m c : List.last (l ++ e :: m) c = List.last (e :: m) e.
Proof.
  induction l as [|f [|f' l] IH]; [by apply last_default|exact IH|exact IH].
Qed.

Lemma trim_trimmed l : trimmed l = true -> trim l = l.
Proof.
  unfold trim, trimmed. destruct l as [|c l]; [done|]. rewrite andb_true_iff, !negb_true_iff. intros [Hc Hl].
  rewrite drop_spaces_id by done. by apply (drop_end_id _ c).
Qed.

Lemma drop_spaces_head l c m : drop_spaces l = c :: m -> is_space c = false.
Proof.
  induction l as [|e l IH]; [done|]. simpl. destruct (is_space e) eqn:E; [done|]. by intros [= <- <-].
Qed.

Lemma trimmed_trim l : trimmed (trim l) = true.
Proof.
  unfold trim. destruct (drop_spaces l) as [|c m] eqn:E; [done|].
  pose proof (drop_spaces_head _ _ _ E) as Hc. destruct (drop_end_cons c m Hc) as [m' E'].
  pose proof (drop_end_last (c :: m) c) as Hl. rewrite E' in *. unfold trimmed.
  by rewrite Hc, Hl.
Qed.

Lemma lacks_trim n l : lacks n l = true -> lacks n (trim l) = true.
Proof.
  intros H. unfold trim.
  assert (lacks n (drop_spaces l) = true) as H1.
  { induction l as [|c l IH]; [done|]. simpl in *. destruct (is_space c); [|done].
    apply andb_true_iff in H as [_ H]. auto. }
  revert H1. generalize (drop_spaces l). clear l H. intros l. induction l as [|c l IH]; [done|].
  simpl. rewrite andb_true_iff. intros [Hc Hl]. specialize (IH Hl).
  destruct (drop_end l); [destruct (is_space c)|]; simpl in *; by rewrite ?Hc, ?IH.
Qed.

Lemma split_at_app n l c m : lacks n l = true -> char_is n c = true -> split_at n (l ++ c :: m) = Some (l, m).
Proof.
  intros Hl Hc. induction l as [|e l IH]; simpl in *; [by rewrite Hc|].
  apply andb_true_iff in Hl as [He%negb_true_iff Hl]. by rewrite He, IH.
Qed.

Lemma split_at_spec n l a b :
  split_at n l = Some (a, b) -> lacks n a = true /\ exists c, char_is n c = true /\ l = a ++ c :: b.
Proof.
  revert a. induction l as [|c l IH]; intros a; simpl; [done|]. destruct (char_is n c) eqn:Ec.
  - intros [= <- <-]. split; [done|]. by exists c.
  - destruct (split_at n l) as [[a' b']|]; [|done]. simpl. intros [= <- <-].
    destruct (IH a' eq_refl) as (Ha & e & He & ->). split; [simpl; by rewrite Ec|]. by exists e.
Qed.

Lemma split_lines_app l m : lacks newline l = true ->
  split_lines (l ++ char newline :: m) = l :: split_lines m.
Proof.
  induction l as [|c l IH]; [done|]. simpl. rewrite andb_true_iff, negb_true_iff. intros [Hc Hl].
  by rewrite Hc, IH.
Qed.

Lemma split_lines_lack l : Forall (fun line => lacks newline line = true) (split_lines l).
Proof.
  induction l as [|c l IH]; [by repeat constructor|]. simpl. destruct (char_is newline c) eqn:Ec.
  - by constructor.
  - destruct (split_lines l) as [|line lines]; [by repeat constructor; simpl; rewrite Ec|].
    inversion_clear IH. constructor; [simpl; by rewrite Ec|done].
Qed.

(** ** Entries *)

(** What an entry of a file can be: a key of the file may have a dot. *)
Definition entry_key (l : text) : bool :=
  trimmed l && lacks newline l && lacks equals_sign l &&
  match l with
  | c :: _ => negb (char_is semicolon c) && negb (char_is hash c) && negb (char_is bracket c)
  | [] => false
  end.
Definition entry_ok (kv : string * string) : Prop :=
  entry_key (chars kv.1) = true /\ ini_value kv.2 = true.
Definition writable (t : entries) : Prop := Forall entry_ok t /\ NoDup (map fst t).

Lemma ini_entry k : ini_key k = true -> entry_key (chars k) = true.
Proof. unfold ini_key, entry_key. rewrite !andb_true_iff. tauto. Qed.

Lemma look_none k t : look k t = None <-> k ∉ map fst t.
Proof.
  induction t as [|[k' v] t IH]; simpl; [split; [intros _; apply not_elem_of_nil|done]|].
  rewrite not_elem_of_cons. destruct (String.eqb_spec k' k) as [->|Hne]; [split; [done|by intros []]|].
  rewrite IH. split; [intros; by split; [congruence|]|by intros []].
Qed.

Lemma look_update k v t : look k (update k v t) = Some v.
Proof.
  induction t as [|[k' v'] t IH]; simpl; [by rewrite String.eqb_refl|].
  destruct (String.eqb_spec k' k) as [->|Hne]; simpl; [by rewrite String.eqb_refl|].
  destruct (String.eqb_spec k' k); [done|exact IH].
Qed.
Lemma look_update_ne k k' v t : k <> k' -> look k' (update k v t) = look k' t.
Proof.
  intros Hne. induction t as [|[k1 v1] t IH]; simpl; [by destruct (String.eqb_spec k k')|].
  destruct (String.eqb_spec k1 k) as [->|H1]; simpl.
  - by destruct (String.eqb_spec k k').
  - by rewrite IH.
Qed.

Lemma update_keys k v t x : x ∈ map fst (update k v t) -> x = k \/ x ∈ map fst t.
Proof.
  induction t as [|[k' v'] t IH]; simpl; [set_solver|].
  destruct (String.eqb_spec k' k) as [->|Hne]; simpl; set_solver.
Qed.

Lemma writable_update k v t :
  entry_ok (k, v) -> writable t -> writable (update k v t).
Proof.
  intros Hk [Ht Hn]. split.
  - induction Ht as [|[k' v'] t Hkv Ht IH]; simpl; [by apply Forall_singleton|].
    simpl in Hn. apply NoDup_cons in Hn as [_ Hn].
    destruct (String.eqb k' k); constructor; auto.
  - clear Ht. induction t as [|[k' v'] t IH]; simpl in *; [by repeat constructor; apply not_elem_of_nil|].
    apply NoDup_cons in Hn as [Hk' Hn]. destruct (String.eqb_spec k' k) as [->|Hne]; simpl.
    + by constructor.
    + constructor; [|by apply IH]. intros [->|Hx]%update_keys; done.
Qed.

(** ** Reading what was written *)

Lemma trimmed_entry k v :
  entry_key (chars k) = true -> ini_value v = true -> trimmed (entry_line (k, v)) = true.
Proof.
  unfold entry_key, ini_value, entry_line. cbn [fst snd]. destruct (chars k) as [|c l]; [by rewrite andb_false_r|].
  rewrite !andb_true_iff. intros [[[Hk _] _] _] [Hv _].
  unfold trimmed in *. cbn [app]. apply andb_true_iff in Hk as [-> _]. rewrite app_comm_cons, last_app_cons.
  destruct (chars v) as [|d w]; [done|]. apply andb_true_iff in Hv as [_ Hv].
  change (negb (is_space (List.last (d :: w) (char equals_sign))) = true). by rewrite (last_default _ _ d).
Qed.

Lemma read_entry t k v :
  entry_ok (k, v) -> k ∉ map fst t -> read_line t (entry_line (k, v)) = Some (t ++ [(k, v)]).
Proof.
  intros [Hk Hv] Hn. simpl in *. unfold read_line. rewrite trim_trimmed by by apply trimmed_entry.
  unfold entry_line. simpl. unfold entry_key in Hk. rewrite !andb_true_iff in Hk.
  destruct Hk as [[[Ht Hl] He] Hc]. unfold ini_value in Hv. apply andb_true_iff in Hv as [Hv _].
  destruct (chars k) as [|c l] eqn:E; [done|]. rewrite !andb_true_iff, !negb_true_iff in Hc.
  destruct Hc as [[E1 E2] E3].
  assert (exists m, (c :: l) ++ char equals_sign :: chars v = c :: m /\
                    split_at equals_sign (c :: m) = Some (c :: l, chars v)) as (m & -> & Hs).
  { eexists. split; [reflexivity|]. by apply (split_at_app _ (c :: l)). }
  cbv iota beta. rewrite E1, E2, E3. change (false || false) with false. cbv iota. simpl in Hs. rewrite Hs. simpl. rewrite !trim_trimmed by done. rewrite <- E, !str_chars.
  by apply look_none in Hn as ->.
Qed.

Lemma lacks_entry kv : entry_ok kv -> lacks newline (entry_line kv) = true.
Proof.
  destruct kv as [k v]. unfold entry_ok, entry_key, ini_value, entry_line. simpl. rewrite !andb_true_iff.
  intros [[[[_ Hk] _] _] [_ Hv]]. rewrite lacks_app, Hk. simpl. exact Hv.
Qed.

Lemma read_written t u :
  Forall entry_ok u -> NoDup (map fst (t ++ u)) ->
  read_lines t (split_lines (write_lines u)) = Some (t ++ u).
Proof.
  intros Hu. revert t. induction Hu as [|[k v] u Hkv Hu IH]; intros t Hn; [by rewrite app_nil_r|].
  unfold write_lines. simpl map. simpl concat. rewrite <- app_assoc. simpl app.
  rewrite split_lines_app by by apply lacks_entry. simpl read_lines.
  rewrite read_entry; [|done|].
  - simpl. rewrite IH; [by rewrite <- app_assoc|]. by rewrite <- app_assoc.
  - rewrite map_app in Hn. apply NoDup_app in Hn as (_ & Hd & _). intros Hin. apply (Hd k Hin). by left.
Qed.

Lemma writable_read_line t line t' :
  lacks newline line = true -> writable t -> read_line t line = Some t' -> writable t'.
Proof.
  intros Hline [Ht Hn]. unfold read_line.
  pose proof (lacks_trim newline _ Hline) as Hl. pose proof (trimmed_trim line) as Htr.
  destruct (trim line) as [|c l]; [by intros [= <-]|].
  destruct (char_is semicolon c) eqn:E1; [by intros [= <-]|].
  destruct (char_is hash c) eqn:E2; [by intros [= <-]|].
  destruct (char_is bracket c) eqn:E3; [done|]. cbv [orb].
  destruct (split_at equals_sign (c :: l)) as [[a b]|] eqn:Es; [|done]. simpl.
  destruct (split_at_spec equals_sign (c :: l) a b Es) as (Ha & e & He & E).
  destruct a as [|c' a]; [done|]. injection E as -> E.
  destruct (look _ t) eqn:Ek; [done|]. intros [= <-]. apply look_none in Ek.
  rewrite E, app_comm_cons, lacks_app in Hl. apply andb_true_iff in Hl as [Hla Hlb].
  simpl in Hlb. apply andb_true_iff in Hlb as [_ Hlb].
  split.
  - apply Forall_app. split; [done|]. apply Forall_singleton. unfold entry_ok. simpl. rewrite !chars_str.
    unfold ini_value, entry_key. rewrite !chars_str, !trimmed_trim, !lacks_trim by done.
    split; [|done]. cbn [andb]. unfold trimmed in Htr. apply andb_true_iff in Htr as [Hc%negb_true_iff _].
    unfold trim. rewrite drop_spaces_id by done.
    destruct (drop_end_cons c' a Hc) as [m ->]. by rewrite E1, E2, E3.
  - rewrite map_app. apply NoDup_app. split_and!; [done| |apply NoDup_singleton].
    intros x Hx ->%list_elem_of_singleton. done.
Qed.

Lemma writable_read_lines lines t t' :
  Forall (fun line => lacks newline line = true) lines -> writable t ->
  read_lines t lines = Some t' -> writable t'.
Proof.
  intros Hl. revert t. induction Hl as [|line lines Hline Hl IH]; intros t Ht; simpl; [by intros [= <-]|].
  destruct (read_line t line) as [t1|] eqn:E; [|done]. simpl. apply IH. by eapply writable_read_line.
Qed.

#[export, refine] Instance ini_tree_laws : PropertyTreeLaws entries string := {| from_ini := writable |}.
Proof.
  all: simpl.
  - intros k v t ->. by eexists.
  - intros k v t t' Hk. rewrite Hk. intros [= <-]. simpl. by rewrite look_update.
  - intros k k' v t t' Hk Hk' Hne. rewrite Hk, Hk'. intros [= <-]. simpl. by rewrite look_update_ne.
  - split; [done|constructor].
  - intros f t. destruct (read_lines [] _) as [u|] eqn:E; [|done]. intros [= <-].
    eapply writable_read_lines; [apply split_lines_lack| |done]. split; [done|constructor].
  - intros k v t t' Ht Hk Hv. rewrite (ini_key_path k Hk). intros [= <-].
    apply writable_update; [|done]. split; [by apply ini_entry|done].
  - intros t f f' [Ht Hn]. rewrite bool_decide_eq_true_2 by done. intros [= <-]. exists t.
    rewrite chars_str, (read_written [] t) by done. done.
  - intros e [(t & f & E)|(f & E)]; unfold or_error in E; repeat case_match; by simplify_eq.
Defined.
End Ini.

(** * Properties *)
Module Persistence.
Import Ptree Syncing Ini.

Section Restart.
Context {T File : Type} `{!PropertyTree T File, !PropertyTreeLaws T File}.
Variable is_bad_data : exn -> bool.

(** The settings the daemon uses: a [SyncingSettings] over a [BoostPtreeSettings]. *)
Definition daemon_settings : Settings (BoostPtreeSettings T File) :=
  SyncingSettings (ptree_settings is_bad_data).

(** Several settings in a row. *)
Definition set_all (kvs : list (string * string)) : M (BoostPtreeSettings T File) unit :=
  for_each kvs (fun kv => set_string_for_key (Settings := daemon_settings) kv.1 kv.2;; skip).

Lemma daemon_set_tree k v (s : BoostPtreeSettings T File) t :
  put k v (tree s) = Ok t ->
  tree (exec (set_string_for_key (Settings := daemon_settings) k v) s) = t.
Proof.
  intros Hp. unfold exec. simpl. unfold syncing_set_string_for_key. simpl. unfold_m.
  unfold ptree_set_string_for_key. rewrite Hp. simpl. unfold ptree_sync. simpl.
  destruct (write_ini t (file s)); simpl; [done|]. by destruct (is_ini_parser_error e).
Qed.

Lemma from_ini_set k v (s : BoostPtreeSettings T File) :
  ini_key k = true -> ini_value v = true -> from_ini (tree s) ->
  from_ini (tree (exec (set_string_for_key (Settings := daemon_settings) k v) s)).
Proof.
  intros Hk Hv Ht. destruct (put_ok k v (tree s) (ini_key_path k Hk)) as [t Hp].
  rewrite (daemon_set_tree k v s t Hp). by eapply from_ini_put.
Qed.

Lemma from_ini_set_all kvs (s : BoostPtreeSettings T File) :
  Forall (fun kv => ini_key kv.1 = true /\ ini_value kv.2 = true) kvs -> from_ini (tree s) ->
  from_ini (tree (exec (set_all kvs) s)).
Proof.
  intros Hs Ht. revert s Ht.
  change (preserves (fun s : BoostPtreeSettings T File => from_ini (tree s)) (set_all kvs)).
  unfold set_all. apply preserves_for_each. intros [k v] Hin%list_elem_of_In.
  rewrite Forall_forall in Hs. destruct (Hs _ Hin) as [Hk Hv].
  apply preserves_bind; [|auto with ls]. intros s. by apply from_ini_set.
Qed.

Lemma from_ini_construct f (s : BoostPtreeSettings T File) :
  construct f = Ok s -> from_ini (tree s).
Proof.
  unfold construct. destruct (read_ini f) as [t|e] eqn:E; [intros [= <-]; by eapply from_ini_read|].
  destruct (is_ini_parser_error e); [intros [= <-]; apply from_ini_empty|done].
Qed.

(** C18: what is stored through the daemon's settings survives a restart.  The settings
    are constructed from a file and set any number of times, then a state is stored;
    every key and text is one the file format does not alter ([ini_key], [ini_value]).
    If the file could be written, settings constructed from it afterwards hold the
    stored state, whatever the default, and for every such key exactly what the settings
    held before the restart. *)
Theorem settings_survive_restart {E} `{Streamable E} (f0 f : File) (s0 : BoostPtreeSettings T File)
    (kvs : list (string * string)) (key : string) (v default_value : E) :
  construct f0 = Ok s0 ->
  Forall (fun kv => ini_key kv.1 = true /\ ini_value kv.2 = true) kvs ->
  ini_key key = true -> ini_value (print v) = true ->
  let s := exec (set_all kvs) s0 in
  let s' := exec (set_enum_for_key (HS := daemon_settings) key v) s in
  write_ini (tree s') (file s) = Ok f ->
  result (set_enum_for_key (HS := daemon_settings) key v) s = Ok true /\
  file s' = f /\
  exists s2, construct f = Ok s2 /\
    result (get_enum_for_key (HS := ptree_settings is_bad_data) key default_value) s2 = Ok v /\
    forall k, ini_key k = true ->
      ptree_has_value_for_key k s2 = ptree_has_value_for_key k s' /\
      result (ptree_get_string_for_key_or_throw k) s2 = result (ptree_get_string_for_key_or_throw k) s'.
Proof.
  intros Hc Hkvs Hk Hv s s' Hw.
  assert (from_ini (tree s)) as Hs by (apply from_ini_set_all; [done|by eapply from_ini_construct]).
  assert (from_ini (tree s')) as Hs' by by apply from_ini_set.
  destruct (put_ok key (print v) (tree s) (ini_key_path key Hk)) as [t Hp].
  assert (tree s' = t) as Ht by by apply daemon_set_tree. rewrite Ht in Hw, Hs'.
  assert (set_enum_for_key (HS := daemon_settings) key v s = (Ok true, MkPtree t f)) as E1.
  { unfold set_enum_for_key. simpl. unfold syncing_set_string_for_key. simpl. unfold_m.
    unfold ptree_set_string_for_key. rewrite Hp. simpl. unfold ptree_sync. simpl. by rewrite Hw. }
  assert (s' = MkPtree t f) as -> by (unfold s', exec; by rewrite E1).
  split; [unfold result; by rewrite E1|]. split; [done|].
  destruct (write_read _ _ _ Hs' Hw) as (t2 & Hr & Hg). exists (MkPtree t2 f).
  split; [unfold construct; by rewrite Hr|].
  unfold ptree_has_value_for_key, ptree_get_string_for_key_or_throw, result. simpl. split.
  - destruct (get_put _ _ _ _ (ini_key_path key Hk) Hp) as [Hget Hcount].
    destruct (Hg key Hk) as [Hget' Hcount'].
    unfold get_enum_for_key, get_string_for_key. unfold_m.
    unfold ptree_has_value_for_key, ptree_get_string_for_key_or_throw. simpl.
    rewrite Hcount'. replace (0 <? count key t)%nat with true by (symmetry; apply Nat.ltb_lt; lia).
    simpl. rewrite Hget', Hget. simpl. by rewrite parse_print.
  - intros k Hik. destruct (Hg k Hik) as [-> ->]. split; [done|]. by destruct (get k t).
Qed.

(** what a look-up of a state can return: the default for an absent key, the
    stored state for a printed one, and an exception for text that is no state. *)
Theorem get_enum_outcomes {E} `{Streamable E} (key text : string) (default_value : E)
    (s : BoostPtreeSettings T File) :
  (count key (tree s) = 0%nat ->
     result (get_enum_for_key (HS := ptree_settings is_bad_data) key default_value) s
     = Ok default_value) /\
  (count key (tree s) <> 0%nat -> get key (tree s) = Ok text ->
     result (get_enum_for_key (HS := ptree_settings is_bad_data) key default_value) s
     = parse text) /\
  (count key (tree s) <> 0%nat -> (exists e, get key (tree s) = Throw e) ->
     result (get_enum_for_key (HS := ptree_settings is_bad_data) key default_value) s
     = Throw (NoValueForKey key)).
Proof.
  unfold get_enum_for_key, get_string_for_key, result. unfold_m.
  unfold ptree_has_value_for_key, ptree_get_string_for_key_or_throw. split_and!.
  - intros ->. simpl. by rewrite parse_print.
  - intros Hc Hg. replace (0 <? count key (tree s))%nat with true
      by (symmetry; apply Nat.ltb_lt; lia). simpl. by rewrite Hg.
  - intros Hc [e Hg]. replace (0 <? count key (tree s))%nat with true
      by (symmetry; apply Nat.ltb_lt; lia). simpl. by rewrite Hg.
Qed.
End Restart.

(** A concrete tree and file: both are the map from keys to values. *)
Abbreviation key_map := (gmap string string).
#[export] Instance map_tree : PropertyTree key_map key_map := {|
  empty_tree := ∅;
  count k t := match t !! k with Some _ => 1%nat | None => 0%nat end;
  get k t := match t !! k with Some v => Ok v | None => Throw (runtime_error "No such node") end;
  put k v t := Ok (<[k:=v]> t);
  read_ini f := Ok f;
  write_ini t _ := Ok t;
  is_ini_parser_error := is_std_exception
|}.
#[export, refine] Instance map_tree_laws : PropertyTreeLaws key_map key_map := {| from_ini _ := True |}.
Proof.
  all: simpl.
  - intros k v t _. eauto.
  - intros k v t t' _ [= <-]. by rewrite !lookup_insert_eq.
  - intros k k' v t t' _ _ Hne [= <-]. by rewrite !lookup_insert_ne.
  - done.
  - done.
  - done.
  - intros t _ f' _ [= <-]. eauto.
  - naive_solver.
Defined.

(** A file with a comment, an entry that is overwritten and one that stays. *)
Definition sample_file : string := String.concat (str [char newline])
  ["; settings"; "Engine::State = Engine::Status::on "; "other=a=b"; ""].

Lemma settings_survive_restart_witness :
  exists s0, construct (T := entries) sample_file = Ok s0 /\
  exists s2, construct (T := entries)
      (file (exec (set_enum_for_key (HS := daemon_settings is_std_exception) "Engine::State" off)
               (exec (set_all is_std_exception [("Engine::State", "Engine::Status::active"); ("third", "")]) s0)))
    = Ok s2 /\
    result (get_enum_for_key (HS := ptree_settings is_std_exception) "Engine::State" on) s2 = Ok off /\
    result (ptree_get_string_for_key_or_throw "other") s2 = Ok "a=b".
Proof.
  eexists. split; [vm_compute; reflexivity|].
  edestruct (settings_survive_restart (T := entries) (File := string) is_std_exception (E := Status)
    sample_file) with (kvs := [("Engine::State", "Engine::Status::active"); ("third", "")])
    (key := "Engine::State") (v := off) (default_value := on) as (_ & Hf & s2 & Hc & Hg & Ho);
    [vm_compute; reflexivity|repeat constructor|reflexivity|reflexivity|vm_compute; reflexivity|].
  exists s2. split_and!; [rewrite <- Hc; f_equal; exact Hf|exact Hg|].
  rewrite (proj2 (Ho "other" eq_refl)). reflexivity.
Defined.

Lemma get_enum_outcomes_witness :
  let s : BoostPtreeSettings key_map key_map := MkPtree {["Engine::State" := "nonsense"]} ∅ in
  exists what,
  result (get_enum_for_key (HS := ptree_settings is_std_exception) "Engine::State" on) s
  = Throw (runtime_error what).
Proof.
  simpl.
  destruct (get_enum_outcomes is_std_exception "Engine::State" "nonsense" on
    (MkPtree ({["Engine::State" := "nonsense"]} : key_map) (∅ : key_map))) as (_ & H & _).
  eexists. rewrite H; [reflexivity|vm_compute; discriminate|reflexivity].
Defined.

End Persistence.
