(* ===== verification/Fusion.v ===== *)
(** Providers built from providers, and the policies that choose them:
    [state_tracking_provider.h], [proxy_provider.h/.cpp], [fusion_provider.h/.cpp],
    [provider_selection.h], [default_provider_selection_policy.cpp],
    [non_selecting_provider_selection_policy.cpp] and
    [fusion_provider_selection_policy.cpp].  A provider is identified by its
    address; its start and stop functions are statements over a world [W] in which
    the controllers of the wrapped providers live. *)
From Stdlib Require Import ZArith Lia SpecFloat.
From stdpp Require Import base gmap strings list.
From S2P Require Import Prelude Floats Geometry Criteria UpdatePolicy Provider Property.
Local Open Scope Z_scope.
#[local] Set Warnings "-clear-no-such-hyp".
Import Controller Selector.

Abbreviation address := nat.

(** What a provider delivers through [Provider::Updates]. *)
Inductive Signal : Type :=
| SigPosition (u : Update Geometry.Position)
| SigHeading (u : Update Geometry.Heading)
| SigVelocity (u : Update Geometry.Velocity)
| SigSvs (u : Update (list SV.SpaceVehicle)).

(** * [StateTrackingProvider] *)
Module Tracking.

(** [StateTrackingProvider::State] *)
Inductive TrackingState : Set := tracking_active | tracking_enabled.

#[export] Instance TrackingState_eq_dec : EqDecision TrackingState.
Proof. solve_decision. Defined.

(** The state of a new instance. *)
Definition initial_state : TrackingState := tracking_enabled.

(** The updates of the wrapped provider are re-emitted, one connection each. *)
Definition tracking_forward (s : Signal) : list Signal :=
  match s with
  | SigPosition u => [SigPosition u]
  | SigHeading u => [SigHeading u]
  | SigVelocity u => [SigVelocity u]
  | SigSvs u => [SigSvs u]
  end.

(** The six functions: the state property is assigned, then the wrapped provider's
    controller is asked. *)
Definition tracking_instance {W} (set_state : TrackingState -> M W unit) (impl : Controller W)
  : Instance W :=
  MkInstance
    (set_state tracking_active;; start_position_updates impl)
    (set_state tracking_enabled;; stop_position_updates impl)
    (set_state tracking_active;; start_heading_updates impl)
    (set_state tracking_enabled;; stop_heading_updates impl)
    (set_state tracking_active;; start_velocity_updates impl)
    (set_state tracking_enabled;; stop_velocity_updates impl).

End Tracking.

(** * [ProviderSelection] and [ProxyProvider] *)
Module Proxy.

Record ProviderSelection : Type := MkSelection {
  position_updates_provider : option address;
  heading_updates_provider : option address;
  velocity_updates_provider : option address
}.

#[export] Instance ProviderSelection_eq_dec : EqDecision ProviderSelection.
Proof. solve_decision. Defined.

Definition engaged {A} (o : option A) : bool := match o with Some _ => true | None => false end.

(** [ProviderSelection::to_feature_flags] *)
Definition to_feature_flags (s : ProviderSelection) : Z :=
  let flags := Flags.features_none in
  let flags := if engaged (position_updates_provider s)
               then Flags.flag_or flags Flags.features_position else flags in
  let flags := if engaged (heading_updates_provider s)
               then Flags.flag_or flags Flags.features_heading else flags in
  let flags := if engaged (velocity_updates_provider s)
               then Flags.flag_or flags Flags.features_velocity else flags in
  flags.

(** [operator==]: the three pointers. *)
Definition selection_eq (l r : ProviderSelection) : bool :=
  bool_decide (position_updates_provider l = position_updates_provider r) &&
  bool_decide (heading_updates_provider l = heading_updates_provider r) &&
  bool_decide (velocity_updates_provider l = velocity_updates_provider r).

(** What the proxy re-emits of a signal of provider [from]. *)
Definition proxy_forward (sel : ProviderSelection) (from : address) (s : Signal) : list Signal :=
  match s with
  | SigPosition _ => if decide (position_updates_provider sel = Some from) then [s] else []
  | SigHeading _ => if decide (heading_updates_provider sel = Some from) then [s] else []
  | SigVelocity _ => if decide (velocity_updates_provider sel = Some from) then [s] else []
  | SigSvs _ => []
  end.

(** The six functions, given the controllers of the three selected providers. *)
Definition proxy_instance {W} (position_c heading_c velocity_c : Controller W) : Instance W :=
  MkInstance
    (start_position_updates position_c) (stop_position_updates position_c)
    (start_heading_updates heading_c) (stop_heading_updates heading_c)
    (start_velocity_updates velocity_c) (stop_velocity_updates velocity_c).

End Proxy.

(** * [FusionProvider] *)
Module Fusion.

Definition all_features : Z :=
  Flags.flag_or (Flags.flag_or Flags.features_position Flags.features_heading) Flags.features_velocity.
Definition all_requirements : Z :=
  Flags.flag_or (Flags.flag_or (Flags.flag_or Flags.cell_network Flags.data_network)
                               Flags.monetary_spending) Flags.satellites.

Record FusionProvider : Type := MkFusion {
  last_position : option (WithSource (Update Geometry.Position));
  providers : list address
}.

Definition fusion_matches_criteria (c : Criteria.Criteria) : bool := true.

Section Selecting.
Variable select : WithSource (Update Geometry.Position) -> WithSource (Update Geometry.Position) ->
                  res (WithSource (Update Geometry.Position)).

(** The slots on the wrapped providers' updates: what is re-emitted. *)
Definition fusion_on_update (from : address) (s : Signal) : M FusionProvider (list Signal) :=
  fun this =>
  if negb (bool_decide (from ∈ providers this)) then (Ok [], this) else
  match s with
  | SigPosition u =>
      let next := MkWithSource from u in
      match last_position this with
      | None => (Ok [SigPosition u], MkFusion (Some next) (providers this))
      | Some last =>
          match select last next with
          | Ok p => (Ok [SigPosition (content p)], MkFusion (Some p) (providers this))
          | Throw e => if is_std_exception e then (Ok [], this) else (Throw e, this)
          end
      end
  | SigHeading u => (Ok [SigHeading u], this)
  | SigVelocity u => (Ok [SigVelocity u], this)
  | SigSvs _ => (Ok [], this)
  end.
End Selecting.

(** The notifications and the start and stop functions reach every provider, in
    the order of the set. *)
Definition fusion_for_all {W} (ps : list address) (f : address -> M W unit) : M W unit := for_each ps f.

Definition fusion_instance {W} (ps : list address) (controller : address -> Controller W) : Instance W :=
  MkInstance
    (fusion_for_all ps (fun p => start_position_updates (controller p)))
    (fusion_for_all ps (fun p => stop_position_updates (controller p)))
    (fusion_for_all ps (fun p => start_heading_updates (controller p)))
    (fusion_for_all ps (fun p => stop_heading_updates (controller p)))
    (fusion_for_all ps (fun p => start_velocity_updates (controller p)))
    (fusion_for_all ps (fun p => stop_velocity_updates (controller p))).

(** A sequence of position updates from the wrapped providers, and what comes out. *)
Fixpoint fuse (select : WithSource (Update Geometry.Position) -> WithSource (Update Geometry.Position) ->
                        res (WithSource (Update Geometry.Position)))
  (this : FusionProvider) (us : list (address * Update Geometry.Position))
  : list (list Signal) * FusionProvider :=
  match us with
  | [] => ([], this)
  | (from, u) :: us =>
      match fusion_on_update select from (SigPosition u) this with
      | (Ok out, this') => let r := fuse select this' us in (out :: r.1, r.2)
      | (Throw _, this') => ([], this')
      end
  end.

(** The selector of [FusionProviderSelectionPolicy]; it does not throw. *)
Definition default_select `{BoostOptional} older newer : res (WithSource (Update Geometry.Position)) :=
  Ok (select_newer_or_more_accurate older newer).

Lemma select_one_of `{BoostOptional} older newer :
  select_newer_or_more_accurate older newer = older \/
  select_newer_or_more_accurate older newer = newer.
Proof. unfold select_newer_or_more_accurate. repeat case_match; auto. Qed.

Lemma select_newer_when `{BoostOptional} older newer :
  source newer = source older \/ when_ (content older) + 11000000000 < when_ (content newer) ->
  select_newer_or_more_accurate older newer = newer.
Proof.
  intros Hc. unfold select_newer_or_more_accurate, cutoff, ns_of_s.
  destruct (Nat.eqb_spec (source newer) (source older)); [done|].
  destruct Hc as [|Hc]; [done|]. apply Z.ltb_lt in Hc. change (11 * 1000000000) with 11000000000.
  by rewrite Hc.
Qed.

Lemma fuse_step `{BoostOptional} last ps from u :
  from ∈ ps ->
  fusion_on_update default_select from (SigPosition u) (MkFusion last ps) =
  let p := match last with
           | None => MkWithSource from u
           | Some l => select_newer_or_more_accurate l (MkWithSource from u)
           end in
  (Ok [SigPosition (content p)], MkFusion (Some p) ps).
Proof.
  intros Hin. unfold fusion_on_update. simpl. rewrite bool_decide_true by done. simpl.
  by destruct last.
Qed.

(** C20: the fused stream.  Every position update of a fused provider produces exactly
    one position update; it is the update itself or a repetition of what the fusion
    held before; and it is the update itself whenever its source is the one last
    chosen or it is more than eleven seconds newer than what was chosen, so no
    source can hold the stream for longer than that. *)
Theorem fused_stream `{BoostOptional} (ps : list address) (last : option (WithSource (Update Geometry.Position)))
    (us : list (address * Update Geometry.Position)) :
  Forall (fun p => p.1 ∈ ps) us ->
  let r := fuse default_select (MkFusion last ps) us in
  length r.1 = length us /\ providers r.2 = ps /\
  forall n from u, us !! n = Some (from, u) ->
    let before := (fuse default_select (MkFusion last ps) (take n us)).2 in
    let after := (fuse default_select (MkFusion last ps) (take (S n) us)).2 in
    exists p, last_position after = Some p /\ r.1 !! n = Some [SigPosition (content p)] /\
      (p = MkWithSource from u \/ last_position before = Some p) /\
      (forall l, last_position before = Some l ->
         source l = from \/ when_ (content l) + 11000000000 < when_ u -> p = MkWithSource from u).
Proof.
  revert last. induction us as [|[from u] us IH]; intros last Hall; cbn [fuse].
  { split_and!; [done..|]. intros n from u [=]. }
  apply Forall_cons in Hall as [Hin Hall]. simpl in Hin.
  pose proof (fuse_step last ps from u Hin) as Hs. cbv zeta in Hs.
  set (p0 := match last with None => _ | Some l => _ end) in Hs.
  rewrite Hs. cbv zeta. destruct (IH (Some p0) Hall) as (IHl & IHp & IHn).
  split_and!; [simpl; by f_equal|done|].
  intros [|n] from' u' Hn; simpl in Hn.
  - injection Hn as <- <-. cbn [take fuse]. rewrite Hs. simpl.
    exists p0. split_and!; [done|done| |].
    + subst p0. destruct last as [l|]; [|by left].
      destruct (select_one_of l (MkWithSource from u)) as [->| ->]; auto.
    + intros l -> Hc. subst p0. apply select_newer_when. simpl. destruct Hc; auto.
  - destruct (IHn n from' u' Hn) as (p & H1 & H2 & H3 & H4). exists p.
    cbn [take fuse]. rewrite Hs. simpl. auto.
Qed.

Lemma fused_stream_witness :
  let us := [(1%nat, TimeBased.sample_update (Some (d_of_Z 10)) 0);
             (2%nat, TimeBased.sample_update (Some (d_of_Z 50)) 5000000000);
             (2%nat, TimeBased.sample_update (Some (d_of_Z 50)) 12000000000)] in
  Forall (fun p => p.1 ∈ [1%nat; 2%nat]) us /\
  length (fuse default_select (MkFusion None [1%nat; 2%nat]) us).1 = 3%nat.
Proof.
  simpl.
  assert (Forall (fun p : address * Update Geometry.Position => p.1 ∈ [1%nat; 2%nat])
    [(1%nat, TimeBased.sample_update (Some (d_of_Z 10)) 0);
     (2%nat, TimeBased.sample_update (Some (d_of_Z 50)) 5000000000);
     (2%nat, TimeBased.sample_update (Some (d_of_Z 50)) 12000000000)]) as HF
    by (repeat constructor).
  split; [exact HF|].
  exact (proj1 (fused_stream [1%nat; 2%nat] None _ HF)).
Defined.

End Fusion.

(** * Selection policies *)
Module Policy.

(** [std::set<T, Less>]: ascending; an element equivalent to a present one is not
    inserted. *)
Section StdSet.
Context {A : Type} (less : A -> A -> bool).
Fixpoint std_insert (x : A) (s : list A) : list A :=
  match s with
  | [] => [x]
  | y :: s' => if less x y then x :: s else if less y x then y :: std_insert x s' else s
  end.
Definition std_set (xs : list A) : list A := fold_left (fun s x => std_insert x s) xs [].
End StdSet.

(** The enumeration offers every provider with its controller's state and its answer
    to [matches_criteria]. *)
Section Default.
Context (null_provider : address).
Variables (matches_criteria : address -> bool)
          (position_running heading_running velocity_running : address -> bool).

(** The comparison of the set of matches: a running provider comes first. *)
Definition running_first (running : address -> bool) (lhs rhs : address) : bool :=
  running lhs && negb (running rhs).

(** The common body of the three [determine_*_updates_provider]. *)
Definition determine_provider (running : address -> bool) (enumerated : list address) : address :=
  let matching_providers :=
    fold_left (fun s p => if matches_criteria p
                          then std_insert (running_first running) p s else s) enumerated [] in
  match matching_providers with
  | [] => null_provider
  | p :: _ => p
  end.

Definition determine_position_updates_provider := determine_provider position_running.
Definition determine_heading_updates_provider := determine_provider heading_running.
Definition determine_velocity_updates_provider := determine_provider velocity_running.

(** [DefaultProviderSelectionPolicy::determine_provider_selection_for_criteria] *)
Definition default_selection (enumerated : list address) : Proxy.ProviderSelection :=
  Proxy.MkSelection (Some (determine_position_updates_provider enumerated))
                    (Some (determine_heading_updates_provider enumerated))
                    (Some (determine_velocity_updates_provider enumerated)).
End Default.

(** [NonSelectingProviderSelectionPolicy] and [FusionProviderSelectionPolicy]: one
    fusion provider over the set of all providers answers every kind of update;
    [fresh] is its address. *)
Definition bag_of (enumerated : list address) : list address := std_set Nat.ltb enumerated.
Definition fusion_selection (fresh : address) (enumerated : list address)
  : Proxy.ProviderSelection * Fusion.FusionProvider :=
  (Proxy.MkSelection (Some fresh) (Some fresh) (Some fresh),
   Fusion.MkFusion None (bag_of enumerated)).

(** ** What the default policy chooses *)

(** The first match that runs, else the first match, else the null provider. *)
Definition preferred (null_provider : address) (matches running : address -> bool)
  (enumerated : list address) : address :=
  match List.find (fun p => matches p && running p) enumerated with
  | Some p => p
  | None => match List.find matches enumerated with Some p => p | None => null_provider end
  end.

(** The set of matches never holds more than one running and one idle provider. *)
Lemma determine_loop (matches running : address -> bool) (enumerated s : list address) :
  (s = [] \/ (exists p, s = [p]) \/ (exists p q, s = [p; q] /\ running p = true /\ running q = false)) ->
  let s' := fold_left (fun s p => if matches p then std_insert (running_first running) p s else s)
              enumerated s in
  hd_error s' =
  match s with
  | [] => match List.find (fun p => matches p && running p) enumerated with
          | Some p => Some p | None => List.find matches enumerated end
  | p :: _ => if running p then Some p
              else match List.find (fun p => matches p && running p) enumerated with
                   | Some p => Some p | None => Some p end
  end.
Proof.
  revert s. induction enumerated as [|x xs IH]; intros s Hs; cbv zeta; simpl.
  { destruct Hs as [->|[[p ->]|(p & q & -> & Hp & Hq)]]; simpl; [done|by destruct (running p)|by rewrite Hp]. }
  destruct (matches x) eqn:Em; simpl; [|by rewrite IH].
  destruct Hs as [->|[[p ->]|(p & q & -> & Hp & Hq)]]; simpl; unfold running_first.
  - rewrite IH by eauto. destruct (running x) eqn:Ex; [done|]. by case_match.
  - destruct (running x) eqn:Ex, (running p) eqn:Ep; simpl; rewrite IH by eauto 8; by rewrite ?Ep, ?Ex.
  - rewrite Hp, Hq. destruct (running x) eqn:Ex; simpl; rewrite IH by eauto 8; by rewrite ?Hp.
Qed.

(** the default policy answers, for each kind of update, with the first matching
    provider in enumeration order that already delivers such updates, otherwise the
    first matching one, otherwise the null provider. *)
Theorem default_policy_prefers_running (null_provider : address)
    (matches position_running heading_running velocity_running : address -> bool)
    (enumerated : list address) :
  default_selection null_provider matches position_running heading_running velocity_running enumerated =
  Proxy.MkSelection (Some (preferred null_provider matches position_running enumerated))
                    (Some (preferred null_provider matches heading_running enumerated))
                    (Some (preferred null_provider matches velocity_running enumerated)).
Proof.
  assert (forall running, determine_provider null_provider matches running enumerated =
            preferred null_provider matches running enumerated) as E.
  { intros running. unfold determine_provider, preferred.
    pose proof (determine_loop matches running enumerated []) as L. cbv zeta in L.
    specialize (L ltac:(by left)). destruct (fold_left _ enumerated []) as [|p s]; simpl in L;
      destruct (List.find (fun p => matches p && running p) enumerated); try congruence;
      destruct (List.find matches enumerated); congruence. }
  unfold default_selection, determine_position_updates_provider,
    determine_heading_updates_provider, determine_velocity_updates_provider.
  by rewrite !E.
Qed.

Lemma std_insert_in x y s : In y (std_insert Nat.ltb x s) <-> y = x \/ In y s.
Proof.
  induction s as [|z s IH]; simpl; [naive_solver|].
  destruct (Nat.ltb_spec x z); simpl; [naive_solver|].
  destruct (Nat.ltb_spec z x); simpl; [naive_solver|].
  assert (x = z) by lia. naive_solver.
Qed.

Lemma bag_of_in enumerated p : In p (bag_of enumerated) <-> In p enumerated.
Proof.
  unfold bag_of, std_set.
  assert (forall s, In p (fold_left (fun s x => std_insert Nat.ltb x s) enumerated s) <->
                    In p s \/ In p enumerated) as G.
  { induction enumerated as [|x xs IH]; intros s; simpl; [naive_solver|].
    rewrite IH, std_insert_in. naive_solver. }
  rewrite G. naive_solver.
Qed.

End Policy.
