(* ===== verification/Engine.v ===== *)
(** The positioning engine ([engine.h], [engine.cpp]): its configuration properties,
    the providers it tracks and the slots that connect them.  The world is the
    engine object with the providers it owns; every provider call is an event of the
    world.  Assigning a property runs its slots before the assignment returns, so a
    slot of [engine_state] that disables a provider can assign [engine_state] again:
    that recursion is written with fuel, and [set_engine_state_fuel] shows that two
    levels are all there is. *)
From Stdlib Require Import ZArith Lia SpecFloat FunctionalExtensionality.
From stdpp Require Import base gmap strings list.
From S2P Require Import Prelude Floats Geometry Criteria UpdatePolicy Provider Property Settings Fusion.
Local Open Scope Z_scope.
#[local] Set Warnings "-clear-no-such-hyp".
Import Controller Enums Fusion.Tracking.
Module Engine.

(** * Data *)

(** What the engine and its controllers do to a provider from outside. *)
Inductive Event : Type :=
| Called (a : address) (c : Call)
| ReferenceLocation (a : address) (u : Update Geometry.Position)
| ReferenceVelocity (a : address) (u : Update Geometry.Velocity)
| ReferenceHeading (a : address) (u : Update Geometry.Heading)
| WifiAndCell (a : address) (s : Wifi).

(** A provider wrapped in its [StateTrackingProvider]: the wrapper's controller and
    state property, and the controller of the provider itself. *)
Record Node : Type := MkNode { own : Counters; state : TrackingState; impl : Counters }.

(** [Engine::Configuration] *)
Record Configuration : Type := MkConfiguration {
  engine_state : Status;
  satellite_based_positioning_state : Satellite;
  wifi_and_cell_id_reporting_state : Wifi
}.

(** [Engine::Configuration::Keys] and [Defaults] *)
Definition key_satellite : string := "Engine::SatelliteBasedPositioningState".
Definition key_wifi : string := "Engine::WifiAndCellIdReportingState".
Definition key_engine_state : string := "Engine::State".
Definition defaults : Configuration := MkConfiguration on sat_on wifi_off.

(** [Engine::Updates] *)
Record Updates : Type := MkUpdates {
  last_known_location : option (Update Geometry.Position);
  last_known_velocity : option (Update Geometry.Velocity);
  last_known_heading : option (Update Geometry.Heading);
  visible_space_vehicles : list (SV.Key * SV.SpaceVehicle)
}.

(** [providers] are the keys of the map, ascending; [wired] are the same providers in
    the order in which their slots were connected. *)
Record Engine (S : Type) : Type := MkEngine {
  configuration : Configuration;
  updates : Updates;
  update_policy : TimeBased.TimeBasedUpdatePolicy;
  settings : S;
  providers : list address;
  wired : list address;
  nodes : gmap address Node;
  events : list Event
}.
Arguments MkEngine {S}.
Arguments configuration {S}.
Arguments updates {S}.
Arguments update_policy {S}.
Arguments settings {S}.
Arguments providers {S}.
Arguments wired {S}.
Arguments nodes {S}.
Arguments events {S}.

(** The object at an address; one that was never touched is as its constructor
    leaves it. *)
Definition fresh_node : Node := MkNode initial_counters initial_state initial_counters.
Definition node {S} (w : Engine S) (a : address) : Node := default fresh_node (nodes w !! a).

Section Cells.
Context {S : Type}.
Abbreviation W := (Engine S).

Definition set_configuration (c : Configuration) (w : W) : W :=
  MkEngine c (updates w) (update_policy w) (settings w) (providers w) (wired w) (nodes w) (events w).
Definition set_updates (u : Updates) (w : W) : W :=
  MkEngine (configuration w) u (update_policy w) (settings w) (providers w) (wired w) (nodes w) (events w).
Definition set_policy (p : TimeBased.TimeBasedUpdatePolicy) (w : W) : W :=
  MkEngine (configuration w) (updates w) p (settings w) (providers w) (wired w) (nodes w) (events w).
Definition set_settings (s : S) (w : W) : W :=
  MkEngine (configuration w) (updates w) (update_policy w) s (providers w) (wired w) (nodes w) (events w).
Definition set_providers (ps ws : list address) (w : W) : W :=
  MkEngine (configuration w) (updates w) (update_policy w) (settings w) ps ws (nodes w) (events w).
Definition set_node (a : address) (n : Node) (w : W) : W :=
  MkEngine (configuration w) (updates w) (update_policy w) (settings w) (providers w) (wired w)
    (<[a:=n]> (nodes w)) (events w).
Definition log_event (e : Event) (w : W) : W :=
  MkEngine (configuration w) (updates w) (update_policy w) (settings w) (providers w) (wired w)
    (nodes w) (events w ++ [e]).

Definition engine_state_cell : Cell W Status :=
  MkCell (fun w => engine_state (configuration w))
    (fun s w => set_configuration (MkConfiguration s
       (satellite_based_positioning_state (configuration w))
       (wifi_and_cell_id_reporting_state (configuration w))) w).
Definition satellite_cell : Cell W Satellite :=
  MkCell (fun w => satellite_based_positioning_state (configuration w))
    (fun s w => set_configuration (MkConfiguration (engine_state (configuration w)) s
       (wifi_and_cell_id_reporting_state (configuration w))) w).
Definition wifi_cell : Cell W Wifi :=
  MkCell (fun w => wifi_and_cell_id_reporting_state (configuration w))
    (fun s w => set_configuration (MkConfiguration (engine_state (configuration w))
       (satellite_based_positioning_state (configuration w)) s) w).
Definition location_cell : Cell W (option (Update Geometry.Position)) :=
  MkCell (fun w => last_known_location (updates w))
    (fun l w => set_updates (MkUpdates l (last_known_velocity (updates w))
       (last_known_heading (updates w)) (visible_space_vehicles (updates w))) w).
Definition velocity_update_cell : Cell W (option (Update Geometry.Velocity)) :=
  MkCell (fun w => last_known_velocity (updates w))
    (fun v w => set_updates (MkUpdates (last_known_location (updates w)) v
       (last_known_heading (updates w)) (visible_space_vehicles (updates w))) w).
Definition heading_update_cell : Cell W (option (Update Geometry.Heading)) :=
  MkCell (fun w => last_known_heading (updates w))
    (fun h w => set_updates (MkUpdates (last_known_location (updates w))
       (last_known_velocity (updates w)) h (visible_space_vehicles (updates w))) w).
Definition svs_cell : Cell W (list (SV.Key * SV.SpaceVehicle)) :=
  MkCell (fun w => visible_space_vehicles (updates w))
    (fun m w => set_updates (MkUpdates (last_known_location (updates w))
       (last_known_velocity (updates w)) (last_known_heading (updates w)) m) w).
Definition own_cell (a : address) : Cell W Counters :=
  MkCell (fun w => own (node w a))
    (fun c w => set_node a (MkNode c (state (node w a)) (impl (node w a))) w).
Definition state_cell (a : address) : Cell W TrackingState :=
  MkCell (fun w => state (node w a))
    (fun s w => set_node a (MkNode (own (node w a)) s (impl (node w a))) w).
Definition impl_cell (a : address) : Cell W Counters :=
  MkCell (fun w => impl (node w a))
    (fun c w => set_node a (MkNode (own (node w a)) (state (node w a)) c) w).
End Cells.

(** Whether a tracked provider is in the state [active]. *)
Definition any_active {S} (w : Engine S) : bool :=
  existsb (fun a => bool_decide (state (node w a) = tracking_active)) (providers w).

(** * Operations *)
Section Operations.
Context {S : Type} `{!CoreProperty, !BoostOptional, HS : !Settings S}.
Abbreviation W := (Engine S).

(** The wrapped providers: their requirement flags, and what each of their functions
    throws, if it throws. *)
Variables (requirements : address -> Z) (reaction : Event -> option exn).

Definition requires_satellites (a : address) : bool :=
  Flags.requires (requirements a) Flags.satellites.

(** A call that reaches a provider's own code. *)
Definition perform (e : Event) : M W unit :=
  modify (log_event e);;
  match reaction e with Some x => throw x | None => skip end.

Definition impl_instance (a : address) : Instance W :=
  MkInstance
    (perform (Called a (Start Position))) (perform (Called a (Stop Position)))
    (perform (Called a (Start Heading))) (perform (Called a (Stop Heading)))
    (perform (Called a (Start Velocity))) (perform (Called a (Stop Velocity))).
Definition impl_controller (a : address) : Controller W :=
  controller_at (impl_cell a) (impl_instance a).

(** A statement over the settings object. *)
Definition on_settings {A} (m : M S A) : M W A := fun w =>
  let r := m (settings w) in (r.1, set_settings r.2 w).

(** [Engine::for_each_provider]: [noexcept], so anything but a [std::exception]
    ends the process; it is left uncaught here. *)
Definition for_each_provider (f : address -> M W unit) : M W unit :=
  ps ← gets providers;
  for_each ps (fun a => try_catch (f a) is_std_exception (fun _ => skip)).

(** The slot on [state().changed()] of a tracked provider; [set] assigns
    [configuration.engine_state]. *)
Definition provider_state_changed (set : Status -> M W unit) : M W unit :=
  is_any_active ← gets any_active;
  set (if is_any_active : bool then active else on).

(** The controller of the [StateTrackingProvider]. *)
Definition tracking_controller (set : Status -> M W unit) (a : address) : Controller W :=
  controller_at (own_cell a)
    (tracking_instance
       (fun s => assign neqb (state_cell a) s (fun _ => provider_state_changed set))
       (impl_controller a)).

(** The first slot on [engine_state.changed()]. *)
Definition engine_state_slot (set : Status -> M W unit) (status : Status) : M W unit :=
  for_each_provider (fun a =>
    match status with
    | on =>
        s ← read satellite_cell;
        if requires_satellites a && bool_decide (s = sat_off) then skip
        else enable (tracking_controller set a)
    | off => disable (tracking_controller set a)
    | active => skip
    end).

(** The second one stores the state. *)
Definition persist_engine_state (status : Status) : M W unit :=
  on_settings (set_enum_for_key key_engine_state status);; skip.

(** [configuration.engine_state = status], to a nesting depth of [fuel]; [bottom] stands
    for deeper assignments. *)
Fixpoint set_engine_state_fuel (bottom : Status -> M W unit) (fuel : nat) (status : Status)
  : M W unit :=
  match fuel with
  | O => bottom status
  | Datatypes.S fuel =>
      assign neqb engine_state_cell status (fun status =>
        engine_state_slot (set_engine_state_fuel bottom fuel) status;;
        persist_engine_state status)
  end.

Definition set_engine_state : Status -> M W unit :=
  set_engine_state_fuel (fun _ => throw (logic_error "fuel")) 2.

(** The controller a client's proxy provider reaches. *)
Definition provider_controller (a : address) : Controller W :=
  tracking_controller set_engine_state a.

(** [configuration.satellite_based_positioning_state = state], with its slot; [set]
    assigns [configuration.engine_state]. *)
Definition satellite_slot (set : Status -> M W unit) (st : Satellite) : M W unit :=
  for_each_provider (fun a =>
    if requires_satellites a then
      match st with
      | sat_on =>
          s ← read engine_state_cell;
          when (bool_decide (s = on)) (enable (tracking_controller set a))
      | sat_off => disable (tracking_controller set a)
      end
    else skip).
Definition set_satellite_based_positioning_state (st : Satellite) : M W unit :=
  assign neqb satellite_cell st (satellite_slot set_engine_state).

(** [configuration.wifi_and_cell_id_reporting_state = state]: the slot that stores it
    was connected before those of the providers. *)
Definition set_wifi_and_cell_id_reporting_state (st : Wifi) : M W unit :=
  assign neqb wifi_cell st (fun st =>
    on_settings (set_enum_for_key key_wifi st);;
    ws ← gets wired;
    for_each ws (fun a => perform (WifiAndCell a st))).

(** The constructor, given the update policy it makes: its slots have no provider
    to reach yet, and the slots that store are connected after the assignments. *)
Definition construct (provider_selection_policy : option address)
    (policy : TimeBased.TimeBasedUpdatePolicy) (heap : gmap address Node)
    (settings_ : option S) : res W :=
  match provider_selection_policy, settings_ with
  | None, _ =>
      Throw (runtime_error "Cannot construct an engine given a null ProviderSelectionPolicy")
  | _, None => Throw (runtime_error "Cannot construct an engine given a null Settings instance")
  | Some _, Some store =>
      match get_enum_for_key key_engine_state (engine_state defaults) store with
      | (Throw e, _) => Throw e
      | (Ok status, store) =>
          match get_enum_for_key key_wifi (wifi_and_cell_id_reporting_state defaults) store with
          | (Throw e, _) => Throw e
          | (Ok wifi, store) =>
              Ok (MkEngine
                    (MkConfiguration status (satellite_based_positioning_state defaults) wifi)
                    (MkUpdates None None None []) policy store [] [] heap [])
          end
      end
  end.

(** The destructor. *)
Definition destroy : M W unit :=
  s ← read engine_state_cell;
  on_settings (set_enum_for_key key_engine_state s);;
  t ← read wifi_cell;
  on_settings (set_enum_for_key key_wifi t);;
  for_each_provider (fun a =>
    stop_position_updates (provider_controller a);;
    stop_heading_updates (provider_controller a);;
    stop_velocity_updates (provider_controller a)).

(** [Engine::add_provider]: [impl] is the provider, or null. *)
Definition add_provider (impl_ : option address) : M W unit :=
  match impl_ with
  | None => throw (runtime_error "Cannot add null provider")
  | Some a =>
      modify (fun w => set_node a (MkNode initial_counters initial_state (impl (node w a))) w);;
      s ← read satellite_cell;
      when (requires_satellites a && bool_decide (s = sat_off))
        (disable (provider_controller a));;
      e ← read engine_state_cell;
      when (bool_decide (e = off)) (disable (provider_controller a));;
      modify (fun w => set_providers (Policy.std_insert Nat.ltb a (providers w)) (wired w ++ [a]) w)
  end.

(** ** Updates from the providers *)

(** [operator!=] of the optional updates. *)
Definition optional_neq {T} (teq : T -> T -> bool) (l r : option (Update T)) : bool :=
  match l, r with
  | Some a, Some b => negb (update_eq teq a b)
  | None, None => false
  | _, _ => true
  end.

(** The slots [cp], [cv] and [ch] that [add_provider] connects. *)
Definition location_slots (l : option (Update Geometry.Position)) : M W unit :=
  ws ← gets wired;
  for_each ws (fun a => match l with Some u => perform (ReferenceLocation a u) | None => skip end).
Definition set_last_known_location (l : option (Update Geometry.Position)) : M W unit :=
  assign (optional_neq Geometry.Pos.position_eq) location_cell l location_slots.
Definition set_last_known_velocity (l : option (Update Geometry.Velocity)) : M W unit :=
  assign (optional_neq deq) velocity_update_cell l (fun l =>
    ws ← gets wired;
    for_each ws (fun a => match l with Some u => perform (ReferenceVelocity a u) | None => skip end)).
Definition set_last_known_heading (l : option (Update Geometry.Heading)) : M W unit :=
  assign (optional_neq deq) heading_update_cell l (fun l =>
    ws ← gets wired;
    for_each ws (fun a => match l with Some u => perform (ReferenceHeading a u) | None => skip end)).

(** The slot [cpr] on the positions of a provider. *)
Definition on_position (src : Update Geometry.Position) : M W unit :=
  p ← gets update_policy;
  let r := TimeBased.verify_position p src in
  modify (set_policy r.2);;
  set_last_known_location (Some r.1).

(** The slot [cs] on the satellites of a provider. *)
Definition merge_svs (src : list SV.SpaceVehicle) (dest : list (SV.Key * SV.SpaceVehicle)) :=
  fold_left (fun dest sv => SV.insert_or_assign (SV.key sv) sv dest) src dest.
Definition on_svs (src : Update (list SV.SpaceVehicle)) : M W unit :=
  m ← read svs_cell;
  write svs_cell (merge_svs (value src) m).

(** All the slots of [add_provider] on a signal of a tracked provider. *)
Definition on_signal (s : Signal) : M W unit :=
  for_each (tracking_forward s) (fun s =>
    match s with
    | SigPosition u => on_position u
    | SigSvs u => on_svs u
    | SigHeading _ | SigVelocity _ => skip
    end).

End Operations.

(** * Lemmas *)
Section Facts.
Context {S : Type} `{!CoreProperty, !BoostOptional, HS : !Settings S}.
Variables (requirements : address -> Z) (reaction : Event -> option exn).
Abbreviation W := (Engine S).

Lemma node_set_eq a n (w : W) : node (set_node a n w) a = n.
Proof. unfold node; simpl. by rewrite lookup_insert_eq. Qed.
Lemma node_set_ne a b n (w : W) : a <> b -> node (set_node a n w) b = node w b.
Proof. intros. unfold node; simpl. by rewrite lookup_insert_ne. Qed.

(** ** Fuel *)

Lemma slot_set_irrelevant st (set set' : Status -> M W unit) :
  st <> off -> engine_state_slot requirements reaction set st = engine_state_slot requirements reaction set' st.
Proof. by destruct st. Qed.

Lemma fuel_on_active bottom bottom' n n' st :
  st <> off ->
  set_engine_state_fuel requirements reaction bottom (Datatypes.S n) st
  = set_engine_state_fuel (S := S) requirements reaction bottom' (Datatypes.S n') st.
Proof.
  intros Hst. simpl. apply functional_extensionality. intros w. unfold assign. unfold_m.
  destruct (emits neqb _ st); [|done].
  by rewrite (slot_set_irrelevant _ _ (set_engine_state_fuel requirements reaction bottom' n')).
Qed.

Lemma state_changed_ext (set set' : Status -> M W unit) :
  (forall st, st <> off -> set st = set' st) ->
  provider_state_changed set = provider_state_changed set'.
Proof.
  intros Hset. apply functional_extensionality. intros w. unfold provider_state_changed. unfold_m.
  by rewrite Hset by (by case_match).
Qed.

Lemma tracking_controller_ext set set' a :
  (forall st, st <> off -> set st = set' st) ->
  tracking_controller (S := S) reaction set a = tracking_controller reaction set' a.
Proof. intros Hset. unfold tracking_controller. by rewrite (state_changed_ext set set' Hset). Qed.

Lemma set_engine_state_depth bottom bottom' n n' st :
  set_engine_state_fuel requirements reaction bottom (2 + n) st
  = set_engine_state_fuel (S := S) requirements reaction bottom' (2 + n') st.
Proof.
  apply functional_extensionality. intros w.
  change (2 + n)%nat with (Datatypes.S (Datatypes.S n)).
  change (2 + n')%nat with (Datatypes.S (Datatypes.S n')).
  assert (forall s, engine_state_slot requirements reaction
            (set_engine_state_fuel (S := S) requirements reaction bottom (Datatypes.S n)) s =
          engine_state_slot requirements reaction
            (set_engine_state_fuel requirements reaction bottom' (Datatypes.S n')) s) as E.
  { intros s. unfold engine_state_slot. f_equal. apply functional_extensionality. intros a.
    destruct s; [|done..].
    by rewrite (tracking_controller_ext _
                  (set_engine_state_fuel requirements reaction bottom' (Datatypes.S n')))
      by (intros; by apply fuel_on_active). }
  cbn [set_engine_state_fuel] in *. unfold assign. unfold_m.
  destruct (emits neqb _ st); [|done]. by rewrite E.
Qed.

(** ** Effects *)

Lemma set_node_twice a n m (w : W) : set_node a n (set_node a m w) = set_node a n w.
Proof. unfold set_node; simpl. by rewrite insert_insert_eq. Qed.

Lemma enable_effect set a (w : W) :
  enable (tracking_controller reaction set a) w =
  (Ok tt, set_node a (MkNode initial_counters (state (node w a)) (impl (node w a))) w).
Proof.
  unfold enable. unfold_m. by rewrite ?node_set_eq, ?set_node_twice; simpl;
    rewrite ?node_set_eq, ?set_node_twice.
Qed.

(** Disabling a controller whose streams are idle. *)
Lemma disable_idle_effect set a (w : W) :
  c_position (own (node w a)) <= 0 -> c_heading (own (node w a)) <= 0 ->
  c_velocity (own (node w a)) <= 0 ->
  disable (tracking_controller reaction set a) w =
  (Ok tt, set_node a (MkNode disabled_counters (state (node w a)) (impl (node w a))) w).
Proof.
  intros Hp Hh Hv. unfold disable. unfold_m.
  replace (0 <? c_position (own (node w a))) with false by lia. simpl.
  replace (0 <? c_heading (own (node w a))) with false by lia. simpl.
  replace (0 <? c_velocity (own (node w a))) with false by lia. simpl.
  by rewrite ?node_set_eq, ?set_node_twice; simpl; rewrite ?node_set_eq, ?set_node_twice.
Qed.

(** ** The engine state follows the providers *)

(** The engine state is what [provider_state_changed] assigns. *)
Definition follows (w : W) : Prop :=
  engine_state (configuration w) = if any_active w then active else on.

(** [P] does not look at the providers' own counters and events. *)
Record deaf (P : W -> Prop) : Prop := {
  deaf_impl : forall a, stable P (impl_cell a);
  deaf_event : forall e w, P w -> P (log_event e w)
}.

(** Nor at the settings. *)
Record indifferent (P : W -> Prop) : Prop := {
  ind_deaf : deaf P;
  ind_settings : forall s w, P w -> P (set_settings s w)
}.

Lemma preserves_perform P e : deaf P -> preserves P (perform (S := S) reaction e).
Proof.
  intros []. unfold perform. apply preserves_bind; [auto with ls|]. intros _.
  case_match; auto with ls.
Qed.

Lemma stable_focus {A} P (outer : Cell W Counters) (inner : Cell Counters A) :
  stable P outer -> stable P (focus outer inner).
Proof. intros Ho a w Hw. apply (Ho _ w Hw). Qed.

Lemma keeps_impl P a : deaf P -> keeps P (impl_controller (S := S) reaction a).
Proof.
  intros Hi. pose proof (deaf_impl _ Hi a).
  split; simpl; auto using stable_focus, preserves_perform.
Qed.

Lemma preserves_for_each_provider P f :
  (forall a, preserves P (f a)) -> preserves P (for_each_provider (S := S) f).
Proof.
  intros Hf. unfold for_each_provider. apply preserves_bind; [auto with ls|]. intros ps.
  apply preserves_for_each. intros a _. apply preserves_try; auto with ls.
Qed.

(** A tracked provider's controller keeps [P] when its state assignments do. *)
Lemma keeps_tracking P set a :
  deaf P -> stable P (own_cell a) ->
  (forall s, preserves P (assign neqb (state_cell a) s (fun _ => provider_state_changed set))) ->
  keeps P (tracking_controller (S := S) reaction set a).
Proof.
  intros Hi Ho Hs. pose proof (keeps_impl P a Hi) as Hk.
  assert (forall r, preserves P (request (impl_controller reaction a) r)) as Hr
    by (intros; by apply preserves_request).
  split; simpl; auto using stable_focus.
  - apply preserves_bind; [done|]. intros _. exact (Hr (Start Position)).
  - apply preserves_bind; [done|]. intros _. exact (Hr (Stop Position)).
  - apply preserves_bind; [done|]. intros _. exact (Hr (Start Heading)).
  - apply preserves_bind; [done|]. intros _. exact (Hr (Stop Heading)).
  - apply preserves_bind; [done|]. intros _. exact (Hr (Start Velocity)).
  - apply preserves_bind; [done|]. intros _. exact (Hr (Stop Velocity)).
Qed.

Lemma preserves_on_settings {A} P (m : M S A) : indifferent P -> preserves P (on_settings m).
Proof. intros Hi w Hw. by apply (ind_settings _ Hi). Qed.

Lemma preserves_persist P st : indifferent P -> preserves P (persist_engine_state (S := S) st).
Proof.
  intros Hi. apply preserves_bind; [by apply preserves_on_settings|]. intros _. apply preserves_skip.
Qed.

Lemma any_active_ext (w w' : W) :
  providers w = providers w' -> (forall a, state (node w a) = state (node w' a)) ->
  any_active w = any_active w'.
Proof.
  intros Hp Hs. unfold any_active. rewrite Hp. clear Hp. induction (providers w') as [|a l IH]; simpl; [done|].
  by rewrite IH, Hs.
Qed.

Lemma state_wr_own a b c (w : W) : state (node (wr (own_cell a) c w) b) = state (node w b).
Proof.
  simpl. destruct (decide (a = b)) as [->|]; [by rewrite node_set_eq|by rewrite node_set_ne].
Qed.
Lemma state_wr_impl a b c (w : W) : state (node (wr (impl_cell a) c w) b) = state (node w b).
Proof.
  simpl. destruct (decide (a = b)) as [->|]; [by rewrite node_set_eq|by rewrite node_set_ne].
Qed.

Lemma stable_own_follows a : stable follows (own_cell a).
Proof.
  intros c w Hw. unfold follows. rewrite (any_active_ext _ w); [done|done|]. intros b. apply state_wr_own.
Qed.

Lemma indifferent_follows : indifferent follows.
Proof.
  split; [split|]; unfold follows.
  - intros a c w Hw. rewrite (any_active_ext _ w); [done|done|]. intros b. apply state_wr_impl.
  - intros e w Hw. by rewrite (any_active_ext _ w).
  - intros s w Hw. by rewrite (any_active_ext _ w).
Qed.

(** Assigning [on] or [active] only touches the controllers' counters and the settings. *)
Lemma preserves_slot_up P set st :
  (forall a, stable P (own_cell a)) -> st <> off -> preserves P (engine_state_slot (S := S) requirements reaction set st).
Proof.
  intros Ho Hst. unfold engine_state_slot. apply preserves_for_each_provider. intros a.
  destruct st; [done| |apply preserves_skip].
  apply preserves_bind; [apply preserves_read|]. intros s. apply preserves_if; [apply preserves_skip|].
  pose proof (Ho a). apply preserves_enable; simpl; auto using stable_focus.
Qed.

Lemma set_up_establishes P bottom n st (w : W) :
  indifferent P -> (forall a, stable P (own_cell a)) -> st <> off -> P (wr engine_state_cell st w) ->
  (engine_state (configuration w) = st -> P w) ->
  P (exec (set_engine_state_fuel requirements reaction bottom (Datatypes.S n) st) w).
Proof.
  intros Hi Ho Hst Hw Hsame. simpl. destruct (decide (engine_state (configuration w) = st)) as [E|Hne].
  - unfold exec. rewrite assign_same; [by apply Hsame|]. simpl. rewrite E. apply neqb_refl.
  - unfold exec. rewrite assign_differs by (simpl; by apply neqb_ne).
    match goal with |- P ((?m ?w').2) => change (P (exec m w')) end.
    revert Hw. apply preserves_bind; [by apply preserves_slot_up|]. intros _. by apply preserves_persist.
Qed.

(** The assignments a slot of [engine_state] makes. *)
Definition set_nested : Status -> M W unit :=
  set_engine_state_fuel requirements reaction (fun _ => throw (logic_error "fuel")) 1.

Lemma set_engine_state_unfold st (w : W) :
  engine_state (configuration w) <> st ->
  set_engine_state requirements reaction st w =
  (engine_state_slot requirements reaction set_nested st;; persist_engine_state st)
    (wr engine_state_cell st w).
Proof.
  intros Hne. unfold set_engine_state.
  change (set_engine_state_fuel requirements reaction (fun _ => throw (logic_error "fuel")) 2 st)
    with (assign neqb (engine_state_cell (S := S)) st (fun status =>
            engine_state_slot requirements reaction set_nested status;; persist_engine_state status)).
  by rewrite assign_differs by (by apply neqb_ne).
Qed.

Lemma target_not_off b : (if b : bool then active else on) <> off.
Proof. by destruct b. Qed.

Lemma state_assignment_follows bottom n a s :
  preserves follows (assign neqb (state_cell a) s (fun _ =>
    provider_state_changed (set_engine_state_fuel requirements reaction bottom (Datatypes.S n)))).
Proof.
  intros w Hw. destruct (decide (state (node w a) = s)) as [E|Hne].
  - unfold exec. rewrite assign_same; [done|]. simpl. rewrite E. apply neqb_refl.
  - unfold exec. rewrite assign_differs by (simpl; by apply neqb_ne).
    set (w1 := wr (state_cell a) s w).
    change (follows (exec (set_engine_state_fuel requirements reaction bottom (Datatypes.S n)
      (if any_active w1 then active else on)) w1)).
    apply set_up_establishes;
      [apply indifferent_follows|apply stable_own_follows|apply target_not_off|done|done].
Qed.

Lemma keeps_follows a : keeps follows (provider_controller (S := S) requirements reaction a).
Proof.
  apply keeps_tracking; [apply ind_deaf, indifferent_follows|apply stable_own_follows|].
  intros s. apply state_assignment_follows.
Qed.

(** ** Adding a provider *)

(** The engine keeps the new provider disabled. *)
Definition kept_disabled (a : address) (w : W) : bool :=
  (requires_satellites requirements a &&
   bool_decide (satellite_based_positioning_state (configuration w) = sat_off)) ||
  bool_decide (engine_state (configuration w) = off).

Definition added (a : address) (w : W) : W :=
  set_providers (Policy.std_insert Nat.ltb a (providers w)) (wired w ++ [a])
    (set_node a (MkNode (if kept_disabled a w then disabled_counters else initial_counters)
                        tracking_enabled (impl (node w a))) w).

Lemma add_provider_effect a (w : W) :
  add_provider requirements reaction (Some a) w = (Ok tt, added a w).
Proof.
  unfold add_provider, added, kept_disabled. unfold_m. unfold provider_controller.
  destruct (requires_satellites requirements a &&
    bool_decide (satellite_based_positioning_state (configuration w) = sat_off)) eqn:E1; simpl.
  - rewrite disable_idle_effect by (rewrite node_set_eq; simpl; lia). simpl. rewrite set_node_twice.
    rewrite node_set_eq. simpl.
    destruct (bool_decide (engine_state (configuration w) = off)); simpl; [|done].
    rewrite disable_idle_effect by (rewrite node_set_eq; simpl; unfold our_magic_disabling_value; lia).
    simpl. by rewrite set_node_twice, node_set_eq.
  - destruct (bool_decide (engine_state (configuration w) = off)); simpl; [|done].
    rewrite disable_idle_effect by (rewrite node_set_eq; simpl; lia). simpl.
    by rewrite set_node_twice, node_set_eq.
Qed.

Lemma in_providers_added a b (w : W) : In b (providers (added a w)) <-> b = a \/ In b (providers w).
Proof. apply Policy.std_insert_in. Qed.

Lemma added_any_active a (w : W) :
  ~ In a (providers w) -> any_active (added a w) = any_active w.
Proof.
  intros Hni. unfold any_active. apply eq_iff_eq_true. rewrite !existsb_exists.
  split; intros (b & Hb & Hs); exists b; rewrite bool_decide_eq_true in *.
  - apply in_providers_added in Hb as [->|Hb].
    + unfold added in Hs. unfold node in Hs; simpl in Hs. by rewrite lookup_insert_eq in Hs.
    + split; [done|]. unfold added, node in Hs |- *; simpl in Hs.
      rewrite lookup_insert_ne in Hs by (by intros ->). done.
  - split; [apply in_providers_added; by right|]. unfold added, node in Hs |- *; simpl.
    by rewrite lookup_insert_ne by (by intros ->).
Qed.

End Facts.

(** * Disabling a provider that is not marked active *)
Section Quiet.
Context {S : Type} `{!CoreProperty, !BoostOptional, HS : !Settings S}.
Variables (requirements : address -> Z) (reaction : Event -> option exn).
Hypothesis no_throw : forall e, reaction e = None.
Abbreviation W := (Engine S).

(** [w'] differs from [w] in the object [a], which is now [n], and in the events. *)
Record only_node (a : address) (n : Node) (w w' : W) : Prop := {
  on_configuration : configuration w' = configuration w;
  on_updates : updates w' = updates w;
  on_policy : update_policy w' = update_policy w;
  on_store : settings w' = settings w;
  on_providers : providers w' = providers w;
  on_wired : wired w' = wired w;
  on_node : node w' a = n;
  on_others : forall b, b <> a -> node w' b = node w b
}.

Lemma only_node_refl a (w : W) : only_node a (node w a) w w.
Proof. by split. Qed.
Lemma only_node_set a n (w : W) : only_node a n w (set_node a n w).
Proof. split; try done; [apply node_set_eq|]. intros b Hb. by rewrite node_set_ne. Qed.
Lemma only_node_trans a n m (w w' w'' : W) :
  only_node a n w w' -> only_node a m w' w'' -> only_node a m w w''.
Proof.
  intros [????????] [????????]. split; try congruence. intros b Hb.
  transitivity (node w' b); auto.
Qed.
Lemma only_node_log a n e (w w' : W) : only_node a n w w' -> only_node a n w (log_event e w').
Proof. by intros []. Qed.

(** What a stop request leaves in a counter. *)
Definition dec (z : Z) : Z := if z <? 0 then z else wrap_s 32 (z - 1).

Lemma perform_ok e (w : W) : perform reaction e w = (Ok tt, log_event e w).
Proof. unfold perform. unfold_m. by rewrite no_throw. Qed.

(** A stop request on the provider itself. *)
Lemma impl_stop k a (w : W) : exists w',
  request (impl_controller reaction a) (Stop k) w = (Ok tt, w') /\
  only_node a (MkNode (own (node w a)) (state (node w a))
                 (set_counter k (dec (counter_of k (impl (node w a)))) (impl (node w a)))) w w'.
Proof.
  unfold dec.
  destruct k; simpl;
    unfold stop_position_updates, stop_heading_updates, stop_velocity_updates, stop_updates, decrement;
    unfold_m; destruct (node w a) as [o s [p h v]] eqn:E; simpl; rewrite ?E; simpl;
    (case_bool; simpl;
     [eexists; split; [reflexivity|rewrite <- E; apply only_node_refl]|]);
    rewrite ?E; simpl; (case_bool; [rewrite perform_ok|]; eexists; (split; [reflexivity|]);
      try apply only_node_log; apply only_node_set).
Qed.

(** The same through the tracking provider, whose state stays [enabled]. *)
Lemma tracking_stop set k a (w : W) : state (node w a) = tracking_enabled -> exists w',
  (match k with
   | Position => i_stop_position | Heading => i_stop_heading | Velocity => i_stop_velocity
   end) (instance (tracking_controller reaction set a)) w = (Ok tt, w') /\
  only_node a (MkNode (own (node w a)) tracking_enabled
                 (set_counter k (dec (counter_of k (impl (node w a)))) (impl (node w a)))) w w'.
Proof.
  intros Hs. destruct (impl_stop k a w) as (w' & Hw & Ho). exists w'. rewrite Hs in Ho.
  split; [|done]. rewrite <- Hw.
  destruct k; simpl; unfold mbind, m_bind; rewrite assign_same; try done; simpl; rewrite Hs;
    apply neqb_refl.
Qed.

(** The provider's counters after every running stream was stopped. *)
Definition released (o i : Counters) : Counters :=
  MkCounters (if 0 <? c_position o then dec (c_position i) else c_position i)
             (if 0 <? c_heading o then dec (c_heading i) else c_heading i)
             (if 0 <? c_velocity o then dec (c_velocity i) else c_velocity i).
Definition closed (n : Node) : Node :=
  MkNode disabled_counters tracking_enabled (released (own n) (impl n)).

Lemma set_counter_same k c : set_counter k (counter_of k c) c = c.
Proof. by destruct k, c. Qed.

Lemma maybe_stop set k a n (w0 w : W) :
  only_node a n w0 w -> state n = tracking_enabled -> exists w',
  when (0 <? counter_of k (own n))
    ((match k with
      | Position => i_stop_position | Heading => i_stop_heading | Velocity => i_stop_velocity
      end) (instance (tracking_controller reaction set a))) w = (Ok tt, w') /\
  only_node a (MkNode (own n) tracking_enabled
    (set_counter k (if 0 <? counter_of k (own n) then dec (counter_of k (impl n))
                    else counter_of k (impl n)) (impl n))) w0 w'.
Proof.
  intros Ho Hs. pose proof (on_node _ _ _ _ Ho) as En. destruct (0 <? counter_of k (own n)); simpl.
  - destruct (tracking_stop set k a w) as (w' & Hw & Ho'); [by rewrite En|].
    exists w'. rewrite En in Ho'. split; [done|]. by eapply only_node_trans.
  - exists w. split; [done|]. rewrite set_counter_same, <- Hs. by destruct n.
Qed.

(** Writing the three disabling values. *)
Lemma write_disabled set a n (w0 w : W) : only_node a n w0 w -> exists w',
  (write (position_updates_counter (tracking_controller reaction set a)) our_magic_disabling_value;;
   write (heading_updates_counter (tracking_controller reaction set a)) our_magic_disabling_value;;
   write (velocity_updates_counter (tracking_controller reaction set a)) our_magic_disabling_value) w
  = (Ok tt, w') /\ only_node a (MkNode disabled_counters (state n) (impl n)) w0 w'.
Proof.
  intros Ho. pose proof (on_node _ _ _ _ Ho) as En. eexists. split; [reflexivity|].
  unfold_m. repeat (rewrite ?node_set_eq, ?set_node_twice; simpl). rewrite En. eapply only_node_trans; [done|]. apply only_node_set.
Qed.

Lemma disable_quiet set a (w : W) : state (node w a) = tracking_enabled -> exists w',
  disable (tracking_controller reaction set a) w = (Ok tt, w') /\
  only_node a (closed (node w a)) w w'.
Proof.
  intros Hs. destruct (node w a) as [[p h v] s [ip ih iv]] eqn:E. simpl in Hs. subst s.
  pose proof (only_node_refl a w) as Hr. rewrite E in Hr.
  destruct (maybe_stop set Position a _ w w Hr eq_refl) as (w1 & E1 & H1).
  destruct (maybe_stop set Heading a _ w w1 H1 eq_refl) as (w2 & E2 & H2).
  destruct (maybe_stop set Velocity a _ w w2 H2 eq_refl) as (w3 & E3 & H3).
  destruct (write_disabled set a _ w w3 H3) as (w4 & E4 & H4).
  exists w4. split; [|exact H4].
  pose proof (on_node _ _ _ _ H1) as N1. pose proof (on_node _ _ _ _ H2) as N2. simpl in *.
  unfold disable. erewrite bind_run by reflexivity. erewrite bind_run by (simpl; rewrite E; exact E1).
  erewrite bind_run by reflexivity. erewrite bind_run by (simpl; rewrite N1; exact E2).
  erewrite bind_run by reflexivity. erewrite bind_run by (simpl; rewrite N2; exact E3).
  exact E4.
Qed.

(** Switching every provider off, in any order and even repeatedly. *)
Lemma disable_all set ps (w : W) :
  (forall a, a ∈ ps -> state (node w a) = tracking_enabled) -> exists w',
  for_each ps (fun a => try_catch (disable (tracking_controller reaction set a)) is_std_exception
                          (fun _ => skip)) w = (Ok tt, w') /\
  configuration w' = configuration w /\ settings w' = settings w /\ providers w' = providers w /\
  forall a, node w' a = if decide (a ∈ ps) then closed (node w a) else node w a.
Proof.
  revert w. induction ps as [|a ps IH]; intros w Hs.
  { exists w. split_and!; [done..|]. intros a. rewrite decide_False; [done|]. apply not_elem_of_nil. }
  destruct (disable_quiet set a w) as (w1 & E1 & H1); [apply Hs; set_solver|].
  assert (forall b, b ∈ ps -> state (node w1 b) = tracking_enabled) as Hs1.
  { intros b Hb. destruct (decide (b = a)) as [->|Hne]; [by rewrite (on_node _ _ _ _ H1)|].
    rewrite (on_others _ _ _ _ H1) by done. apply Hs. set_solver. }
  destruct (IH w1 Hs1) as (w2 & E2 & Hc & Hst & Hp & Hn). exists w2.
  destruct H1 as [Oc Ou Opl Ost Op Ow On Oo].
  split_and!; [|congruence..|].
  - cbn [for_each]. erewrite bind_run; [exact E2|]. unfold try_catch. by rewrite E1.
  - intros b. rewrite Hn. destruct (decide (b = a)) as [->|Hne].
    + rewrite On, (decide_True (P := a ∈ a :: ps)) by set_solver.
      destruct (decide (a ∈ ps)); [|done]. unfold closed, released; simpl. by destruct (node w a) as [? ? []].
    + rewrite Oo by done. destruct (decide (b ∈ ps)) as [Hi|Hi].
      * by rewrite decide_True by set_solver.
      * by rewrite decide_False by set_solver.
Qed.


(** ** Controllers whose providers do not throw *)

Lemma leads_perform P e : deaf P -> leads P (perform (S := S) reaction e) P.
Proof. intros [] w Hw. rewrite perform_ok. eauto. Qed.

Lemma obeys_impl P a : deaf P -> obeys P (impl_controller (S := S) reaction a).
Proof.
  intros Hi. pose proof (deaf_impl _ Hi a). split; simpl; auto using stable_focus, leads_perform.
Qed.

Lemma obeys_tracking P set a :
  deaf P -> stable P (own_cell a) -> stable P (state_cell a) ->
  (forall st, st <> off -> leads P (set st) P) ->
  obeys P (tracking_controller (S := S) reaction set a).
Proof.
  intros Hi Ho Hs Hset. pose proof (obeys_impl P a Hi) as Hk.
  assert (forall s r, leads P (assign neqb (state_cell a) s (fun _ => provider_state_changed set);;
                               request (impl_controller reaction a) r) P) as Hr.
  { intros s r. eapply leads_bind; [|intros _; by apply leads_request].
    apply leads_assign; [intros w; apply Hs|]. unfold provider_state_changed.
    eapply leads_bind; [apply leads_gets|]. intros b. apply Hset, target_not_off. }
  split; simpl; auto using stable_focus.
  - exact (Hr tracking_active (Start Position)).
  - exact (Hr tracking_enabled (Stop Position)).
  - exact (Hr tracking_active (Start Heading)).
  - exact (Hr tracking_enabled (Stop Heading)).
  - exact (Hr tracking_active (Start Velocity)).
  - exact (Hr tracking_enabled (Stop Velocity)).
Qed.

Lemma leads_each_provider P f :
  (forall a, leads P (f a) P) -> leads P (for_each_provider (S := S) f) P.
Proof.
  intros Hf. unfold for_each_provider. eapply leads_bind; [apply leads_gets|]. intros ps.
  apply leads_for_each. intros a _. by apply leads_try.
Qed.

(** The loop over all providers, with an invariant that speaks of the ones it has met. *)
Lemma leads_all_providers (P : (address -> Prop) -> W -> Prop) ps f :
  (forall D w, P D w -> providers w = ps) ->
  (forall a (D : address -> Prop), a ∈ ps -> leads (P D) (f a) (P (fun b => b = a \/ D b))) ->
  (forall (D D' : address -> Prop) w, (forall b, D' b -> D b) -> P D w -> P D' w) ->
  leads (P (fun _ => False)) (for_each_provider (S := S) f) (P (fun b => b ∈ ps)).
Proof.
  intros Hps Hf Hmono w Hw. unfold for_each_provider.
  rewrite (bind_run (gets providers) _ w (providers w) w eq_refl), (Hps _ _ Hw).
  apply leads_loop; [|done|done]. intros a D Ha. apply leads_try. by apply Hf.
Qed.

(** The counters that are written. *)
Lemma set_counters_own set a z (w : W) :
  set_counters (tracking_controller reaction set a) z w =
  set_node a (MkNode (MkCounters z z z) (state (node w a)) (impl (node w a))) w.
Proof. unfold set_counters. simpl. by rewrite ?node_set_eq, ?set_node_twice; simpl; rewrite ?node_set_eq, ?set_node_twice. Qed.
End Quiet.

(** * Switching the engine off while a provider is active *)
Section Reentry.
Context {S : Type} `{!CoreProperty, !BoostOptional, HS : !Settings S}.
Variables (requirements : address -> Z) (reaction : Event -> option exn).
Abbreviation W := (Engine S).

Definition not_off (w : W) : Prop := engine_state (configuration w) <> off.

(** [a] is tracked, marked active and streaming. *)
Definition streaming (a : address) (w : W) : Prop :=
  In a (providers w) /\ state (node w a) = tracking_active /\
  (0 < c_position (own (node w a)) \/ 0 < c_heading (own (node w a)) \/ 0 < c_velocity (own (node w a))).

Lemma indifferent_not_off : indifferent not_off.
Proof. split; [split; [intros a c w Hw|intros e w Hw]|intros s w Hw]; exact Hw. Qed.
Lemma stable_own_not_off a : stable not_off (own_cell a).
Proof. intros c w Hw. exact Hw. Qed.

Lemma streaming_any_active a (w : W) : streaming a w -> any_active w = true.
Proof.
  intros (Hin & Hs & _). unfold any_active. apply existsb_exists. exists a. by rewrite bool_decide_true.
Qed.

Abbreviation nested bottom n := (set_engine_state_fuel requirements reaction bottom (Datatypes.S n)).

Lemma nested_not_off bottom n st (w : W) : st <> off -> not_off (exec (nested bottom n st) w).
Proof.
  intros Hst. apply set_up_establishes;
    [apply indifferent_not_off|apply stable_own_not_off|done|done|]. unfold not_off. by intros ->.
Qed.

(** A tracked provider that leaves the state [active] takes the engine out of [off]. *)
Lemma leaving_active bottom n a (w : W) :
  state (node w a) = tracking_active ->
  not_off (exec (assign neqb (state_cell a) tracking_enabled
                   (fun _ => provider_state_changed (nested bottom n))) w).
Proof.
  intros Hs. unfold exec. rewrite assign_differs by (simpl; rewrite Hs; by apply neqb_ne).
  apply nested_not_off, target_not_off.
Qed.

Lemma keeps_not_off bottom n a :
  keeps not_off (tracking_controller (S := S) reaction (nested bottom n) a).
Proof.
  apply keeps_tracking; [apply ind_deaf, indifferent_not_off|apply stable_own_not_off|].
  intros s w Hw. destruct (decide (state (node w a) = s)) as [E|Hne].
  - unfold exec. rewrite assign_same; [done|]. simpl. rewrite E. apply neqb_refl.
  - unfold exec. rewrite assign_differs by (simpl; by apply neqb_ne).
    apply nested_not_off, target_not_off.
Qed.

(** Disabling a streaming provider. *)
Lemma disable_streaming bottom n a (w : W) :
  streaming a w -> not_off (exec (disable (tracking_controller reaction (nested bottom n) a)) w).
Proof.
  intros (_ & Hs & Hr). pose proof (keeps_not_off bottom n a) as Hk.
  assert (forall k, preserves not_off (request (impl_controller (S := S) reaction a) (Stop k))) as Hi
    by (intros; apply preserves_request, keeps_impl, ind_deaf, indifferent_not_off).
  destruct Hk. unfold disable.
  assert (forall m : M W unit, preserves not_off m -> not_off (exec
    (assign neqb (state_cell a) tracking_enabled
       (fun _ => provider_state_changed (nested bottom n));; m) w)) as Hl.
  { intros m Hm. apply establish_bind; [by apply leaving_active|done]. }
  erewrite exec_run by reflexivity.
  destruct (Z.ltb_spec 0 (rd (position_updates_counter
    (tracking_controller reaction (nested bottom n) a)) w)) as [Hp|Hp].
  { apply establish_bind; [apply Hl; exact (Hi Position)|]. intros _. auto 20 with ls. }
  simpl in Hp. erewrite exec_run by reflexivity. erewrite exec_run by reflexivity.
  destruct (Z.ltb_spec 0 (rd (heading_updates_counter
    (tracking_controller reaction (nested bottom n) a)) w)) as [Hh|Hh].
  { apply establish_bind; [apply Hl; exact (Hi Heading)|]. intros _. auto 20 with ls. }
  simpl in Hh. erewrite exec_run by reflexivity. erewrite exec_run by reflexivity.
  destruct (Z.ltb_spec 0 (rd (velocity_updates_counter
    (tracking_controller reaction (nested bottom n) a)) w)) as [Hv|Hv].
  { apply establish_bind; [apply Hl; exact (Hi Velocity)|]. intros _. auto 20 with ls. }
  simpl in Hv. lia.
Qed.

(** Disabling another provider first changes nothing of that. *)
Definition pending (a : address) (w : W) : Prop := streaming a w \/ not_off w.

Lemma streaming_same a (w w' : W) :
  providers w' = providers w -> node w' a = node w a -> streaming a w -> streaming a w'.
Proof. unfold streaming. by intros -> ->. Qed.

Lemma streaming_set_node a b n (w : W) : b <> a -> streaming a w -> streaming a (set_node b n w).
Proof. intros. apply (streaming_same a w); [done|by apply node_set_ne|done]. Qed.

Lemma keeps_pending bottom n a b :
  b <> a -> keeps (pending a) (tracking_controller (S := S) reaction (nested bottom n) b).
Proof.
  intros Hne.
  assert (forall A (c : Cell W A),
            (forall z w, streaming a w -> streaming a (wr c z w)) ->
            stable not_off c -> stable (pending a) c) as Hst.
  { intros A c Hs Hn z w [Hw|Hw]; [left; by apply Hs|right; by apply Hn]. }
  assert (forall c : Counters, stable (pending a) (own_cell (S := S) b)) as Hown.
  { intros _. apply Hst; [intros; by apply streaming_set_node|apply stable_own_not_off]. }
  assert (forall e, preserves (pending a) (perform (S := S) reaction e)) as Hp.
  { intros e. unfold perform. apply preserves_bind.
    - apply preserves_modify. intros w [Hw|Hw]; [left; by apply (streaming_same a w)|by right].
    - intros _. case_match; auto with ls. }
  assert (stable (pending a) (impl_cell (S := S) b)) as Himpl.
  { apply Hst; [intros; by apply streaming_set_node|intros c w Hw; exact Hw]. }
  assert (keeps (pending a) (impl_controller (S := S) reaction b)) as Hk.
  { split; simpl; auto using stable_focus. }
  assert (forall r, preserves (pending a) (request (impl_controller reaction b) r)) as Hr
    by (intros; by apply preserves_request).
  assert (forall s, preserves (pending a) (assign neqb (state_cell b) s
            (fun _ => provider_state_changed (nested bottom n)))) as Hs.
  { intros s w Hw. destruct (decide (state (node w b) = s)) as [E|Hd].
    - unfold exec. rewrite assign_same; [done|]. simpl. rewrite E. apply neqb_refl.
    - unfold exec. rewrite assign_differs by (simpl; by apply neqb_ne). right.
      apply nested_not_off, target_not_off. }
  pose proof (Hown initial_counters).
  split; simpl; auto using stable_focus.
  - apply preserves_bind; [done|]. intros _. exact (Hr (Start Position)).
  - apply preserves_bind; [done|]. intros _. exact (Hr (Stop Position)).
  - apply preserves_bind; [done|]. intros _. exact (Hr (Start Heading)).
  - apply preserves_bind; [done|]. intros _. exact (Hr (Stop Heading)).
  - apply preserves_bind; [done|]. intros _. exact (Hr (Start Velocity)).
  - apply preserves_bind; [done|]. intros _. exact (Hr (Stop Velocity)).
Qed.

(** The loop over the providers: unless an exception that is no [std::exception]
    leaves it, it reaches [a]. *)
Lemma disable_loop bottom n a ps (w : W) :
  In a ps -> streaming a w \/ not_off w ->
  let r := for_each ps (fun b => try_catch (disable (tracking_controller reaction (nested bottom n) b))
                                   is_std_exception (fun _ => skip)) w in
  r.1 = Throw foreign \/ not_off r.2.
Proof.
  revert w. induction ps as [|b ps IH]; intros w Hin Hw; [by destruct Hin|]. cbv zeta. cbn [for_each].
  set (body := try_catch (disable (tracking_controller reaction (nested bottom n) b))
                 is_std_exception (fun _ => skip)).
  assert (preserves not_off body) as Hbody.
  { apply preserves_try; [apply preserves_disable, keeps_not_off|intros; apply preserves_skip]. }
  assert (forall m : M W unit, preserves not_off m -> not_off (exec body w) -> not_off (exec (body;; m) w))
    as Hdone by (intros m Hm Hb; by apply establish_bind).
  assert (preserves not_off (for_each ps (fun b => try_catch
    (disable (tracking_controller reaction (nested bottom n) b)) is_std_exception (fun _ => skip)))) as Hrest.
  { apply preserves_for_each. intros x _. apply preserves_try;
      [apply preserves_disable, keeps_not_off|intros; apply preserves_skip]. }
  destruct Hw as [Hw|Hw]; [|right; apply (Hdone _ Hrest); by apply Hbody].
  destruct (decide (b = a)) as [->|Hne].
  { right. apply (Hdone _ Hrest). subst body. unfold exec, try_catch.
    pose proof (disable_streaming bottom n a w Hw) as Hd. unfold exec in Hd.
    destruct (disable _ w) as [[u|e] w1]; [done|]. by destruct (is_std_exception e). }
  destruct Hin as [->|Hin]; [done|].
  assert (pending a (exec body w)) as Hp.
  { subst body. apply preserves_try; [by apply preserves_disable, keeps_pending| |by left].
    intros; apply preserves_skip. }
  unfold mbind, m_bind, exec in *. destruct (body w) as [[u|e] w1] eqn:E; [by apply IH|].
  left. simpl. unfold body, try_catch in E. destruct (disable _ w) as [[u|e'] w2]; [done|].
  destruct e'; simpl in E; try done. by injection E as <-.
Qed.

End Reentry.

(** * Reachable engines *)
Section Steps.
Context {S : Type} `{!CoreProperty, !BoostOptional, HS : !Settings S}.
Variables (requirements : address -> Z) (reaction : Event -> option exn).
Abbreviation W := (Engine S).

(** Everything but an assignment of the engine state from outside: requests of the
    clients on a provider, signals of the providers, the two other configuration
    properties, new providers. *)
Inductive step : W -> W -> Prop :=
| step_request a r w : step w (exec (request (provider_controller requirements reaction a) r) w)
| step_signal s w : step w (exec (on_signal reaction s) w)
| step_satellite st w :
    step w (exec (set_satellite_based_positioning_state requirements reaction st) w)
| step_wifi st w : step w (exec (set_wifi_and_cell_id_reporting_state reaction st) w)
| step_add a w : ~ In a (providers w) -> step w (exec (add_provider requirements reaction (Some a)) w).

(** Only the engine state, the set of providers and their states matter. *)
Lemma follows_same (w w' : W) :
  engine_state (configuration w') = engine_state (configuration w) ->
  providers w' = providers w -> nodes w' = nodes w -> follows w -> follows w'.
Proof.
  unfold follows. intros -> Hp Hn ->. rewrite (any_active_ext w' w); [done|done|].
  intros a. unfold node. by rewrite Hn.
Qed.

Lemma follows_set_updates u (w : W) : follows w -> follows (set_updates u w).
Proof. by apply follows_same. Qed.

Lemma preserves_signal s : preserves follows (on_signal (S := S) reaction s).
Proof.
  pose proof (indifferent_follows (S := S)) as Hi.
  assert (forall e, preserves follows (perform (S := S) reaction e)) as Hp
    by (intros; by apply preserves_perform, ind_deaf).
  apply preserves_for_each. intros x _. destruct x as [u|u|u|u]; [|apply preserves_skip|apply preserves_skip|].
  - unfold on_position. apply preserves_bind; [apply preserves_gets|]. intros p.
    apply preserves_bind.
    { apply preserves_modify. intros w. by apply follows_same. }
    intros _. apply preserves_assign; [intros l w; apply follows_set_updates|]. intros l.
    apply preserves_bind; [apply preserves_gets|]. intros ws. apply preserves_for_each. intros a _.
    destruct l; [done|apply preserves_skip].
  - unfold on_svs. apply preserves_bind; [apply preserves_read|]. intros m.
    apply preserves_write. intros l w. apply follows_set_updates.
Qed.

Lemma preserves_step w w' : step w w' -> follows w -> follows w'.
Proof.
  pose proof (indifferent_follows (S := S)) as Hi. intros []; intros Hw.
  - revert Hw. apply preserves_request, keeps_follows.
  - revert Hw. apply preserves_signal.
  - revert Hw. apply preserves_assign.
    { intros st0 w1. by apply follows_same. }
    intros st0. apply preserves_for_each_provider. intros a. apply preserves_if; [|apply preserves_skip].
    pose proof (keeps_follows requirements reaction a) as Hk. destruct st0.
    + apply preserves_bind; [apply preserves_read|]. intros s. apply preserves_when.
      destruct Hk. by apply preserves_enable.
    + by apply preserves_disable.
  - revert Hw. apply preserves_assign.
    { intros st0 w1. by apply follows_same. }
    intros st0. apply preserves_bind; [by apply preserves_on_settings|]. intros _.
    apply preserves_bind; [apply preserves_gets|]. intros ws. apply preserves_for_each.
    intros a _. by apply preserves_perform, ind_deaf.
  - unfold exec. rewrite add_provider_effect. simpl. unfold follows in *. by rewrite added_any_active.
Qed.
End Steps.

(** * The last position observer of a provider that also streams headings *)
Section LastPosition.
Context {S : Type} `{!CoreProperty, !BoostOptional, HS : !Settings S}.
Variables (requirements : address -> Z) (reaction : Event -> option exn).
Abbreviation W := (Engine S).

Lemma unmatched_heading_stop a (w : W) :
  c_heading (own (node w a)) = 0 ->
  exec (request (provider_controller requirements reaction a) (Stop Heading)) w =
  wr (own_cell a) (set_counter Heading our_magic_disabling_value (own (node w a))) w.
Proof.
  intros E. cbn [request]. unfold stop_heading_updates, stop_updates.
  erewrite exec_run by reflexivity. simpl. rewrite E. simpl. unfold decrement.
  erewrite exec_run by reflexivity. simpl. by rewrite E.
Qed.

(** The engine is on and [a] counts no heading observer, although its provider still
    counts [n]. *)
Definition heading_lost (a : address) (n : Z) (v : W) : Prop :=
  engine_state (configuration v) = on /\ c_heading (own (node v a)) = 0 /\
  c_heading (impl (node v a)) = n.

(** Switching from [active] to [on] resets the counts of the only provider. *)
Lemma on_loses_heading a (w : W) :
  providers w = [a] -> engine_state (configuration w) = active ->
  (requires_satellites requirements a = false \/
   satellite_based_positioning_state (configuration w) = sat_on) ->
  heading_lost a (c_heading (impl (node w a))) (exec (set_engine_state requirements reaction on) w).
Proof.
  intros Hp He Hsat. unfold exec. rewrite set_engine_state_unfold by (by rewrite He).
  set (w3 := wr engine_state_cell on w).
  match goal with |- heading_lost _ _ (?m w3).2 =>
    change (heading_lost a (c_heading (impl (node w a))) (exec m w3)) end.
  apply establish_bind.
  - unfold engine_state_slot, for_each_provider. erewrite exec_run by reflexivity.
    simpl. rewrite Hp. cbn [for_each].
    assert ((requires_satellites requirements a &&
      bool_decide (satellite_based_positioning_state (configuration w) = sat_off)) = false) as Ec.
    { destruct Hsat as [->| ->]; [done|by rewrite andb_comm]. }
    unfold exec. erewrite bind_run.
    2:{ unfold try_catch. erewrite bind_run by reflexivity. simpl. rewrite Ec.
        rewrite enable_effect. reflexivity. }
    unfold heading_lost. simpl. by rewrite node_set_eq.
  - intros _. unfold persist_engine_state. apply preserves_bind; [|intros; apply preserves_skip].
    by intros v Hv.
Qed.

Lemma preserves_heading_lost a n :
  preserves (heading_lost a n) (request (impl_controller (S := S) reaction a) (Stop Position)).
Proof.
  apply preserves_stop.
  - intros z v (H1 & H2 & H3). unfold heading_lost; simpl. by rewrite node_set_eq.
  - unfold perform. apply preserves_bind; [apply preserves_modify; by intros v Hv|].
    intros _. case_match; auto with ls.
Qed.

Lemma last_position_observer a (w : W) :
  providers w = [a] -> state (node w a) = tracking_active ->
  engine_state (configuration w) = active ->
  (requires_satellites requirements a = false \/
   satellite_based_positioning_state (configuration w) = sat_on) ->
  c_position (own (node w a)) = 1 ->
  heading_lost a (c_heading (impl (node w a)))
    (exec (request (provider_controller requirements reaction a) (Stop Position)) w).
Proof.
  intros Hp Hs He Hsat Hpos. cbn [request]. unfold stop_position_updates, stop_updates.
  erewrite exec_run by reflexivity. simpl. rewrite Hpos. simpl.
  unfold decrement. erewrite exec_run by reflexivity. simpl. rewrite Hpos. simpl.
  set (w0 := set_node a _ w).
  assert (state (node w0 a) = tracking_active /\ impl (node w0 a) = impl (node w a)) as [S0 I0]
    by (subst w0; rewrite node_set_eq; done).
  apply establish_bind; [|intros _; apply preserves_heading_lost].
  unfold exec. rewrite assign_differs by (simpl; rewrite S0; by apply neqb_ne).
  set (w3 := wr (state_cell a) tracking_enabled w0).
  assert (any_active w3 = false) as Ea.
  { unfold any_active, w3. simpl. rewrite Hp. simpl. by rewrite node_set_eq. }
  unfold provider_state_changed. erewrite bind_run by reflexivity. rewrite Ea.
  assert (impl (node w3 a) = impl (node w a)) as I3
    by (unfold w3; simpl; rewrite node_set_eq; simpl; done).
  rewrite <- I3. by apply on_loses_heading.
Qed.

End LastPosition.

(** * Destruction and restart *)
Section Restart.
Context {S : Type} `{!CoreProperty, !BoostOptional, HS : !Settings S}.
Variables (requirements : address -> Z) (reaction : Event -> option exn).
Abbreviation W := (Engine S).

(** The settings are [s] and no stream of a tracked provider is running. *)
Definition at_rest (s : S) (v : W) : Prop :=
  settings v = s /\ forall a k, counter_of k (own (node v a)) <= 0.

Lemma preserves_stop_at_rest s (a : address) k (c : Cell W Z) stop :
  rd c = (fun v => counter_of k (own (node v a))) ->
  (forall z v, wr c z v = wr (own_cell a) (set_counter k z (own (node v a))) v) ->
  preserves (at_rest s) (stop_updates c stop).
Proof.
  intros Hr Hw v [Hs Hi]. unfold stop_updates. erewrite exec_run by reflexivity. rewrite Hr.
  pose proof (Hi a k) as Hk. destruct (Z.ltb_spec (counter_of k (own (node v a))) 0); [done|].
  assert (counter_of k (own (node v a)) = 0) as E by lia.
  unfold decrement, exec. unfold_m. rewrite Hr, E. simpl. rewrite Hw.
  change (wrap_s 32 (0 - 1)) with (-1). simpl. split; [done|].
  intros b j. simpl. destruct (decide (a = b)) as [<-|Hne]; [|by rewrite node_set_ne].
  rewrite node_set_eq. simpl. destruct (decide (k = j)) as [<-|Hj].
  - rewrite counter_set_eq. lia.
  - by rewrite counter_set_ne.
Qed.

Lemma preserves_stop_loop s :
  preserves (at_rest s) (for_each_provider (fun a =>
    stop_position_updates (provider_controller (S := S) requirements reaction a);;
    stop_heading_updates (provider_controller requirements reaction a);;
    stop_velocity_updates (provider_controller requirements reaction a))).
Proof.
  apply preserves_for_each_provider. intros a.
  apply preserves_bind; [by apply (preserves_stop_at_rest s a Position)|]. intros _.
  apply preserves_bind; [by apply (preserves_stop_at_rest s a Heading)|]. intros _.
  by apply (preserves_stop_at_rest s a Velocity).
Qed.

(** The keys under which the engine stores its state. *)
Definition engine_key (k : string) : Prop := k = key_wifi \/ k = key_engine_state.

(** The INI file alters neither the keys nor the texts of the states. *)
Lemma engine_entries_fit :
  (forall k, engine_key k -> Ptree.ini_key k = true) /\
  (forall s : Status, Ptree.ini_value (print s) = true) /\ forall s : Wifi, Ptree.ini_value (print s) = true.
Proof. split_and!; [by intros k [->| ->]|by intros []..]. Qed.

(** The settings after the destructor stored the two states. *)
Definition saved (w : W) : S :=
  exec (set_enum_for_key key_wifi (wifi_and_cell_id_reporting_state (configuration w)))
    (exec (set_enum_for_key key_engine_state (engine_state (configuration w))) (settings w)).

Lemma destroy_at_rest (w : W) :
  (forall k v s, engine_key k -> result (set_string_for_key k v) s = Ok true) ->
  (forall a k, counter_of k (own (node w a)) <= 0) ->
  settings (exec (destroy requirements reaction) w) = saved w.
Proof.
  intros Hset Hi. unfold destroy.
  assert (forall A (m : M S A) (v : W) (x : A), result m (settings v) = Ok x ->
            on_settings m v = (Ok x, set_settings (exec m (settings v)) v)) as Hon.
  { intros A m v x Hx. unfold on_settings, exec, result in *. by rewrite Hx. }
  erewrite exec_run by reflexivity. simpl.
  erewrite exec_run.
  2:{ apply Hon. unfold set_enum_for_key. apply Hset. by right. }
  erewrite exec_run by reflexivity. simpl. erewrite exec_run.
  2:{ apply Hon. unfold set_enum_for_key. apply Hset. by left. }
  apply (preserves_stop_loop (saved w)). by split.
Qed.

Lemma get_enum_stored `{!SettingsLaws S engine_key} {E} `{Streamable E} k (v d : E) s :
  engine_key k -> has_value_for_key k s = true ->
  result (get_string_for_key_or_throw k) s = Ok (print v) ->
  get_enum_for_key k d s = (Ok v, s).
Proof.
  intros Hk Hh Hg. pose proof (get_is_pure k s Hk) as Hp.
  unfold get_enum_for_key, get_string_for_key, result, exec in *. unfold_m. rewrite Hh. simpl.
  destruct (get_string_for_key_or_throw k s) as [r s']. simpl in *. subst r s'. by rewrite parse_print.
Qed.

End Restart.

(** * Properties *)
Section Properties.
Context {S : Type} `{!CoreProperty, !BoostOptional, HS : !Settings S}.
Variables (requirements : address -> Z) (reaction : Event -> option exn).
Abbreviation W := (Engine S).

(** assignments of the engine state nest at most twice: whatever deeper
    assignments would do, and however deep they are followed, the outcome is the
    same, in every state of the engine and whatever the providers do. *)
Theorem engine_state_assignment_depth (bottom bottom' : Status -> M W unit) (n n' : nat)
    (st : Status) (w : W) :
  set_engine_state_fuel requirements reaction bottom (2 + n) st w =
  set_engine_state_fuel requirements reaction bottom' (2 + n') st w.
Proof. by rewrite (set_engine_state_depth _ _ bottom bottom' n n'). Qed.

(** a new provider is synchronised to the engine: it is tracked, no stream is
    touched, and while the engine is off, or the provider needs satellites and they
    are off, every request of a client on it is ignored.  A null provider is
    refused. *)
Theorem add_provider_synchronises (a : address) (w : W) :
  let w' := exec (add_provider requirements reaction (Some a)) w in
  result (add_provider requirements reaction (Some a)) w = Ok tt /\
  (forall b, In b (providers w') <-> b = a \/ In b (providers w)) /\
  events w' = events w /\ configuration w' = configuration w /\
  (forall b, b <> a -> node w' b = node w b) /\
  impl (node w' a) = impl (node w a) /\ state (node w' a) = tracking_enabled /\
  (kept_disabled requirements a w = false -> own (node w' a) = initial_counters) /\
  (kept_disabled requirements a w = true ->
     forall r, request (provider_controller requirements reaction a) r w' = (Ok tt, w')) /\
  add_provider requirements reaction None w = (Throw (runtime_error "Cannot add null provider"), w).
Proof.
  cbv zeta. unfold exec, result. rewrite add_provider_effect. cbn [fst snd].
  split_and!; try done.
  - intros b. apply in_providers_added.
  - intros b Hb. unfold added. unfold node; simpl. by rewrite lookup_insert_ne by congruence.
  - unfold added, node; simpl. by rewrite lookup_insert_eq.
  - unfold added, node; simpl. by rewrite lookup_insert_eq.
  - intros E. unfold added, node; simpl. rewrite lookup_insert_eq. simpl. by rewrite E.
  - intros E r. apply request_ignored.
    assert (own (node (added requirements a w) a) = disabled_counters) as Ho.
    { unfold added, node; simpl. rewrite lookup_insert_eq. simpl. by rewrite E. }
    destruct r as [[]|[]]; simpl; rewrite Ho; by unfold disabled_counters, our_magic_disabling_value.
Qed.

(** switching the engine off while no tracked provider is marked active, with
    providers that do not throw: the engine is off, the state is handed to the
    settings, every tracked provider is told to stop each stream it was delivering
    and its controller ignores all further requests. *)
Theorem engine_off (w : W) :
  (forall e, reaction e = None) ->
  engine_state (configuration w) <> off ->
  (forall a, a ∈ providers w -> state (node w a) = tracking_enabled) ->
  (exists b, result (set_enum_for_key key_engine_state off) (settings w) = Ok b) ->
  let w' := exec (set_engine_state requirements reaction off) w in
  result (set_engine_state requirements reaction off) w = Ok tt /\
  configuration w' = MkConfiguration off (satellite_based_positioning_state (configuration w))
                                         (wifi_and_cell_id_reporting_state (configuration w)) /\
  settings w' = exec (set_enum_for_key key_engine_state off) (settings w) /\
  (forall a, node w' a = if decide (a ∈ providers w) then closed (node w a) else node w a) /\
  (forall a r, a ∈ providers w ->
     request (provider_controller requirements reaction a) r w' = (Ok tt, w')).
Proof.
  intros Hno Hst Hs [b Hb].
  set (w0 := wr engine_state_cell off w).
  destruct (disable_all requirements reaction Hno
    (set_engine_state_fuel requirements reaction (fun _ => throw (logic_error "fuel")) 1)
    (providers w) w0 Hs) as (w1 & E1 & Hc & Hset & Hp & Hn).
  set (w2 := set_settings (exec (set_enum_for_key key_engine_state off) (settings w)) w1).
  assert (set_engine_state requirements reaction off w = (Ok tt, w2)) as E.
  { rewrite set_engine_state_unfold by done. fold w0.
    erewrite bind_run by exact E1. unfold persist_engine_state, on_settings.
    unfold mbind, m_bind. rewrite Hset. simpl. unfold result in Hb. unfold w2, exec.
    destruct (set_enum_for_key key_engine_state off (settings w)) as [r s]. simpl in *. by subst r. }
  assert (exec (set_engine_state requirements reaction off) w = w2) as -> by (unfold exec; by rewrite E).
  assert (result (set_engine_state requirements reaction off) w = Ok tt) as ->
    by (unfold result; by rewrite E).
  split_and!; [done|by simpl; rewrite Hc|done|exact Hn|].
  intros a r Ha. apply request_ignored.
  assert (own (node w2 a) = disabled_counters) as Ho
    by (change (node w2 a) with (node w1 a); rewrite Hn; by rewrite decide_True).
  destruct r as [[]|[]]; simpl; rewrite Ho; by unfold disabled_counters, our_magic_disabling_value.
Qed.

(** but while a tracked provider is marked active and streaming, the assignment
    of [off] is undone: disabling that provider makes its tracking state change,
    whose slot assigns [on] or [active] again.  Only an exception that no handler
    takes, which ends the process, prevents it. *)
Theorem engine_off_undone (a : address) (w : W) :
  In a (providers w) -> state (node w a) = tracking_active ->
  (0 < c_position (own (node w a)) \/ 0 < c_heading (own (node w a)) \/ 0 < c_velocity (own (node w a))) ->
  engine_state (configuration w) <> off ->
  result (set_engine_state requirements reaction off) w = Throw foreign \/
  engine_state (configuration (exec (set_engine_state requirements reaction off) w)) <> off.
Proof.
  intros Hin Hs Hr Hst. unfold result, exec. rewrite set_engine_state_unfold by done.
  set (w0 := wr engine_state_cell off w).
  assert (streaming a w0) as Hw0 by done.
  pose proof (disable_loop requirements reaction (fun _ => throw (logic_error "fuel")) 0 a
                (providers w0) w0 Hin (or_introl Hw0)) as Hl.
  cbv zeta in Hl. unfold engine_state_slot, for_each_provider.
  match type of Hl with (?x w0).1 = _ \/ _ => set (loop := x) in Hl end.
  change ((((gets providers ≫= fun _ => loop) ≫= fun _ => persist_engine_state (S := S) off) w0).1
            = Throw foreign \/
          not_off (((gets providers ≫= fun _ => loop) ≫= fun _ => persist_engine_state (S := S) off) w0).2).
  assert ((gets providers ≫= fun _ => loop) w0 = loop w0) as El by done.
  destruct (loop w0) as [[u|e] w1] eqn:E; simpl in Hl.
  - destruct Hl as [Hl|Hl]; [done|]. right. rewrite (bind_run _ _ _ _ _ El).
    by apply (preserves_persist not_off off indifferent_not_off).
  - unfold mbind at 1 3, m_bind at 1 3. rewrite El. simpl. done.
Qed.

(** C3: the engine state follows the providers: starting from an engine that is
    [active] exactly if a tracked provider is marked active and [on] otherwise, this
    holds after any interleaving of client requests, provider signals, changes of the
    satellite and of the wifi state and additions of providers, whatever the
    providers and the settings throw. *)
Theorem engine_follows_providers (w w' : W) :
  rtc (step requirements reaction) w w' ->
  engine_state (configuration w) = (if any_active w then active else on) ->
  engine_state (configuration w') = (if any_active w' then active else on).
Proof.
  intros Hr. induction Hr as [|w1 w2 w3 Hs _ IH]; [done|]. intros Hw. apply IH.
  by apply (preserves_step requirements reaction w1).
Qed.

(** an engine with one provider that streams positions and headings: when its last
    position observer leaves, the tracking state becomes [enabled] although headings
    are still delivered, the engine becomes [on], and that enables the provider again,
    which resets its heading count.  The heading observer's own stop is then never
    passed on: the provider keeps delivering headings nobody asked for. *)
Theorem stop_position_loses_heading (a : address) (w : W) :
  providers w = [a] -> state (node w a) = tracking_active ->
  engine_state (configuration w) = active ->
  (requires_satellites requirements a = false \/
   satellite_based_positioning_state (configuration w) = sat_on) ->
  c_position (own (node w a)) = 1 -> 0 < c_heading (own (node w a)) ->
  let w1 := exec (request (provider_controller requirements reaction a) (Stop Position)) w in
  let w2 := exec (request (provider_controller requirements reaction a) (Stop Heading)) w1 in
  engine_state (configuration w1) = on /\
  c_heading (own (node w1 a)) = 0 /\
  c_heading (impl (node w1 a)) = c_heading (impl (node w a)) /\
  c_heading (own (node w2 a)) = our_magic_disabling_value /\
  impl (node w2 a) = impl (node w1 a).
Proof.
  intros Hp Hs He Hsat Hpos Hhead w1 w2.
  destruct (last_position_observer requirements reaction a w Hp Hs He Hsat Hpos) as (Q1 & Q2 & Q3).
  fold w1 in Q1, Q2, Q3. pose proof (unmatched_heading_stop requirements reaction a w1 Q2) as E2.
  fold w2 in E2. clearbody w2. subst w2. split_and!; [done..| |]; simpl; by rewrite node_set_eq.
Qed.

(** C30: an engine that is destroyed at rest leaves its state in the settings, and an
    engine constructed from them resumes in the same engine state and the same wifi
    state, but always with satellite based positioning on: that state has a key, but
    nothing is ever stored under it. *)
Theorem engine_resumes `{!SettingsLaws S engine_key} (selection : address) (policy : TimeBased.TimeBasedUpdatePolicy)
    (heap : gmap address Node) (w : W) :
  (forall k v s, engine_key k -> result (set_string_for_key k v) s = Ok true) ->
  (forall a k, counter_of k (own (node w a)) <= 0) ->
  exists w', construct (Some selection) policy heap
      (Some (settings (exec (destroy requirements reaction) w))) = Ok w' /\
    configuration w' = MkConfiguration (engine_state (configuration w)) sat_on
                                       (wifi_and_cell_id_reporting_state (configuration w)) /\
    providers w' = [] /\ last_known_location (updates w') = None.
Proof.
  intros Hset Hi. rewrite destroy_at_rest by done. unfold construct, saved.
  set (s1 := exec (set_enum_for_key key_engine_state _) (settings w)).
  set (s2 := exec (set_enum_for_key key_wifi _) s1).
  assert (engine_key key_wifi /\ engine_key key_engine_state) as [K1 K2] by (unfold engine_key; auto).
  destruct (set_then_get key_engine_state _ (settings w) K2 (Hset _ (print (engine_state (configuration w))) _ K2))
    as [H1 G1].
  destruct (set_then_get key_wifi _ s1 K1 (Hset _ (print (wifi_and_cell_id_reporting_state (configuration w))) _ K1))
    as [H2 G2].
  destruct (set_keeps_others key_wifi key_engine_state
    (print (wifi_and_cell_id_reporting_state (configuration w))) s1 K1 K2) as [H3 G3]; [discriminate|].
  rewrite (get_enum_stored key_engine_state (engine_state (configuration w))); [|done| |].
  - rewrite (get_enum_stored key_wifi (wifi_and_cell_id_reporting_state (configuration w)));
      [|done|exact H2|unfold s2, result, set_enum_for_key; by rewrite G2].
    eexists. split; [reflexivity|]. done.
  - unfold s2, set_enum_for_key. by rewrite H3.
  - unfold s2, set_enum_for_key. rewrite G3. unfold s1, result, set_enum_for_key. by rewrite G1.
Qed.

End Properties.

(** * A concrete engine *)
Module Sample.
Import Settings.Persistence.

Definition store : Type := Ptree.BoostPtreeSettings key_map key_map.
#[export] Instance store_settings : Settings store := daemon_settings is_std_exception.
Definition no_reaction (_ : Event) : option exn := None.
Definition needs_nothing (_ : address) : Z := Flags.requirements_none.
Definition policy : TimeBased.TimeBasedUpdatePolicy := TimeBased.construct TimeBased.default_timeout 0.

(** One provider that streams positions and headings to one client each. *)
Definition busy : Engine store :=
  MkEngine (MkConfiguration active sat_on wifi_off) (MkUpdates None None None []) policy
    (Ptree.MkPtree ∅ ∅) [1%nat] [1%nat]
    {[1%nat := MkNode (MkCounters 1 1 0) tracking_active (MkCounters 1 1 0)]} [].
(** A provider that nobody uses. *)
Definition idle : Engine store :=
  MkEngine (MkConfiguration on sat_on wifi_on) (MkUpdates None None None []) policy
    (Ptree.MkPtree ∅ ∅) [1%nat] [1%nat] {[1%nat := fresh_node]} [].
End Sample.
Import Sample Settings.Persistence.

Lemma engine_off_witness :
  engine_state (configuration idle) <> off /\
  result (set_engine_state needs_nothing no_reaction off) idle = Ok tt.
Proof.
  assert (engine_state (configuration idle) <> off) as H1 by discriminate.
  split; [exact H1|].
  apply (engine_off needs_nothing no_reaction idle).
  - reflexivity.
  - exact H1.
  - intros a Ha. apply list_elem_of_singleton in Ha as ->. reflexivity.
  - exists true. reflexivity.
Defined.

Lemma engine_off_undone_witness :
  In 1%nat (providers busy) /\
  (result (set_engine_state needs_nothing no_reaction off) busy = Throw foreign \/
   engine_state (configuration (exec (set_engine_state needs_nothing no_reaction off) busy)) <> off).
Proof.
  assert (In 1%nat (providers busy)) as H1 by (left; reflexivity).
  split; [exact H1|].
  apply (engine_off_undone needs_nothing no_reaction 1%nat busy H1);
    [reflexivity|left; vm_compute; reflexivity|discriminate].
Defined.

Lemma engine_follows_providers_witness :
  let w' := exec (request (provider_controller needs_nothing no_reaction 1%nat) (Start Position)) idle in
  rtc (step needs_nothing no_reaction) idle w' /\ engine_state (configuration w') = active.
Proof.
  set (w' := exec _ idle).
  assert (rtc (step needs_nothing no_reaction) idle w') as H1
    by (apply rtc_once; constructor).
  split; [exact H1|].
  rewrite (engine_follows_providers needs_nothing no_reaction idle w' H1 eq_refl).
  reflexivity.
Defined.

Lemma stop_position_loses_heading_witness :
  let w1 := exec (request (provider_controller needs_nothing no_reaction 1%nat) (Stop Position)) busy in
  let w2 := exec (request (provider_controller needs_nothing no_reaction 1%nat) (Stop Heading)) w1 in
  providers busy = [1%nat] /\ c_heading (impl (node w2 1%nat)) = 1.
Proof.
  cbv zeta. split; [reflexivity|].
  destruct (stop_position_loses_heading needs_nothing no_reaction 1%nat busy) as (_ & _ & E1 & _ & E2);
    [reflexivity..|left; reflexivity|reflexivity|vm_compute; reflexivity|].
  rewrite E2. exact E1.
Defined.

Lemma sample_accepts (k v : string) (s : store) :
  engine_key k -> result (set_string_for_key k v) s = Ok true.
Proof. intros _. reflexivity. Qed.

#[export] Instance sample_laws : SettingsLaws store engine_key.
Proof.
  assert (forall k, engine_key k -> Ptree.path_key k = true) as U by (intros k [->| ->]; reflexivity).
  assert (SettingsLaws store (fun k => Ptree.path_key k = true)) as L.
  { apply (Syncing.syncing_laws (Ptree.ptree_settings is_std_exception) (fun k => Ptree.path_key k = true)).
    - apply (Ptree.ptree_laws (T := key_map) (File := key_map) is_std_exception (PropertyTreeLaws0 := map_tree_laws)).
    - intros s. split; [reflexivity|]. intros k _. split; [reflexivity|].
      unfold result. simpl. unfold Ptree.ptree_get_string_for_key_or_throw. simpl.
      destruct (Ptree.tree s !! k); reflexivity. }
  destruct L as [L1 L2 L3 L4]. split; intros;
    [apply L1|apply L2|apply L3|apply L4]; auto.
Qed.

Lemma engine_resumes_witness :
  (forall a k, counter_of k (own (node idle a)) <= 0) /\
  exists w', construct (Some 0%nat) policy ∅
    (Some (settings (exec (destroy needs_nothing no_reaction) idle))) = Ok w' /\
    configuration w' = MkConfiguration on sat_on wifi_on.
Proof.
  assert (forall a k, counter_of k (own (node idle a)) <= 0) as H1.
  { intros a k. unfold node. simpl. destruct (decide (a = 1%nat)) as [->|Hne].
    - rewrite lookup_singleton_eq. destruct k; simpl; lia.
    - rewrite lookup_singleton_ne by congruence. destruct k; simpl; lia. }
  split; [exact H1|].
  destruct (engine_resumes needs_nothing no_reaction 0%nat policy ∅ idle sample_accepts H1) as (w' & E & Ec & _).
  exists w'. split; [exact E|exact Ec].
Defined.

End Engine.
