(* ===== verification/Session.v ===== *)
(** A client's session: [service/session/interface.h], [implementation.cpp],
    [skeleton.cpp] (the service side, reached over D-Bus) and [stub.cpp] (the client
    side).  A session owns a proxy provider of its own; the calls the proxy's
    controller makes on the selected providers are recorded in [calls]. *)
From Stdlib Require Import ZArith Lia SpecFloat.
From stdpp Require Import base gmap strings list.
From S2P Require Import Prelude Floats Geometry Provider Property Fusion.
Local Open Scope Z_scope.
#[local] Set Warnings "-clear-no-such-hyp".
Import Controller.
Module Session.

(** [Interface::Updates::Status] *)
Inductive Status : Set := enabled | disabled.

#[export] Instance Status_eq_dec : EqDecision Status.
Proof. solve_decision. Defined.

(** The six methods of the D-Bus interface. *)
Inductive Method : Set :=
| StartPositionUpdates | StopPositionUpdates | StartVelocityUpdates | StopVelocityUpdates
| StartHeadingUpdates | StopHeadingUpdates.

(** The replies of the skeleton: a method return, or an error with its name and text. *)
Inductive Reply : Type := MethodReturn | ErrorReply (name text : string).

(** What the skeleton invokes on the client. *)
Inductive Remote : Type :=
| UpdatePosition (u : Update Geometry.Position)
| UpdateHeading (u : Update Geometry.Heading)
| UpdateVelocity (u : Update Geometry.Velocity).

Record Statuses : Type := MkStatuses { position_status : Status; heading_status : Status; velocity_status : Status }.

(** [Interface::Updates] with the proxy's counters, the calls on the selected providers
    and what left the process. *)
Record Session : Type := MkSession {
  statuses : Statuses;
  position : Update Geometry.Position;
  heading : Update Geometry.Heading;
  velocity : Update Geometry.Velocity;
  counters : Counters;
  calls : list Call;
  sent : list Remote
}.

Definition set_statuses (s : Statuses) (w : Session) : Session :=
  MkSession s (position w) (heading w) (velocity w) (counters w) (calls w) (sent w).
Definition set_counters (c : Counters) (w : Session) : Session :=
  MkSession (statuses w) (position w) (heading w) (velocity w) c (calls w) (sent w).
Definition add_call (c : Call) (w : Session) : Session :=
  MkSession (statuses w) (position w) (heading w) (velocity w) (counters w) (calls w ++ [c]) (sent w).
Definition add_sent (r : Remote) (w : Session) : Session :=
  MkSession (statuses w) (position w) (heading w) (velocity w) (counters w) (calls w) (sent w ++ [r]).

Definition status_of (k : Kind) (s : Statuses) : Status :=
  match k with
  | Position => position_status s | Heading => heading_status s | Velocity => velocity_status s
  end.
Definition set_status (k : Kind) (x : Status) (s : Statuses) : Statuses :=
  match k with
  | Position => MkStatuses x (heading_status s) (velocity_status s)
  | Heading => MkStatuses (position_status s) x (velocity_status s)
  | Velocity => MkStatuses (position_status s) (heading_status s) x
  end.

Definition status_cell (k : Kind) : Cell Session Status :=
  MkCell (fun w => status_of k (statuses w)) (fun x w => set_statuses (set_status k x (statuses w)) w).
Definition position_cell_ : Cell Session (Update Geometry.Position) :=
  MkCell position (fun u w => MkSession (statuses w) u (heading w) (velocity w) (counters w) (calls w) (sent w)).
Definition heading_cell_ : Cell Session (Update Geometry.Heading) :=
  MkCell heading (fun u w => MkSession (statuses w) (position w) u (velocity w) (counters w) (calls w) (sent w)).
Definition velocity_cell_ : Cell Session (Update Geometry.Velocity) :=
  MkCell velocity (fun u w => MkSession (statuses w) (position w) (heading w) u (counters w) (calls w) (sent w)).
Definition counters_cell_ : Cell Session Counters := MkCell counters set_counters.

(** [throw] out of a [noexcept] function ends the process; [foreign] stands for it. *)
Definition noexcept {W} (m : M W unit) : M W unit := try_catch m any_exception (fun _ => throw foreign).

Section Operations.
Context `{!CoreProperty, !BoostOptional}.

(** What a call on the selected providers throws, if it throws; whether a remote
    invocation and a reply can be sent. *)
Variables (reaction : Call -> option exn) (invoke : Remote -> option exn) (send : Reply -> option exn).

(** The proxy provider of the session, given what its selected providers do. *)
Definition perform_call (c : Call) : M Session unit :=
  modify (add_call c);;
  match reaction c with Some e => throw e | None => skip end.
Definition proxy : Controller Session :=
  controller_at counters_cell_
    (MkInstance (perform_call (Start Position)) (perform_call (Stop Position))
                (perform_call (Start Heading)) (perform_call (Stop Heading))
                (perform_call (Start Velocity)) (perform_call (Stop Velocity))).

(** * [session::Implementation] *)

Definition impl_start_position_updates : M Session unit := start_position_updates proxy.
Definition impl_stop_position_updates : M Session unit := noexcept (stop_position_updates proxy).
Definition impl_start_heading_updates : M Session unit := start_heading_updates proxy.
Definition impl_stop_heading_updates : M Session unit := noexcept (stop_heading_updates proxy).
Definition impl_start_velocity_updates : M Session unit := start_velocity_updates proxy.
Definition impl_stop_velocity_updates : M Session unit := noexcept (stop_velocity_updates proxy).

(** The slots on the three status properties. *)
Definition status_slot (k : Kind) (s : Status) : M Session unit :=
  match k, s with
  | Position, enabled => impl_start_position_updates
  | Position, disabled => impl_stop_position_updates
  | Velocity, enabled => impl_start_velocity_updates
  | Velocity, disabled => impl_stop_velocity_updates
  | Heading, enabled => impl_start_heading_updates
  | Heading, disabled => impl_stop_heading_updates
  end.

(** [updates().*_status = s] *)
Definition set_updates_status (k : Kind) (s : Status) : M Session unit :=
  assign neqb (status_cell k) s (status_slot k).

Definition session_destroy : M Session unit :=
  impl_stop_position_updates;; impl_stop_heading_updates;; impl_stop_velocity_updates.

(** * [session::Skeleton] *)

(** The skeleton's slots: every exception is swallowed. *)
Definition remote_invoke (r : Remote) : M Session unit :=
  try_catch (match invoke r with Some e => throw e | None => modify (add_sent r) end)
            any_exception (fun _ => skip).
Definition on_position_changed (u : Update Geometry.Position) : M Session unit := remote_invoke (UpdatePosition u).
Definition on_heading_changed (u : Update Geometry.Heading) : M Session unit := remote_invoke (UpdateHeading u).
Definition on_velocity_changed (u : Update Geometry.Velocity) : M Session unit := remote_invoke (UpdateVelocity u).

(** The implementation's slots on its provider's updates assign the properties. *)
Definition on_provider_signal (s : Signal) : M Session unit :=
  match s with
  | SigPosition u => assign (update_neq Geometry.Pos.position_eq) position_cell_ u on_position_changed
  | SigHeading u => assign (update_neq deq) heading_cell_ u on_heading_changed
  | SigVelocity u => assign (update_neq deq) velocity_cell_ u on_velocity_changed
  | SigSvs _ => skip
  end.

Definition error_starting_update : string := "com.lomiri.location.Service.Session.ErrorStartingUpdate".

(** The shape of the six handlers: the assignment, the reply, the attempt to send it.
    The reply that was sent is the result. *)
Definition handle (m : M Session unit) (text : string) : M Session (option Reply) :=
  reply ← try_catch (m;; mret MethodReturn) is_runtime_error
            (fun _ => mret (ErrorReply error_starting_update text));
  match send reply with
  | None => mret (Some reply)
  | Some e => if is_std_exception e then mret None else throw e
  end.

Definition on_start_position_updates : M Session (option Reply) :=
  handle (set_updates_status Position enabled) "Could not enable position updates".
Definition on_stop_position_updates : M Session (option Reply) :=
  handle (set_updates_status Position disabled) "Could not disable position updates".
Definition on_start_heading_updates : M Session (option Reply) :=
  handle (set_updates_status Position enabled) "Could not enable position updates".
Definition on_stop_heading_updates : M Session (option Reply) :=
  handle (set_updates_status Heading disabled) "Could not enable position updates".
Definition on_start_velocity_updates : M Session (option Reply) :=
  handle (set_updates_status Velocity enabled) "Could not enable position updates".
Definition on_stop_velocity_updates : M Session (option Reply) :=
  handle (set_updates_status Velocity disabled) "Could not enable position updates".

Definition on_method (m : Method) : M Session (option Reply) :=
  match m with
  | StartPositionUpdates => on_start_position_updates
  | StopPositionUpdates => on_stop_position_updates
  | StartVelocityUpdates => on_start_velocity_updates
  | StopVelocityUpdates => on_stop_velocity_updates
  | StartHeadingUpdates => on_start_heading_updates
  | StopHeadingUpdates => on_stop_heading_updates
  end.

(** A session that was just created. *)
Definition initial_session (p : Update Geometry.Position) (h : Update Geometry.Heading)
    (v : Update Geometry.Velocity) : Session :=
  MkSession (MkStatuses disabled disabled disabled) p h v initial_counters [] [].

(** What can happen to a session while it lives. *)
Inductive Message : Type := Invoke (m : Method) | Deliver (s : Signal).
Definition receive (x : Message) : M Session unit :=
  match x with
  | Invoke m => on_method m;; skip
  | Deliver s => on_provider_signal s
  end.
Definition live (xs : list Message) (w : Session) : Session :=
  fold_left (fun w x => exec (receive x) w) xs w.

(** * [session::Stub] *)
Section Stub.
Context {W : Type}.
(** The synchronous D-Bus call: the error it reports, if any. *)
Variable transact : Method -> M W (option string).

Definition stub_start (m : Method) (who : string) : M W unit :=
  r ← transact m;
  match r with Some err => throw (runtime_error (who ++ ": " ++ err)) | None => skip end.
Definition stub_stop (m : Method) (who : string) : M W unit :=
  noexcept (try_catch
    (r ← transact m;
     match r with Some err => throw (runtime_error (who ++ ": " ++ err)) | None => skip end)
    is_runtime_error (fun _ => skip)).

Definition stub_start_position_updates := stub_start StartPositionUpdates "start_position_updates".
Definition stub_stop_position_updates := stub_stop StopPositionUpdates "stop_position_updates".
Definition stub_start_velocity_updates := stub_start StartVelocityUpdates "start_velocity_updates".
Definition stub_stop_velocity_updates := stub_stop StopVelocityUpdates "stop_velocity_updates".
Definition stub_start_heading_updates := stub_start StartHeadingUpdates "start_heading_updates".
Definition stub_stop_heading_updates := stub_stop StopHeadingUpdates "stop_heading_updates".

(** The slots on the stub's own status properties. *)
Definition stub_status_slot (k : Kind) (s : Status) : M W unit :=
  match k, s with
  | Position, enabled => stub_start_position_updates
  | Position, disabled => stub_stop_position_updates
  | Velocity, enabled => stub_start_velocity_updates
  | Velocity, disabled => stub_stop_velocity_updates
  | Heading, enabled => stub_start_heading_updates
  | Heading, disabled => stub_stop_heading_updates
  end.
Definition stub_set_status (c : Kind -> Cell W Status) (k : Kind) (s : Status) : M W unit :=
  assign neqb (c k) s (stub_status_slot k).

(** The handlers of [UpdatePosition] and its siblings: [read] decodes the message. *)
Definition stub_on_update {T} (teq : T -> T -> bool) (c : Cell W (Update T)) (read : res (Update T))
    (slots : Update T -> M W unit) (reply : option string -> M W unit) : M W unit :=
  try_catch (u ← lift read; assign (update_neq teq) c u slots;; reply None)
    is_runtime_error
    (fun e => reply (Some match e with runtime_error what => what | _ => EmptyString end)).
Definition stub_update_position := stub_on_update Geometry.Pos.position_eq.
Definition stub_update_heading := stub_on_update (T := Geometry.Heading) deq.
Definition stub_update_velocity := stub_on_update (T := Geometry.Velocity) deq.
End Stub.
End Operations.

(** * The specification *)

(** Whether [k] is started after the calls [l], or [None] if it was started or stopped
    twice in a row. *)
Fixpoint after_calls (k : Kind) (started : bool) (l : list Call) : option bool :=
  match l with
  | [] => Some started
  | c :: l =>
      if decide (stream c = k) then
        match c, started with
        | Start _, false => after_calls k true l
        | Stop _, true => after_calls k false l
        | _, _ => None
        end
      else after_calls k started l
  end.

(** What the session holds of each stream is what its status says. *)
Definition consistent (w : Session) : Prop := forall k,
  counter_of k (counters w) = (if decide (status_of k (statuses w) = enabled) then 1 else 0) /\
  after_calls k false (calls w) = Some (bool_decide (status_of k (statuses w) = enabled)).

(** * Lemmas *)

Lemma after_calls_app k b l l' :
  after_calls k b (l ++ l') = match after_calls k b l with Some b' => after_calls k b' l' | None => None end.
Proof.
  revert b. induction l as [|c l IH]; intros b; simpl; [done|].
  destruct (decide (stream c = k)); [|apply IH]. destruct c, b; auto.
Qed.

Lemma status_set_eq k x s : status_of k (set_status k x s) = x.
Proof. by destruct k. Qed.
Lemma status_set_ne k j x s : k <> j -> status_of j (set_status k x s) = status_of j s.
Proof. by destruct k, j. Qed.

Section Facts.
Context `{!CoreProperty, !BoostOptional}.
Variables (reaction : Call -> option exn) (invoke : Remote -> option exn) (send : Reply -> option exn).

(** The call a status change makes, and the session after it. *)
Definition call_for (k : Kind) (s : Status) : Call :=
  match s with enabled => Start k | disabled => Stop k end.
Definition changed (k : Kind) (s : Status) (w : Session) : Session :=
  add_call (call_for k s)
    (set_counters (set_counter k (match s with enabled => 1 | disabled => 0 end) (counters w))
       (set_statuses (set_status k s (statuses w)) w)).

Lemma set_updates_status_effect k s w :
  consistent w -> status_of k (statuses w) <> s ->
  set_updates_status reaction k s w =
  (match reaction (call_for k s) with
   | None => Ok tt
   | Some e => Throw (match s with enabled => e | disabled => foreign end)
   end, changed k s w).
Proof.
  intros Hc Hne. destruct (Hc k) as [Hn _]. unfold set_updates_status.
  rewrite assign_differs by (simpl; by apply neqb_ne).
  destruct w as [[sp sh sv] p h v [cp ch cv] l r]. 
  destruct k, s; simpl in *; repeat case_decide; simplify_eq; try done;
    (try destruct sp); (try destruct sh); (try destruct sv); try done;
    unfold impl_start_position_updates, impl_stop_position_updates, impl_start_heading_updates,
      impl_stop_heading_updates, impl_start_velocity_updates, impl_stop_velocity_updates, noexcept,
      start_position_updates, stop_position_updates, start_heading_updates, stop_heading_updates,
      start_velocity_updates, stop_velocity_updates, start_updates, stop_updates, increment, decrement;
    unfold_m; unfold perform_call; unfold_m; by destruct (reaction _).
Qed.

Lemma consistent_changed k s w :
  consistent w -> status_of k (statuses w) <> s -> consistent (changed k s w).
Proof.
  intros Hc Hne j. destruct (Hc j) as [Hn Ha]. unfold changed; simpl. rewrite after_calls_app, Ha. simpl.
  destruct (decide (k = j)) as [<-|Hkj].
  - rewrite counter_set_eq, status_set_eq. split; [destruct s; reflexivity|].
    destruct s, (status_of k (statuses w)); try done; simpl; by rewrite decide_True.
  - rewrite counter_set_ne, status_set_ne by done. split; [done|].
    rewrite decide_False; [done|]. by destruct s.
Qed.

Lemma preserves_set_updates_status k s : preserves consistent (set_updates_status reaction k s).
Proof.
  intros w Hc. destruct (decide (status_of k (statuses w) = s)) as [E|Hne].
  - unfold exec, set_updates_status. rewrite assign_same; [done|]. simpl. rewrite E. apply neqb_refl.
  - unfold exec. rewrite set_updates_status_effect by done. by apply consistent_changed.
Qed.

(** A handler keeps what its assignment keeps. *)
Lemma preserves_handle P m text : preserves P m -> preserves P (handle send m text).
Proof.
  intros Hm. unfold handle. apply preserves_bind.
  - apply preserves_try; [|intros; apply preserves_ret].
    apply preserves_bind; [done|]. intros _. apply preserves_ret.
  - intros r. destruct (send r) as [e|]; [|apply preserves_ret].
    apply preserves_if; [apply preserves_ret|apply preserves_throw].
Qed.

Lemma preserves_provider_signal P s :
  (forall w u, P w -> P (wr position_cell_ u w)) -> (forall w u, P w -> P (wr heading_cell_ u w)) ->
  (forall w u, P w -> P (wr velocity_cell_ u w)) -> (forall w r, P w -> P (add_sent r w)) ->
  preserves P (on_provider_signal invoke s).
Proof.
  intros H1 H2 H3 H4.
  assert (forall r, preserves P (remote_invoke invoke r)) as Hr.
  { intros r. apply preserves_try; [|intros; apply preserves_skip].
    destruct (invoke r); [apply preserves_throw|apply preserves_modify; auto]. }
  destruct s; simpl; try apply preserves_skip; apply preserves_assign; try (intros; apply Hr);
    intros u' w'; auto.
Qed.

Lemma preserves_receive P x :
  (forall k s, x = Invoke (match k, s with
                 | Position, enabled => StartPositionUpdates
                 | Position, disabled => StopPositionUpdates
                 | Heading, enabled => StartHeadingUpdates
                 | Heading, disabled => StopHeadingUpdates
                 | Velocity, enabled => StartVelocityUpdates
                 | Velocity, disabled => StopVelocityUpdates end) ->
     preserves P (set_updates_status reaction
                    (match x with Invoke StartHeadingUpdates => Position | _ => k end) s)) ->
  (forall s, preserves P (on_provider_signal invoke s)) ->
  preserves P (receive reaction invoke send x).
Proof.
  intros Hm Hs. destruct x as [m|s]; [|apply Hs]. simpl.
  apply preserves_bind; [|intros; apply preserves_skip].
  destruct m; simpl; apply preserves_handle;
    [apply (Hm Position enabled)|apply (Hm Position disabled)|apply (Hm Velocity enabled)
    |apply (Hm Velocity disabled)|apply (Hm Heading enabled)|apply (Hm Heading disabled)]; done.
Qed.

Lemma live_preserves P xs w :
  (forall x, preserves P (receive reaction invoke send x)) -> P w -> P (live reaction invoke send xs w).
Proof.
  intros Hx. unfold live. revert w. induction xs as [|x xs IH]; intros w Hw; simpl; [done|].
  apply IH. by apply Hx.
Qed.

Lemma live_consistent xs w : consistent w -> consistent (live reaction invoke send xs w).
Proof.
  apply live_preserves. intros x. apply preserves_receive.
  - intros k s _. apply preserves_set_updates_status.
  - intros s. by apply preserves_provider_signal.
Qed.

Lemma initial_consistent p h v : consistent (initial_session p h v).
Proof. by intros []. Qed.

(** Releasing one stream. *)
Definition release (k : Kind) (w : Session) : Session :=
  if decide (status_of k (statuses w) = enabled)
  then add_call (Stop k) (set_counters (set_counter k 0 (counters w)) w)
  else set_counters (set_counter k our_magic_disabling_value (counters w)) w.

Lemma release_effect k w :
  counter_of k (counters w) = (if decide (status_of k (statuses w) = enabled) then 1 else 0) ->
  reaction (Stop k) = None ->
  noexcept (request (proxy reaction) (Stop k)) w = (Ok tt, release k w).
Proof.
  intros Hn Hr. unfold release. destruct w as [s p h v [cp ch cv] l r].
  destruct k; simpl in *; case_decide; simplify_eq;
    unfold noexcept, stop_position_updates, stop_heading_updates, stop_velocity_updates, stop_updates,
      decrement; unfold_m; try done; unfold perform_call; unfold_m; by rewrite Hr.
Qed.

Lemma release_others k j w :
  k <> j -> counter_of j (counters (release k w)) = counter_of j (counters w).
Proof. intros. unfold release. case_decide; simpl; by apply counter_set_ne. Qed.
Lemma release_statuses k w : statuses (release k w) = statuses w.
Proof. unfold release. by case_decide. Qed.
Lemma release_calls k w :
  calls (release k w) = calls w ++ (if decide (status_of k (statuses w) = enabled) then [Stop k] else []).
Proof. unfold release. case_decide; simpl; by rewrite ?app_nil_r. Qed.

Lemma destroy_effect w :
  consistent w -> (forall k, reaction (Stop k) = None) ->
  session_destroy reaction w = (Ok tt, release Velocity (release Heading (release Position w))).
Proof.
  intros Hc Hr. unfold session_destroy.
  erewrite bind_run by (apply (release_effect Position); [apply Hc|done]).
  erewrite bind_run.
  2:{ apply (release_effect Heading); [|done].
      rewrite release_others, release_statuses by done. apply Hc. }
  apply (release_effect Velocity); [|done].
  rewrite !release_others, !release_statuses by done. apply Hc.
Qed.

End Facts.

(** * Properties *)
Section Properties.
Context `{!CoreProperty, !BoostOptional}.
Variables (reaction : Call -> option exn) (invoke : Remote -> option exn) (send : Reply -> option exn).

(** C5: a session releases exactly what it holds.  Whatever messages its client sends,
    whatever its provider delivers and whatever the calls on the selected providers
    throw: no stream is started or stopped twice in a row, a stream is started exactly
    while its status says enabled, and the destructor stops exactly the streams that
    are started, if stopping does not throw (it would end the process). *)
Theorem session_holds_and_releases (xs : list Message) (p : Update Geometry.Position)
    (h : Update Geometry.Heading) (v : Update Geometry.Velocity) :
  let w := live reaction invoke send xs (initial_session p h v) in
  (forall k, after_calls k false (calls w) = Some (bool_decide (status_of k (statuses w) = enabled)) /\
             counter_of k (counters w) = if decide (status_of k (statuses w) = enabled) then 1 else 0) /\
  ((forall k, reaction (Stop k) = None) ->
     result (session_destroy reaction) w = Ok tt /\
     forall k, after_calls k false (calls (exec (session_destroy reaction) w)) = Some false).
Proof.
  set (w := live _ _ _ _ _). assert (consistent w) as Hc
    by (apply live_consistent, initial_consistent).
  clearbody w. split; [intros k; split; apply Hc|].
  intros Hr. unfold result, exec. rewrite destroy_effect by done. split; [done|]. intros k.
  cbn [snd]. rewrite !release_calls, !release_statuses, !after_calls_app.
  rewrite (proj2 (Hc k)).
  destruct k; simpl; repeat (case_decide; simpl); try done;
    repeat (rewrite bool_decide_true by done || rewrite bool_decide_false by done); try done.
Qed.

(** a start that fails is not retried: the status stays enabled, so the client's
    next request is answered with success although nothing is started. *)
Theorem failed_start_is_not_retried (k : Kind) (e : exn) (w : Session) :
  let start := match k with
               | Velocity => StartVelocityUpdates | _ => StartPositionUpdates end in
  k <> Heading ->
  consistent w -> status_of k (statuses w) = disabled ->
  reaction (Start k) = Some e -> is_runtime_error e = true -> (forall r, send r = None) ->
  let w' := exec (on_method reaction send start) w in
  result (on_method reaction send start) w
    = Ok (Some (ErrorReply error_starting_update "Could not enable position updates")) /\
  status_of k (statuses w') = enabled /\
  on_method reaction send start w' = (Ok (Some MethodReturn), w').
Proof.
  intros start Hk Hc Hd Hr He Hsend w'.
  assert (on_method reaction send start w =
    (Ok (Some (ErrorReply error_starting_update "Could not enable position updates")), changed k enabled w))
    as E.
  { pose proof (set_updates_status_effect reaction k enabled w Hc) as Eff. rewrite Hd in Eff.
    specialize (Eff ltac:(done)). simpl in Eff. rewrite Hr in Eff.
    destruct k; try done; simpl; unfold on_start_position_updates, on_start_velocity_updates, handle;
      unfold mbind, m_bind, try_catch; rewrite Eff, He; simpl; by rewrite Hsend. }
  assert (w' = changed k enabled w) as -> by (unfold w', exec; by rewrite E).
  split; [unfold result; by rewrite E|].
  assert (status_of k (statuses (changed k enabled w)) = enabled) as Hs
    by (apply status_set_eq).
  split; [done|].
  assert (set_updates_status reaction k enabled (changed k enabled w) = (Ok tt, changed k enabled w)) as E2.
  { unfold set_updates_status. rewrite assign_same; [done|].
    cbn [rd status_cell]. rewrite Hs. apply neqb_refl. }
  destruct k; try done; simpl; unfold on_start_position_updates, on_start_velocity_updates, handle;
    unfold mbind, m_bind, try_catch; rewrite E2; simpl; by rewrite Hsend.
Qed.

(** headings can never be started through the service: the handler of
    [StartHeadingUpdates] is the handler of [StartPositionUpdates], and no sequence
    of messages makes a session call [start_heading_updates] or enable headings. *)
Theorem headings_are_never_started (xs : list Message) (p : Update Geometry.Position)
    (h : Update Geometry.Heading) (v : Update Geometry.Velocity) :
  let w := live reaction invoke send xs (initial_session p h v) in
  on_method reaction send StartHeadingUpdates = on_method reaction send StartPositionUpdates /\
  status_of Heading (statuses w) = disabled /\
  ~ In (Start Heading) (calls w).
Proof.
  cbv zeta. split; [done|].
  set (P := fun w => status_of Heading (statuses w) = disabled /\
                     counter_of Heading (counters w) = 0 /\ consistent w /\ ~ In (Start Heading) (calls w)).
  enough (P (live reaction invoke send xs (initial_session p h v))) as (H1 & _ & _ & H2) by done.
  apply live_preserves; [|by (split_and!; [..|apply initial_consistent|intros []])].
  intros x. apply preserves_receive.
  - intros k s Hx w (H1 & H2 & Hc & H3).
    set (k' := match x with Invoke StartHeadingUpdates => Position | _ => k end).
    destruct (decide (status_of k' (statuses w) = s)) as [E|Hne].
    { unfold exec, set_updates_status. rewrite assign_same; [done|]. simpl. rewrite E. apply neqb_refl. }
    assert (k' = Heading -> s = disabled) as Hk.
    { subst k'. intros Hk. destruct s; [|done]. subst x. by destruct k. }
    clearbody k'. unfold exec. rewrite set_updates_status_effect by done. cbn [snd].
    assert (k' <> Heading) as Hk' by (intros Eh; rewrite Eh in Hne; rewrite (Hk Eh) in Hne; done).
    split_and!; [| |by apply consistent_changed|];
      unfold changed; cbn [statuses counters calls add_call set_counters set_statuses].
    { by rewrite status_set_ne. }
    { by rewrite counter_set_ne. }
    rewrite in_app_iff. intros [?|[Hs|[]]]; [done|]. destruct s; simpl in Hs; congruence.
  - intros s. apply preserves_provider_signal; intros w u (H1 & H2 & Hc & H3); by split_and!.
Qed.

(** a session delivers what its selected providers deliver, whatever its own
    statuses: a session with all updates disabled still sends its client every new
    position another client's session makes the provider deliver. *)
Theorem updates_are_delivered_while_disabled (u : Update Geometry.Position) (w : Session) :
  (forall r, invoke r = None) ->
  update_neq Geometry.Pos.position_eq (position w) u = true ->
  let w' := exec (receive reaction invoke send (Deliver (SigPosition u))) w in
  statuses w' = statuses w /\ position w' = u /\ sent w' = sent w ++ [UpdatePosition u] /\
  calls w' = calls w.
Proof.
  intros Hi Hn. unfold exec, receive, on_provider_signal. rewrite assign_differs by done.
  unfold on_position_changed, remote_invoke, try_catch. rewrite Hi. by split_and!.
Qed.
End Properties.

(** * A concrete session *)
Definition sample_position (t : Z) : Update Geometry.Position := MkUpdate Geometry.Pos.default_position t.
Definition sample : Session :=
  initial_session (sample_position 0) (MkUpdate (S754_zero false) 0) (MkUpdate (S754_zero false) 0).
Definition quiet (_ : Call) : option exn := None.
Definition reachable_client (_ : Remote) : option exn := None.
Definition deliver_reply (_ : Reply) : option exn := None.
(** Positions cannot be started. *)
Definition no_positions (c : Call) : option exn :=
  match c with Start Position => Some (runtime_error "no signal") | _ => None end.

Lemma session_holds_and_releases_witness :
  let w := live quiet reachable_client deliver_reply
             [Invoke StartPositionUpdates; Invoke StartVelocityUpdates; Invoke StopPositionUpdates] sample in
  calls w = [Start Position; Start Velocity; Stop Position] /\
  after_calls Velocity false (calls (exec (session_destroy quiet) w)) = Some false.
Proof.
  cbv zeta. split; [reflexivity|].
  exact (proj2 (proj2 (session_holds_and_releases quiet reachable_client deliver_reply
    [Invoke StartPositionUpdates; Invoke StartVelocityUpdates; Invoke StopPositionUpdates]
    (sample_position 0) (MkUpdate (S754_zero false) 0) (MkUpdate (S754_zero false) 0))
    (fun _ => eq_refl)) Velocity).
Defined.

Lemma failed_start_is_not_retried_witness :
  consistent sample /\
  result (on_method no_positions deliver_reply StartPositionUpdates)
    (exec (on_method no_positions deliver_reply StartPositionUpdates) sample) = Ok (Some MethodReturn).
Proof.
  assert (consistent sample) as H1 by (apply initial_consistent).
  split; [exact H1|].
  destruct (failed_start_is_not_retried no_positions deliver_reply Position (runtime_error "no signal")
    sample ltac:(discriminate) H1 eq_refl eq_refl eq_refl (fun _ => eq_refl)) as (_ & _ & E).
  unfold result. rewrite E. reflexivity.
Defined.

Lemma updates_are_delivered_while_disabled_witness :
  update_neq Geometry.Pos.position_eq (position sample) (sample_position 1) = true /\
  sent (exec (receive quiet reachable_client deliver_reply (Deliver (SigPosition (sample_position 1)))) sample)
  = [UpdatePosition (sample_position 1)].
Proof.
  assert (update_neq Geometry.Pos.position_eq (position sample) (sample_position 1) = true) as H1
    by (vm_compute; reflexivity).
  split; [exact H1|].
  destruct (updates_are_delivered_while_disabled quiet reachable_client deliver_reply (sample_position 1)
    sample (fun _ => eq_refl) H1) as (_ & _ & E & _).
  exact E.
Defined.

End Session.
