(* ===== verification/Serving.v ===== *)
(** The engine under requests ([engine.cpp], [state_tracking_provider.h], [provider.cpp]):
    what a start and a stop do to the tracked provider, to the engine's state, and, when that
    changes, to the controllers of all providers.  [serving] describes an engine of whose
    providers only one stream is asked for, [tracked] any; both meet the [Contract] between
    the engine and the applications. *)
From Stdlib Require Import ZArith Lia.
From stdpp Require Import base gmap strings list.
From S2P Require Import Prelude Geometry UpdatePolicy Provider Property Settings Fusion Engine Session.
Local Open Scope Z_scope.
#[local] Set Warnings "-clear-no-such-hyp".

Module Serving.
Import Controller Enums Fusion.Tracking Engine.Engine.

(** The calls on the provider [a] among what the engine did. *)
Definition calls_of (a : address) (es : list Event) : list Call :=
  omap (fun e => match e with Called b c => if decide (b = a) then Some c else None | _ => None end) es.

Section Serving.
Context {S : Type} `{CP : !CoreProperty} `{BO : !BoostOptional} `{HS : !Settings S} `{HL : !SettingsLaws S engine_key}.
Variables (requirements : address -> Z) (reaction : Event -> option exn).
Hypothesis no_throw : forall e, reaction e = None.
Abbreviation W := (Engine S).

(** [p] observers of the stream [k] of each provider, and none of other streams: the
    counters of the tracked provider and of the provider itself, their states, the engine's
    state and the calls on the provider are as they should be. *)
Definition serving_node (k : Kind) (n : Z) : Node :=
  MkNode (set_counter k n initial_counters) (if 0 <? n then tracking_active else tracking_enabled)
         (set_counter k (if 0 <? n then 1 else 0) initial_counters).

Record serving (k : Kind) (p : address -> Z) (w : W) : Prop := {
  serving_nodes : forall a, node w a = serving_node k (p a);
  serving_outside : forall a, a ∉ providers w -> p a = 0;
  serving_counts : forall a, 0 <= p a;
  serving_on : engine_state (configuration w) <> off;
  serving_state : any_active w = true -> engine_state (configuration w) = active;
  serving_satellites : satellite_based_positioning_state (configuration w) = sat_on;
  serving_calls : forall a j, Session.after_calls j false (calls_of a (events w)) =
    Some (bool_decide (j = k) && (0 <? p a))
}.

Definition set_count (p : address -> Z) (a : address) (n : Z) (b : address) : Z := if decide (b = a) then n else p b.

Lemma serving_ext k p q w : (forall a, p a = q a) -> serving k p w -> serving k q w.
Proof.
  intros E [H1 H2 H3 H4 H4' H5 H6]. split; try done; intros a; rewrite <- ?E; auto.
Qed.

Lemma calls_of_app a es es' : calls_of a (es ++ es') = calls_of a es ++ calls_of a es'.
Proof. apply omap_app. Qed.

(** ** Statements of the engine *)

Lemma persist_effect st (w : W) : exists s, persist_engine_state st w = (Ok tt, set_settings s w).
Proof.
  destruct (set_total (P := engine_key) key_engine_state (print st) (settings w)) as [b Hb]; [by right|].
  unfold persist_engine_state, on_settings, set_enum_for_key. unfold result in Hb. unfold mbind, m_bind. cbv zeta.
  destruct (set_string_for_key key_engine_state (print st) (settings w)) as [r s]. simpl in Hb. subst r.
  by exists s.
Qed.

Lemma set_settings_same (w : W) : set_settings (settings w) w = w.
Proof. by destruct w. Qed.

(** Assigning [active] to an engine that is not off. *)
Lemma set_active_effect (w : W) :
  exists s, set_engine_state requirements reaction active w =
            (Ok tt, set_settings s (wr engine_state_cell active w)).
Proof.
  destruct (decide (engine_state (configuration w) = active)) as [E|Hne].
  - exists (settings w). unfold set_engine_state. cbn [set_engine_state_fuel].
    rewrite assign_same by (simpl; rewrite E; apply neqb_refl).
    f_equal. destruct w as [[] ? ? ? ? ? ? ?]. simpl in *. by subst.
  - rewrite set_engine_state_unfold by done. unfold engine_state_slot, for_each_provider.
    assert (forall ps (v : W), for_each ps (fun _ : address => try_catch skip is_std_exception (fun _ => skip)) v = (Ok tt, v)) as L.
    { induction ps as [|a ps IH]; intros v; [done|]. cbn [for_each]. by rewrite (bind_run _ _ _ tt v). }
    destruct (persist_effect active (wr engine_state_cell active w)) as [s Es]. exists s.
    erewrite bind_run; [exact Es|]. erewrite bind_run by reflexivity. apply L.
Qed.

Lemma enable_all_effect set ps (w : W) :
  satellite_based_positioning_state (configuration w) = sat_on ->
  exists ns, for_each ps (fun a => try_catch
      (s ← read satellite_cell;
       if requires_satellites requirements a && bool_decide (s = sat_off) then skip
       else enable (tracking_controller reaction set a)) is_std_exception (fun _ => skip)) w =
    (Ok tt, MkEngine (configuration w) (updates w) (update_policy w) (settings w) (providers w) (wired w) ns (events w)) /\
    forall b, default fresh_node (ns !! b) =
      if decide (b ∈ ps) then MkNode initial_counters (state (node w b)) (impl (node w b)) else node w b.
Proof.
  revert w. induction ps as [|a ps IH]; intros w Hs.
  { exists (nodes w). by destruct w. }
  cbn [for_each].
  assert (try_catch (s ← read satellite_cell;
       if requires_satellites requirements a && bool_decide (s = sat_off) then skip
       else enable (tracking_controller reaction set a)) is_std_exception (fun _ => skip) w =
    (Ok tt, set_node a (MkNode initial_counters (state (node w a)) (impl (node w a))) w)) as E.
  { unfold try_catch. erewrite bind_run by reflexivity. simpl. rewrite Hs, bool_decide_false, andb_false_r by done.
    by rewrite enable_effect. }
  rewrite (bind_run _ _ _ _ _ E). destruct (IH (set_node a (MkNode initial_counters (state (node w a)) (impl (node w a))) w) Hs)
    as (ns & E' & Hn).
  exists ns. split; [exact E'|]. intros b. rewrite Hn. destruct (decide (b = a)) as [->|Hne].
  - rewrite !node_set_eq, (decide_True (P := a ∈ a :: ps)) by (by left). simpl. by case_decide.
  - rewrite !node_set_ne by congruence. destruct (decide (b ∈ ps)); [by rewrite decide_True by (by right)|].
    rewrite decide_False; [done|]. intros [?|?]%elem_of_cons; congruence.
Qed.

(** Assigning [on] to an engine that is active resets the counters of all its providers. *)
Lemma set_on_effect (w : W) :
  engine_state (configuration w) = active -> satellite_based_positioning_state (configuration w) = sat_on ->
  exists w', set_engine_state requirements reaction on w = (Ok tt, w') /\
    engine_state (configuration w') = on /\ satellite_based_positioning_state (configuration w') = sat_on /\
    providers w' = providers w /\ events w' = events w /\
    forall b, node w' b = if decide (b ∈ providers w)
                          then MkNode initial_counters (state (node w b)) (impl (node w b)) else node w b.
Proof.
  intros He Hs. rewrite set_engine_state_unfold by (by rewrite He).
  destruct (enable_all_effect (set_nested requirements reaction) (providers w) (wr engine_state_cell on w) Hs)
    as (ns & E & Hn).
  unfold engine_state_slot, for_each_provider.
  destruct (persist_effect on (MkEngine (configuration (wr engine_state_cell on w)) (updates w) (update_policy w)
    (settings w) (providers w) (wired w) ns (events w))) as [s Es].
  eexists. split; [erewrite bind_run; [exact Es|]; erewrite bind_run by reflexivity; exact E|].
  split_and!; try done.
Qed.

(** ** Requests *)

Lemma set_counter_twice k x y cs : set_counter k x (set_counter k y cs) = set_counter k x cs.
Proof. by destruct k. Qed.

Lemma performed e (w : W) : perform reaction e w = (Ok tt, log_event e w).
Proof. unfold perform. unfold_m. by rewrite no_throw. Qed.

(** A request up to the call on the tracked provider. *)
Lemma start_at k a o st im (w : W) :
  node w a = MkNode o st im -> 0 <= counter_of k o < INT_MAX ->
  request (provider_controller requirements reaction a) (Start k) w =
  when (counter_of k o + 1 =? 1)
    (assign neqb (state_cell a) tracking_active (fun _ => provider_state_changed (set_engine_state requirements reaction));;
     request (impl_controller reaction a) (Start k))
    (set_node a (MkNode (set_counter k (counter_of k o + 1) o) st im) w).
Proof.
  intros Hn Hb. destruct o as [x y z], k; cbn [request set_counter counter_of c_position c_heading c_velocity] in *;
    unfold start_position_updates at 1 || unfold start_heading_updates at 1 || unfold start_velocity_updates at 1;
    unfold start_updates at 1; unfold increment; unfold_m; repeat (rewrite Hn; simpl);
    replace (_ <? 0) with false by lia; repeat (rewrite Hn; simpl);
    by rewrite wrap_s32_small by (unfold INT_MIN, INT_MAX in *; lia).
Qed.
Lemma stop_at k a o st im (w : W) :
  node w a = MkNode o st im -> 0 <= counter_of k o <= INT_MAX ->
  request (provider_controller requirements reaction a) (Stop k) w =
  when (counter_of k o - 1 =? 0)
    (assign neqb (state_cell a) tracking_enabled (fun _ => provider_state_changed (set_engine_state requirements reaction));;
     request (impl_controller reaction a) (Stop k))
    (set_node a (MkNode (set_counter k (counter_of k o - 1) o) st im) w).
Proof.
  intros Hn Hb. destruct o as [x y z], k; cbn [request set_counter counter_of c_position c_heading c_velocity] in *;
    unfold stop_position_updates at 1 || unfold stop_heading_updates at 1 || unfold stop_velocity_updates at 1;
    unfold stop_updates at 1; unfold decrement; unfold_m; repeat (rewrite Hn; simpl);
    replace (_ <? 0) with false by lia; repeat (rewrite Hn; simpl);
    by rewrite wrap_s32_small by (unfold INT_MIN, INT_MAX in *; lia).
Qed.

(** The provider's own controller. *)
Lemma impl_start_at k a o st i (w : W) :
  node w a = MkNode o st i -> 0 <= counter_of k i < INT_MAX ->
  request (impl_controller reaction a) (Start k) w =
  (Ok tt, let w' := set_node a (MkNode o st (set_counter k (counter_of k i + 1) i)) w in
          if counter_of k i + 1 =? 1 then log_event (Called a (Start k)) w' else w').
Proof.
  intros Hn Hb. destruct i as [x y z], k; cbn [request set_counter counter_of c_position c_heading c_velocity] in *;
    unfold start_position_updates, start_heading_updates, start_velocity_updates, start_updates, increment; unfold_m;
    repeat (rewrite Hn; simpl); replace (_ <? 0) with false by lia; repeat (rewrite Hn; simpl);
    rewrite wrap_s32_small by (unfold INT_MIN, INT_MAX in *; lia); case_bool; simpl; by rewrite ?performed.
Qed.
Lemma impl_stop_at k a o st i (w : W) :
  node w a = MkNode o st i -> 0 <= counter_of k i <= INT_MAX ->
  request (impl_controller reaction a) (Stop k) w =
  (Ok tt, let w' := set_node a (MkNode o st (set_counter k (counter_of k i - 1) i)) w in
          if counter_of k i - 1 =? 0 then log_event (Called a (Stop k)) w' else w').
Proof.
  intros Hn Hb. destruct i as [x y z], k; cbn [request set_counter counter_of c_position c_heading c_velocity] in *;
    unfold stop_position_updates, stop_heading_updates, stop_velocity_updates, stop_updates, decrement; unfold_m;
    repeat (rewrite Hn; simpl); replace (_ <? 0) with false by lia; repeat (rewrite Hn; simpl);
    rewrite wrap_s32_small by (unfold INT_MIN, INT_MAX in *; lia); case_bool; simpl; by rewrite ?performed.
Qed.

(** The state of a tracked provider changes, and the engine's with it. *)
Lemma state_changes a s (w : W) :
  state (node w a) <> s ->
  assign neqb (state_cell a) s (fun _ => provider_state_changed (set_engine_state requirements reaction)) w =
  let w' := set_node a (MkNode (own (node w a)) s (impl (node w a))) w in
  set_engine_state requirements reaction (if any_active w' then active else on) w'.
Proof. intros Hne. by rewrite assign_differs by (simpl; by apply neqb_ne). Qed.

Lemma any_active_spec (w : W) : any_active w = true <-> exists a, a ∈ providers w /\ state (node w a) = tracking_active.
Proof.
  unfold any_active. rewrite existsb_exists. apply exist_proper. intros a.
  by rewrite <- list_elem_of_In, bool_decide_eq_true.
Qed.

Lemma serving_active k p (w : W) : serving k p w -> any_active w = true <-> exists a, a ∈ providers w /\ 0 < p a.
Proof.
  intros Hw. rewrite any_active_spec. apply exist_proper. intros a. rewrite (serving_nodes _ _ _ Hw). simpl.
  destruct (Z.ltb_spec 0 (p a)); [tauto|]. split; [intros [_ E]; discriminate E|lia].
Qed.

(** An observer that is not the first only counts. *)
Lemma serving_count k p a n (w : W) :
  serving k p w -> a ∈ providers w -> 0 < p a -> 0 < n ->
  serving k (set_count p a n) (set_node a (serving_node k n) w).
Proof.
  intros [H1 H2 H3 H4 H4' H5 H6] Ha Hp Hn. split; cbn [providers configuration events set_node]; unfold set_count.
  - intros b. case_decide as E; [subst; by rewrite node_set_eq|by rewrite node_set_ne by congruence].
  - intros b Hb. case_decide; [by subst|auto].
  - intros b. case_decide; [lia|auto].
  - done.
  - rewrite (any_active_ext (set_node a (serving_node k n) w) w); [done|done|]. intros b.
    destruct (decide (b = a)) as [->|Hne]; [|by rewrite node_set_ne by congruence].
    rewrite node_set_eq, H1. unfold serving_node. simpl. by replace (0 <? n) with (0 <? p a) by lia.
  - done.
  - intros b j. rewrite H6. case_decide; [subst; by replace (0 <? n) with (0 <? p a) by lia|done].
Qed.

(** The engine's state follows a change; its slots reset counters that are zero anyway. *)
Lemma state_follows (v : W) :
  engine_state (configuration v) <> off -> satellite_based_positioning_state (configuration v) = sat_on ->
  (any_active v = false -> forall b, b ∈ providers v -> own (node v b) = initial_counters) ->
  exists v', set_engine_state requirements reaction (if any_active v then active else on) v = (Ok tt, v') /\
    engine_state (configuration v') = (if any_active v then active else on) /\
    satellite_based_positioning_state (configuration v') = sat_on /\
    providers v' = providers v /\ events v' = events v /\ forall b, node v' b = node v b.
Proof.
  intros He Hs Hi. destruct (any_active v) eqn:Ea.
  - destruct (set_active_effect v) as [s E]. eexists. split; [exact E|]. by split_and!.
  - specialize (Hi eq_refl). destruct (engine_state (configuration v)) eqn:Es; [done| |].
    + exists v. split; [|by split_and!]. unfold set_engine_state. cbn [set_engine_state_fuel].
      rewrite assign_same; [done|]. simpl. rewrite Es. apply neqb_refl.
    + destruct (set_on_effect v Es Hs) as (v' & E & H1 & H2 & H3 & H4 & Hn). exists v'. split_and!; try done.
      intros b. rewrite Hn. case_decide as Hb; [|done]. specialize (Hi b Hb). destruct (node v b). simpl in *. by subst.
Qed.

(** The first observer of a provider and the last. *)
Lemma serving_edge k p a c (w w' : W) :
  serving k p w -> a ∈ providers w -> stream c = k -> p a = (match c with Start _ => 0 | Stop _ => 1 end) ->
  (forall b, node w' b = if decide (b = a) then serving_node k (p a + change c) else node w b) ->
  providers w' = providers w -> engine_state (configuration w') = (if any_active w' then active else on) ->
  satellite_based_positioning_state (configuration w') = sat_on -> events w' = events w ++ [Called a c] ->
  serving k (set_count p a (p a + change c)) w'.
Proof.
  intros [H1 H2 H3 H4 H4' H5 H6] Ha Hc Hp Hn Hps He Hs Hev. split; unfold set_count; try done.
  - intros b. rewrite Hn. by case_decide.
  - intros b Hb. rewrite Hps in Hb. case_decide; [by subst|auto].
  - intros b. case_decide; [destruct c; simpl in *; lia|auto].
  - rewrite He. apply target_not_off.
  - intros Ea. by rewrite He, Ea.
  - intros b j. rewrite Hev, calls_of_app, Session.after_calls_app, H6. unfold calls_of. simpl.
    destruct (decide (a = b)) as [<-|Hne]; [rewrite decide_True by done|by rewrite decide_False by congruence].
    simpl. subst k. rewrite Hp. destruct (decide (stream c = j)) as [<-|Hj].
    + rewrite bool_decide_true by done. by destruct c.
    + by rewrite bool_decide_false by congruence.
Qed.

(** The statements between the edge of a tracked provider's counter and the call. *)
Lemma edge_state k p a c s (w : W) :
  serving k p w -> a ∈ providers w -> stream c = k -> p a = (match c with Start _ => 0 | Stop _ => 1 end) ->
  s = (match c with Start _ => tracking_active | Stop _ => tracking_enabled end) ->
  exists v, assign neqb (state_cell a) s (fun _ => provider_state_changed (set_engine_state requirements reaction))
      (set_node a (MkNode (set_counter k (p a + change c) initial_counters) (state (serving_node k (p a)))
                          (impl (serving_node k (p a)))) w) = (Ok tt, v) /\
    engine_state (configuration v) = (if any_active v then active else on) /\
    satellite_based_positioning_state (configuration v) = sat_on /\
    providers v = providers w /\ events v = events w /\
    forall b, node v b = if decide (b = a) then MkNode (set_counter k (p a + change c) initial_counters) s
                                                       (impl (serving_node k (p a))) else node w b.
Proof.
  intros [H1 H2 H3 H4 H4' H5 H6] Ha Hc Hp Hs. set (v1 := set_node a _ w).
  assert (state (node v1 a) <> s) as Hne.
  { unfold v1. rewrite node_set_eq, Hp, Hs. by destruct c. }
  pose proof (state_changes a s v1 Hne) as Ec. cbv zeta in Ec. set (v2 := set_node a _ v1) in Ec.
  assert (forall b, node v2 b = if decide (b = a) then MkNode (set_counter k (p a + change c) initial_counters) s
            (impl (serving_node k (p a))) else node w b) as Hv.
  { intros b. unfold v2, v1. case_decide as E; [subst b; by rewrite !node_set_eq|by rewrite !node_set_ne by congruence]. }
  destruct (state_follows v2) as (v3 & E3 & S1 & S2 & S3 & S4 & S5).
  - exact H4.
  - done.
  - intros Hna b Hb. rewrite Hv. case_decide as E.
    + subst b. destruct c; [|simpl; rewrite Hp; by destruct k].
      exfalso. assert (any_active v2 = true) as Hy; [|congruence]. apply any_active_spec. exists a. split; [done|].
      by rewrite Hv, decide_True by done.
    + rewrite H1. simpl. assert (p b = 0) as ->; [|by destruct k]. specialize (H3 b).
      destruct (Z.ltb_spec 0 (p b)); [|lia]. exfalso. assert (any_active v2 = true) as Hy; [|congruence].
      apply any_active_spec. exists b. split; [done|]. rewrite Hv, decide_False, H1 by done. simpl.
      by replace (0 <? p b) with true by lia.
  - exists v3. split; [by rewrite Ec|]. split_and!; try done.
    + rewrite S1, (any_active_ext v3 v2); [done|done|]. intros b. by rewrite S5.
    + intros b. by rewrite S5, Hv.
Qed.

Lemma node_log e (w : W) b : node (log_event e w) b = node w b.
Proof. done. Qed.
Lemma any_active_log e (w : W) : any_active (log_event e w) = any_active w.
Proof. done. Qed.

Lemma serve_start k p a (w : W) :
  serving k p w -> a ∈ providers w -> p a < INT_MAX ->
  exists w', request (provider_controller requirements reaction a) (Start k) w = (Ok tt, w') /\
    serving k (set_count p a (p a + 1)) w' /\ providers w' = providers w.
Proof.
  intros Hw Ha Hb. pose proof (serving_nodes _ _ _ Hw a) as Hn. pose proof (serving_counts _ _ _ Hw a) as Hp.
  rewrite (start_at k a _ _ _ w Hn), counter_set_eq, set_counter_twice by (rewrite counter_set_eq; lia).
  destruct (Z.eqb_spec (p a + 1) 1) as [E|E]; unfold when; cbv iota.
  2:{ eexists. split; [reflexivity|]. split; [|done].
      pose proof (serving_count k p a (p a + 1) w Hw Ha ltac:(lia) ltac:(lia)) as Hc. unfold serving_node in *.
      by replace (0 <? p a + 1) with (0 <? p a) in Hc by lia. }
  assert (p a = 0) as E0 by lia.
  destruct (edge_state k p a (Start k) tracking_active w Hw Ha eq_refl E0 eq_refl) as (v & Ev & V1 & V2 & V3 & V4 & V5).
  rewrite (bind_run _ _ _ _ _ Ev). cbv beta. pose proof (V5 a) as Va. rewrite decide_True in Va by done.
  rewrite (impl_start_at k a (set_counter k 1 initial_counters) tracking_active initial_counters v)
    by (by rewrite ?Va, ?E0; destruct k).
  replace (counter_of k initial_counters) with 0 by (by destruct k). cbv zeta. change (0 + 1 =? 1) with true. cbv iota.
  eexists. split; [reflexivity|]. split; [|done]. apply (serving_edge k p a (Start k) w); try done.
  - intros b. rewrite node_log, E0. case_decide as Eb; [subst b; by rewrite node_set_eq|].
    by rewrite node_set_ne, V5, decide_False by congruence.
  - rewrite any_active_log, (any_active_ext _ v); [done|done|]. intros b.
    destruct (decide (b = a)) as [->|Hne]; [by rewrite node_set_eq, Va|by rewrite node_set_ne by congruence].
  - simpl. by rewrite V4.
Qed.

Lemma serve_stop k p a (w : W) :
  serving k p w -> a ∈ providers w -> 0 < p a <= INT_MAX ->
  exists w', request (provider_controller requirements reaction a) (Stop k) w = (Ok tt, w') /\
    serving k (set_count p a (p a - 1)) w' /\ providers w' = providers w.
Proof.
  intros Hw Ha Hb. pose proof (serving_nodes _ _ _ Hw a) as Hn.
  rewrite (stop_at k a _ _ _ w Hn), counter_set_eq, set_counter_twice by (rewrite counter_set_eq; lia).
  destruct (Z.eqb_spec (p a - 1) 0) as [E|E]; unfold when; cbv iota.
  2:{ eexists. split; [reflexivity|]. split; [|done].
      pose proof (serving_count k p a (p a - 1) w Hw Ha ltac:(lia) ltac:(lia)) as Hc. unfold serving_node in *.
      by replace (0 <? p a - 1) with (0 <? p a) in Hc by lia. }
  assert (p a = 1) as E0 by lia.
  destruct (edge_state k p a (Stop k) tracking_enabled w Hw Ha eq_refl E0 eq_refl) as (v & Ev & V1 & V2 & V3 & V4 & V5).
  rewrite (bind_run _ _ _ _ _ Ev). cbv beta. pose proof (V5 a) as Va. rewrite decide_True in Va by done.
  rewrite (impl_stop_at k a initial_counters tracking_enabled (set_counter k 1 initial_counters) v)
    by (by rewrite ?Va, ?E0; destruct k).
  rewrite counter_set_eq, set_counter_twice. cbv zeta. change (1 - 1 =? 0) with true. cbv iota.
  eexists. split; [reflexivity|]. split; [|done]. apply (serving_edge k p a (Stop k) w); try done.
  - intros b. rewrite node_log, E0. case_decide as Eb; [subst b; rewrite node_set_eq; by destruct k|].
    by rewrite node_set_ne, V5, decide_False by congruence.
  - rewrite any_active_log, (any_active_ext _ v); [done|done|]. intros b.
    destruct (decide (b = a)) as [->|Hne]; [by rewrite node_set_eq, Va|by rewrite node_set_ne by congruence].
  - simpl. by rewrite V4.
Qed.

(** ** What else happens to the engine *)

(** Nothing that the counts of observers depend on. *)
Record unchanged (w w' : W) : Prop := {
  unchanged_state : engine_state (configuration w') = engine_state (configuration w);
  unchanged_satellites :
    satellite_based_positioning_state (configuration w') = satellite_based_positioning_state (configuration w);
  unchanged_providers : providers w' = providers w;
  unchanged_nodes : nodes w' = nodes w;
  unchanged_calls : forall a, calls_of a (events w') = calls_of a (events w)
}.

Section Unchanged.
Variable P : W -> Prop.
Hypothesis blind : forall w w', unchanged w w' -> P w -> P w'.

Lemma unchanged_perform e : (forall a c, e <> Called a c) -> preserves P (perform (S := S) reaction e).
Proof.
  intros He w Hw. unfold exec. rewrite performed. apply (blind w); [|done]. split; try done.
  intros a. simpl. rewrite calls_of_app. destruct e; try apply app_nil_r. by destruct (He a0 c).
Qed.

(** An update of a provider reaches the engine's properties and all providers. *)
Lemma unchanged_signal s : preserves P (on_signal (S := S) reaction s).
Proof.
  apply preserves_for_each. intros x _. destruct x as [u|u|u|u]; [|apply preserves_skip|apply preserves_skip|].
  - unfold on_position. apply preserves_bind; [apply preserves_gets|]. intros q.
    apply preserves_bind; [apply preserves_modify; intros w; by apply blind|]. intros _.
    apply preserves_assign; [intros l w; by apply blind|]. intros l.
    apply preserves_bind; [apply preserves_gets|]. intros ws. apply preserves_for_each. intros a _.
    destruct l; [by apply unchanged_perform|apply preserves_skip].
  - unfold on_svs. apply preserves_bind; [apply preserves_read|]. intros m.
    apply preserves_write. intros l w. by apply blind.
Qed.

Lemma unchanged_wifi st : preserves P (set_wifi_and_cell_id_reporting_state (S := S) reaction st).
Proof.
  apply preserves_assign; [intros l w; by apply blind|]. intros l.
  apply preserves_bind; [intros w; by apply blind|]. intros _.
  apply preserves_bind; [apply preserves_gets|]. intros ws. apply preserves_for_each. intros a _.
  by apply unchanged_perform.
Qed.
End Unchanged.

Lemma serving_unchanged k p (w w' : W) : unchanged w w' -> serving k p w -> serving k p w'.
Proof.
  intros [E1 E2 E3 E4 E5] [H1 H2 H3 H4 H4' H5 H6].
  assert (forall a, node w' a = node w a) as En by (intros a; unfold node; by rewrite E4).
  split; rewrite ?E1, ?E2, ?E3; try done.
  - intros a. by rewrite En.
  - rewrite (any_active_ext w' w); [done|done|]. intros a. by rewrite En.
  - intros a j. by rewrite E5.
Qed.

Lemma added_node a b (w : W) :
  engine_state (configuration w) <> off -> satellite_based_positioning_state (configuration w) = sat_on ->
  node (added requirements a w) b =
  if decide (b = a) then MkNode initial_counters tracking_enabled (impl (node w a)) else node w b.
Proof.
  intros H4 H5. assert (kept_disabled requirements a w = false) as Hk.
  { unfold kept_disabled. rewrite H5, !bool_decide_false by done. by rewrite andb_false_r. }
  unfold added. rewrite Hk. change (node (set_node a (MkNode initial_counters tracking_enabled (impl (node w a))) w) b =
    if decide (b = a) then MkNode initial_counters tracking_enabled (impl (node w a)) else node w b).
  case_decide as E; [subst; by rewrite node_set_eq|by rewrite node_set_ne by congruence].
Qed.

(** A new provider is used by nobody. *)
Lemma serving_added k p a (w : W) :
  serving k p w -> a ∉ providers w -> serving k p (added requirements a w).
Proof.
  intros [H1 H2 H3 H4 H4' H5 H6] Ha.
  assert (any_active (added requirements a w) = any_active w) as Ea
    by (apply added_any_active; by rewrite <- list_elem_of_In).
  split; try done.
  - intros b. rewrite added_node by done. case_decide as E; [|done]. subst b. rewrite H1, H2 by done. by destruct k.
  - intros b Hb. apply H2. intros Hin. apply Hb, list_elem_of_In, in_providers_added. right. by apply list_elem_of_In.
  - by rewrite Ea.
Qed.

(** ** A new engine *)
Lemma serving_constructed k selection policy heap store_ e :
  (forall a, heap !! a = None) -> construct (S := S) selection policy heap store_ = Ok e ->
  engine_state (configuration e) <> off -> serving k (fun _ => 0) e /\ providers e = [].
Proof.
  intros Hh He Hoff. unfold construct in He. destruct selection; [|done]. destruct store_; [|done].
  destruct (get_enum_for_key key_engine_state _ _) as [[st|] s1]; [|done].
  destruct (get_enum_for_key key_wifi _ _) as [[wf|] s2]; [|done]. injection He as <-. split; [|done].
  split; try done.
  - intros a. unfold node. simpl. rewrite Hh. by destruct k.
  - intros a j. simpl. by rewrite andb_false_r.
Qed.

(** ** Any requests

    With several streams the engine's resets make the counts of the wrappers wrong, but only
    in one direction: whoever is not counted any more was passed on to the provider and
    never taken back. *)

(** One stream of one provider: [p] observers, [own] counted by the wrapper, [impl] by the
    provider's controller, none above [m]. *)
Definition covered (m p own impl : Z) : Prop :=
  -1 <= own <= m /\ 0 <= impl <= m /\ 0 <= p /\ (0 < own -> 1 <= impl) /\
  (own = p \/ (if 0 <? own then 2 else 1) <= impl).

Lemma covered_reset m p own impl : covered m p own impl -> covered m p 0 impl.
Proof.
  unfold covered. intros (H1 & H2 & H3 & H4 & H5). change (0 <? 0) with false. cbv iota.
  destruct (Z.ltb_spec 0 own); lia.
Qed.

Lemma covered_more m m' p own impl : m <= m' -> covered m p own impl -> covered m' p own impl.
Proof. unfold covered. lia. Qed.

(** Who has an observer runs. *)
Lemma covered_runs m p own impl : covered m p own impl -> 0 < p -> 0 < impl.
Proof. unfold covered. destruct (Z.ltb_spec 0 own); lia. Qed.

Record tracked (m : address -> Z) (p : address -> Kind -> Z) (w : W) : Prop := {
  tracked_nodes : forall a k, covered (m a) (p a k) (counter_of k (own (node w a))) (counter_of k (impl (node w a)));
  tracked_calls : forall a k, Session.after_calls k false (calls_of a (events w)) =
    Some (0 <? counter_of k (impl (node w a)));
  tracked_outside : forall a, a ∉ providers w -> node w a = fresh_node;
  tracked_on : engine_state (configuration w) <> off;
  tracked_satellites : satellite_based_positioning_state (configuration w) = sat_on
}.

Lemma tracked_ext m p m' q w :
  (forall a, m a <= m' a) -> (forall a k, p a k = q a k) -> tracked m p w -> tracked m' q w.
Proof.
  intros Hm E [H1 H2 H3 H4 H5]. split; try done. intros a k. rewrite <- E. by apply (covered_more (m a)).
Qed.

(** Assigning a state to a provider of an engine that is not off, with all its slots. *)
Lemma assign_state a s (w : W) :
  engine_state (configuration w) <> off -> satellite_based_positioning_state (configuration w) = sat_on ->
  exists v, assign neqb (state_cell a) s (fun _ => provider_state_changed (set_engine_state requirements reaction)) w =
      (Ok tt, v) /\
    engine_state (configuration v) <> off /\ satellite_based_positioning_state (configuration v) = sat_on /\
    providers v = providers w /\ events v = events w /\
    (forall b, impl (node v b) = impl (node w b) /\
       (own (node v b) = own (node w b) \/ own (node v b) = initial_counters)) /\
    (forall b, b ∉ providers w -> b <> a -> node v b = node w b) /\
    (s = tracking_active -> a ∈ providers w -> forall b, own (node v b) = own (node w b)).
Proof.
  intros He Hs. destruct (decide (state (node w a) = s)) as [E|Hne].
  { exists w. split; [|split_and!; by auto]. rewrite assign_same; [done|]. simpl. rewrite E. apply neqb_refl. }
  rewrite state_changes by done. cbv zeta. set (v := set_node a _ w).
  assert (forall b, impl (node v b) = impl (node w b) /\ own (node v b) = own (node w b)) as Hv.
  { intros b. unfold v. destruct (decide (b = a)) as [->|]; [by rewrite node_set_eq|by rewrite node_set_ne by congruence]. }
  assert (forall b, b ∉ providers w -> b <> a -> node v b = node w b) as Ho
    by (intros b _ Hb; unfold v; by rewrite node_set_ne by congruence).
  destruct (any_active v) eqn:Ea.
  { destruct (set_active_effect v) as [t ->]. eexists. split; [reflexivity|]. split_and!; try done.
    - intros b. destruct (Hv b) as [E1 E2]. split; [exact E1|left; exact E2].
    - intros _ _ b. apply Hv. }
  assert (s = tracking_active -> a ∈ providers w -> False) as Hna.
  { intros -> Ha. assert (any_active v = true) as Hy; [|congruence]. apply any_active_spec. exists a.
    split; [done|]. unfold v. by rewrite node_set_eq. }
  destruct (engine_state (configuration v)) eqn:Es; [done| |].
  - exists v. split; [|split_and!; try done].
    + unfold set_engine_state. cbn [set_engine_state_fuel]. rewrite assign_same; [done|].
      change (neqb (engine_state (configuration v)) on = false). by rewrite Es.
    + intros b. destruct (Hv b). split; [done|by left].
    + intros H1 H2. by destruct (Hna H1 H2).
  - destruct (set_on_effect v Es Hs) as (v' & -> & H1 & H2 & H3 & H4 & Hn).
    exists v'. split; [done|]. rewrite H1, H2, H3, H4. split_and!; try done.
    + intros b. rewrite Hn. destruct (Hv b) as [E1 E2].
      case_decide; simpl; (split; [done|by auto]).
    + intros b Hb Hba. rewrite Hn, decide_False by done. auto.
    + intros A1 A2. by destruct (Hna A1 A2).
Qed.

Definition shift (p : address -> Kind -> Z) (a : address) (c : Call) (b : address) (k : Kind) : Z :=
  if decide (b = a /\ k = stream c) then p b k + change c else p b k.
Definition starts (c : Call) : Z := match c with Start _ => 1 | Stop _ => 0 end.

(** What has to be shown of a call, all else being as it was or reset. *)
Lemma tracked_changed m p a c (w w' : W) :
  let k := stream c in
  tracked m p w -> a ∈ providers w ->
  (forall b j, b = a /\ j = k \/
     counter_of j (impl (node w' b)) = counter_of j (impl (node w b)) /\
     (counter_of j (own (node w' b)) = counter_of j (own (node w b)) \/ counter_of j (own (node w' b)) = 0)) ->
  (forall b, b ∉ providers w -> node w' b = node w b) ->
  covered (m a + starts c) (p a k + change c) (counter_of k (own (node w' a))) (counter_of k (impl (node w' a))) ->
  counter_of k (impl (node w' a)) = counter_of k (impl (node w a)) /\ events w' = events w \/
  0 < counter_of k (impl (node w a)) /\ 0 < counter_of k (impl (node w' a)) /\ events w' = events w \/
  (0 <? counter_of k (impl (node w a))) = (match c with Start _ => false | Stop _ => true end) /\
  (0 <? counter_of k (impl (node w' a))) = (match c with Start _ => true | Stop _ => false end) /\
  events w' = events w ++ [Called a c] ->
  providers w' = providers w -> engine_state (configuration w') <> off ->
  satellite_based_positioning_state (configuration w') = sat_on ->
  tracked (set_count m a (m a + starts c)) (shift p a c) w'.
Proof.
  intros k [H1 H2 H3 H4 H5] Ha Hn Ho Hc He Hp Hon Hs. split; try done.
  - intros b j. unfold shift, set_count. destruct (decide (b = a /\ j = stream c)) as [[-> ->]|Hne].
    { rewrite decide_True by done. exact Hc. }
    destruct (Hn b j) as [|[E1 E2]]; [done|].
    rewrite E1. assert (covered (if decide (b = a) then m a + starts c else m b) (p b j)
      (counter_of j (own (node w b))) (counter_of j (impl (node w b)))) as Hb.
    { case_decide; [subst b|apply H1]. eapply covered_more; [|apply H1]. destruct c; simpl; lia. }
    destruct E2 as [-> | ->]; [exact Hb|]. by eapply covered_reset.
  - intros b j. destruct (decide (b = a /\ j = k)) as [[-> ->]|Hne].
    + destruct He as [[-> ->]|[(L1 & L2 & ->)|(L1 & L2 & ->)]]; [apply H2| |].
      * rewrite H2. by rewrite (proj2 (Z.ltb_lt _ _) L1), (proj2 (Z.ltb_lt _ _) L2).
      * rewrite calls_of_app, Session.after_calls_app, H2, L1, L2. unfold calls_of, k. simpl.
        rewrite decide_True by done. simpl. rewrite decide_True by done. by destruct c.
    + destruct (Hn b j) as [|[-> _]]; [done|]. rewrite <- H2.
      destruct He as [[_ ->]|[(_ & _ & ->)|(_ & _ & ->)]]; [done|done|].
      rewrite calls_of_app, Session.after_calls_app, H2. unfold calls_of. simpl. case_decide as E; [|done].
      simpl. rewrite decide_False; [done|]. intros Ej. by destruct Hne; split.
  - intros b Hb. rewrite Hp in Hb. rewrite Ho by done. auto.
Qed.

(** A call that no edge of the wrapper's counter follows. *)
Lemma tracked_quiet m p a c (w : W) n :
  let k := stream c in
  let nd := node w a in
  tracked m p w -> a ∈ providers w ->
  covered (m a + starts c) (p a k + change c) n (counter_of k (impl nd)) ->
  tracked (set_count m a (m a + starts c)) (shift p a c)
    (set_node a (MkNode (set_counter k n (own nd)) (state nd) (impl nd)) w).
Proof.
  intros k nd Hw Ha Hc. apply (tracked_changed m p a c w); try done; try apply Hw.
  - intros b j. destruct (decide (b = a)) as [->|Hne]; [|right; rewrite node_set_ne by congruence; auto].
    rewrite node_set_eq. simpl. destruct (decide (j = k)) as [->|Hj]; [by left|right].
    rewrite counter_set_ne by congruence. auto.
  - intros b Hb. rewrite node_set_ne; [done|]. by intros <-.
  - rewrite node_set_eq. simpl. fold k. by rewrite counter_set_eq.
  - left. by rewrite node_set_eq.
Qed.

(** An edge of the wrapper's counter, with the provider's controller after it. *)
Lemma tracked_edge m p a c s (w : W) n :
  let k := stream c in
  let nd := node w a in
  let i := counter_of k (impl nd) in
  let i' := i + change c in
  tracked m p w -> a ∈ providers w -> 0 <= i <= INT_MAX -> i + starts c <= INT_MAX ->
  s = match c with Start _ => tracking_active | Stop _ => tracking_enabled end ->
  n = match c with Start _ => 1 | Stop _ => 0 end ->
  covered (m a + starts c) (p a k + change c) n i' ->
  exists w', (assign neqb (state_cell a) s (fun _ => provider_state_changed (set_engine_state requirements reaction));;
              request (impl_controller reaction a) c)
               (set_node a (MkNode (set_counter k n (own nd)) (state nd) (impl nd)) w) = (Ok tt, w') /\
    tracked (set_count m a (m a + starts c)) (shift p a c) w' /\ providers w' = providers w.
Proof.
  intros k nd i i' Hw Ha Hi Hb Hs Hn Hc. set (w1 := set_node a _ w).
  destruct (assign_state a s w1) as (v & Ev & V1 & V2 & V3 & V4 & V5 & V6 & V7); [apply Hw|apply Hw|].
  rewrite (bind_run _ _ _ _ _ Ev). cbv beta.
  assert (impl (node v a) = impl nd) as Hiv by (destruct (V5 a) as [-> _]; unfold w1; by rewrite node_set_eq).
  assert (counter_of k (own (node v a)) = n) as Hov.
  { destruct c; simpl in Hs; subst s.
    - rewrite V7 by done. unfold w1. rewrite node_set_eq. apply counter_set_eq.
    - destruct (V5 a) as [_ [->| ->]]; [unfold w1; rewrite node_set_eq; apply counter_set_eq|].
      subst n. by destruct k. }
  destruct (node v a) as [o st im] eqn:Hv. simpl in Hiv, Hov. subst im.
  assert (exists w', request (impl_controller reaction a) c v = (Ok tt, w') /\
    providers w' = providers v /\ configuration w' = configuration v /\
    (forall b, node w' b = if decide (b = a) then MkNode o st (set_counter k i' (impl nd)) else node v b) /\
    events w' = events v ++ if (i' =? match c with Start _ => 1 | Stop _ => 0 end) then [Called a c] else []) as
    (w' & E & P1 & P2 & P3 & P4).
  { assert (forall z (u : W) b, node (set_node a z u) b = if decide (b = a) then z else node u b) as Hz
      by (intros z u b; case_decide; [subst; by rewrite node_set_eq|by rewrite node_set_ne by congruence]).
    destruct c as [j|j]; cbn [change starts stream] in *.
    - rewrite (impl_start_at j a o st (impl nd) v Hv) by (subst i k; lia). eexists. split; [reflexivity|]. cbv zeta.
      replace (counter_of j (impl nd) + 1) with i' by (subst i' i k; simpl; lia).
      destruct (i' =? 1); simpl; rewrite ?app_nil_r; split_and!; try done; intros b; apply Hz.
    - rewrite (impl_stop_at j a o st (impl nd) v Hv) by (subst i k; lia). eexists. split; [reflexivity|]. cbv zeta.
      replace (counter_of j (impl nd) - 1) with i' by (subst i' i k; simpl; lia).
      destruct (i' =? 0); simpl; rewrite ?app_nil_r; split_and!; try done; intros b; apply Hz. }
  exists w'. split; [exact E|]. split; [|by rewrite P1, V3].
  assert (node w' a = MkNode o st (set_counter k i' (impl nd))) as Hwa by (by rewrite P3, decide_True).
  apply (tracked_changed m p a c w); try done.
  - intros b j. destruct (decide (b = a)) as [->|Hne].
    + rewrite Hwa. simpl. destruct (decide (j = k)) as [->|Hj]; [by left|right].
      rewrite counter_set_ne by congruence. split; [done|]. destruct (V5 a) as [_ Ho]. rewrite Hv in Ho. simpl in Ho.
      destruct Ho as [-> | ->]; [left|right; by destruct j].
      unfold w1. rewrite node_set_eq. by apply counter_set_ne.
    + right. rewrite P3, decide_False by done. destruct (V5 b) as [-> Ho].
      assert (node w1 b = node w b) as <- by (unfold w1; by rewrite node_set_ne by congruence).
      split; [done|]. destruct Ho as [-> | ->]; [by left|right; by destruct j].
  - intros b Hout. assert (b <> a) by (by intros ->). rewrite P3, decide_False, V6 by done.
    unfold w1. by rewrite node_set_ne by congruence.
  - rewrite Hwa. simpl. fold k. by rewrite counter_set_eq, Hov.
  - rewrite Hwa, P4, V4. simpl. fold k. rewrite counter_set_eq. fold nd i. right.
    assert (0 <= i') as Hi' by apply Hc. destruct c as [j|j]; cbn [change] in i'.
    + destruct (Z.eqb_spec i' 1); [right|left; rewrite app_nil_r; split_and!; [lia|lia|done]].
      split_and!; [apply Z.ltb_ge; lia|apply Z.ltb_lt; lia|done].
    + destruct (Z.eqb_spec i' 0); [right|left; rewrite app_nil_r; split_and!; [lia|lia|done]].
      split_and!; [apply Z.ltb_lt; lia|apply Z.ltb_ge; lia|done].
  - by rewrite P1, V3.
  - by rewrite P2.
  - by rewrite P2.
Qed.

Lemma node_eta (nd : Node) : nd = MkNode (own nd) (state nd) (impl nd).
Proof. by destruct nd. Qed.

(** Any call that an observer may make keeps every provider covered. *)
Lemma tracked_call m p a c (w : W) :
  tracked m p w -> a ∈ providers w -> m a + starts c <= INT_MAX -> 0 <= p a (stream c) + change c ->
  exists w', request (provider_controller requirements reaction a) c w = (Ok tt, w') /\
    tracked (set_count m a (m a + starts c)) (shift p a c) w' /\ providers w' = providers w.
Proof.
  intros Hw Ha Hm Hp. pose proof (tracked_nodes _ _ _ Hw a (stream c)) as Hc. set (k := stream c) in *.
  destruct (Z.ltb_spec (counter_of k (own (node w a))) 0) as [Hneg|Hpos].
  { exists w. split; [apply request_ignored; by destruct c as [[]|[]]|]. split; [|done].
    apply (tracked_changed m p a c w); try done; try apply Hw; [by auto|..|by left].
    fold k. unfold covered in *. destruct c; simpl in *; destruct (Z.ltb_spec 0 (counter_of k (own (node w a)))); lia. }
  set (n := counter_of k (own (node w a)) + change c). set (edge := match c with Start _ => 1 | Stop _ => 0 end).
  assert (n = edge -> covered (m a + starts c) (p a k + change c) n (counter_of k (impl (node w a)) + change c)) as He.
  { subst n edge. unfold covered in *.
    destruct (Z.ltb_spec 0 (counter_of k (own (node w a)))), (Z.ltb_spec 0 (counter_of k (own (node w a)) + change c));
      destruct c; simpl in *; lia. }
  assert (n <> edge -> covered (m a + starts c) (p a k + change c) n (counter_of k (impl (node w a)))) as Hq.
  { subst n edge. unfold covered in *.
    destruct (Z.ltb_spec 0 (counter_of k (own (node w a)))), (Z.ltb_spec 0 (counter_of k (own (node w a)) + change c));
      destruct c; simpl in *; lia. }
  assert (request (provider_controller requirements reaction a) c w =
    when (n =? edge)
      (assign neqb (state_cell a) (match c with Start _ => tracking_active | Stop _ => tracking_enabled end)
         (fun _ => provider_state_changed (set_engine_state requirements reaction));;
       request (impl_controller reaction a) c)
      (set_node a (MkNode (set_counter k n (own (node w a))) (state (node w a)) (impl (node w a))) w)) as ->.
  { unfold covered in Hc. destruct c as [j|j]; cbn [starts change stream] in *.
    - apply start_at; [apply node_eta|]. subst k. lia.
    - apply stop_at; [apply node_eta|]. subst k. lia. }
  destruct (Z.eqb_spec n edge) as [E|E]; unfold when; cbv iota.
  - apply (tracked_edge m p a c); try done; [| |by apply He]; unfold covered in Hc; fold k; destruct c; simpl in *; lia.
  - eexists. split; [reflexivity|]. split; [|done]. by apply tracked_quiet, Hq.
Qed.

Lemma tracked_unchanged m p (w w' : W) : unchanged w w' -> tracked m p w -> tracked m p w'.
Proof.
  intros [E1 E2 E3 E4 E5] [H1 H2 H3 H4 H5].
  assert (forall a, node w' a = node w a) as En by (intros a; unfold node; by rewrite E4).
  split; rewrite ?E1, ?E2, ?E3; try done.
  - intros a k. by rewrite En.
  - intros a k. by rewrite E5, En.
  - intros a. rewrite En. auto.
Qed.

Lemma tracked_added m p a (w : W) : tracked m p w -> a ∉ providers w -> tracked m p (added requirements a w).
Proof.
  intros [H1 H2 H3 H4 H5] Ha.
  assert (forall b, node (added requirements a w) b = node w b) as En.
  { intros b. rewrite added_node by done. case_decide as E; [|done]. subst b. by rewrite H3. }
  split; try done.
  - intros b k. rewrite En. apply H1.
  - intros b k. rewrite En. apply H2.
  - intros b Hb. rewrite En. apply H3. intros Hin. apply Hb, list_elem_of_In, in_providers_added. right.
    by apply list_elem_of_In.
Qed.

Lemma tracked_constructed selection policy heap store_ e :
  (forall a, heap !! a = None) -> construct (S := S) selection policy heap store_ = Ok e ->
  engine_state (configuration e) <> off -> tracked (fun _ => 0) (fun _ _ => 0) e.
Proof.
  intros Hh He Hoff. unfold construct in He. destruct selection; [|done]. destruct store_; [|done].
  destruct (get_enum_for_key key_engine_state _ _) as [[st|] s1]; [|done].
  destruct (get_enum_for_key key_wifi _ _) as [[wf|] s2]; [|done]. injection He as <-.
  assert (forall a, node (MkEngine (MkConfiguration st (satellite_based_positioning_state defaults) wf)
    (MkUpdates None None None []) policy s2 [] [] heap []) a = fresh_node) as En
    by (intros a; unfold node; simpl; by rewrite Hh).
  split; try done.
  - intros a k. rewrite En. unfold covered. destruct k; simpl; lia.
  - intros a k. rewrite En. by destruct k.
Qed.

(** ** What the applications rely on

    [I m p w]: the engine [w] serves [p] observers of each stream of each provider, after
    at most [m] requests to start one; [allowed] are the streams that are asked for. *)
Record Contract (allowed : Kind -> Prop) (I : (address -> Z) -> (address -> Kind -> Z) -> W -> Prop) : Prop := {
  contract_ext m p m' q w : (forall a, m a <= m' a) -> (forall a k, p a k = q a k) -> I m p w -> I m' q w;
  contract_call m p a c w :
    I m p w -> allowed (stream c) -> a ∈ providers w -> m a + starts c <= INT_MAX ->
    0 <= p a (stream c) + change c ->
    exists w', request (provider_controller requirements reaction a) c w = (Ok tt, w') /\
      I (set_count m a (m a + starts c)) (shift p a c) w' /\ providers w' = providers w;
  contract_unchanged m p w w' : unchanged w w' -> I m p w -> I m p w';
  contract_added m p a w : I m p w -> a ∉ providers w -> I m p (added requirements a w)
}.

Lemma any_streams : Contract (fun _ => True) tracked.
Proof.
  split.
  - intros. by eapply tracked_ext.
  - intros m p a c w Hw _. by apply tracked_call.
  - apply tracked_unchanged.
  - intros. by apply tracked_added.
Qed.

Definition serving_one (k : Kind) (m : address -> Z) (p : address -> Kind -> Z) (w : W) : Prop :=
  serving k (fun a => p a k) w /\ (forall a j, j <> k -> p a j = 0) /\ (forall a, p a k <= m a).

Lemma one_stream k : Contract (fun j => j = k) (serving_one k).
Proof.
  split.
  - intros m p m' q w Hm Hp (H1 & H2 & H3). split_and!.
    + eapply serving_ext; [|exact H1]. intros a. apply Hp.
    + intros a j Hj. rewrite <- Hp. auto.
    + intros a. rewrite <- Hp. specialize (Hm a). specialize (H3 a). lia.
  - intros m p a c w (H1 & H2 & H3) Hc Ha Hm Hp. pose proof (H3 a) as Hb. pose proof (serving_counts _ _ _ H1 a) as Hz.
    cbv beta in Hz. rewrite Hc in Hp.
    assert (exists w', request (provider_controller requirements reaction a) c w = (Ok tt, w') /\
      serving k (set_count (fun a => p a k) a (p a k + change c)) w' /\ providers w' = providers w) as (w' & E & Hs & Hps).
    { destruct c; simpl in Hc; subst; simpl in *; [apply serve_start|apply serve_stop]; try done; lia. }
    exists w'. split; [exact E|]. split; [|exact Hps]. split_and!.
    + eapply serving_ext; [|exact Hs]. intros b. unfold set_count, shift. rewrite Hc.
      destruct (decide (b = a)) as [->|Hne]; [by rewrite decide_True|by rewrite decide_False by naive_solver].
    + intros b j Hj. unfold shift. rewrite decide_False by (rewrite Hc; naive_solver). auto.
    + intros b. unfold shift, set_count. rewrite Hc. destruct (decide (b = a)) as [->|Hne].
      * rewrite decide_True by done. destruct c; simpl; lia.
      * rewrite decide_False by naive_solver. apply H3.
  - intros m p w w' Hu (H1 & H2 & H3). split; [by eapply serving_unchanged|done].
  - intros m p a w (H1 & H2 & H3) Ha. split; [by apply serving_added|done].
Qed.
End Serving.
End Serving.
