(* ===== verification/Service.v ===== *)
(** The sessions of the location service: [service/skeleton.cpp] (credentials,
    permissions, the store of sessions and the list of client applications) and the
    permission managers.  The properties of the service are in [Synchronisation]. *)
From Stdlib Require Import ZArith Lia.
From stdpp Require Import base gmap strings list pretty.
From S2P Require Import Prelude Property Settings.
Local Open Scope Z_scope.
#[local] Set Warnings "-clear-no-such-hyp".

(** * Sessions *)
Module Sessions.

Record Credentials : Type := MkCredentials { pid : Z; uid : Z; profile : string }.

(** [PermissionManager::Result] *)
Inductive Result : Set := granted | rejected.
#[export] Instance Result_eq_dec : EqDecision Result.
Proof. solve_decision. Defined.

(** ** Permission managers *)

(** [AlwaysGrantingPermissionManager] and [DefaultPermissionManager]. *)
Definition always_granting (c : Credentials) : Result := granted.
Definition default_check (own_pid own_uid : Z) (c : Credentials) : Result :=
  if negb (pid c =? own_pid) || negb (uid c =? own_uid) then granted else granted.

(** [core::trust::Request::Answer] *)
Inductive Answer : Set := answer_granted | answer_denied.

(** [TrustStorePermissionManager::check_permission_for_credentials]: [agent] is the
    trust store, asked about the user, the process, the profile, the feature and a
    description; everything it throws is a rejection. *)
Definition default_feature : Z := 0.
Definition trust_store_check (is_running_under_testing : bool)
    (agent : Z -> Z -> string -> Z -> string -> res Answer) (c : Credentials) : Result :=
  if is_running_under_testing then granted
  else if bool_decide (profile c = EmptyString) then rejected
  else match agent (uid c) (pid c) (profile c) default_feature "wants to access your current location." with
       | Ok answer_granted => granted
       | Ok answer_denied => rejected
       | Throw _ => rejected
       end.

(** ** The skeleton *)

(** The store maps the path of a session to the application id of its client. *)
Record Service : Type := MkService {
  session_store : gmap string string;
  client_applications : list string;
  index : Z;
  created : list Credentials   (* the clients sessions were made for, in order *)
}.

(** An incoming [CreateSessionForCriteria]: its sender and whether its criteria can be
    read. *)
Record Request : Type := MkRequest { sender : string; criteria : res unit }.

Inductive Reply : Type := PathReply (path : string) | ErrorReply (name text : string).
Definition creating_session : string := "com.lomiri.location.Service.Error.CreatingSession".

Section Skeleton.
(** The bus daemon's answers about a sender; the AppArmor profile of a process; the
    permission manager; what constructing the stub, the session with its skeleton and the
    watcher throws. *)
Variables (get_connection_unix_process_id get_connection_unix_user : string -> res Z)
          (app_armor_profile : Z -> res string)
          (check_permission : Credentials -> Result)
          (construct_session : string -> res unit).

(** [libapparmor_profile_resolver]: [aa_gettaskcon] answers -1 with [errno], or with a
    context that may be null. *)
Definition libapparmor_profile_resolver (aa_gettaskcon : Z -> (Z + Z * option string)) (pid : Z)
  : res string :=
  match aa_gettaskcon pid with
  | inl errno => Throw (system_error errno)
  | inr (_, con) => Ok (match con with Some s => s | None => EmptyString end)
  end.

(** [resolve_credentials_for_incoming_message]: a profile that cannot be resolved is
    empty. *)
Definition resolve_credentials (sender : string) : res Credentials :=
  pid ← get_connection_unix_process_id sender;
  profile ← (match app_armor_profile pid with
             | Ok p => Ok p
             | Throw e => if is_std_exception e then Ok EmptyString else Throw e
             end);
  uid ← get_connection_unix_user sender;
  Ok (MkCredentials (wrap_s 32 pid) (wrap_u 32 uid) profile).

(** [ObjectPathGenerator]: a counter of 32 bits. *)
Definition object_path (i : Z) : string := "/sessions/" +:+ pretty (Z.to_N i).
Definition object_path_for_caller_credentials : M Service string := fun w =>
  (Ok (object_path (index w)),
   MkService (session_store w) (client_applications w) (wrap_u 32 (index w + 1)) (created w)).

Definition add_to_session_store_for_path (path app_id : string) : M Service bool := fun w =>
  match session_store w !! path with
  | Some _ => (Ok false, w)
  | None => (Ok true, MkService (<[path:=app_id]> (session_store w)) (client_applications w)
                                (index w) (created w))
  end.

Definition set_client_applications (apps : list string) (w : Service) : Service :=
  MkService (session_store w) apps (index w) (created w).

Definition add_client_application (app_id : string) : M Service unit :=
  modify (fun w => set_client_applications (client_applications w ++ [app_id]) w).

(** [std::remove] takes every element equal to [app_id]. *)
Definition remove_client_application (app_id : string) : M Service unit :=
  modify (fun w => set_client_applications
    (filter (fun a => a <> app_id) (client_applications w)) w).

Definition remove_from_session_store_for_path (path : string) : M Service unit :=
  found ← gets (fun w => session_store w !! path);
  match found with
  | None => skip
  | Some app_id =>
      remove_client_application app_id;;
      modify (fun w => MkService (delete path (session_store w)) (client_applications w)
                                 (index w) (created w))
  end.

(** [create_session_for_criteria] and the skeleton around it. *)
Definition make_session (c : Credentials) (path : string) : M Service unit :=
  lift (construct_session path);;
  modify (fun w => MkService (session_store w) (client_applications w) (index w) (created w ++ [c])).

(** [handle_create_session_for_criteria] up to the reply it sends. *)
Definition handle_create_session_for_criteria (in_ : Request) : M Service Reply :=
  try_catch
    (lift (criteria in_);;
     credentials ← lift (resolve_credentials (sender in_));
     when (bool_decide (check_permission credentials = rejected)) (throw (runtime_error
       "Client lacks permissions to access the service with the given criteria"));;
     path ← object_path_for_caller_credentials;
     make_session credentials path;;
     inserted ← add_to_session_store_for_path path (profile credentials);
     if negb inserted
     then mret (ErrorReply creating_session "Refused to create second session for same process")
     else add_client_application (profile credentials);; mret (PathReply path))
    is_std_exception
    (fun _ => mret (ErrorReply creating_session "Error creating session")).

(** ** Lemmas *)

(** Every listed application has a session. *)
Definition listed_have_sessions (w : Service) : Prop :=
  forall app, app ∈ client_applications w -> exists path, session_store w !! path = Some app.

(** The paths in the store were generated before. *)
Definition paths_generated (w : Service) : Prop :=
  0 <= index w /\
  forall path app, session_store w !! path = Some app -> exists i, 0 <= i < index w /\ path = object_path i.

Lemma object_path_inj i j : 0 <= i -> 0 <= j -> object_path i = object_path j -> i = j.
Proof.
  intros Hi Hj E. unfold object_path in E. apply (inj (String.append _)) in E.
  apply (inj pretty) in E. lia.
Qed.

(** What happens once a client is known. *)
Lemma handle_granted in_ c w :
  criteria in_ = Ok tt -> resolve_credentials (sender in_) = Ok c -> check_permission c = granted ->
  construct_session (object_path (index w)) = Ok tt ->
  session_store w !! object_path (index w) = None ->
  handle_create_session_for_criteria in_ w =
  (Ok (PathReply (object_path (index w))),
   MkService (<[object_path (index w) := profile c]> (session_store w))
             (client_applications w ++ [profile c]) (wrap_u 32 (index w + 1)) (created w ++ [c])).
Proof.
  intros Hcr Hres Hp Hs Hf. unfold handle_create_session_for_criteria, make_session. unfold_m.
  rewrite Hcr, Hres, Hp. simpl. rewrite Hs. unfold add_to_session_store_for_path. simpl. by rewrite Hf.
Qed.

(** What happens otherwise: nothing is stored. *)
Lemma handle_refused in_ w :
  (forall c, criteria in_ = Ok tt -> resolve_credentials (sender in_) = Ok c -> check_permission c = rejected) ->
  exec (handle_create_session_for_criteria in_) w = w.
Proof.
  intros H. unfold handle_create_session_for_criteria. unfold_m.
  destruct (criteria in_) as [[]|e]; [|by destruct (is_std_exception e)].
  destruct (resolve_credentials (sender in_)) as [c|e]; [|by destruct (is_std_exception e)].
  by rewrite (H c eq_refl eq_refl).
Qed.

End Skeleton.

(** * Properties *)
Section Properties.
Variables (get_connection_unix_process_id get_connection_unix_user : string -> res Z)
          (app_armor_profile : Z -> res string)
          (check_permission : Credentials -> Result)
          (construct_session : string -> res unit).
Abbreviation resolve := (resolve_credentials get_connection_unix_process_id get_connection_unix_user app_armor_profile).
Abbreviation handle := (handle_create_session_for_criteria get_connection_unix_process_id
  get_connection_unix_user app_armor_profile check_permission construct_session).

(** C4: no session without permission.  A request whose client cannot be resolved or is
    rejected changes nothing and is not answered with a path.  With the trust store
    outside of tests, a client without an AppArmor profile is rejected whatever the trust
    store answers, and a client is granted only if the trust store granted it. *)
Theorem sessions_need_permission (in_ : Request) (w : Service) :
  (forall c, resolve (sender in_) = Ok c -> check_permission c = rejected) ->
  exec (handle in_) w = w /\
  (forall path, result (handle in_) w <> Ok (PathReply path)) /\
  (forall agent c, profile c = EmptyString -> trust_store_check false agent c = rejected) /\
  (forall agent c, trust_store_check false agent c = granted ->
     agent (uid c) (pid c) (profile c) 0 "wants to access your current location." = Ok answer_granted).
Proof.
  intros Hr. split_and!.
  - apply handle_refused. auto.
  - intros path. unfold handle_create_session_for_criteria. unfold_m.
    destruct (criteria in_) as [[]|e]; [|by destruct (is_std_exception e)].
    destruct (resolve (sender in_)) as [c|e]; [|by destruct (is_std_exception e)].
    by rewrite (Hr c eq_refl).
  - intros agent c E. unfold trust_store_check. by rewrite bool_decide_true.
  - intros agent c. unfold trust_store_check, default_feature. case_bool; [done|].
    by destruct (agent _ _ _ _ _) as [[]|].
Qed.

(** the request of a permitted client, before the counter of the paths has wrapped
    around: it is answered with a path that is not in use, under which the session is
    stored with the client's profile; the client is listed; and other sessions stay. *)
Theorem permitted_session_is_created (in_ : Request) (c : Credentials) (w : Service) :
  paths_generated w -> index w < 2 ^ 32 - 1 ->
  criteria in_ = Ok tt -> resolve (sender in_) = Ok c -> check_permission c = granted ->
  (forall path, construct_session path = Ok tt) ->
  let w' := exec (handle in_) w in
  let path := object_path (index w) in
  result (handle in_) w = Ok (PathReply path) /\
  session_store w !! path = None /\ session_store w' !! path = Some (profile c) /\
  (forall other, other <> path -> session_store w' !! other = session_store w !! other) /\
  client_applications w' = client_applications w ++ [profile c] /\
  created w' = created w ++ [c] /\ paths_generated w'.
Proof.
  intros [Hi Hg] Hw Hcr Hres Hp Hs. cbv zeta.
  assert (session_store w !! object_path (index w) = None) as Hf.
  { destruct (session_store w !! object_path (index w)) as [app|] eqn:E; [|done].
    destruct (Hg _ _ E) as (i & Hr & Ei). apply object_path_inj in Ei; lia. }
  pose proof (handle_granted get_connection_unix_process_id get_connection_unix_user app_armor_profile
    check_permission construct_session in_ c w Hcr Hres Hp (Hs _) Hf) as E.
  unfold exec, result. rewrite E. cbn [fst snd session_store client_applications created].
  split_and!; try done.
  - by rewrite lookup_insert_eq.
  - intros other Hne. by rewrite lookup_insert_ne.
  - split; cbn [index session_store]; rewrite wrap_u_small by lia; [lia|].
    intros path app Hl. destruct (decide (path = object_path (index w))) as [->|Hne].
    + exists (index w). split; [lia|done].
    + rewrite lookup_insert_ne in Hl by done. destruct (Hg _ _ Hl) as (i & Hr & ->).
      exists i. split; [lia|done].
Qed.

(** The life of the service: requests, and clients that leave the bus. *)
Inductive Event : Type := Create (r : Request) | Vanish (path : string).
Definition on_event (e : Event) : M Service unit :=
  match e with
  | Create r => handle r;; skip
  | Vanish path => remove_from_session_store_for_path path
  end.
Definition serve (es : list Event) (w : Service) : Service :=
  fold_left (fun w e => exec (on_event e) w) es w.
Definition initial_service : Service := MkService ∅ [] 0 [].

Lemma preserves_listed e : preserves listed_have_sessions (on_event e).
Proof.
  destruct e as [r|path]; simpl.
  - apply preserves_bind; [|intros; apply preserves_skip].
    apply preserves_try; [|intros; apply preserves_ret].
    apply preserves_bind; [apply preserves_lift|]. intros _.
    apply preserves_bind; [apply preserves_lift|]. intros c.
    apply preserves_bind; [apply preserves_when, preserves_throw|]. intros _.
    apply preserves_bind; [intros w Hw; exact Hw|]. intros path.
    apply preserves_bind.
    { apply preserves_bind; [apply preserves_lift|]. intros _. apply preserves_modify. auto. }
    intros _ w Hw. unfold exec, mbind, m_bind, add_to_session_store_for_path.
    destruct (session_store w !! path) as [a|] eqn:E; simpl; [done|].
    intros app Ha. simpl in Ha |- *. apply elem_of_app in Ha as [Ha|Ha].
    + destruct (Hw app Ha) as [q Hq]. exists q. rewrite lookup_insert_ne; congruence.
    + apply list_elem_of_singleton in Ha as ->. exists path. apply lookup_insert_eq.
  - intros w Hw. unfold remove_from_session_store_for_path, exec. unfold_m.
    destruct (session_store w !! path) as [a|] eqn:E; simpl; [|done].
    intros app Ha. simpl in Ha |- *. apply list_elem_of_filter in Ha as [Hne Ha].
    destruct (Hw app Ha) as [q Hq]. exists q. rewrite lookup_delete_ne; [done|]. congruence.
Qed.

(** C31: whatever requests arrive and whichever clients leave, every listed client
    application has a session.  The converse fails: when one of two clients with the
    same profile leaves, the profile is no longer listed at all, although the other
    session stays in the store. *)
Theorem listed_applications_have_sessions (es : list Event) (w : Service) (p q app : string) :
  listed_have_sessions (serve es initial_service) /\
  (session_store w !! p = Some app -> session_store w !! q = Some app -> p <> q ->
   let w' := exec (on_event (Vanish p)) w in
   session_store w' !! q = Some app /\ app ∉ client_applications w').
Proof.
  split.
  - assert (listed_have_sessions initial_service) as H0 by (intros a Ha; by apply elem_of_nil in Ha).
    revert H0. generalize initial_service. unfold serve.
    induction es as [|e es IH]; intros v Hv; simpl; [done|]. apply IH. by apply preserves_listed.
  - intros Hp Hq Hne. unfold exec. simpl. unfold remove_from_session_store_for_path. unfold_m.
    rewrite Hp. simpl. rewrite lookup_delete_ne by done. split; [done|].
    rewrite list_elem_of_filter. naive_solver.
Qed.
End Properties.

(** A bus with one client, whose profile is "app". *)
Definition one_pid (_ : string) : res Z := Ok 1000.
Definition one_uid (_ : string) : res Z := Ok 32011.
Definition one_profile (_ : Z) : res string := Ok "app".
Definition constructs (_ : string) : res unit := Ok tt.
Definition denies (_ _ : Z) (_ : string) (_ : Z) (_ : string) : res Answer := Ok answer_denied.

Lemma sessions_need_permission_witness :
  result (handle_create_session_for_criteria one_pid one_uid one_profile (trust_store_check false denies)
            constructs (MkRequest ":1.1" (Ok tt))) initial_service
  = Ok (ErrorReply creating_session "Error creating session") /\
  exec (handle_create_session_for_criteria one_pid one_uid one_profile (trust_store_check false denies)
          constructs (MkRequest ":1.1" (Ok tt))) initial_service = initial_service.
Proof.
  split; [vm_compute; reflexivity|].
  apply (sessions_need_permission one_pid one_uid one_profile (trust_store_check false denies) constructs
    (MkRequest ":1.1" (Ok tt)) initial_service).
  intros c E. vm_compute in E. injection E as <-. reflexivity.
Defined.

Lemma initial_paths : paths_generated initial_service.
Proof. split; [simpl; lia|]. intros path app E. simpl in E. by rewrite lookup_empty in E. Qed.

Lemma permitted_session_is_created_witness :
  paths_generated initial_service /\
  result (handle_create_session_for_criteria one_pid one_uid one_profile always_granting constructs
            (MkRequest ":1.1" (Ok tt))) initial_service = Ok (PathReply (object_path 0)).
Proof.
  split; [exact initial_paths|].
  exact (proj1 (permitted_session_is_created one_pid one_uid one_profile always_granting constructs
    (MkRequest ":1.1" (Ok tt)) (MkCredentials 1000 32011 "app") initial_service initial_paths
    eq_refl eq_refl eq_refl eq_refl (fun _ => eq_refl))).
Defined.

Lemma listed_applications_have_sessions_witness :
  let w := MkService (<["/sessions/0" := "app"]> {["/sessions/1" := "app"]}) ["app"; "app"] 2 [] in
  let w' := exec (on_event one_pid one_uid one_profile always_granting constructs (Vanish "/sessions/0")) w in
  session_store w' !! "/sessions/1" = Some "app" /\ "app" ∉ client_applications w'.
Proof.
  cbv zeta.
  exact (proj2 (listed_applications_have_sessions one_pid one_uid one_profile always_granting constructs []
    (MkService (<["/sessions/0" := "app"]> {["/sessions/1" := "app"]}) ["app"; "app"] 2 [])
    "/sessions/0" "/sessions/1" "app") eq_refl eq_refl ltac:(discriminate)).
Defined.

End Sessions.
