(* ===== verification/Synchronisation.v ===== *)
(** The properties of the service and the engine behind them
    ([service/implementation.cpp], [service/skeleton.cpp], [engine.cpp]): one world with
    the engine of [Engine] and the members of the service, and the slots that connect the
    two.  An assignment on either side runs the slots of both: those of the engine, which
    act on its providers, and those of the service, which assign the other side. *)
From Stdlib Require Import ZArith Lia SpecFloat.
From stdpp Require Import base gmap strings list.
From S2P Require Import Prelude Floats Geometry UpdatePolicy Provider Property Settings Fusion Engine.
Local Open Scope Z_scope.
#[local] Set Warnings "-clear-no-such-hyp".

Module Sync.
Import Controller Settings.Enums Fusion.Tracking.

(** * The world *)

(** What the service asks of a harvester: it is started, stopped and told of positions,
    which does not throw, and it knows whether it runs.  [X] is what it sees around it. *)
Class HarvesterOps (H X : Type) : Type := {
  harvester_start : M H unit;
  harvester_stop : M H unit;
  harvester_report : Update Geometry.Position -> M H unit;
  harvester_sees : X -> M H unit;
  harvester_on : H -> bool
}.
Class HarvesterLaws (H X : Type) `{!HarvesterOps H X} : Prop := {
  start_switches : forall h, exists h', harvester_start h = (Ok tt, h') /\ harvester_on h' = true;
  stop_switches : forall h, exists h', harvester_stop h = (Ok tt, h') /\ harvester_on h' = false;
  report_runs : forall u h, exists h',
    harvester_report u h = (Ok tt, h') /\ harvester_on h' = harvester_on h;
  sees_runs : forall x h, exists h',
    harvester_sees x h = (Ok tt, h') /\ harvester_on h' = harvester_on h
}.

(** A statement on a member of the world. *)
Definition on_cell {W A B} (c : Cell W A) (m : M A B) : M W B := fun w =>
  let (r, a) := m (rd c w) in (r, wr c a w).

(** [std::map<SpaceVehicle::Key, SpaceVehicle>] and its [operator==]. *)
Definition Vehicles : Type := list (SV.Key * SV.SpaceVehicle).
Fixpoint vehicles_eq (l r : Vehicles) : bool :=
  match l, r with
  | [], [] => true
  | (k, v) :: l, (k', v') :: r => SV.key_eq k k' && SV.sv_eq v v' && vehicles_eq l r
  | _, _ => false
  end.
Definition vehicles_neq (l r : Vehicles) : bool := negb (vehicles_eq l r).

(** The properties of the service, its harvester, the names that were announced with
    [PropertiesChanged], and the tasks in the executor's strand, each the vehicles it
    captured. *)
Record Members (H : Type) : Type := MkMembers {
  is_online : bool;
  state : State;
  does_report_cell_and_wifi_ids : bool;
  does_satellite_based_positioning : bool;
  harvester : H;
  announced : list string;
  dispatched : list Vehicles;
  visible_space_vehicles : Vehicles
}.
Arguments MkMembers {H}.
Arguments is_online {H}.
Arguments state {H}.
Arguments does_report_cell_and_wifi_ids {H}.
Arguments does_satellite_based_positioning {H}.
Arguments harvester {H}.
Arguments announced {H}.
Arguments dispatched {H}.
Arguments visible_space_vehicles {H}.

(** The engine is the one of [Engine], which leaves the type of its settings open: the
    settings of this world are the engine's settings together with the members of the
    service.  The engine's functions only see the first, through [backing_settings]. *)
Record Backing (S H : Type) : Type := MkBacking { store : S; members_ : Members H }.
Arguments MkBacking {S H}.
Arguments store {S H}.
Arguments members_ {S H}.

Definition on_store {S H A} (m : M S A) : M (Backing S H) A := fun b =>
  let r := m (store b) in (r.1, MkBacking r.2 (members_ b)).

#[export] Instance backing_settings {S H} `{Settings S} : Settings (Backing S H) := {|
  sync := on_store sync;
  has_value_for_key k b := has_value_for_key k (store b);
  get_string_for_key_or_throw k := on_store (get_string_for_key_or_throw k);
  set_string_for_key k v := on_store (set_string_for_key k v)
|}.

Abbreviation World S H := (Engine.Engine (Backing S H)).
Definition members {S H} (w : World S H) : Members H := members_ (Engine.settings w).
Definition set_members {S H} (m : Members H) (w : World S H) : World S H :=
  Engine.set_settings (MkBacking (store (Engine.settings w)) m) w.

Section Cells.
Context {S H : Type}.
Abbreviation W := (World S H).

Definition member {A} (c : Cell (Members H) A) : Cell W A :=
  MkCell (fun w => rd c (members w)) (fun x w => set_members (wr c x (members w)) w).

Definition is_online_cell : Cell W bool := member (MkCell is_online (fun x m =>
  MkMembers x (state m) (does_report_cell_and_wifi_ids m) (does_satellite_based_positioning m)
    (harvester m) (announced m) (dispatched m) (visible_space_vehicles m))).
Definition state_cell : Cell W State := member (MkCell state (fun x m =>
  MkMembers (is_online m) x (does_report_cell_and_wifi_ids m) (does_satellite_based_positioning m)
    (harvester m) (announced m) (dispatched m) (visible_space_vehicles m))).
Definition report_cell : Cell W bool := member (MkCell does_report_cell_and_wifi_ids (fun x m =>
  MkMembers (is_online m) (state m) x (does_satellite_based_positioning m)
    (harvester m) (announced m) (dispatched m) (visible_space_vehicles m))).
Definition satellite_based_cell : Cell W bool := member (MkCell does_satellite_based_positioning (fun x m =>
  MkMembers (is_online m) (state m) (does_report_cell_and_wifi_ids m) x
    (harvester m) (announced m) (dispatched m) (visible_space_vehicles m))).
Definition harvester_cell : Cell W H := member (MkCell harvester (fun x m =>
  MkMembers (is_online m) (state m) (does_report_cell_and_wifi_ids m) (does_satellite_based_positioning m)
    x (announced m) (dispatched m) (visible_space_vehicles m))).
Definition announced_cell : Cell W (list string) := member (MkCell announced (fun x m =>
  MkMembers (is_online m) (state m) (does_report_cell_and_wifi_ids m) (does_satellite_based_positioning m)
    (harvester m) x (dispatched m) (visible_space_vehicles m))).
Definition dispatched_cell : Cell W (list Vehicles) := member (MkCell dispatched (fun x m =>
  MkMembers (is_online m) (state m) (does_report_cell_and_wifi_ids m) (does_satellite_based_positioning m)
    (harvester m) (announced m) x (visible_space_vehicles m))).
Definition visible_cell : Cell W Vehicles := member (MkCell visible_space_vehicles (fun x m =>
  MkMembers (is_online m) (state m) (does_report_cell_and_wifi_ids m) (does_satellite_based_positioning m)
    (harvester m) (announced m) (dispatched m) x)).
End Cells.

Abbreviation engine_state w := (Engine.engine_state (Engine.configuration w)).
Abbreviation satellite_state w := (Engine.satellite_based_positioning_state (Engine.configuration w)).
Abbreviation wifi_state w := (Engine.wifi_and_cell_id_reporting_state (Engine.configuration w)).

(** * The slots *)
Section Slots.
Context {S H X : Type} `{CP : !CoreProperty} `{BO : !BoostOptional} `{HS : !Settings S} `{HO : !HarvesterOps H X}.
Variables (requirements : address -> Z) (reaction : Engine.Event -> option exn).
Abbreviation W := (World S H).

(** [Skeleton::on_*_changed]: the [PropertiesChanged] signal, one property at a time;
    the slots of the skeleton were connected before those of the implementation. *)
Definition properties_changed (name : string) : M W unit :=
  l ← read announced_cell; write announced_cell (l ++ [name]).
Definition on_state_changed : M W unit := properties_changed "State".
Definition on_does_satellite_based_positioning_changed : M W unit :=
  properties_changed "DoesSatelliteBasedPositioning".
Definition on_does_report_cell_and_wifi_ids_changed : M W unit :=
  properties_changed "DoesReportCellAndWifiIds".
Definition on_is_online_changed : M W unit := properties_changed "IsOnline".

(** [mutable_state() = s] *)
Definition set_state (s : State) : M W unit :=
  assign neqb state_cell s (fun _ => on_state_changed).

(** The slot connected to [is_online().changed()], which assigns the engine's state, and
    the one connected to the engine's state, which assigns [is_online()]. *)
Definition is_online_slot (set_engine_state : Status -> M W unit) (value : bool) : M W unit :=
  on_is_online_changed;;
  set_engine_state (if value then on else off).
Definition engine_state_slot (set_is_online : bool -> M W unit) (status : Status) : M W unit :=
  match status with
  | off => set_is_online false;; set_state disabled
  | on => set_is_online true;; set_state enabled
  | active => set_is_online true;; set_state state_active
  end.

(** All the slots of the engine's state, in the order of their connection: the engine
    enables or disables its providers and stores the state, then the service follows.  A
    provider that is disabled can make the engine assign its state again. *)
Definition engine_state_changed (set_engine_state : Status -> M W unit) (set_is_online : bool -> M W unit)
    (status : Status) : M W unit :=
  Engine.engine_state_slot requirements reaction set_engine_state status;;
  Engine.persist_engine_state status;;
  engine_state_slot set_is_online status.

(** [is_online() = value] and [engine_state = status] run each other's slots; [fuel] is
    the nesting depth that is followed, [bottom] what lies below. *)
Fixpoint set_is_online (bottom : M W unit) (fuel : nat) (value : bool) : M W unit :=
  match fuel with
  | O => bottom
  | Datatypes.S fuel => assign neqb is_online_cell value (is_online_slot (set_engine_state bottom fuel))
  end
with set_engine_state (bottom : M W unit) (fuel : nat) (status : Status) : M W unit :=
  match fuel with
  | O => bottom
  | Datatypes.S fuel =>
      assign neqb Engine.engine_state_cell status
        (engine_state_changed (set_engine_state bottom fuel) (set_is_online bottom fuel))
  end.

(** [does_report_cell_and_wifi_ids() = value] *)
Definition set_does_report_cell_and_wifi_ids (value : bool) : M W unit :=
  assign neqb report_cell value (fun value =>
    on_does_report_cell_and_wifi_ids_changed;;
    Engine.set_wifi_and_cell_id_reporting_state reaction (if value : bool then wifi_on else wifi_off);;
    on_cell harvester_cell (if value : bool then harvester_start else harvester_stop)).

(** The slots of [does_satellite_based_positioning()] and of the engine's property. *)
Definition satellite_based_slot (set_satellite_state : Satellite -> M W unit) (value : bool) : M W unit :=
  on_does_satellite_based_positioning_changed;;
  set_satellite_state (if value then sat_on else sat_off).
Definition satellite_state_slot (set_does_satellite_based_positioning : bool -> M W unit) (s : Satellite)
  : M W unit :=
  set_does_satellite_based_positioning (bool_decide (s = sat_on)).

(** [does_satellite_based_positioning() = value] and the engine's property, which run each
    other's slots; the engine's own slot disables providers, which can assign the engine's
    state with [set]. *)
Fixpoint set_does_satellite_based_positioning (set : Status -> M W unit) (bottom : M W unit) (fuel : nat)
    (value : bool) : M W unit :=
  match fuel with
  | O => bottom
  | Datatypes.S fuel =>
      assign neqb satellite_based_cell value (satellite_based_slot (set_satellite_state set bottom fuel))
  end
with set_satellite_state (set : Status -> M W unit) (bottom : M W unit) (fuel : nat) (s : Satellite) : M W unit :=
  match fuel with
  | O => bottom
  | Datatypes.S fuel =>
      assign neqb Engine.satellite_cell s (fun s =>
        Engine.satellite_slot requirements reaction set s;;
        satellite_state_slot (set_does_satellite_based_positioning set bottom fuel) s)
  end.

(** ** Positions and vehicles *)

(** The slot on the engine's last known location. *)
Definition on_last_known_location (update : option (Update Geometry.Position)) : M W unit :=
  match update with
  | Some u => on_cell harvester_cell (harvester_report u)
  | None => skip
  end.

(** The slot of the engine on a provider's position: the policy decides, and the property
    runs the slots of the providers, which were added first, and the one above. *)
Definition on_position (src : Update Geometry.Position) : M W unit :=
  p ← gets Engine.update_policy;
  let r := TimeBased.verify_position p src in
  modify (Engine.set_policy r.2);;
  assign (Engine.optional_neq Pos.position_eq) Engine.location_cell (Some r.1) (fun l =>
    Engine.location_slots reaction l;;
    on_last_known_location l).

(** The slot on the engine's vehicles: a task for the strand that captured them. *)
Definition on_visible_space_vehicles (svs : Vehicles) : M W unit :=
  d ← read dispatched_cell;
  write dispatched_cell (d ++ [svs]).

(** The slot of the engine on a provider's vehicles: [update] announces the property
    whatever its new value is. *)
Definition on_svs (src : Update (list SV.SpaceVehicle)) : M W unit :=
  Engine.on_svs src;;
  svs ← read Engine.svs_cell;
  on_visible_space_vehicles svs.

(** [Skeleton::on_visible_space_vehicles_changed] tells nobody. *)
Definition on_visible_space_vehicles_changed (svs : Vehicles) : M W unit := skip.

(** A task: [visible_space_vehicles() = svs]. *)
Definition task (svs : Vehicles) : M W unit :=
  assign vehicles_neq visible_cell svs on_visible_space_vehicles_changed.

(** The strand runs its tasks in order. *)
Definition run_task : M W unit :=
  ts ← read dispatched_cell;
  match ts with
  | [] => skip
  | svs :: ts => write dispatched_cell ts;; task svs
  end.

(** The handler of [GetVisibleSpaceVehicles]: the value of the reply. *)
Definition get_visible_space_vehicles : M W Vehicles := read visible_cell.

(** * The life of the service *)

(** Assignments nest to a depth of six, plus [n]. *)
Section Depth.
Variables (bottom : M W unit) (n : nat).
Definition assign_online : bool -> M W unit := set_is_online bottom (6 + n).
Definition assign_engine_state : Status -> M W unit := set_engine_state bottom (5 + n).
Definition assign_satellite_based : bool -> M W unit :=
  set_does_satellite_based_positioning assign_engine_state bottom (3 + n).

(** The body of the constructor, for the engine's configuration. *)
Definition construct : M W unit :=
  s ← read Engine.engine_state_cell;
  match s with
  | off => assign_online false;; set_state disabled
  | on => assign_online true;; set_state enabled
  | active => assign_online true;; set_state state_active
  end;;
  t ← read Engine.wifi_cell;
  set_does_report_cell_and_wifi_ids (bool_decide (t = wifi_on));;
  p ← read Engine.satellite_cell;
  assign_satellite_based (bool_decide (p = sat_on)).

(** What clients set, what their sessions ask of the engine's providers, what providers
    deliver, what the strand runs and what the harvester sees. *)
Inductive Event : Type :=
| SetOnline (b : bool)
| SetReport (b : bool)
| SetSatellite (b : bool)
| Request (a : address) (c : Call)
| Position (u : Update Geometry.Position)
| Svs (u : Update (list SV.SpaceVehicle))
| RunTask
| See (x : X).

(** The controller through which a session reaches a provider of the engine. *)
Definition provider_controller (a : address) : Controller W :=
  Engine.tracking_controller reaction assign_engine_state a.

Definition step (e : Event) : M W unit :=
  match e with
  | SetOnline b => assign_online b
  | SetReport b => set_does_report_cell_and_wifi_ids b
  | SetSatellite b => assign_satellite_based b
  | Request a c =>
      ps ← gets Engine.providers;
      when (bool_decide (a ∈ ps)) (request (provider_controller a) c)
  | Position u => on_position u
  | Svs u => on_svs u
  | RunTask => run_task
  | See x => on_cell harvester_cell (harvester_sees x)
  end.

Definition run (es : list Event) (w : W) : W := fold_left (fun w e => exec (step e) w) es w.
End Depth.

(** The objects before the body of the constructor: the properties as the bus made them,
    around an engine and a harvester. *)
Definition fresh (s : State) (h : H) (e : Engine.Engine S) : W :=
  Engine.MkEngine (Engine.configuration e) (Engine.updates e) (Engine.update_policy e)
    (MkBacking (Engine.settings e) (MkMembers false s false false h [] [] []))
    (Engine.providers e) (Engine.wired e) (Engine.nodes e) (Engine.events e).

Definition harvesting (w : W) : bool := harvester_on (harvester (members w)).

(** What [state] says of an engine. *)
Definition shown (s : Status) : State :=
  match s with off => disabled | on => enabled | active => state_active end.

(** The service shows the engine's configuration. *)
Definition synchronised (w : W) : Prop :=
  is_online (members w) = bool_decide (engine_state w <> off) /\
  state (members w) = shown (engine_state w) /\
  does_report_cell_and_wifi_ids (members w) = bool_decide (wifi_state w = wifi_on) /\
  does_satellite_based_positioning (members w) = bool_decide (satellite_state w = sat_on) /\
  harvesting w = does_report_cell_and_wifi_ids (members w).
End Slots.

(** * Assignments end *)
Section Facts.
Context {S H X : Type} `{CP : !CoreProperty} `{BO : !BoostOptional} `{HS : !Settings S} `{HO : !HarvesterOps H X}.
Context `{SL : !SettingsLaws S Engine.engine_key} `{HL : !HarvesterLaws H X}.
Variables (requirements : address -> Z) (reaction : Engine.Event -> option exn).
Hypothesis no_throw : forall e, reaction e = None.
Abbreviation W := (World S H).
Abbreviation up_to st n bottom := (set_engine_state (S := S) (H := H) requirements reaction bottom n st).
Abbreviation online_to b n bottom := (set_is_online (S := S) (H := H) requirements reaction bottom n b).

(** What assignments of the engine's state and of [is_online()] leave alone. *)
Definition frame (w : W) :=
  (Engine.providers w, satellite_state w, wifi_state w, Engine.updates w, Engine.update_policy w,
   (does_report_cell_and_wifi_ids (members w), does_satellite_based_positioning (members w),
    harvester (members w), dispatched (members w), visible_space_vehicles (members w))).
#[local] Ltac frames := unfold frame in *; simpl in *; unfold members in *; simpl in *; unfold members in *; congruence.
Definition counters (w : W) (a : address) : Counters := Engine.own (Engine.node w a).

Definition idle (c : Counters) : Prop := c_position c <= 0 /\ c_heading c <= 0 /\ c_velocity c <= 0.

Lemma counters_set_eq a n (w : W) : counters (Engine.set_node a n w) a = Engine.own n.
Proof. unfold counters. by rewrite Engine.node_set_eq. Qed.
Lemma counters_set_ne a b n (w : W) : a <> b -> counters (Engine.set_node a n w) b = counters w b.
Proof. intros. unfold counters. by rewrite Engine.node_set_ne. Qed.
Lemma counters_kept a b n (w : W) :
  Engine.own n = counters w a -> counters (Engine.set_node a n w) b = counters w b.
Proof.
  intros E. destruct (decide (a = b)) as [->|Hne]; [by rewrite counters_set_eq|by rewrite counters_set_ne].
Qed.

(** A predicate on the parts that matter. *)
Record plain (P : W -> Prop) : Prop := {
  plain_deaf : Engine.deaf P;
  plain_state : forall a, stable P (Engine.state_cell a);
  plain_announced : stable P announced_cell;
  plain_store : forall s w, P w -> P (Engine.set_settings (MkBacking s (members w)) w)
}.

(** It is enough that [P] reads the frame, the two properties, [state()] and the counters. *)
Definition same_view (w w' : W) : Prop :=
  frame w' = frame w /\ engine_state w' = engine_state w /\ is_online (members w') = is_online (members w) /\
  state (members w') = state (members w) /\ forall a, counters w' a = counters w a.
Lemma plain_view P : (forall w w', same_view w w' -> P w -> P w') -> plain P.
Proof.
  intros HP. repeat split.
  - intros a c w. apply HP. repeat split. intros b. simpl. by apply counters_kept.
  - intros e w. by apply HP.
  - intros a s w. apply HP. repeat split. intros b. simpl. by apply counters_kept.
  - intros l w. by apply HP.
  - intros s w. by apply HP.
Qed.

Lemma leads_stored P {E} `{Streamable E} k (x : E) :
  Engine.engine_key k -> plain P -> leads P (Engine.on_settings (set_enum_for_key k x)) P.
Proof.
  intros Hk HP w Hw. destruct (set_total k (print x) (store (Engine.settings w)) Hk) as [b Eb].
  unfold Engine.on_settings, set_enum_for_key. simpl. unfold on_store. simpl.
  unfold result in Eb. rewrite Eb. do 2 eexists. split; [done|]. exact (plain_store _ HP _ _ Hw).
Qed.

Lemma leads_persist P st : plain P -> leads P (Engine.persist_engine_state st) P.
Proof.
  intros HP. eapply leads_bind; [apply leads_stored; [by right|done]|]. intros _. apply leads_skip.
Qed.

Lemma leads_announce P name : plain P -> leads P (properties_changed name) P.
Proof.
  intros HP. unfold properties_changed. eapply leads_bind; [apply leads_read|]. intros l.
  apply leads_write. by apply plain_announced.
Qed.

Lemma set_state_runs s (w : W) : exists w',
  set_state s w = (Ok tt, w') /\ frame w' = frame w /\ engine_state w' = engine_state w /\
  is_online (members w') = is_online (members w) /\ state (members w') = s /\
  forall a, counters w' a = counters w a.
Proof.
  unfold set_state. destruct (decide (state (members w) = s)) as [<-|Hne].
  - rewrite assign_same by apply neqb_refl. by exists w.
  - rewrite assign_differs by (by apply neqb_ne). eexists. split; [reflexivity|]. by repeat split.
Qed.

(** ** Upwards *)

(** [w'] is [w] with the engine in [st], where some controllers may have been enabled. *)
Record raised (w : W) (st : Status) (o : bool) (w' : W) : Prop := {
  raised_frame : frame w' = frame w;
  raised_state : engine_state w' = st;
  raised_online : is_online (members w') = o;
  raised_counters : forall a, counters w' a = counters w a \/ counters w' a = initial_counters
}.

Lemma plain_raised w st o : plain (raised w st o).
Proof.
  apply plain_view. intros w1 w2 (V1 & V2 & V3 & V4 & V5) [R1 R2 R3 R4].
  split; try congruence. intros a. rewrite V5. apply R4.
Qed.

Lemma raised_trans w st o w1 st' o' w2 : raised w st o w1 -> raised w1 st' o' w2 -> raised w st' o' w2.
Proof.
  intros [A1 A2 A3 A4] [B1 B2 B3 B4]. split; try congruence.
  intros a. destruct (B4 a) as [->| ->]; [apply A4|by right].
Qed.

Lemma raised_enable w st o set a : leads (raised w st o) (enable (Engine.tracking_controller reaction set a)) (raised w st o).
Proof.
  apply leads_enable. intros w1 [R1 R2 R3 R4]. rewrite Engine.set_counters_own. split; try done.
  intros b. destruct (decide (a = b)) as [<-|Hne]; [rewrite counters_set_eq; by right|].
  rewrite counters_set_ne by done. apply R4.
Qed.

Lemma raised_slot w st o set s :
  s <> off -> leads (raised w st o) (Engine.engine_state_slot requirements reaction set s) (raised w st o).
Proof.
  intros Hs. apply Engine.leads_each_provider. intros a. destruct s; [done| |apply leads_skip].
  eapply leads_bind; [apply leads_read|]. intros t. apply leads_if; [apply leads_skip|apply raised_enable].
Qed.

(** The two first slots of the engine's state. *)
Lemma raised_slots w st o set s (f : M W unit) Q :
  s <> off -> leads (raised w st o) f Q ->
  leads (raised w st o)
    (Engine.engine_state_slot requirements reaction set s;; Engine.persist_engine_state s;; f) Q.
Proof.
  intros Hs Hf. eapply leads_bind; [by apply raised_slot|]. intros _.
  eapply leads_bind; [apply leads_persist, plain_raised|]. by intros _.
Qed.

Lemma raised_set_state w st o s :
  leads (raised w st o) (set_state s) (fun w' => raised w st o w' /\ state (members w') = s).
Proof.
  intros w1 [R1 R2 R3 R4]. destruct (set_state_runs s w1) as (w2 & E & F1 & F2 & F3 & F4 & F5).
  exists tt, w2. split; [done|]. split; [|done]. split; try congruence. intros a. rewrite F5. apply R4.
Qed.

(** An assignment to [is_online()] of the value it has. *)
Lemma online_same b bottom n (w : W) :
  is_online (members w) = b -> online_to b (Datatypes.S n) bottom w = (Ok tt, w).
Proof. intros E. cbn [set_is_online]. apply assign_same. simpl. rewrite E. apply neqb_refl. Qed.

Lemma up_same bottom n st (w : W) :
  engine_state w = st -> up_to st (Datatypes.S n) bottom w = (Ok tt, w).
Proof. intros E. cbn [set_engine_state]. apply assign_same. simpl. rewrite E. apply neqb_refl. Qed.

Lemma raised_refl (w : W) : raised w (engine_state w) (is_online (members w)) w.
Proof. split; auto. Qed.

Lemma raised_write st (w : W) :
  raised w st (is_online (members w)) (wr Engine.engine_state_cell st w).
Proof. split; auto. Qed.

(** The engine goes up while the service is online. *)
Lemma up_online bottom n st (w : W) :
  st <> off -> engine_state w <> st -> is_online (members w) = true ->
  exists w', up_to st (2 + n) bottom w = (Ok tt, w') /\ raised w st true w' /\ state (members w') = shown st.
Proof.
  intros Hst Hne Ho. cbn [set_engine_state plus].
  rewrite assign_differs by (by apply neqb_ne). unfold engine_state_changed.
  assert (leads (raised w st true) (engine_state_slot (set_is_online requirements reaction bottom (Datatypes.S n)) st)
            (fun w' => raised w st true w' /\ state (members w') = shown st)) as Hf.
  { intros w1 Hw1. destruct st; [done| |]; cbn [engine_state_slot];
      rewrite (bind_run _ _ _ _ _ (online_same true bottom n w1 (raised_online _ _ _ _ Hw1)));
      by apply raised_set_state. }
  pose proof (raised_write st w) as R. rewrite Ho in R.
  destruct (raised_slots w st true (fun s => up_to s (Datatypes.S n) bottom) st _ _ Hst Hf _ R) as ([] & w2 & E & Q).
  exists w2. split; [exact E|exact Q].
Qed.

(** [is_online() = value] where the value differs: the engine follows. *)
Lemma online_differs b bottom n (w : W) :
  is_online (members w) <> b ->
  exists w1, online_to b (Datatypes.S n) bottom w = up_to (if b then on else off) n bottom w1 /\
    frame w1 = frame w /\ engine_state w1 = engine_state w /\ is_online (members w1) = b /\
    state (members w1) = state (members w) /\ forall a, counters w1 a = counters w a.
Proof.
  intros Hne. cbn [set_is_online]. rewrite assign_differs by (by apply neqb_ne).
  eexists. split; [reflexivity|]. by repeat split.
Qed.

(** The engine goes up while it is off and the service offline, which goes online; the
    service takes the engine to [on]. *)
Lemma up_offline bottom n st (w : W) :
  st <> off -> engine_state w = off -> is_online (members w) = false ->
  exists w', up_to st (4 + n) bottom w = (Ok tt, w') /\ raised w on true w'.
Proof.
  intros Hst He Ho. change (4 + n)%nat with (Datatypes.S (3 + n)). cbn [set_engine_state].
  rewrite assign_differs by (apply neqb_ne; simpl; congruence). unfold engine_state_changed.
  assert (leads (raised w st false) (engine_state_slot (set_is_online requirements reaction bottom (3 + n)) st)
            (raised w on true)) as Hf.
  { intros w1 R1.
    assert (exists w2, online_to true (3 + n) bottom w1 = (Ok tt, w2) /\ raised w on true w2) as (w2 & E2 & R2).
    { destruct (online_differs true bottom (2 + n) w1) as (w2 & E & F1 & F2 & F3 & F4 & F5);
        [by rewrite (raised_online _ _ _ _ R1)|].
      change (3 + n)%nat with (Datatypes.S (2 + n)). rewrite E.
      assert (raised w st true w2) as R2.
      { destruct R1. split; try congruence. intros a. rewrite F5. auto. }
      destruct (decide (st = on)) as [->|Hon].
      - exists w2. split; [apply (up_same bottom (1 + n)), R2|done].
      - destruct (up_online bottom n on w2) as (w3 & E3 & R3 & _);
          [done|by rewrite (raised_state _ _ _ _ R2)|done|].
        exists w3. split; [done|by eapply raised_trans]. }
    destruct st; [done| |]; cbn [engine_state_slot]; rewrite (bind_run _ _ _ _ _ E2);
      (eapply leads_post; [apply raised_set_state|by intros ? []|done]). }
  pose proof (raised_write st w) as R. rewrite Ho in R.
  destruct (raised_slots w st false (fun s => up_to s (3 + n) bottom) st _ _ Hst Hf _ R) as ([] & w2 & E & Q).
  by exists w2.
Qed.

(** ** The two states of rest *)

(** The service is online and shows the engine's state. *)
Record good (w : W) : Prop := {
  good_up : engine_state w <> off;
  good_online : is_online (members w) = true;
  good_state : state (members w) = shown (engine_state w)
}.

(** It is offline, and every provider of the engine is disabled. *)
Record resting (w : W) : Prop := {
  rest_off : engine_state w = off;
  rest_offline : is_online (members w) = false;
  rest_state : state (members w) = disabled;
  rest_counters : forall a, a ∈ Engine.providers w -> counters w a = disabled_counters
}.

(** What the providers that are disabled on the way down find: those in [D] are done. *)
Record loose (D : address -> Prop) (w : W) : Prop := {
  loose_upright : engine_state w <> off -> is_online (members w) = true;
  loose_idle : forall a, D a -> idle (counters w a);
  loose_disabled : forall a, D a -> engine_state w = off -> counters w a = disabled_counters
}.

Abbreviation framed f P := (fun w : W => frame w = f /\ P w).

Lemma plain_good f : plain (framed f good).
Proof. apply plain_view. intros w w' (V1 & V2 & V3 & V4 & V5) [F []]. split; [congruence|split; congruence]. Qed.
Lemma plain_loose f D : plain (framed f (loose D)).
Proof.
  apply plain_view. intros w w' (V1 & V2 & V3 & V4 & V5) [F [L1 L2 L3]].
  split; [congruence|]. split; [rewrite V2, V3; exact L1|intros a; rewrite V5; auto|intros a; rewrite V5, V2; auto].
Qed.

Lemma idle_initial : idle initial_counters.
Proof. repeat split; simpl; lia. Qed.
Lemma idle_disabled : idle disabled_counters.
Proof. repeat split; simpl; unfold our_magic_disabling_value; lia. Qed.

Lemma up_good bottom n st f : st <> off -> leads (framed f good) (up_to st (2 + n) bottom) (framed f good).
Proof.
  intros Hst w [F [G1 G2 G3]]. destruct (decide (engine_state w = st)) as [E|Hne].
  - exists tt, w. split; [by apply (up_same bottom (1 + n))|by repeat split].
  - destruct (up_online bottom n st w) as (w' & E & [R1 R2 R3 R4] & Es); [done..|].
    exists tt, w'. split; [done|]. split; [congruence|]. split; congruence.
Qed.

Lemma loose_raised D w st w' : st <> off -> loose D w -> raised w st true w' -> loose D w'.
Proof.
  intros Hst [L1 L2 L3] [R1 R2 R3 R4]. split; [done| |congruence].
  intros a Ha. destruct (R4 a) as [->| ->]; [auto|apply idle_initial].
Qed.

Lemma up_loose bottom n st f D :
  st <> off -> leads (framed f (loose D)) (up_to st (4 + n) bottom) (framed f (loose D)).
Proof.
  intros Hst w [F L]. destruct (decide (engine_state w = st)) as [E|Hne].
  { exists tt, w. by split; [apply (up_same bottom (3 + n))|]. }
  destruct (is_online (members w)) eqn:Ho.
  - destruct (up_online bottom (2 + n) st w) as (w' & E & R & Es); [done..|].
    exists tt, w'. split; [done|]. split; [by rewrite (raised_frame _ _ _ _ R)|by eapply loose_raised].
  - assert (engine_state w = off) as He.
    { destruct (decide (engine_state w = off)) as [|Hoff]; [done|].
      apply (loose_upright _ _ L) in Hoff. congruence. }
    destruct (up_offline bottom n st w) as (w' & E & R); [done..|].
    exists tt, w'. split; [done|]. split; [by rewrite (raised_frame _ _ _ _ R)|].
    by eapply (loose_raised D w on).
Qed.

(** ** Downwards *)

Lemma counters_own_cell a b c (w : W) : a <> b -> counters (wr (Engine.own_cell a) c w) b = counters w b.
Proof. intros. simpl. by rewrite counters_set_ne. Qed.

Lemma loose_own f (D : address -> Prop) a : ~ D a -> stable (framed f (loose D)) (Engine.own_cell a).
Proof.
  intros Ha c w [F [L1 L2 L3]]. split; [done|]. split; [done|intros b Hb..];
    (rewrite counters_own_cell; [auto|by intros ->]).
Qed.

(** Disabling a provider: its streams are stopped, which can take the engine up again. *)
Lemma loose_disable f (D : address -> Prop) a set :
  (forall st D, st <> off -> leads (framed f (loose D)) (set st) (framed f (loose D))) ->
  leads (framed f (loose D)) (disable (Engine.tracking_controller reaction set a))
        (framed f (loose (fun b => b = a \/ D b))).
Proof.
  intros Hset.
  eapply leads_pre with (Q := framed f (loose (fun b => b <> a /\ D b))).
  { intros w [F [L1 L2 L3]]. split; [done|]. split; [done|naive_solver..]. }
  apply leads_disable.
  - pose proof (plain_loose f (fun b => b <> a /\ D b)) as HP. apply Engine.obeys_tracking;
      [done|apply HP|apply loose_own; naive_solver|apply HP|intros st Hst; by apply Hset].
  - intros w [F [L1 L2 L3]]. rewrite Engine.set_counters_own. split; [done|].
    split; [done|intros b Hb..]; (destruct (decide (a = b)) as [<-|Hne];
      [rewrite counters_set_eq|rewrite counters_set_ne by done]);
      [apply idle_disabled|apply L2; naive_solver|done|intros He; apply L3; naive_solver].
Qed.

Lemma loose_slot f ps set :
  (forall w, frame w = f -> Engine.providers w = ps) ->
  (forall st D, st <> off -> leads (framed f (loose D)) (set st) (framed f (loose D))) ->
  leads (framed f (loose (fun _ => False))) (Engine.engine_state_slot requirements reaction set off)
        (framed f (loose (fun a => a ∈ ps))).
Proof.
  intros Hps Hset.
  apply (Engine.leads_all_providers (fun D => framed f (loose D)));
    [intros D w [F _]; auto|intros a D _; by apply loose_disable|].
  intros D D' w HD [F [L1 L2 L3]]. split; [done|]. split; auto.
Qed.

(** The second time every stream is idle: the engine stays off. *)
Record fading (ps : list address) (D : address -> Prop) (w : W) : Prop := {
  fade_off : engine_state w = off;
  fade_offline : is_online (members w) = false;
  fade_idle : forall a, a ∈ ps -> idle (counters w a);
  fade_disabled : forall a, D a -> counters w a = disabled_counters
}.

Lemma plain_fading f ps D : plain (framed f (fading ps D)).
Proof.
  apply plain_view. intros w w' (V1 & V2 & V3 & V4 & V5) [F [L1 L2 L3 L4]].
  split; [congruence|]. split; try congruence; intros a; rewrite V5; auto.
Qed.

Lemma fading_slot f ps set :
  (forall w, frame w = f -> Engine.providers w = ps) ->
  leads (framed f (fading ps (fun _ => False))) (Engine.engine_state_slot requirements reaction set off)
        (framed f (fading ps (fun a => a ∈ ps))).
Proof.
  intros Hps. apply (Engine.leads_all_providers (fun D => framed f (fading ps D)));
    [intros D w [F _]; auto| |].
  - intros a D Ha w [F [L1 L2 L3 L4]]. destruct (L3 a Ha) as (I1 & I2 & I3).
    exists tt. eexists. split; [by apply Engine.disable_idle_effect|]. split; [done|].
    split; [done..|intros b Hb|intros b Hb]; (destruct (decide (a = b)) as [<-|Hne];
      [rewrite counters_set_eq|rewrite counters_set_ne by done]);
      [apply idle_disabled|auto|done|naive_solver].
  - intros D D' w HD [F [L1 L2 L3 L4]]. split; [done|]. split; auto.
Qed.

(** The tail of the assignment of [off], when [is_online()] is false already. *)
Lemma off_tail bottom n (w : W) f ps :
  (forall w, frame w = f -> Engine.providers w = ps) ->
  frame w = f -> engine_state w = off -> is_online (members w) = false ->
  (forall a, a ∈ ps -> counters w a = disabled_counters) ->
  exists w', engine_state_slot (set_is_online requirements reaction bottom (1 + n)) off w = (Ok tt, w') /\
    frame w' = f /\ resting w'.
Proof.
  intros Hps F He Ho Hc. cbn [engine_state_slot].
  rewrite (bind_run _ _ _ _ _ (online_same false bottom n w Ho)).
  destruct (set_state_runs disabled w) as (w' & E & F1 & F2 & F3 & F4 & F5).
  exists w'. split; [done|]. split; [congruence|]. split; try congruence.
  intros a. rewrite F5, (Hps w') by congruence. apply Hc.
Qed.

(** The engine goes down for the second time. *)
Lemma down_idle bottom n (w : W) f ps :
  (forall w, frame w = f -> Engine.providers w = ps) ->
  frame w = f -> engine_state w <> off -> is_online (members w) = false ->
  (forall a, a ∈ ps -> idle (counters w a)) ->
  exists w', up_to off (2 + n) bottom w = (Ok tt, w') /\ frame w' = f /\ resting w'.
Proof.
  intros Hps F He Ho Hc. cbn [set_engine_state plus]. rewrite assign_differs by (by apply neqb_ne).
  unfold engine_state_changed.
  assert (framed f (fading ps (fun _ => False)) (wr Engine.engine_state_cell off w)) as H0
    by (split; [exact F|split; [done|exact Ho|exact Hc|done]]).
  destruct (fading_slot f ps (fun s => up_to s (1 + n) bottom) Hps _ H0) as ([] & w1 & E1 & H1).
  rewrite (bind_run _ _ _ _ _ E1).
  destruct (leads_persist _ off (plain_fading f ps (fun a => a ∈ ps)) _ H1) as ([] & w2 & E2 & F2 & [L1 L2 L3 L4]).
  rewrite (bind_run _ _ _ _ _ E2). by apply (off_tail bottom n w2 f ps).
Qed.

(** The slot of the service on [off], after the providers: the engine may be up again. *)
Lemma off_slot bottom n (w : W) f ps :
  (forall w, frame w = f -> Engine.providers w = ps) -> frame w = f -> loose (fun a => a ∈ ps) w ->
  exists w', engine_state_slot (set_is_online requirements reaction bottom (4 + n)) off w = (Ok tt, w') /\
    frame w' = f /\ resting w'.
Proof.
  intros Hps F [L1 L2 L3]. destruct (is_online (members w)) eqn:Ho.
  2: { assert (engine_state w = off) as He.
       { destruct (decide (engine_state w = off)) as [|Hne]; [done|]. specialize (L1 Hne). discriminate. }
       apply (off_tail bottom (3 + n) w f ps); auto. }
  cbn [engine_state_slot].
  assert (exists w1, online_to false (4 + n) bottom w = (Ok tt, w1) /\ frame w1 = f /\
            engine_state w1 = off /\ is_online (members w1) = false /\
            forall a, a ∈ ps -> counters w1 a = disabled_counters) as (w1 & E1 & F1 & A1 & A2 & A3).
  { destruct (online_differs false bottom (3 + n) w) as (w1 & E1 & F1 & He1 & Ho1 & _ & Hc1); [congruence|].
    change (4 + n)%nat with (Datatypes.S (3 + n)). rewrite E1.
    destruct (decide (engine_state w1 = off)) as [Hoff|Hon].
    - exists w1. split; [by apply (up_same bottom (2 + n))|]. split_and!; [congruence|done..|].
      intros a Ha. rewrite Hc1. apply L3; congruence.
    - destruct (down_idle bottom (1 + n) w1 f ps Hps) as (w2 & E2 & F2 & [R1 R2 R3 R4]); [congruence|done..| |].
      { intros a Ha. rewrite Hc1. auto. }
      exists w2. split_and!; [done..|]. intros a Ha. apply R4. by rewrite (Hps w2). }
  rewrite (bind_run _ _ _ _ _ E1).
  destruct (set_state_runs disabled w1) as (w2 & E2 & F2 & P1 & P2 & P3 & P4).
  exists w2. split; [done|]. split; [congruence|]. split; try congruence.
  intros a. rewrite P4, (Hps w2) by congruence. apply A3.
Qed.

(** The service goes offline. *)
Lemma down bottom n (w : W) :
  good w ->
  exists w', online_to false (6 + n) bottom w = (Ok tt, w') /\ frame w' = frame w /\ resting w'.
Proof.
  intros [G1 G2 G3]. remember (frame w) as f eqn:F. symmetry in F.
  assert (forall w, frame w = f -> Engine.providers w = f.1.1.1.1.1) as Hps by (by intros v <-).
  revert Hps. generalize (f.1.1.1.1.1). intros ps Hps.
  destruct (online_differs false bottom (5 + n) w) as (w0 & E0 & F0 & He & Ho & _); [congruence|].
  change (6 + n)%nat with (Datatypes.S (5 + n)). rewrite E0. clear E0.
  change (5 + n)%nat with (Datatypes.S (4 + n)). cbn [set_engine_state].
  rewrite assign_differs by (apply neqb_ne; simpl; congruence). unfold engine_state_changed.
  assert (framed f (loose (fun _ => False)) (wr Engine.engine_state_cell off w0)) as H0.
  { split; [simpl; rewrite <- F, <- F0; done|]. by split. }
  destruct (loose_slot f ps (fun s => up_to s (4 + n) bottom) Hps
              (fun st D Hst => up_loose bottom n st f D Hst) _ H0) as ([] & w1 & E1 & H1).
  rewrite (bind_run _ _ _ _ _ E1).
  destruct (leads_persist _ off (plain_loose f (fun a => a ∈ ps)) _ H1) as ([] & w2 & E2 & F2 & L).
  rewrite (bind_run _ _ _ _ _ E2). by apply (off_slot bottom n w2 f ps).
Qed.

(** ** Assignments of clients *)

Definition steady (w : W) : Prop := good w \/ resting w.

Lemma steady_same (w w' : W) :
  engine_state w' = engine_state w -> is_online (members w') = is_online (members w) ->
  state (members w') = state (members w) -> Engine.providers w' = Engine.providers w ->
  (forall a, counters w' a = counters w a) -> steady w -> steady w'.
Proof.
  intros E1 E2 E3 E4 E5 [[G1 G2 G3]|[R1 R2 R3 R4]]; [left; split; congruence|right].
  split; try congruence. intros a. rewrite E4, E5. auto.
Qed.

Lemma plain_steady f : plain (framed f steady).
Proof.
  apply plain_view. intros w w' (V1 & V2 & V3 & V4 & V5) [F Hs]. split; [congruence|].
  revert Hs. apply steady_same; try done. by injection V1.
Qed.

Lemma online_ends bottom n b (w : W) :
  steady w ->
  exists w', online_to b (6 + n) bottom w = (Ok tt, w') /\ frame w' = frame w /\
    if b then good w' else resting w'.
Proof.
  intros [G|R]; destruct b.
  - exists w. split_and!; [apply (online_same true bottom (5 + n)), G|done|done].
  - by apply down.
  - destruct (online_differs true bottom (5 + n) w) as (w1 & E1 & F1 & He & Ho & _);
      [rewrite (rest_offline _ R); discriminate|].
    change (6 + n)%nat with (Datatypes.S (5 + n)). rewrite E1.
    destruct (up_online bottom (3 + n) on w1) as (w2 & E2 & [R1 R2 R3 R4] & Hs);
      [done|rewrite He, (rest_off _ R); discriminate|done|].
    exists w2. split; [done|]. split; [congruence|]. split; congruence.
  - exists w. split_and!; [apply (online_same false bottom (5 + n)), R|done|done].
Qed.

(** A session asks for a stream of a provider, or releases one. *)
Lemma request_ends bottom n a c (w : W) :
  steady w -> a ∈ Engine.providers w ->
  exists w', request (Engine.tracking_controller reaction (set_engine_state requirements reaction bottom (2 + n)) a) c w
    = (Ok tt, w') /\ frame w' = frame w /\ steady w'.
Proof.
  intros [G|R] Ha.
  - assert (obeys (framed (frame w) good)
      (Engine.tracking_controller reaction (set_engine_state requirements reaction bottom (2 + n)) a)) as Ho.
    { pose proof (plain_good (frame w)) as HP.
      apply Engine.obeys_tracking; [done|apply HP| |apply HP|intros st Hst; by apply up_good].
      intros x v [F []]. by repeat split. }
    destruct (leads_request _ _ c Ho w (conj eq_refl G)) as ([] & w' & E & F & G').
    exists w'. split_and!; [done..|by left].
  - exists w. split_and!; [|done|by right]. apply request_ignored.
    pose proof (rest_counters _ R a Ha) as Hc. unfold counters in Hc.
    destruct c as [[]|[]]; simpl; rewrite Hc; done.
Qed.

Lemma steady_report b (w : W) : steady w -> steady (wr report_cell b w).
Proof. by apply steady_same. Qed.
Lemma steady_wifi s (w : W) : steady w -> steady (wr Engine.wifi_cell s w).
Proof. by apply steady_same. Qed.
Lemma steady_satellite_based b (w : W) : steady w -> steady (wr satellite_based_cell b w).
Proof. by apply steady_same. Qed.
Lemma steady_satellite s (w : W) : steady w -> steady (wr Engine.satellite_cell s w).
Proof. by apply steady_same. Qed.

(** The property of the engine: the state is stored and the providers are told. *)
Lemma wifi_ends st (w : W) :
  steady w ->
  exists w', Engine.set_wifi_and_cell_id_reporting_state reaction st w = (Ok tt, w') /\ steady w' /\
    frame w' = frame (wr Engine.wifi_cell st w).
Proof.
  intros Hs. unfold Engine.set_wifi_and_cell_id_reporting_state. destruct (decide (wifi_state w = st)) as [E|Hne].
  - rewrite assign_same by (simpl; rewrite E; apply neqb_refl). exists w. split_and!; [done..|].
    subst. reflexivity.
  - rewrite assign_differs by (by apply neqb_ne).
    set (f := frame (wr Engine.wifi_cell st w)). pose proof (plain_steady f) as HP.
    enough (leads (framed f steady) (Engine.on_settings (set_enum_for_key Engine.key_wifi st);;
              ws ← gets Engine.wired; for_each ws (fun a => Engine.perform reaction (Engine.WifiAndCell a st)))
              (framed f steady)) as Hl.
    { destruct (Hl (wr Engine.wifi_cell st w)) as ([] & w' & E & F & Hs'); [by split; [|apply steady_wifi]|].
      by exists w'. }
    eapply leads_bind; [apply leads_stored; [by left|done]|]. intros _.
    eapply leads_bind; [apply leads_gets|]. intros ws. apply leads_for_each. intros a _.
    apply Engine.leads_perform; [done|apply HP].
Qed.

Lemma report_same b (w : W) :
  does_report_cell_and_wifi_ids (members w) = b ->
  set_does_report_cell_and_wifi_ids reaction b w = (Ok tt, w).
Proof. intros E. apply assign_same. simpl. rewrite E. apply neqb_refl. Qed.

Abbreviation switch b := (if b : bool then harvester_start else harvester_stop).

Lemma report_ends b (w : W) :
  steady w -> does_report_cell_and_wifi_ids (members w) <> b ->
  exists w', set_does_report_cell_and_wifi_ids reaction b w = (Ok tt, w') /\ steady w' /\
    frame w' = frame (wr harvester_cell (exec (switch b) (harvester (members w)))
                 (wr Engine.wifi_cell (if b then wifi_on else wifi_off) (wr report_cell b w))).
Proof.
  intros Hs Hne. unfold set_does_report_cell_and_wifi_ids. rewrite assign_differs by (by apply neqb_ne).
  destruct (leads_announce _ "DoesReportCellAndWifiIds" (plain_steady (frame (wr report_cell b w)))
              (wr report_cell b w)) as ([] & w1 & E1 & F1 & S1); [by split; [|apply steady_report]|].
  unfold on_does_report_cell_and_wifi_ids_changed. rewrite (bind_run _ _ _ _ _ E1).
  destruct (wifi_ends (if b then wifi_on else wifi_off) w1 S1) as (w2 & E2 & S2 & F2).
  rewrite (bind_run _ _ _ _ _ E2).
  assert (frame w2 = frame (wr Engine.wifi_cell (if b then wifi_on else wifi_off) (wr report_cell b w))) as F3.
  { rewrite F2. frames. }
  assert (exists h', switch b (harvester (members w2)) = (Ok tt, h') /\
                     h' = exec (switch b) (harvester (members w))) as (h' & Eh & Hh).
  { assert (harvester (members w2) = harvester (members w)) as -> by frames.
    unfold exec. destruct b.
    - destruct (start_switches (harvester (members w))) as (h' & -> & _). by exists h'.
    - destruct (stop_switches (harvester (members w))) as (h' & -> & _). by exists h'. }
  unfold on_cell. cbn [rd harvester_cell member]. rewrite Eh. eexists. split; [reflexivity|].
  split; [revert S2; by apply steady_same|]. rewrite <- Hh. frames.
Qed.

(** The slot of the engine that enables or disables the providers that need satellites. *)
Lemma satellite_slot_ends bottom n st (w : W) :
  steady w ->
  exists w', Engine.satellite_slot requirements reaction (set_engine_state requirements reaction bottom (2 + n)) st w
    = (Ok tt, w') /\ frame w' = frame w /\ steady w'.
Proof.
  set (set := set_engine_state requirements reaction bottom (2 + n)). intros [G|R].
  - assert (leads (framed (frame w) good) (Engine.satellite_slot requirements reaction set st) (framed (frame w) good)) as Hl.
    { pose proof (plain_good (frame w)) as HP.
      assert (forall z a v, framed (frame w) good v ->
                framed (frame w) good (set_counters (Engine.tracking_controller reaction set a) z v)) as Hc.
      { intros z a v [F []]. rewrite Engine.set_counters_own. by repeat split. }
      apply Engine.leads_each_provider. intros a.
      destruct (Engine.requires_satellites requirements a); [|apply leads_skip]. destruct st.
      - eapply leads_bind; [apply leads_read|]. intros s. apply leads_when. apply leads_enable. apply Hc.
      - apply leads_disable; [|apply Hc].
        apply Engine.obeys_tracking; [done|apply HP| |apply HP|intros s Hst; by apply up_good].
        intros x v [F []]. by repeat split. }
    destruct (Hl w (conj eq_refl G)) as ([] & w' & E & F & G'). exists w'. split_and!; [done..|by left].
  - assert (forall v, framed (frame w) resting v -> Engine.providers v = Engine.providers w) as Hps
      by (intros v [F _]; by injection F).
    destruct (Engine.leads_all_providers (fun _ => framed (frame w) resting) (Engine.providers w)
      (fun a => if Engine.requires_satellites requirements a then
        match st with
        | sat_on => s ← read Engine.engine_state_cell;
                    when (bool_decide (s = on)) (enable (Engine.tracking_controller reaction set a))
        | sat_off => disable (Engine.tracking_controller reaction set a)
        end else skip)) with (w := w) as ([] & w' & E & F & R'); [intros _; exact Hps| |done|done|].
    2: { exists w'. split_and!; [done..|by right]. }
    intros a _ Ha v [F Rv]. destruct (Engine.requires_satellites requirements a); [|by exists tt, v].
    destruct st.
    + exists tt, v. unfold_m. by rewrite (rest_off _ Rv).
    + assert (counters v a = disabled_counters) as Hc by (apply (rest_counters _ Rv); by rewrite Hps).
      exists tt. eexists. split.
      { apply Engine.disable_idle_effect; unfold counters in Hc; rewrite Hc; simpl;
          unfold our_magic_disabling_value; lia. }
      split; [done|]. destruct Rv as [R1 R2 R3 R4]. split; try done. intros b Hb.
      rewrite counters_kept by (simpl; by rewrite Hc). by apply R4.
Qed.

Abbreviation satellite_to b bottom n :=
  (set_does_satellite_based_positioning (S := S) (H := H) requirements reaction
     (set_engine_state requirements reaction bottom (5 + n)) bottom (3 + n) b).

Lemma satellite_same b bottom n (w : W) :
  does_satellite_based_positioning (members w) = b -> satellite_to b bottom n w = (Ok tt, w).
Proof.
  intros E. change (3 + n)%nat with (Datatypes.S (2 + n)). cbn [set_does_satellite_based_positioning].
  apply assign_same. simpl. rewrite E. apply neqb_refl.
Qed.

Lemma satellite_ends b bottom n (w : W) :
  steady w -> does_satellite_based_positioning (members w) <> b ->
  exists w', satellite_to b bottom n w = (Ok tt, w') /\ steady w' /\
    frame w' = frame (wr Engine.satellite_cell (if b then sat_on else sat_off) (wr satellite_based_cell b w)).
Proof.
  intros Hs Hne. change (3 + n)%nat with (Datatypes.S (2 + n)). cbn [set_does_satellite_based_positioning].
  rewrite assign_differs by (by apply neqb_ne).
  destruct (leads_announce _ "DoesSatelliteBasedPositioning" (plain_steady (frame (wr satellite_based_cell b w)))
              (wr satellite_based_cell b w)) as ([] & w1 & E1 & F1 & S1); [by split; [|apply steady_satellite_based]|].
  unfold satellite_based_slot, on_does_satellite_based_positioning_changed. rewrite (bind_run _ _ _ _ _ E1).
  set (st := if b then sat_on else sat_off). change (2 + n)%nat with (Datatypes.S (1 + n)).
  cbn [set_satellite_state]. destruct (decide (satellite_state w1 = st)) as [E|Hst].
  - rewrite assign_same by (simpl; rewrite E; apply neqb_refl). exists w1. split_and!; [done..|].
    frames.
  - rewrite assign_differs by (by apply neqb_ne).
    destruct (satellite_slot_ends bottom (3 + n) st (wr Engine.satellite_cell st w1)) as (w2 & E2 & F2 & S2);
      [by apply steady_satellite|].
    rewrite (bind_run _ _ _ _ _ E2). unfold satellite_state_slot. cbn [set_does_satellite_based_positioning plus].
    rewrite assign_same.
    + exists w2. split_and!; [done..|]. frames.
    + simpl. assert (does_satellite_based_positioning (members w2) = b) as ->
        by frames.
      subst st. destruct b; apply neqb_refl.
Qed.

(** ** What providers deliver *)

Lemma report_position u (w : W) : exists h',
  on_cell harvester_cell (harvester_report u) w = (Ok tt, wr harvester_cell h' w) /\
  h' = exec (harvester_report u) (harvester (members w)) /\
  harvester_on h' = harvester_on (harvester (members w)).
Proof.
  destruct (report_runs u (harvester (members w))) as (h' & E & On). exists h'.
  unfold on_cell, exec. simpl. by rewrite E.
Qed.

(** A position: the policy and the last known location change as the policy decides, and
    the harvester is told of a location that is new. *)
Lemma position_ends src (w : W) :
  steady w ->
  let r := TimeBased.verify_position (Engine.update_policy w) src in
  let new := Engine.optional_neq Pos.position_eq (Engine.last_known_location (Engine.updates w)) (Some r.1) in
  exists w', on_position reaction src w = (Ok tt, w') /\ steady w' /\
    frame w' = frame (if new
      then wr harvester_cell (exec (harvester_report r.1) (harvester (members w)))
             (wr Engine.location_cell (Some r.1) (Engine.set_policy r.2 w))
      else Engine.set_policy r.2 w).
Proof.
  intros Hs r new. unfold on_position.
  rewrite (bind_run (gets Engine.update_policy) _ w (Engine.update_policy w) w eq_refl). fold r.
  rewrite (bind_run (modify (Engine.set_policy r.2)) _ w tt (Engine.set_policy r.2 w) eq_refl).
  assert (steady (Engine.set_policy r.2 w)) as Hs1 by (revert Hs; by apply steady_same).
  subst new. destruct (Engine.optional_neq _ _ _) eqn:N.
  2: { rewrite assign_same by exact N. by exists (Engine.set_policy r.2 w). }
  rewrite assign_differs by exact N.
  set (w1 := wr Engine.location_cell (Some r.1) (Engine.set_policy r.2 w)).
  assert (leads (framed (frame w1) steady) (Engine.location_slots reaction (Some r.1)) (framed (frame w1) steady)) as Hl.
  { eapply leads_bind; [apply leads_gets|]. intros ws. apply leads_for_each. intros a _.
    apply Engine.leads_perform; [done|apply plain_steady]. }
  destruct (Hl w1) as ([] & w2 & E2 & F2 & S2); [split; [done|revert Hs1; by apply steady_same]|].
  rewrite (bind_run _ _ _ _ _ E2). cbn [on_last_known_location].
  destruct (report_position r.1 w2) as (h' & E3 & Hh & _). eexists. split; [exact E3|].
  split; [revert S2; by apply steady_same|].
  assert (harvester (members w2) = harvester (members w)) as Eh by frames. rewrite Hh, Eh. frames.
Qed.

(** The parts of the frame that an event of the vehicles does not touch. *)
Definition core (w : W) :=
  (does_report_cell_and_wifi_ids (members w), wifi_state w, does_satellite_based_positioning (members w),
   satellite_state w, harvester (members w), Engine.update_policy w, Engine.last_known_location (Engine.updates w)).

Lemma frame_core (w w' : W) : frame w' = frame w -> core w' = core w.
Proof. intros E. unfold core. injection E as E1 E2 E3 E4 E5 E6 E7 E8 E9 E10. congruence. Qed.

Lemma svs_ends src (w : W) :
  steady w -> exists w', on_svs src w = (Ok tt, w') /\ steady w' /\ core w' = core w.
Proof. intros Hs. eexists. split; [reflexivity|]. split; [|done]. revert Hs. by apply steady_same. Qed.

Lemma task_ends (w : W) :
  steady w -> exists w', run_task w = (Ok tt, w') /\ steady w' /\ core w' = core w.
Proof.
  intros Hs. unfold run_task. rewrite (bind_run (read dispatched_cell) _ w _ w eq_refl).
  destruct (rd dispatched_cell w) as [|svs ts]; [by exists w|].
  rewrite (bind_run (write dispatched_cell ts) _ w tt (wr dispatched_cell ts w) eq_refl). unfold task, assign.
  unfold_m. destruct (emits _ _ _); eexists; (split; [reflexivity|]); (split; [revert Hs; by apply steady_same|done]).
Qed.

(** ** A whole event *)

(** The service, at rest, shows the engine's configuration. *)
Definition agrees (w : W) : Prop :=
  does_report_cell_and_wifi_ids (members w) = bool_decide (wifi_state w = wifi_on) /\
  does_satellite_based_positioning (members w) = bool_decide (satellite_state w = sat_on) /\
  harvesting (X := X) w = does_report_cell_and_wifi_ids (members w).
Definition sound (w : W) : Prop := steady w /\ agrees w.

Lemma sound_synchronised w : sound w -> synchronised (X := X) w.
Proof.
  intros [[[G1 G2 G3]|[R1 R2 R3 R4]] A]; unfold synchronised.
  - split; [by rewrite bool_decide_true|]. by split.
  - rewrite R1, R2, R3. by split.
Qed.

Lemma agrees_core w w' : core w' = core w -> agrees w -> agrees w'.
Proof.
  intros E (A1 & A2 & A3). unfold agrees, harvesting in *. injection E as -> -> -> -> -> _ _. auto.
Qed.

(** What the harvester, the policy and the last known location become. *)
Definition heard (e : Event (X := X)) (w : W) : H :=
  match e with
  | SetReport b =>
      if bool_decide (does_report_cell_and_wifi_ids (members w) = b) then harvester (members w)
      else exec (switch b) (harvester (members w))
  | Position src =>
      let r := TimeBased.verify_position (Engine.update_policy w) src in
      if Engine.optional_neq Pos.position_eq (Engine.last_known_location (Engine.updates w)) (Some r.1)
      then exec (harvester_report r.1) (harvester (members w)) else harvester (members w)
  | See x => exec (harvester_sees x) (harvester (members w))
  | _ => harvester (members w)
  end.
Definition policy_after (p : TimeBased.TimeBasedUpdatePolicy) (e : Event (X := X)) : TimeBased.TimeBasedUpdatePolicy :=
  match e with Position src => (TimeBased.verify_position p src).2 | _ => p end.
Definition location_after (p : TimeBased.TimeBasedUpdatePolicy) (l : option (Update Geometry.Position))
    (e : Event (X := X)) : option (Update Geometry.Position) :=
  match e with
  | Position src =>
      let r := TimeBased.verify_position p src in
      if Engine.optional_neq Pos.position_eq l (Some r.1) then Some r.1 else l
  | _ => l
  end.

Abbreviation location w := (Engine.last_known_location (Engine.updates w)).

(** The value of the property that the event sets. *)
Definition reads_back (e : Event (X := X)) (w : W) : Prop :=
  match e with
  | SetOnline b => is_online (members w) = b
  | SetReport b => does_report_cell_and_wifi_ids (members w) = b
  | SetSatellite b => does_satellite_based_positioning (members w) = b
  | _ => True
  end.

Record outcome (e : Event (X := X)) (w w' : W) : Prop := {
  out_sound : sound w';
  out_reads : reads_back e w';
  out_harvester : harvester (members w') = heard e w;
  out_policy : Engine.update_policy w' = policy_after (Engine.update_policy w) e;
  out_location : location w' = location_after (Engine.update_policy w) (location w) e
}.

Abbreviation does e bottom n := (step (S := S) (H := H) requirements reaction bottom n e).

(** An event that leaves what is watched alone. *)
Lemma outcome_core e (w w' : W) :
  core w' = core w -> steady w' -> sound w -> reads_back e w' -> heard e w = harvester (members w) ->
  (forall p, policy_after p e = p) -> (forall p l, location_after p l e = l) -> outcome e w w'.
Proof.
  intros E Hs [_ A] Hr H1 H2 H3. split; [by split; [|by eapply agrees_core]|done| | |];
    rewrite ?H1, ?H2, ?H3; injection E; congruence.
Qed.

Lemma does_online b bottom n (w : W) :
  sound w -> exists w', does (SetOnline b) bottom n w = (Ok tt, w') /\ outcome (SetOnline b) w w'.
Proof.
  intros Hw. destruct (online_ends bottom n b w) as (w' & E & F & Hb); [apply Hw|].
  exists w'. split; [exact E|].
  apply outcome_core; try done; [by apply frame_core|unfold steady; destruct b; auto|].
  destruct b; [apply (good_online _ Hb)|apply (rest_offline _ Hb)].
Qed.

Lemma does_request a c bottom n (w : W) :
  sound w -> exists w', does (Request a c) bottom n w = (Ok tt, w') /\ outcome (Request a c) w w'.
Proof.
  intros Hw. cbn [step]. rewrite (bind_run (gets Engine.providers) _ w (Engine.providers w) w eq_refl).
  destruct (decide (a ∈ Engine.providers w)) as [Ha|Ha].
  - rewrite bool_decide_true by done.
    destruct (request_ends bottom (3 + n) a c w) as (w' & E & F & Hs); [apply Hw|done|].
    exists w'. split; [exact E|]. apply outcome_core; try done. by apply frame_core.
  - rewrite bool_decide_false by done. exists w. split; [done|]. apply outcome_core; try done. apply Hw.
Qed.

Lemma does_report b bottom n (w : W) :
  sound w -> exists w', does (SetReport b) bottom n w = (Ok tt, w') /\ outcome (SetReport b) w w'.
Proof.
  intros Hw. destruct (decide (does_report_cell_and_wifi_ids (members w) = b)) as [Eb|Hne].
  - exists w. split; [by apply report_same|]. apply outcome_core; try done; [apply Hw|].
    cbn [heard]. by rewrite bool_decide_true.
  - destruct (report_ends b w) as (w' & E & Hs & F); [apply Hw|done|].
    exists w'. split; [exact E|]. apply frame_core in F. unfold core in F. simpl in F.
    injection F as F1 F2 F3 F4 F5 F6 F7. destruct Hw as [_ (A1 & A2 & A3)].
    assert (harvester_on (harvester (members w')) = b) as On.
    { rewrite F5. destruct b; [destruct (start_switches (harvester (members w))) as (h' & Eh & On)
                              |destruct (stop_switches (harvester (members w))) as (h' & Eh & On)];
        unfold exec; by rewrite Eh. }
    split; [split; [done|]|exact F1| |exact F6|exact F7].
    + split_and!; [rewrite F1, F2; by destruct b| |unfold harvesting; by rewrite On, F1].
      rewrite F4. etransitivity; [exact F3|]. exact A2.
    + cbn [heard]. rewrite bool_decide_false by done. exact F5.
Qed.

Lemma does_satellite b bottom n (w : W) :
  sound w -> exists w', does (SetSatellite b) bottom n w = (Ok tt, w') /\ outcome (SetSatellite b) w w'.
Proof.
  intros Hw. destruct (decide (does_satellite_based_positioning (members w) = b)) as [Eb|Hne].
  - exists w. split; [by apply satellite_same|]. apply outcome_core; try done. apply Hw.
  - destruct (satellite_ends b bottom n w) as (w' & E & Hs & F); [apply Hw|done|].
    exists w'. split; [exact E|]. apply frame_core in F. unfold core in F. simpl in F.
    injection F as F1 F2 F3 F4 F5 F6 F7. destruct Hw as [_ (A1 & A2 & A3)].
    split; [split; [done|]|exact F3|exact F5|exact F6|exact F7].
    unfold agrees, harvesting in *.
    split_and!; [rewrite F2; etransitivity; [exact F1|exact A1]|rewrite F3, F4; by destruct b|].
    rewrite F5. etransitivity; [exact A3|]. symmetry. exact F1.
Qed.

Lemma does_position u bottom n (w : W) :
  sound w -> exists w', does (Position u) bottom n w = (Ok tt, w') /\ outcome (Position u) w w'.
Proof.
  intros Hw. destruct (position_ends u w) as (w' & E & Hs & F); [apply Hw|].
  exists w'. split; [exact E|]. apply frame_core in F. destruct Hw as [_ (A1 & A2 & A3)].
  destruct (report_runs (TimeBased.verify_position (Engine.update_policy w) u).1 (harvester (members w)))
    as (h' & Eh & On).
  destruct (Engine.optional_neq Pos.position_eq _ _) eqn:N;
    unfold core in F; simpl in F; injection F as F1 F2 F3 F4 F5 F6 F7;
    (split; [split; [done|]|done| |exact F6|]; [|cbn [heard]; by rewrite N|cbn [location_after]; by rewrite N]);
    unfold agrees, harvesting in *; (split_and!; [rewrite F2; etransitivity; [exact F1|exact A1]|
      rewrite F4; etransitivity; [exact F3|exact A2]|]); rewrite F5;
    (etransitivity; [|symmetry; exact F1]); [unfold exec; rewrite Eh; simpl; by rewrite On|exact A3].
Qed.

Lemma does_see x bottom n (w : W) :
  sound w -> exists w', does (See x) bottom n w = (Ok tt, w') /\ outcome (See x) w w'.
Proof.
  intros [Hs (A1 & A2 & A3)]. destruct (sees_runs x (harvester (members w))) as (h' & E & On).
  exists (wr harvester_cell h' w). split; [cbn [step]; unfold on_cell; simpl; by rewrite E|].
  split; [split; [revert Hs; by apply steady_same|]|done| |done|done].
  - split_and!; [exact A1|exact A2|]. unfold harvesting in *. simpl. by rewrite On.
  - cbn [heard]. unfold exec. by rewrite E.
Qed.

(** No event throws, and each leaves the service sound. *)
Lemma step_ends e bottom n (w : W) :
  sound w -> exists w', does e bottom n w = (Ok tt, w') /\ outcome e w w'.
Proof.
  destruct e; [apply does_online|apply does_report|apply does_satellite|apply does_request
              |apply does_position| | |apply does_see]; intros Hw.
  - destruct (svs_ends u w) as (w' & E & Hs & C); [apply Hw|]. exists w'. split; [exact E|].
    by apply outcome_core.
  - destruct (task_ends w) as (w' & E & Hs & C); [apply Hw|]. exists w'. split; [exact E|].
    by apply outcome_core.
Qed.

Lemma run_sound es bottom n (w : W) : sound w -> sound (run requirements reaction bottom n es w).
Proof.
  revert w. induction es as [|e es IH]; intros w Hw; [done|]. simpl.
  destruct (step_ends e bottom n w Hw) as (w' & E & [Hs _ _ _ _]). unfold exec. rewrite E. by apply IH.
Qed.

(** ** The constructor *)

(** What the engine is when the service is made: its providers are disabled if it is
    off, and nothing is running yet. *)
Definition ready (e : Engine.Engine S) : Prop :=
  Engine.engine_state (Engine.configuration e) <> active /\
  (Engine.engine_state (Engine.configuration e) = off ->
   forall a, a ∈ Engine.providers e -> Engine.own (Engine.node e a) = disabled_counters).

Abbreviation wifi e := (Engine.wifi_and_cell_id_reporting_state (Engine.configuration e)).

(** The first part of the constructor's body. *)
Lemma construct_state bottom n s h (e : Engine.Engine S) :
  ready e ->
  exists w, (match Engine.engine_state (Engine.configuration e) with
      | off => assign_online requirements reaction bottom n false;; set_state disabled
      | on => assign_online requirements reaction bottom n true;; set_state enabled
      | active => assign_online requirements reaction bottom n true;; set_state state_active
      end) (fresh s h e) = (Ok tt, w) /\ steady w /\ frame w = frame (fresh s h e).
Proof.
  intros [Ha Hoff]. set (w0 := fresh s h e). destruct (Engine.engine_state _) eqn:Es; [| |done].
  - rewrite (bind_run _ _ _ _ _ (online_same false bottom (5 + n) w0 eq_refl)).
    destruct (set_state_runs disabled w0) as (w1 & E & F & P1 & P2 & P3 & P4).
    exists w1. split; [done|]. split; [|done]. right. split; try congruence; [by rewrite P1|by rewrite P2|].
    intros a Hp. rewrite P4. apply Hoff; [done|]. by injection F as <-.
  - destruct (online_differs true bottom (5 + n) w0) as (w1 & E & F & P1 & P2 & P3 & P4); [done|].
    assert (assign_online requirements reaction bottom n true w0 = (Ok tt, w1)) as E'.
    { etransitivity; [exact E|]. apply (up_same bottom (4 + n)). by rewrite P1. }
    rewrite (bind_run _ _ _ _ _ E').
    destruct (set_state_runs enabled w1) as (w2 & E2 & F2 & Q1 & Q2 & Q3 & Q4).
    exists w2. split; [done|]. split; [|congruence]. left.
    assert (engine_state w2 = on) as Eon by (by rewrite Q1, P1).
    split; [by rewrite Eon|congruence|by rewrite Eon, Q3].
Qed.

(** The second: the reports. *)
Lemma construct_report (w : W) :
  steady w -> does_report_cell_and_wifi_ids (members w) = false ->
  exists w', set_does_report_cell_and_wifi_ids reaction (bool_decide (wifi w = wifi_on)) w = (Ok tt, w') /\
    steady w' /\
    frame w' = frame (wr harvester_cell
      (if bool_decide (wifi w = wifi_on) then exec harvester_start (harvester (members w)) else harvester (members w))
      (wr report_cell (bool_decide (wifi w = wifi_on)) w)).
Proof.
  intros Hs Hr. destruct (decide (wifi w = wifi_on)) as [Ew|Ew].
  - rewrite bool_decide_true by done. destruct (report_ends true w) as (w' & E & S1 & F); [done|by rewrite Hr|].
    exists w'. split_and!; [done..|]. rewrite F, <- Ew. by destruct w as [[]].
  - rewrite bool_decide_false by done. exists w. split_and!; [by apply report_same|done|]. frames.
Qed.

(** The third: the satellites. *)
Lemma construct_satellite bottom n (w : W) :
  steady w -> does_satellite_based_positioning (members w) = false ->
  exists w', satellite_to (bool_decide (satellite_state w = sat_on)) bottom n w = (Ok tt, w') /\
    steady w' /\ frame w' = frame (wr satellite_based_cell (bool_decide (satellite_state w = sat_on)) w).
Proof.
  intros Hs Hf. destruct (decide (satellite_state w = sat_on)) as [Ew|Ew].
  - rewrite bool_decide_true by done. destruct (satellite_ends true bottom n w) as (w' & E & S1 & F); [done|by rewrite Hf|].
    exists w'. split_and!; [done..|]. rewrite F, <- Ew. by destruct w as [[]].
  - rewrite bool_decide_false by done. exists w. split_and!; [by apply satellite_same|done|]. frames.
Qed.

Lemma construct_ends bottom n s h (e : Engine.Engine S) :
  ready e -> harvester_on h = false ->
  exists w, construct requirements reaction bottom n (fresh s h e) = (Ok tt, w) /\ sound w /\
    harvester (members w) = (if bool_decide (wifi e = wifi_on) then exec harvester_start h else h) /\
    Engine.update_policy w = Engine.update_policy e /\ location w = location e.
Proof.
  intros He Hh. destruct (construct_state bottom n s h e He) as (w1 & E1 & S1 & F1). unfold construct.
  rewrite (bind_run (read Engine.engine_state_cell) _ _ _ _ eq_refl).
  change (rd Engine.engine_state_cell (fresh s h e)) with (Engine.engine_state (Engine.configuration e)).
  rewrite (bind_run _ _ _ _ _ E1).
  injection F1 as P1 P2 P3 P4 P5 P6 P7 P8 P9 P10. simpl in *.
  destruct (construct_report w1 S1 P6) as (w2 & E2 & S2 & F2).
  rewrite (bind_run (read Engine.wifi_cell) _ w1 (wifi w1) w1 eq_refl).
  rewrite (bind_run _ _ _ _ _ E2).
  rewrite (bind_run (read Engine.satellite_cell) _ w2 (satellite_state w2) w2 eq_refl).
  assert (does_satellite_based_positioning (members w2) = false) as Hf by frames.
  destruct (construct_satellite bottom n w2 S2 Hf) as (w3 & E3 & S3 & F3).
  exists w3. split; [exact E3|].
  apply frame_core in F2, F3. unfold core in F2, F3. simpl in F2, F3.
  injection F2 as A1 A2 A3 A4 A5 A6 A7. injection F3 as B1 B2 B3 B4 B5 B6 B7.
  assert (harvester (members w3) = (if bool_decide (wifi e = wifi_on) then exec harvester_start h else h)) as Hv.
  { rewrite B5, A5, P3, P8. done. }
  assert (wifi w3 = wifi e) as Ew by (rewrite B2; etransitivity; [exact A2|exact P3]).
  split_and!; [split; [done|]|done|rewrite B6; etransitivity; [exact A6|exact P5]
              |rewrite B7; etransitivity; [exact A7|by rewrite P4]].
  assert (does_report_cell_and_wifi_ids (members w3) = bool_decide (wifi e = wifi_on)) as Hr
    by (rewrite B1; etransitivity; [exact A1|by rewrite P3]).
  split_and!; [by rewrite Hr, Ew|by rewrite B3, B4|].
  unfold harvesting. rewrite Hv, Hr. destruct (bool_decide (wifi e = wifi_on)); [|exact Hh].
  destruct (start_switches h) as (h' & Eh & On). unfold exec. by rewrite Eh.
Qed.
End Facts.

(** * What the vehicles see *)
Section Vehicles.
Context {S H X : Type} `{CP : !CoreProperty} `{BO : !BoostOptional} `{HS : !Settings S} `{HO : !HarvesterOps H X}.
Variables (requirements : address -> Z) (reaction : Engine.Event -> option exn).
Abbreviation W := (World S H).

(** The engine's vehicles, the tasks and the property that clients read. *)
Definition vehicles (w : W) : Vehicles * list Vehicles * Vehicles :=
  (Engine.visible_space_vehicles (Engine.updates w), dispatched (members w), visible_space_vehicles (members w)).
Abbreviation same v := (fun w : W => vehicles w = v).

Lemma same_deaf v : Engine.deaf (same v).
Proof. split; [by intros a c w|by intros e w]. Qed.

Lemma same_stored v {E} `{Streamable E} k (x : E) :
  preserves (same v) (Engine.on_settings (set_enum_for_key k x)).
Proof. by intros w. Qed.

Lemma same_announced v name : preserves (same v) (properties_changed name).
Proof. by intros w. Qed.

Lemma same_set_state v s : preserves (same v) (set_state s).
Proof. apply preserves_assign; [by intros x w|]. intros. apply same_announced. Qed.

Lemma keeps_same v a set :
  (forall st, preserves (same v) (set st)) -> keeps (same v) (Engine.tracking_controller reaction set a).
Proof.
  intros Hset. apply Engine.keeps_tracking; [apply same_deaf|by intros c w|]. intros s.
  apply preserves_assign; [by intros x w|]. intros _. apply preserves_bind; [apply preserves_gets|]. auto.
Qed.

Lemma same_disable v a set :
  (forall st, preserves (same v) (set st)) -> preserves (same v) (disable (Engine.tracking_controller reaction set a)).
Proof. intros. by apply preserves_disable, keeps_same. Qed.
Lemma same_enable v a set : preserves (same v) (enable (Engine.tracking_controller reaction set a)).
Proof. by intros w. Qed.

Lemma same_engine_state_slot v set st :
  (forall st, preserves (same v) (set st)) ->
  preserves (same v) (Engine.engine_state_slot requirements reaction set st).
Proof.
  intros Hset. apply Engine.preserves_for_each_provider. intros a.
  destruct st; [by apply same_disable| |apply preserves_skip].
  apply preserves_bind; [apply preserves_read|]. intros s.
  apply preserves_if; [apply preserves_skip|apply same_enable].
Qed.

Section Bottom.
Variables (bottom : M W unit) (v : Vehicles * list Vehicles * Vehicles).
Hypothesis same_bottom : preserves (same v) bottom.

Lemma same_assignments fuel :
  (forall b, preserves (same v) (set_is_online requirements reaction bottom fuel b)) /\
  (forall st, preserves (same v) (set_engine_state requirements reaction bottom fuel st)).
Proof.
  induction fuel as [|fuel [IHo IHe]]; [done|]. split; intros x.
  - apply preserves_assign; [by intros b w|]. intros b.
    apply preserves_bind; [apply same_announced|]. intros _. apply IHe.
  - apply preserves_assign; [by intros st w|]. intros st. unfold engine_state_changed.
    apply preserves_bind; [by apply same_engine_state_slot|]. intros _.
    apply preserves_bind; [apply preserves_bind; [apply same_stored|intros _; apply preserves_skip]|]. intros _.
    destruct st; (apply preserves_bind; [apply IHo|intros _; apply same_set_state]).
Qed.

Lemma same_satellites set fuel :
  (forall st, preserves (same v) (set st)) ->
  (forall b, preserves (same v) (set_does_satellite_based_positioning requirements reaction set bottom fuel b)) /\
  (forall st, preserves (same v) (set_satellite_state requirements reaction set bottom fuel st)).
Proof.
  intros Hset. induction fuel as [|fuel [IHo IHe]]; [done|]. split; intros x.
  - apply preserves_assign; [by intros b w|]. intros b.
    apply preserves_bind; [apply same_announced|]. intros _. apply IHe.
  - apply preserves_assign; [by intros st w|]. intros st.
    apply preserves_bind; [|intros _; apply IHo]. apply Engine.preserves_for_each_provider. intros a.
    apply preserves_if; [|apply preserves_skip]. destruct st; [|by apply same_disable].
    apply preserves_bind; [apply preserves_read|]. intros s. apply preserves_when, same_enable.
Qed.

Lemma same_harvester {A} (m : M H A) : preserves (same v) (on_cell harvester_cell m).
Proof. intros w Hw. unfold exec, on_cell. by destruct (m _). Qed.

Lemma same_report b : preserves (same v) (set_does_report_cell_and_wifi_ids reaction b).
Proof.
  apply preserves_assign; [by intros x w|]. intros x. apply preserves_bind; [apply same_announced|]. intros _.
  apply preserves_bind; [|intros _; apply same_harvester].
  apply preserves_assign; [by intros s w|]. intros s. apply preserves_bind; [apply same_stored|]. intros _.
  apply preserves_bind; [apply preserves_gets|]. intros ws. apply preserves_for_each. intros a _.
  apply Engine.preserves_perform, same_deaf.
Qed.

Lemma same_position src : preserves (same v) (on_position reaction src).
Proof.
  apply preserves_bind; [apply preserves_gets|]. intros p. cbv zeta.
  apply preserves_bind; [by apply preserves_modify|]. intros _.
  apply preserves_assign; [by intros x w|]. intros l. apply preserves_bind.
  - apply preserves_bind; [apply preserves_gets|]. intros ws. apply preserves_for_each. intros a _.
    destruct l; [apply Engine.preserves_perform, same_deaf|apply preserves_skip].
  - intros _. destruct l; [apply same_harvester|apply preserves_skip].
Qed.

(** The constructor and the events that are not about vehicles. *)
Lemma same_construct n : preserves (same v) (construct requirements reaction bottom n).
Proof.
  pose proof (fun fuel => proj1 (same_assignments fuel)) as Ho. unfold construct.
  apply preserves_bind; [apply preserves_read|]. intros s. apply preserves_bind.
  { destruct s; (apply preserves_bind; [apply Ho|intros _; apply same_set_state]). }
  intros _. apply preserves_bind; [apply preserves_read|]. intros t.
  apply preserves_bind; [apply same_report|]. intros _.
  apply preserves_bind; [apply preserves_read|]. intros p.
  apply same_satellites. intros st. apply (same_assignments (5 + n)).
Qed.

Lemma same_step n (e : Event (X := X)) :
  match e with Svs _ | RunTask => False | _ => True end ->
  preserves (same v) (step requirements reaction bottom n e).
Proof.
  intros He. destruct e; try done.
  - apply (same_assignments (6 + n)).
  - apply same_report.
  - apply same_satellites. intros st. apply (same_assignments (5 + n)).
  - apply preserves_bind; [apply preserves_gets|]. intros ps. apply preserves_when.
    apply preserves_request, keeps_same. intros st. apply (same_assignments (5 + n)).
  - apply same_position.
  - apply same_harvester.
Qed.
End Bottom.
End Vehicles.

(** * Theorems *)
Section Properties.
Context {S H X : Type} `{CP : !CoreProperty} `{BO : !BoostOptional} `{HS : !Settings S} `{HO : !HarvesterOps H X}.
Context `{SL : !SettingsLaws S Engine.engine_key} `{HL : !HarvesterLaws H X}.
Variables (requirements : address -> Z) (reaction : Engine.Event -> option exn).

(** C13: the service and the engine stay what each says of the other.  Take any engine
    that was made [on], or [off] with its providers disabled, providers that do not throw,
    and a service made for it.  Whatever clients assign, whatever streams their sessions
    ask for or release, whatever the providers deliver, the strand runs and the harvester
    sees: nothing throws; [is_online()], [state()], the switches for reports and for
    satellites and the harvester are what the engine's configuration says; an engine that
    is off has every provider disabled; and a client that assigns a property reads the
    value back.  This is so although an engine that goes off can be taken up again by the
    providers it stops, and the service with it: the slots that run each other end after
    six nested assignments, whatever [bottom] is. *)
Theorem properties_stay_synchronised (bottom : M (World S H) unit) (n : nat) (s : State) (h : H)
    (e : Engine.Engine S) (es : list Event) :
  (forall c, reaction c = None) -> ready e -> harvester_on h = false ->
  let make := construct requirements reaction bottom n in
  let does ev := step requirements reaction bottom n ev in
  let w := run requirements reaction bottom n es (exec make (fresh s h e)) in
  result make (fresh s h e) = Ok tt /\
  (forall ev, result (does ev) w = Ok tt) /\
  synchronised (X := X) w /\
  (engine_state w = off -> forall a, a ∈ Engine.providers w -> Engine.own (Engine.node w a) = disabled_counters) /\
  (forall b, is_online (members (exec (does (SetOnline b)) w)) = b) /\
  (forall b, does_report_cell_and_wifi_ids (members (exec (does (SetReport b)) w)) = b) /\
  (forall b, does_satellite_based_positioning (members (exec (does (SetSatellite b)) w)) = b).
Proof.
  intros Hr He Hh make does w.
  destruct (construct_ends requirements reaction Hr bottom n s h e He Hh) as (w0 & E0 & S0 & _).
  assert (sound (X := X) w) as Hw.
  { subst w make. unfold exec. rewrite E0. by apply run_sound. }
  pose proof (fun ev => step_ends requirements reaction Hr ev bottom n w Hw) as Hs.
  split; [subst make; unfold result; by rewrite E0|].
  split; [intros ev; destruct (Hs ev) as (w' & E & _); subst does; unfold result; by rewrite E|].
  split; [by apply sound_synchronised|]. split.
  { destruct Hw as [[[Hup _ _]|[_ _ _ Hc]] _]; [intros Hoff; by destruct Hup|by intros _]. }
  subst does. split_and!; intros b; [destruct (Hs (SetOnline b)) as (w' & E & [])
    |destruct (Hs (SetReport b)) as (w' & E & [])|destruct (Hs (SetSatellite b)) as (w' & E & [])];
    unfold exec; rewrite E; assumption.
Qed.
End Properties.

(** A harvester that is only its switch. *)
#[export] Instance switch_ops : HarvesterOps bool unit :=
  {| harvester_start := fun _ => (Ok tt, true); harvester_stop := fun _ => (Ok tt, false);
     harvester_report _ := skip; harvester_sees _ := skip; harvester_on := id |}.
#[export] Instance switch_laws : HarvesterLaws bool unit.
Proof. split; intros; eexists; by split. Qed.

(** An engine with two providers that nobody uses yet. *)
Module Sample.
Import Engine.Sample.
Definition engine (s : Status) : Engine.Engine store :=
  Engine.MkEngine (Engine.MkConfiguration s sat_on wifi_off) (Engine.MkUpdates None None None [])
    policy (Ptree.MkPtree ∅ ∅) [1%nat; 2%nat] [1%nat; 2%nat] ∅ [].
Definition does : Event (X := unit) -> M (World store bool) unit :=
  step (S := store) (H := bool) needs_nothing no_reaction skip 0.
Definition service (s : Status) : World store bool :=
  exec (construct (H := bool) needs_nothing no_reaction skip 0) (fresh disabled false (engine s)).

(** Two sessions ask for positions, each of another provider. *)
Definition tracked : World store bool :=
  exec (does (Request 2%nat (Start Controller.Position)))
    (exec (does (Request 1%nat (Start Controller.Position))) (service on)).
End Sample.

Import Engine.Sample.

Lemma properties_stay_synchronised_witness :
  let es : list (Event (X := unit)) :=
    [Request 1%nat (Start Controller.Position); Request 2%nat (Start Controller.Position); SetOnline false] in
  ready (Sample.engine on) /\
  synchronised (X := unit) (run needs_nothing no_reaction skip 0 es
    (exec (construct (H := bool) needs_nothing no_reaction skip 0) (fresh disabled false (Sample.engine on)))).
Proof.
  intros es. assert (ready (Sample.engine on)) as Hr by (split; discriminate).
  assert (harvester_on (H := bool) (X := unit) false = false) as Hh by reflexivity.
  split; [exact Hr|].
  destruct (properties_stay_synchronised (H := bool) (X := unit) (SL := Engine.sample_laws) needs_nothing no_reaction skip 0 disabled false
    (Sample.engine on) es (fun c => eq_refl) Hr Hh) as (_ & _ & P & _).
  exact P.
Defined.

(** An engine that goes off takes itself up while it stops the first of two providers that
    stream; the second one's counters are reset by that, and when the engine goes off for
    good it is never told to stop. *)
Lemma second_provider_keeps_running :
  let w := exec (Sample.does (SetOnline false)) Sample.tracked in
  engine_state w = off /\
  Engine.events w = [Engine.Called 1%nat (Start Controller.Position); Engine.Called 2%nat (Start Controller.Position);
                     Engine.Called 1%nat (Stop Controller.Position)] /\
  Engine.impl (Engine.node w 2%nat) = MkCounters 1 0 0.
Proof. split_and!; vm_compute; reflexivity. Qed.

(** A service that is made for an engine whose stored state is [active] takes the engine
    to [on] and shows [state_active]. *)
Lemma active_engine_is_misreported :
  engine_state (Sample.service active) = on /\ state (members (Sample.service active)) = state_active.
Proof. split; vm_compute; reflexivity. Qed.
End Sync.
