(* ===== verification/Applications.v ===== *)
(** The applications of the service together ([service/skeleton.cpp],
    [service/implementation.cpp], [service/session/], [proxy_provider.cpp],
    [fusion_provider.cpp], [state_tracking_provider.h], [engine.cpp], [provider.cpp]):
    requests for sessions, the methods applications call on them, the applications that
    leave the bus, and the engine with its providers.  Each session drives them through a
    proxy and a fusion of its own, the tracking wrappers and the providers' own controllers,
    four layers of reference counts; the states of the wrappers drive the engine, and the
    engine resets the counts. *)
From Stdlib Require Import ZArith Lia SpecFloat.
From stdpp Require Import base gmap strings list fin_maps.
From S2P Require Import Prelude Geometry UpdatePolicy Provider Property Settings Fusion Engine Session Serving Service.
Local Open Scope Z_scope.
#[local] Set Warnings "-clear-no-such-hyp".

Module Applications.
Import Controller Session.Session Serving.Serving.

(** * From a session to the engine *)

(** What the calls of one session reach: the counters of its fusion's controller, and the
    engine with the providers. *)
Record Reach (S : Type) : Type := MkReach { own : Counters; reached : Engine.Engine S }.
Arguments MkReach {S}.
Arguments own {S}.
Arguments reached {S}.

(** A call of the session's controller on the proxy. *)
Definition call_on {W} (i : Instance W) (c : Call) : M W unit :=
  match c with
  | Start Position => i_start_position i
  | Stop Position => i_stop_position i
  | Start Heading => i_start_heading i
  | Stop Heading => i_stop_heading i
  | Start Velocity => i_start_velocity i
  | Stop Velocity => i_stop_velocity i
  end.

Section Reach.
Context {S : Type} `{CP : !CoreProperty} `{BO : !BoostOptional} `{HS : !Settings S} `{HL : !SettingsLaws S Engine.engine_key}.
Variable requirements : address -> Z.

(** The functions of the providers do not throw here. *)
Definition no_reaction (e : Engine.Event) : option exn := None.

Definition own_cell : Cell (Reach S) Counters := MkCell own (fun cs w => MkReach cs (reached w)).
Definition engine_cell : Cell (Reach S) (Engine.Engine S) := MkCell reached (fun e w => MkReach (own w) e).

(** A statement on the engine and its providers. *)
Definition on_engine {A} (m : M (Engine.Engine S) A) : M (Reach S) A := fun w =>
  let (r, e) := m (reached w) in (r, MkReach (own w) e).

(** The controller of a tracked provider, as the fusion calls it. *)
Definition provider_controller (a : address) : Controller (Reach S) :=
  let c := Engine.provider_controller requirements no_reaction a in
  let i := instance c in
  MkController
    (MkInstance (on_engine (i_start_position i)) (on_engine (i_stop_position i)) (on_engine (i_start_heading i))
                (on_engine (i_stop_heading i)) (on_engine (i_start_velocity i)) (on_engine (i_stop_velocity i)))
    (focus engine_cell (position_updates_counter c)) (focus engine_cell (heading_updates_counter c))
    (focus engine_cell (velocity_updates_counter c)).

(** The session's fusion provider over the set [bag], behind its own controller, and the
    proxy whose three selected providers it is. *)
Definition fusion_controller (bag : list address) : Controller (Reach S) :=
  controller_at own_cell (Fusion.fusion_instance bag provider_controller).
Definition proxy_of (bag : list address) : Instance (Reach S) :=
  Proxy.proxy_instance (fusion_controller bag) (fusion_controller bag) (fusion_controller bag).

Definition perform (bag : list address) (cs : list Call) : M (Reach S) unit := for_each cs (call_on (proxy_of bag)).

(** ** What performing calls reaches *)

Lemma start_on_engine (c : Cell (Engine.Engine S) Z) (m : M (Engine.Engine S) unit) w :
  start_updates (focus engine_cell c) (on_engine m) w = on_engine (start_updates c m) w.
Proof.
  destruct w as [cs e]. unfold start_updates, increment, on_engine, when. unfold_m. simpl.
  by repeat (case_bool; simpl).
Qed.
Lemma stop_on_engine (c : Cell (Engine.Engine S) Z) (m : M (Engine.Engine S) unit) w :
  stop_updates (focus engine_cell c) (on_engine m) w = on_engine (stop_updates c m) w.
Proof.
  destruct w as [cs e]. unfold stop_updates, decrement, on_engine, when. unfold_m. simpl.
  by repeat (case_bool; simpl).
Qed.

Lemma request_provider a c w :
  request (provider_controller a) c w = on_engine (request (Engine.provider_controller requirements no_reaction a) c) w.
Proof. destruct c as [[]|[]]; apply start_on_engine || apply stop_on_engine. Qed.

(** The engine keeps what [Contract] says about the calls that are [allowed]. *)
Variables (allowed : Kind -> Prop) (I : (address -> Z) -> (address -> Kind -> Z) -> Engine.Engine S -> Prop).
Hypothesis contract : Contract requirements no_reaction allowed I.

Lemma reach_bag m p bag c w :
  I m p (reached w) -> allowed (stream c) -> NoDup bag -> (forall a, a ∈ bag -> a ∈ Engine.providers (reached w)) ->
  (forall a, a ∈ bag -> m a + starts c <= INT_MAX /\ 0 <= p a (stream c) + change c) ->
  exists e, for_each bag (fun a => request (provider_controller a) c) w = (Ok tt, MkReach (own w) e) /\
    I (fun a => m a + if decide (a ∈ bag) then starts c else 0)
      (fun a k => p a k + if decide (a ∈ bag) then (if decide (stream c = k) then change c else 0) else 0) e /\
    Engine.providers e = Engine.providers (reached w).
Proof.
  intros Hw Hc Hn. revert m p w Hw. induction Hn as [|a bag Ha Hn IH]; intros m p w Hw Hd Hb.
  { exists (reached w). split; [by destruct w|]. split; [|done].
    eapply (contract_ext _ _ _ _ contract); [| |exact Hw]; intros; simpl; lia. }
  destruct (Hb a) as [Hm Hp]; [by left|].
  destruct (contract_call _ _ _ _ contract m p a c (reached w) Hw Hc (Hd a ltac:(by left)) Hm Hp) as (e & E & He & Hps).
  simpl. assert (request (provider_controller a) c w = (Ok tt, MkReach (own w) e)) as E'
    by (rewrite request_provider; unfold on_engine; by rewrite E).
  rewrite (bind_run _ _ _ _ _ E').
  destruct (IH _ _ (MkReach (own w) e) He) as (e' & E2 & He' & Hp').
  { intros b Hin. simpl. rewrite Hps. apply Hd. by right. }
  { intros b Hin. assert (b <> a) by congruence. unfold set_count, shift. rewrite !decide_False by naive_solver.
    apply Hb. by right. }
  exists e'. split; [exact E2|]. split; [|simpl in Hp'; congruence].
  eapply (contract_ext _ _ _ _ contract); [| |exact He'].
  - intros b. cbv beta. unfold set_count. destruct (decide (b = a)) as [->|Hne].
    + rewrite (decide_False (P := a ∈ bag)), decide_True by (done || by left). lia.
    + destruct (decide (b ∈ bag)) as [Hin|Hin]; [by rewrite decide_True by (by right)|].
      rewrite decide_False; [done|]. intros [?|?]%elem_of_cons; done.
  - intros b k. cbv beta. unfold shift. destruct (decide (b = a)) as [->|Hne].
    + rewrite (decide_False (P := a ∈ bag)), (decide_True (P := a ∈ a :: bag)) by (done || by left).
      destruct (decide (stream c = k)) as [<-|Hk]; [rewrite decide_True by done; lia|].
      rewrite decide_False by naive_solver. lia.
    + rewrite (decide_False (P := b = a /\ _)) by naive_solver.
      destruct (decide (b ∈ bag)) as [Hin|Hin]; [by rewrite (decide_True (P := b ∈ a :: bag)) by (by right)|].
      rewrite (decide_False (P := b ∈ a :: bag)); [done|]. intros [?|?]%elem_of_cons; done.
Qed.

(** A call that is an edge of the session's stream goes through all layers. *)
Lemma call_effect m p bag c w :
  I m p (reached w) -> allowed (stream c) -> NoDup bag -> (forall a, a ∈ bag -> a ∈ Engine.providers (reached w)) ->
  (forall a, a ∈ bag -> m a + starts c <= INT_MAX /\ 0 <= p a (stream c) + change c) ->
  counter_of (stream c) (own w) = match c with Start _ => 0 | Stop _ => 1 end ->
  exists e, call_on (proxy_of bag) c w =
      (Ok tt, MkReach (set_counter (stream c) (match c with Start _ => 1 | Stop _ => 0 end) (own w)) e) /\
    I (fun a => m a + if decide (a ∈ bag) then starts c else 0)
      (fun a k => p a k + if decide (a ∈ bag) then (if decide (stream c = k) then change c else 0) else 0) e /\
    Engine.providers e = Engine.providers (reached w).
Proof.
  intros Hw Hk Hn Hd Hb Hc.
  destruct (reach_bag m p bag c
    (MkReach (set_counter (stream c) (match c with Start _ => 1 | Stop _ => 0 end) (own w)) (reached w))
    Hw Hk Hn Hd Hb) as (e & E & He).
  exists e. split; [|exact He]. cbn [own] in E. rewrite <- E. clear E He Hw Hd Hb Hk. destruct w as [[q h v] r]. simpl in Hc.
  destruct c as [[]|[]]; simpl in *; subst;
    unfold start_position_updates at 1 || unfold stop_position_updates at 1 || unfold start_heading_updates at 1 ||
      unfold stop_heading_updates at 1 || unfold start_velocity_updates at 1 || unfold stop_velocity_updates at 1;
    unfold start_updates at 1 || unfold stop_updates at 1; unfold increment, decrement; unfold_m; done.
Qed.

Lemma counter_set k j z cs :
  counter_of j (set_counter k z cs) = if decide (k = j) then z else counter_of j cs.
Proof. case_decide; [subst; apply counter_set_eq|by apply counter_set_ne]. Qed.

(** The requests to start a stream among calls. *)
Fixpoint all_starts (cs : list Call) : Z :=
  match cs with [] => 0 | c :: cs => starts c + all_starts cs end.

Lemma all_starts_nonnegative cs : 0 <= all_starts cs.
Proof. induction cs as [|[]]; simpl; lia. Qed.

Lemma perform_effect m p bag cs w :
  I m p (reached w) -> Forall (fun c => allowed (stream c)) cs -> NoDup bag ->
  (forall a, a ∈ bag -> a ∈ Engine.providers (reached w)) ->
  (forall a, a ∈ bag -> m a + all_starts cs <= INT_MAX) ->
  (forall a k j, a ∈ bag -> 0 <= p a k + observers k (take j cs)) ->
  (forall k j, 0 <= counter_of k (own w) + observers k (take j cs) <= 1) ->
  let w' := exec (perform bag cs) w in
  (forall k, counter_of k (own w') = counter_of k (own w) + observers k cs) /\
  I (fun a => m a + if decide (a ∈ bag) then all_starts cs else 0)
    (fun a k => p a k + if decide (a ∈ bag) then observers k cs else 0) (reached w') /\
  Engine.providers (reached w') = Engine.providers (reached w).
Proof.
  intros Hw Hk Hn. revert m p w Hw. induction Hk as [|c cs Hc Hk IH]; intros m p w Hw Hd Hm Hp Hb; cbv zeta.
  { split; [intros; simpl; unfold perform, exec; simpl; lia|]. split; [|done].
    eapply (contract_ext _ _ _ _ contract); [| |exact Hw]; intros; simpl; case_decide; lia. }
  pose proof (Hb (stream c) 0%nat) as H0. pose proof (Hb (stream c) 1%nat) as H1. simpl in H0, H1.
  rewrite decide_True in H1 by done. pose proof (all_starts_nonnegative cs) as Hz.
  assert (counter_of (stream c) (own w) = match c with Start _ => 0 | Stop _ => 1 end) as Hcs by (destruct c; simpl in *; lia).
  destruct (call_effect m p bag c w Hw Hc Hn Hd) as (e & E & He & Hpe); [|done|].
  { intros a Ha. specialize (Hm a Ha). pose proof (Hp a (stream c) 1%nat Ha) as P1. simpl in Hm, P1.
    rewrite decide_True in P1 by done. lia. }
  unfold perform. simpl. rewrite (exec_run _ _ _ _ _ E).
  match goal with |- context [exec _ ?w1] => destruct (IH _ _ w1 He) as (IHc & IHs & IHp) end.
  - intros a Ha. cbn [reached]. rewrite Hpe. by apply Hd.
  - intros a Ha. specialize (Hm a Ha). simpl in Hm. rewrite decide_True by done. lia.
  - intros a k j Ha. specialize (Hp a k (Datatypes.S j) Ha). simpl in Hp. rewrite (decide_True (P := a ∈ bag)) by done. lia.
  - intros k j. specialize (Hb k (Datatypes.S j)). simpl in Hb |- *. rewrite counter_set.
    destruct (decide (stream c = k)) as [<-|Hne]; [|lia]. rewrite Hcs in Hb. destruct c; simpl in *; lia.
  - unfold perform in IHc, IHs, IHp. split_and!.
    + intros k. rewrite IHc. simpl. rewrite counter_set. destruct (decide (stream c = k)) as [<-|Hne]; [|lia].
      rewrite Hcs. destruct c; simpl; lia.
    + eapply (contract_ext _ _ _ _ contract); [| |exact IHs]; intros; simpl; case_decide; lia.
    + rewrite IHp. exact Hpe.
Qed.
End Reach.

(** * The world *)

(** A session with what was made for it. *)
Record Client : Type := MkClient {
  session : Session.Session;
  selection : Proxy.ProviderSelection;
  fusion : Fusion.FusionProvider;
  fusion_counters : Counters
}.

(** The skeleton, the sessions in its store, and the engine with its providers. *)
Record World (S : Type) : Type := MkWorld {
  service : Sessions.Service;
  sessions : gmap string Client;
  engine : Engine.Engine S
}.
Arguments MkWorld {S}.
Arguments service {S}.
Arguments sessions {S}.
Arguments engine {S}.

Section Applications.
Context {S : Type} `{CP : !CoreProperty} `{BO : !BoostOptional} `{HS : !Settings S} `{HL : !SettingsLaws S Engine.engine_key}.
Variable requirements : address -> Z.
Variables (get_connection_unix_process_id get_connection_unix_user : string -> res Z)
          (app_armor_profile : Z -> res string)
          (check_permission : Sessions.Credentials -> Sessions.Result)
          (construct_session : string -> res unit).
Abbreviation handle := (Sessions.handle_create_session_for_criteria get_connection_unix_process_id
  get_connection_unix_user app_armor_profile check_permission construct_session).

(** What a remote invocation and a reply throw, if they cannot be sent; the functions of
    the providers do not throw here. *)
Variables (invoke : Session.Remote -> option exn) (send : Session.Reply -> option exn).
Definition healthy (c : Call) : option exn := None.

(** The updates of a new session and the address of the fusion provider made for it. *)
Variables (p0 : Update Geometry.Position) (h0 : Update Geometry.Heading) (v0 : Update Geometry.Velocity).
Variable (fusion_address : string -> address).

(** [Implementation::create_session_for_criteria] with the policy of the daemon. *)
Definition create_session_for_criteria (path : string) (enumerated : list address) : Client :=
  let provider_selection := Policy.fusion_selection (fusion_address path) enumerated in
  MkClient (Session.initial_session p0 h0 v0) provider_selection.1 provider_selection.2 initial_counters.

(** A statement of a session; the calls it makes go to the proxy. *)
Definition new_calls (s s' : Session.Session) : list Call := drop (length (Session.calls s)) (Session.calls s').

Definition on_client (m : M Session.Session unit) (c : Client) (e : Engine.Engine S) : Client * Engine.Engine S :=
  let s' := exec m (session c) in
  let r := exec (perform requirements (Fusion.providers (fusion c)) (new_calls (session c) s'))
                (MkReach (fusion_counters c) e) in
  (MkClient s' (selection c) (fusion c) (own r), reached r).

Definition on_session (path : string) (m : M Session.Session unit) (w : World S) : World S :=
  match sessions w !! path with
  | None => w
  | Some c =>
      let r := on_client m c (engine w) in
      MkWorld (service w) (<[path := r.1]> (sessions w)) r.2
  end.

(** An update of the provider [from] on its way to a session: the fusion re-emits, the
    proxy forwards, the session takes it. *)
Definition on_update (from : address) (sg : Signal) (path : string) (c : Client) : Client :=
  let (out, f) := Fusion.fusion_on_update Fusion.default_select from sg (fusion c) in
  let forwarded := match out with
                   | Ok l => flat_map (Proxy.proxy_forward (selection c) (fusion_address path)) l
                   | Throw _ => []
                   end in
  MkClient (Session.live healthy invoke send (map Session.Deliver forwarded) (session c))
           (selection c) f (fusion_counters c).

(** What happens: the engine is given a provider it does not have; an application asks for
    a session, calls a method of the session at a path, or leaves the bus; a provider of the
    engine has an update; the user allows or forbids the reports of wifis and cells. *)
Inductive Event : Type :=
| Add (a : address)
| Request (r : Sessions.Request)
| Invoke (path : string) (m : Session.Method)
| Vanish (path : string)
| Signal_ (from : address) (s : Signal)
| Report (st : Enums.Wifi).

Definition step (e : Event) (w : World S) : World S :=
  match e with
  | Add a =>
      if decide (a ∈ Engine.providers (engine w)) then w
      else MkWorld (service w) (sessions w) (exec (Engine.add_provider requirements no_reaction (Some a)) (engine w))
  | Request r =>
      let path := Sessions.object_path (Sessions.index (service w)) in
      let service' := exec (handle r) (service w) in
      let sessions' :=
        match Sessions.session_store (service w) !! path, Sessions.session_store service' !! path with
        | None, Some _ => <[path := create_session_for_criteria path (Engine.providers (engine w))]> (sessions w)
        | _, _ => sessions w
        end in
      MkWorld service' sessions' (engine w)
  | Invoke path m => on_session path (Session.receive healthy invoke send (Session.Invoke m)) w
  | Vanish path =>
      let service' := exec (Sessions.remove_from_session_store_for_path path) (service w) in
      match Sessions.session_store (service w) !! path with
      | None => MkWorld service' (sessions w) (engine w)
      | Some _ =>
          let w := on_session path (Session.session_destroy healthy) w in
          MkWorld service' (delete path (sessions w)) (engine w)
      end
  | Signal_ from s =>
      if decide (from ∈ Engine.providers (engine w)) then
        MkWorld (service w) (map_imap (fun path c => Some (on_update from s path c)) (sessions w))
                (exec (Engine.on_signal no_reaction s) (engine w))
      else w
  | Report st =>
      MkWorld (service w) (sessions w) (exec (Engine.set_wifi_and_cell_id_reporting_state no_reaction st) (engine w))
  end.

Definition serve (es : list Event) : World S -> World S := fold_left (fun w e => step e w) es.

(** The daemon starts with a new engine and no session. *)
Definition initial (e : Engine.Engine S) : World S := MkWorld Sessions.initial_service ∅ e.

(** * The specification *)

(** What a session wants, and the providers it was made over. *)
Definition wants (k : Kind) (s : Session.Session) : bool :=
  match Session.status_of k (Session.statuses s) with
  | Session.enabled => true | Session.disabled => false end.
Definition uses (a : address) (c : Client) : bool := bool_decide (a ∈ Fusion.providers (fusion c)).
Definition wanting (a : address) (k : Kind) (m : gmap string Client) : gmap string Client :=
  filter (fun p => uses a p.2 && wants k (session p.2) = true) m.
Definition count (a : address) (k : Kind) (m : gmap string Client) : Z := Z.of_nat (size (wanting a k m)).

(** The status a method asks for, as the code has it. *)
Definition target (m : Session.Method) : Kind * Session.Status :=
  match m with
  | Session.StartPositionUpdates => (Position, Session.enabled)
  | Session.StopPositionUpdates => (Position, Session.disabled)
  | Session.StartVelocityUpdates => (Velocity, Session.enabled)
  | Session.StopVelocityUpdates => (Velocity, Session.disabled)
  | Session.StartHeadingUpdates => (Position, Session.enabled)
  | Session.StopHeadingUpdates => (Heading, Session.disabled)
  end.

(** Applications only start the streams that are [allowed]. *)
Definition only (allowed : Kind -> Prop) (e : Event) : Prop :=
  match e with
  | Invoke _ m => (target m).2 = Session.enabled -> allowed (target m).1
  | _ => True
  end.

(** ** Counting *)

Definition held (k : Kind) (s : Session.Session) : Z := if wants k s then 1 else 0.
Definition held_at (a : address) (k : Kind) (c : Client) : Z := if uses a c then held k (session c) else 0.

Lemma held_bounds k s : 0 <= held k s <= 1.
Proof. unfold held. case_match; lia. Qed.

Lemma held_at_spec a k c : held_at a k c = if uses a c && wants k (session c) then 1 else 0.
Proof. unfold held_at, held. by destruct (uses a c), (wants k (session c)). Qed.

Lemma count_insert a k path c m : count a k (<[path := c]> m) = count a k (delete path m) + held_at a k c.
Proof.
  unfold count, wanting. rewrite held_at_spec, <- insert_delete_eq. destruct (uses a c && wants k (session c)) eqn:Ec.
  - rewrite map_filter_insert_True by done. rewrite map_size_insert_None; [lia|].
    apply map_lookup_filter_None. left. apply lookup_delete_eq.
  - rewrite map_filter_insert_False by (simpl; congruence). rewrite delete_delete_eq. lia.
Qed.

Lemma count_split a k path c m : m !! path = Some c -> count a k m = count a k (delete path m) + held_at a k c.
Proof. intros Hm. rewrite <- count_insert. by rewrite insert_id. Qed.

Lemma count_new a k path c m : m !! path = None -> held k (session c) = 0 -> count a k (<[path := c]> m) = count a k m.
Proof.
  intros Hm Hc. rewrite count_insert, delete_id by done. unfold held_at. rewrite Hc. case_match; lia.
Qed.

(** Counts depend on what sessions want and use only. *)
Lemma count_imap a k f m :
  (forall path c, uses a (f path c) = uses a c /\ wants k (session (f path c)) = wants k (session c)) ->
  count a k (map_imap (fun path c => Some (f path c)) m) = count a k m.
Proof.
  intros Hf. unfold count, wanting. f_equal.
  rewrite <- !size_dom. f_equal. apply set_eq. intros path.
  rewrite !elem_of_dom. unfold is_Some.
  setoid_rewrite map_lookup_filter_Some. rewrite map_lookup_imap. simpl.
  destruct (m !! path) as [c|]; simpl; [|naive_solver].
  destruct (Hf path c) as [E1 E2]. split; intros (x & Hx & Hp); simplify_eq.
  - exists c. split; [done|]. by rewrite <- E1, <- E2.
  - eexists. split; [done|]. by rewrite E1, E2.
Qed.

Lemma count_positive a k m :
  0 < count a k m <-> exists path c, m !! path = Some c /\ uses a c = true /\ wants k (session c) = true.
Proof.
  unfold count. split.
  - intros H. destruct (decide (wanting a k m = ∅)) as [E|N].
    + rewrite E, map_size_empty in H. lia.
    + apply map_choose in N as (path & c & Hl). apply map_lookup_filter_Some in Hl as [Hl Hw].
      apply andb_prop in Hw. by exists path, c.
  - intros (path & c & Hl & Hu & Hw).
    assert (wanting a k m <> ∅) as N.
    { intros E. assert (wanting a k m !! path = Some c) as L.
      { apply map_lookup_filter_Some. split; [done|]. simpl. by rewrite Hu, Hw. }
      by rewrite E, lookup_empty in L. }
    apply map_size_non_empty_iff in N. lia.
Qed.

Lemma count_bound a k m : 0 <= count a k m <= Z.of_nat (size m).
Proof.
  unfold count, wanting. split; [lia|]. apply Nat2Z.inj_le, map_subseteq_size, map_filter_subseteq.
Qed.

(** ** What a session does *)

Lemma exec_handle m text s : exec (Session.handle send m text) s = exec m s.
Proof.
  unfold Session.handle, exec, try_catch. unfold_m. destruct (m s) as [[[]|e] s']; simpl.
  - destruct (send Session.MethodReturn) as [e|]; [|done]. by destruct (is_std_exception e).
  - destruct (is_runtime_error e); [|done]. simpl. destruct (send _) as [e'|]; [|done].
    by destruct (is_std_exception e').
Qed.

(** A method changes at most one status, with the call that goes with it. *)
Lemma method_effect m s :
  Session.consistent s ->
  let (k, x) := target m in
  let s' := exec (Session.receive healthy invoke send (Session.Invoke m)) s in
  (s' = s /\ Session.status_of k (Session.statuses s) = x) \/
  (s' = Session.changed k x s /\ Session.status_of k (Session.statuses s) <> x).
Proof.
  intros Hc.
  assert (forall k x text,
    let s' := exec (Session.handle send (Session.set_updates_status healthy k x) text;; skip) s in
    (s' = s /\ Session.status_of k (Session.statuses s) = x) \/
    (s' = Session.changed k x s /\ Session.status_of k (Session.statuses s) <> x)) as E.
  { intros k x text. cbv zeta.
    assert (forall (n : M Session.Session (option Session.Reply)), exec (n;; skip) s = exec n s) as ->.
    { intros n. unfold exec. unfold_m. by destruct (n s) as [[] ?]. }
    rewrite exec_handle. destruct (decide (Session.status_of k (Session.statuses s) = x)) as [Ex|Nx].
    - left. split; [|done]. unfold exec, Session.set_updates_status. rewrite assign_same; [done|].
      simpl. rewrite Ex. apply neqb_refl.
    - right. split; [|done]. unfold exec. by rewrite Session.set_updates_status_effect. }
  destruct m; apply E.
Qed.

Lemma deliver_effect sg s :
  let s' := exec (Session.receive healthy invoke send (Session.Deliver sg)) s in
  Session.statuses s' = Session.statuses s /\ Session.counters s' = Session.counters s /\
  Session.calls s' = Session.calls s.
Proof.
  set (P s' := Session.statuses s' = Session.statuses s /\ Session.counters s' = Session.counters s /\
                Session.calls s' = Session.calls s).
  assert (preserves P (Session.on_provider_signal invoke sg)) as H by (by apply Session.preserves_provider_signal).
  by apply (H s).
Qed.

Lemma wants_spec k s : wants k s = bool_decide (Session.status_of k (Session.statuses s) = Session.enabled).
Proof. unfold wants. by destruct (Session.status_of k _). Qed.

(** The calls of the destructor. *)
Definition releases (s : Session.Session) : list Call :=
  (if wants Position s then [Stop Position] else []) ++
  (if wants Heading s then [Stop Heading] else []) ++
  (if wants Velocity s then [Stop Velocity] else []).

Lemma destroy_calls s :
  Session.consistent s -> new_calls s (exec (Session.session_destroy healthy) s) = releases s.
Proof.
  intros Hc. unfold exec. rewrite Session.destroy_effect by done. cbn [snd]. unfold new_calls.
  rewrite !Session.release_calls, !Session.release_statuses, <- !app_assoc, drop_app_length.
  unfold releases. rewrite !wants_spec.
  repeat case_decide; repeat (rewrite bool_decide_true by done || rewrite bool_decide_false by done); done.
Qed.

(** ** The invariant *)
Section Invariant.

(** A request stores at most one session, at the next path. *)
Lemma handle_store r w :
  let path := Sessions.object_path (Sessions.index w) in
  let w' := exec (handle r) w in
  Sessions.session_store w' = Sessions.session_store w \/
  Sessions.session_store w !! path = None /\
  exists app, Sessions.session_store w' = <[path := app]> (Sessions.session_store w).
Proof.
  cbv zeta. unfold Sessions.handle_create_session_for_criteria, Sessions.make_session. unfold_m.
  destruct (Sessions.criteria r) as [[]|e]; [|destruct (is_std_exception e); by left].
  destruct (Sessions.resolve_credentials _ _ _ _) as [c|e]; [|destruct (is_std_exception e); by left].
  case_bool; simpl; [by left|].
  destruct (construct_session _) as [[]|e]; simpl; [|destruct (is_std_exception e); by left].
  unfold Sessions.add_to_session_store_for_path. simpl.
  destruct (Sessions.session_store w !! _) eqn:Hf; simpl; [by left|]. right. split; [done|]. by eexists.
Qed.

Variables (allowed : Kind -> Prop) (I : (address -> Z) -> (address -> Kind -> Z) -> Engine.Engine S -> Prop).
Hypothesis contract : Contract requirements no_reaction allowed I.

Record made_well (ps : list address) (c : Client) : Prop := {
  made_session : Session.consistent (session c);
  made_bag : NoDup (Fusion.providers (fusion c));
  made_over : forall a, a ∈ Fusion.providers (fusion c) -> a ∈ ps;
  made_counters : forall k, counter_of k (fusion_counters c) = held k (session c);
  made_only : forall k, held k (session c) <> 0 -> allowed k
}.

(** [n] events have happened. *)
Record sound (n : Z) (w : World S) : Prop := {
  sound_paths : dom (sessions w) = dom (Sessions.session_store (service w));
  sound_sessions : forall path c, sessions w !! path = Some c -> made_well (Engine.providers (engine w)) c;
  sound_engine : I (fun _ => n) (fun a k => count a k (sessions w)) (engine w)
}.

Lemma sound_more n n' w : n <= n' -> sound n w -> sound n' w.
Proof.
  intros Hn [H1 H2 H3]. split; try done. by eapply (contract_ext _ _ _ _ contract); [..|exact H3].
Qed.

(** The calls of one session, on its own counters and on the engine. *)
Lemma calls_reach n w path c cs :
  sound n w -> n + all_starts cs <= INT_MAX -> sessions w !! path = Some c ->
  Forall (fun x => allowed (stream x)) cs ->
  (forall k j, 0 <= held k (session c) + observers k (take j cs) <= 1) ->
  let r := exec (perform requirements (Fusion.providers (fusion c)) cs) (MkReach (fusion_counters c) (engine w)) in
  (forall k, counter_of k (own r) = held k (session c) + observers k cs) /\
  Engine.providers (reached r) = Engine.providers (engine w) /\
  I (fun _ => n + all_starts cs)
    (fun a k => count a k (delete path (sessions w)) +
                if uses a c then held k (session c) + observers k cs else 0) (reached r).
Proof.
  intros H Hn Hs Hk Hb. destruct (sound_sessions _ _ H _ _ Hs) as [Hc Hbag Hover Hcs _].
  destruct (perform_effect requirements allowed I contract (fun _ => n) (fun a k => count a k (sessions w))
    (Fusion.providers (fusion c)) cs (MkReach (fusion_counters c) (engine w))) as (Ho & Hr & Hp); try done; [apply H|..].
  - intros a k j Ha. specialize (Hb k j). rewrite (count_split a k path c) by done. unfold held_at, uses.
    rewrite bool_decide_true by done. pose proof (count_bound a k (delete path (sessions w))). lia.
  - intros k j. simpl. rewrite Hcs. apply Hb.
  - cbv zeta. split_and!; [intros k; rewrite Ho; simpl; by rewrite Hcs|exact Hp|].
    eapply (contract_ext _ _ _ _ contract); [| |exact Hr].
    + intros a. cbv beta. pose proof (all_starts_nonnegative cs). case_decide; lia.
    + intros a k. cbv beta. rewrite (count_split a k path c) by done. unfold held_at, uses.
      case_decide as Ha; [rewrite bool_decide_true by done; lia|rewrite bool_decide_false by done; lia].
Qed.

Lemma held_changed k x s j :
  held j (Session.changed k x s) =
  if decide (j = k) then match x with Session.enabled => 1 | Session.disabled => 0 end else held j s.
Proof.
  unfold held, wants, Session.changed. simpl. case_decide as E.
  - subst. rewrite Session.status_set_eq. by destruct x.
  - by rewrite Session.status_set_ne by congruence.
Qed.

(** Before the call for a change, the session holds the opposite. *)
Lemma held_call k x s j :
  Session.status_of k (Session.statuses s) <> x ->
  held j s = if decide (stream (Session.call_for k x) = j) then match x with Session.enabled => 0 | Session.disabled => 1 end
             else held j s.
Proof.
  intros Hne. destruct (decide _) as [E|E]; [|done]. unfold held, wants.
  assert (k = j) as <- by (by destruct x). by destruct x, (Session.status_of k (Session.statuses s)).
Qed.

(** The calls of a method are the change of what its session holds. *)
Lemma method_calls path m s :
  Session.consistent s -> (forall k, held k s <> 0 -> allowed k) -> only allowed (Invoke path m) ->
  let s' := exec (Session.receive healthy invoke send (Session.Invoke m)) s in
  Session.consistent s' /\ Forall (fun x => allowed (stream x)) (new_calls s s') /\
  all_starts (new_calls s s') <= 1 /\
  (forall k j, 0 <= held k s + observers k (take j (new_calls s s')) <= 1) /\
  (forall k, held k s' = held k s + observers k (new_calls s s')) /\
  (forall k, held k s' <> 0 -> allowed k).
Proof.
  intros Hc Ho Hm. pose proof (method_effect m s Hc) as He. simpl in Hm. destruct (target m) as [i x].
  cbv zeta in *. simpl in Hm. pose proof (fun k => held_bounds k s) as Hb.
  destruct He as [[-> _]|[-> Hne]].
  { unfold new_calls. rewrite drop_all. split_and!; [done|done|simpl; lia| |intros; simpl; lia|done].
    intros k j. rewrite take_nil. simpl. specialize (Hb k). lia. }
  assert (allowed i) as Hi.
  { destruct x; [by apply Hm|]. apply Ho. unfold held, wants. by destruct (Session.status_of i _). }
  assert (forall k, held k (Session.changed i x s) = held k s + observers k [Session.call_for i x]) as Hh.
  { intros k. rewrite held_changed, (held_call i x s k Hne).
    destruct x; simpl; destruct (decide (k = i)), (decide (i = k)); congruence || lia. }
  unfold new_calls. simpl Session.calls. rewrite drop_app_length. split_and!.
  - by apply Session.consistent_changed.
  - constructor; [by destruct x|constructor].
  - by destruct x.
  - intros k [|j]; [specialize (Hb k); simpl; lia|]. cbn [take]. rewrite take_nil, <- Hh. apply held_bounds.
  - exact Hh.
  - intros k. rewrite held_changed. case_decide; [by subst|apply Ho].
Qed.

Lemma releases_calls s :
  (forall k, held k s <> 0 -> allowed k) ->
  Forall (fun x => allowed (stream x)) (releases s) /\ all_starts (releases s) = 0 /\
  (forall k j, 0 <= held k s + observers k (take j (releases s)) <= 1) /\
  (forall k, 0 = held k s + observers k (releases s)).
Proof.
  intros Ho. pose proof (Ho Position) as Hp. pose proof (Ho Heading) as Hh. pose proof (Ho Velocity) as Hv. clear Ho.
  unfold held, releases in *.
  destruct (wants Position s) eqn:Ep, (wants Heading s) eqn:Eh, (wants Velocity s) eqn:Ev;
    (split_and!; [repeat constructor; auto|done|intros k [|[|[|[|j]]]]|intros k]); destruct k; simpl;
    rewrite ?Ep, ?Eh, ?Ev; simpl; lia.
Qed.

(** ** The steps *)

Lemma made_well_over ps ps' c : (forall a, a ∈ ps -> a ∈ ps') -> made_well ps c -> made_well ps' c.
Proof. intros Hd []. split; auto. Qed.

Lemma sound_invoke n w path m :
  sound n w -> n + 1 <= INT_MAX -> only allowed (Invoke path m) -> sound (n + 1) (step (Invoke path m) w).
Proof.
  intros H Hn Hk. simpl. unfold on_session. destruct (sessions w !! path) as [c|] eqn:Hs; [|by apply (sound_more n); [lia|]].
  pose proof (sound_sessions _ _ H _ _ Hs) as Hm.
  destruct (method_calls path m (session c) (made_session _ _ Hm) (made_only _ _ Hm) Hk) as (Hc & Hf & H1 & Hb & He & Hz).
  unfold on_client. simpl. set (s' := exec _ (session c)) in *.
  destruct (calls_reach n w path c (new_calls (session c) s') H ltac:(lia) Hs Hf Hb) as (Ho & Hd & Hp).
  split; cbn [sessions service engine fst snd].
  - rewrite dom_insert_lookup_L by eauto. apply H.
  - rewrite Hd. intros q t Hl. apply lookup_insert_Some in Hl as [[_ <-]|[_ Hl]].
    + destruct Hm as [_ Hbag Hover _ _]. split; cbn [session fusion fusion_counters]; try done.
      intros k. by rewrite Ho, He.
    + by eapply sound_sessions.
  - eapply (contract_ext _ _ _ _ contract); [| |by apply Hp].
    + intros a. cbv beta. lia.
    + intros a k. cbv beta. rewrite count_insert. unfold held_at. cbn [session uses fusion]. by rewrite He.
Qed.

Lemma store_removal path v :
  Sessions.session_store (exec (Sessions.remove_from_session_store_for_path path) v) =
  delete path (Sessions.session_store v).
Proof.
  unfold Sessions.remove_from_session_store_for_path. unfold_m.
  destruct (Sessions.session_store v !! path) eqn:E; [done|]. simpl. by rewrite delete_id.
Qed.

Lemma sound_vanish n w path : sound n w -> n <= INT_MAX -> sound n (step (Vanish path) w).
Proof.
  intros H Hn. simpl. unfold on_session. destruct (Sessions.session_store (service w) !! path) as [app|] eqn:Hp.
  - assert (is_Some (sessions w !! path)) as [c Hs].
    { apply elem_of_dom. rewrite (sound_paths _ _ H). by apply elem_of_dom_2 in Hp. }
    pose proof (sound_sessions _ _ H _ _ Hs) as Hm.
    destruct (releases_calls (session c) (made_only _ _ Hm)) as (Hf & H0 & Hb & He).
    rewrite Hs. unfold on_client. rewrite destroy_calls by apply Hm.
    destruct (calls_reach n w path c (releases (session c)) H ltac:(lia) Hs Hf Hb) as (_ & Hd & Hq).
    split; cbn [sessions service engine fst snd]; rewrite ?delete_insert_eq.
    + rewrite store_removal, !dom_delete_L. by rewrite (sound_paths _ _ H).
    + rewrite Hd. intros q t Hl. apply lookup_delete_Some in Hl as [_ Hl]. by eapply sound_sessions.
    + eapply (contract_ext _ _ _ _ contract); [| |by apply Hq].
      * intros a. cbv beta. lia.
      * intros a k. cbv beta. rewrite <- He. case_match; lia.
  - split; cbn [sessions service engine]; try apply H. rewrite store_removal, delete_id by done. apply H.
Qed.

(** Updates change what sessions show, not what they want, use or hold. *)
Lemma update_effect from sg path c :
  let c' := on_update from sg path c in
  Session.statuses (session c') = Session.statuses (session c) /\
  Session.counters (session c') = Session.counters (session c) /\
  Session.calls (session c') = Session.calls (session c) /\
  Fusion.providers (fusion c') = Fusion.providers (fusion c) /\ fusion_counters c' = fusion_counters c.
Proof.
  unfold on_update. destruct (Fusion.fusion_on_update _ _ _ _) as [out f] eqn:E. cbn [session fusion fusion_counters].
  assert (Fusion.providers f = Fusion.providers (fusion c)) as ->.
  { revert E. unfold Fusion.fusion_on_update. case_match; [by intros [= _ <-]|].
    destruct sg; repeat case_match; by intros [= _ <-]. }
  assert (forall l s, let s' := Session.live healthy invoke send (map Session.Deliver l) s in
    Session.statuses s' = Session.statuses s /\ Session.counters s' = Session.counters s /\
    Session.calls s' = Session.calls s) as Hl.
  { induction l as [|x l IH]; intros s; [done|]. cbn [map]. unfold Session.live. simpl fold_left.
    destruct (deliver_effect x s) as (E1 & E2 & E3). destruct (IH (exec (Session.on_provider_signal invoke x) s)) as (F1 & F2 & F3).
    unfold Session.live in F1, F2, F3. rewrite F1, F2, F3. done. }
  destruct (Hl match out with
               | Ok l => flat_map (Proxy.proxy_forward (selection c) (fusion_address path)) l
               | Throw _ => [] end (session c)) as (H1 & H2 & H3). by split_and!.
Qed.

Lemma dom_imap_all (f : string -> Client -> Client) (m : gmap string Client) :
  dom (map_imap (fun path c => Some (f path c)) m) = dom m.
Proof.
  apply set_eq. intros path. rewrite !elem_of_dom, map_lookup_imap.
  destruct (m !! path); simpl; split; intros [? E]; by eexists || done.
Qed.

Lemma engine_signal_providers s e : Engine.providers (exec (Engine.on_signal (S := S) no_reaction s) e) = Engine.providers e.
Proof.
  set (P (v : Engine.Engine S) := Engine.providers v = Engine.providers e).
  assert (preserves P (Engine.on_signal (S := S) no_reaction s)) as H; [|by apply (H e)].
  assert (forall ev, preserves P (Engine.perform (S := S) no_reaction ev)) as Hp by (by intros ev v).
  apply preserves_for_each. intros x _. destruct x as [u|u|u|u]; [|apply preserves_skip|apply preserves_skip|].
  - apply preserves_bind; [apply preserves_gets|]. intros q. apply preserves_bind; [by apply preserves_modify|]. intros _.
    apply preserves_assign; [by intros l v|]. intros l. apply preserves_bind; [apply preserves_gets|]. intros ws.
    apply preserves_for_each. intros a _. destruct l; [apply Hp|apply preserves_skip].
  - apply preserves_bind; [apply preserves_read|]. intros m. apply preserves_write. by intros l v.
Qed.

Lemma engine_wifi_providers st e :
  Engine.providers (exec (Engine.set_wifi_and_cell_id_reporting_state (S := S) no_reaction st) e) = Engine.providers e.
Proof.
  set (P (v : Engine.Engine S) := Engine.providers v = Engine.providers e).
  assert (preserves P (Engine.set_wifi_and_cell_id_reporting_state (S := S) no_reaction st)) as H; [|by apply (H e)].
  apply preserves_assign; [by intros l v|]. intros l. apply preserves_bind; [by intros v|]. intros _.
  apply preserves_bind; [apply preserves_gets|]. intros ws. apply preserves_for_each. intros a _. by intros v.
Qed.

Lemma sound_signal n w from sg : sound n w -> sound n (step (Signal_ from sg) w).
Proof.
  intros H. simpl. case_decide; [|done]. split; cbn [sessions service engine].
  - by rewrite dom_imap_all, (sound_paths _ _ H).
  - rewrite engine_signal_providers. intros path c' Hl. rewrite map_lookup_imap in Hl.
    destruct (sessions w !! path) as [c|] eqn:Hs; [|done].
    injection Hl as <-. destruct (sound_sessions _ _ H _ _ Hs) as [H1 H2 H3 H4 H5].
    destruct (update_effect from sg path c) as (E1 & E2 & E3 & E4 & E5).
    assert (forall k, held k (session (on_update from sg path c)) = held k (session c)) as Eh
      by (intros k; unfold held, wants; by rewrite E1).
    split; rewrite ?E4, ?E5; try done.
    + intros k. specialize (H1 k). by rewrite E1, E2, E3.
    + intros k. by rewrite H4, Eh.
    + intros k. rewrite Eh. auto.
  - apply (unchanged_signal no_reaction ltac:(done) (I (fun _ => n) _)).
    { intros v v'. apply (contract_unchanged _ _ _ _ contract). }
    eapply (contract_ext _ _ _ _ contract); [| |apply H]; [done|].
    intros a k. symmetry. apply count_imap.
    intros path c. destruct (update_effect from sg path c) as (E1 & _ & _ & E4 & _). unfold uses, wants.
    by rewrite E1, E4.
Qed.

Lemma sound_report n w st : sound n w -> sound n (step (Report st) w).
Proof.
  intros H. split; cbn [step sessions service engine]; try apply H.
  - rewrite engine_wifi_providers. apply H.
  - apply (unchanged_wifi no_reaction ltac:(done) (I (fun _ => n) _)); [|apply H].
    intros v v'. apply (contract_unchanged _ _ _ _ contract).
Qed.

Lemma bag_nodup enumerated : NoDup (Policy.bag_of enumerated).
Proof.
  unfold Policy.bag_of, Policy.std_set.
  assert (forall l : list address, forall s, Sorted.StronglySorted Nat.lt s ->
    Sorted.StronglySorted Nat.lt (fold_left (fun s x => Policy.std_insert Nat.ltb x s) l s)) as G.
  { induction l as [|x l IH]; intros s Hs; [done|]. simpl. apply IH. clear IH.
    induction Hs as [|y s Hs IH Hy]; simpl; [repeat constructor|].
    destruct (Nat.ltb_spec x y); [|destruct (Nat.ltb_spec y x)].
    - constructor; [by constructor|]. constructor; [done|]. eapply Forall_impl; [exact Hy|]. intros z. simpl. lia.
    - constructor; [done|]. apply List.Forall_forall. intros z [->|Hz]%Policy.std_insert_in; [done|].
      rewrite List.Forall_forall in Hy. by apply Hy.
    - by constructor. }
  specialize (G enumerated [] ltac:(constructor)). induction G as [|x s Hs IH Hx]; constructor; [|done].
  rewrite list_elem_of_In. intros Hin. rewrite List.Forall_forall in Hx. specialize (Hx x Hin). lia.
Qed.

Lemma new_client_made_well path ps : made_well ps (create_session_for_criteria path ps).
Proof.
  split; cbn [session fusion fusion_counters create_session_for_criteria].
  - apply Session.initial_consistent.
  - apply bag_nodup.
  - intros a Ha. by apply list_elem_of_In, (proj1 (Policy.bag_of_in ps a)), list_elem_of_In.
  - by intros [].
  - by intros [].
Qed.

Lemma sound_request n w r : sound n w -> sound n (step (Request r) w).
Proof.
  intros H. simpl. destruct (handle_store r (service w)) as [E|(Hf & app & E)].
  - rewrite E.
    replace (match Sessions.session_store (service w) !! _, Sessions.session_store (service w) !! _ with
             | None, Some _ => _ | _, _ => _ end) with (sessions w) by (by case_match).
    split; cbn [sessions service engine]; rewrite ?E; apply H.
  - rewrite E, Hf, lookup_insert_eq. set (path := Sessions.object_path _) in *.
    assert (sessions w !! path = None) as Hs.
    { apply not_elem_of_dom. rewrite (sound_paths _ _ H). by apply not_elem_of_dom. }
    split; cbn [sessions service engine].
    + rewrite E, !dom_insert_L. by rewrite (sound_paths _ _ H).
    + intros q t Hl. apply lookup_insert_Some in Hl as [[_ <-]|[_ Hl]]; [apply new_client_made_well|].
      by eapply sound_sessions.
    + eapply (contract_ext _ _ _ _ contract); [| |apply H]; [done|].
      intros a k. symmetry. apply count_new; [done|by destruct k].
Qed.

(** A provider that comes later is used by no session that is there already. *)
Lemma sound_add n w a : sound n w -> sound n (step (Add a) w).
Proof.
  intros H. cbn [step]. case_decide as Ha; [done|]. unfold exec. rewrite Engine.add_provider_effect.
  split; cbn [sessions service engine fst snd]; try apply H.
  - intros path c Hs. eapply made_well_over; [|by eapply sound_sessions]. intros b Hb.
    apply list_elem_of_In, Engine.in_providers_added. right. by apply list_elem_of_In.
  - by apply (contract_added _ _ _ _ contract); [apply H|].
Qed.

Lemma serve_sound es w n :
  sound n w -> Forall (only allowed) es -> n + Z.of_nat (length es) <= INT_MAX ->
  sound (n + Z.of_nat (length es)) (serve es w).
Proof.
  intros H Ho. revert w n H. induction Ho as [|e es He Ho IH]; intros w n H Hn; simpl in *; [by rewrite Z.add_0_r|].
  replace (n + _) with (n + 1 + Z.of_nat (length es)) by lia. apply IH; [|lia].
  destruct e; [| |by apply sound_invoke; [|lia|]|..]; apply (sound_more n); try lia;
    [by apply sound_add|by apply sound_request|apply sound_vanish; [done|lia]|by apply sound_signal|by apply sound_report].
Qed.

Lemma initial_sound e : I (fun _ => 0) (fun _ _ => 0) e -> sound 0 (initial e).
Proof.
  intros Hi.
  split; cbn [initial sessions service engine]; [by rewrite !dom_empty_L|intros ?? E; by rewrite lookup_empty in E|].
  eapply (contract_ext _ _ _ _ contract); [| |exact Hi]; [done|]. intros a k. unfold count, wanting.
  by rewrite map_filter_empty, map_size_empty.
Qed.
End Invariant.

(** * Property *)

(** A session at [path] over the provider [a] in which the stream [k] is enabled. *)
Definition enabled_over (a : address) (k : Kind) (path : string) (c : Client) (w : World S) : Prop :=
  sessions w !! path = Some c /\ a ∈ Fusion.providers (fusion c) /\
  Session.status_of k (Session.statuses (session c)) = Session.enabled.

(** Whether [a] runs the stream [k], or [None] if it was started or stopped twice in a row. *)
Definition runs (a : address) (k : Kind) (w : World S) : option bool :=
  Session.after_calls k false (calls_of a (Engine.events (engine w))).

Lemma paths_in_store allowed I n w :
  sound allowed I n w ->
  forall path, is_Some (sessions w !! path) <-> is_Some (Sessions.session_store (service w) !! path).
Proof. intros H path. rewrite <- !elem_of_dom. by rewrite (sound_paths _ _ _ _ H). Qed.

Lemma count_enabled a k w : 0 < count a k (sessions w) <-> exists path c, enabled_over a k path c w.
Proof.
  rewrite count_positive. apply exist_proper. intros path. apply exist_proper. intros c.
  unfold uses, enabled_over. by rewrite wants_spec, !bool_decide_eq_true.
Qed.

(** C6: nobody waits in vain.  Over any history of a new engine, whatever providers it is
    given, whatever applications ask for sessions, call their methods in any order for any
    streams and leave the bus, whatever the providers deliver and the user allows: the
    sessions are those in the store of the skeleton, no provider is started or stopped twice
    in a row, and every provider runs every stream that is enabled in a session over it,
    although the engine resets the counts of its wrappers on the way. *)
Theorem wanted_providers_run (selection : option address) (policy : TimeBased.TimeBasedUpdatePolicy)
    (store_ : option S) (e : Engine.Engine S) (es : list Event) :
  Engine.construct selection policy ∅ store_ = Ok e -> Engine.engine_state (Engine.configuration e) <> Enums.off ->
  Z.of_nat (length es) <= INT_MAX ->
  let w := serve es (initial e) in
  (forall path, is_Some (sessions w !! path) <-> is_Some (Sessions.session_store (service w) !! path)) /\
  forall a k, exists running, runs a k w = Some running /\
    ((exists path c, enabled_over a k path c w) -> running = true).
Proof.
  intros He Hoff Hes w.
  assert (Forall (only (fun _ => True)) es) as Ho by (apply List.Forall_forall; by intros []).
  pose proof (serve_sound _ _ (any_streams requirements no_reaction ltac:(done)) es (initial e) 0
    (initial_sound _ _ (any_streams requirements no_reaction ltac:(done)) e
      (tracked_constructed selection policy ∅ store_ e lookup_empty He Hoff)) Ho Hes) as H.
  fold w in H. clearbody w. split; [by eapply paths_in_store|]. intros a k.
  pose proof (sound_engine _ _ _ _ H) as Ht. eexists. split; [apply (tracked_calls _ _ _ Ht)|].
  intros Hk%count_enabled. apply Z.ltb_lt. by eapply covered_runs; [apply (tracked_nodes _ _ _ Ht)|].
Qed.

(** C7: the providers run exactly for the applications.  Over any such history in which all
    applications ask for the same stream: each provider's tracking wrapper counts the
    sessions that were made over it and want the stream; the provider runs exactly while
    such a session is in the store; the engine is active while one runs; and when the last
    application has left, nothing runs.  [mixed_streams] below is a history with two streams
    of which none of this is true. *)
Theorem providers_serve_their_sessions (k : Kind) (selection : option address)
    (policy : TimeBased.TimeBasedUpdatePolicy) (store_ : option S) (e : Engine.Engine S) (es : list Event) :
  Engine.construct selection policy ∅ store_ = Ok e -> Engine.engine_state (Engine.configuration e) <> Enums.off ->
  Forall (only (fun j => j = k)) es -> Z.of_nat (length es) <= INT_MAX ->
  let w := serve es (initial e) in
  (forall a, counter_of k (Engine.own (Engine.node (engine w) a)) = count a k (sessions w)) /\
  (forall a, exists running, runs a k w = Some running /\ (running = true <-> exists path c, enabled_over a k path c w)) /\
  (forall a j, j <> k -> runs a j w = Some false) /\
  (forall a path c, enabled_over a k path c w -> Engine.engine_state (Engine.configuration (engine w)) = Enums.active) /\
  (Sessions.session_store (service w) = ∅ -> forall a j, runs a j w = Some false).
Proof.
  intros He Hoff Ho Hes w.
  destruct (serving_constructed k selection policy ∅ store_ e lookup_empty He Hoff) as [Hz _].
  pose proof (serve_sound _ _ (one_stream requirements no_reaction ltac:(done) k) es (initial e) 0
    (initial_sound _ _ (one_stream requirements no_reaction ltac:(done) k) e
      (conj Hz (conj (fun _ _ _ => eq_refl) (fun _ => Z.le_refl 0)))) Ho Hes) as H.
  fold w in H. clearbody w. destruct (sound_engine _ _ _ _ H) as (Hs & _). split_and!.
  - intros a. rewrite (serving_nodes _ _ _ Hs). apply counter_set_eq.
  - intros a. eexists. split; [apply (serving_calls _ _ _ Hs)|]. rewrite bool_decide_true by done. cbn [andb].
    by rewrite Z.ltb_lt, count_enabled.
  - intros a j Hj. unfold runs. by rewrite (serving_calls _ _ _ Hs), bool_decide_false by done.
  - intros a path c Ha. apply (serving_state _ _ _ Hs), (serving_active requirements k _ _ Hs). exists a.
    assert (0 < count a k (sessions w)) as Hp by (apply count_enabled; eauto).
    split; [|exact Hp]. destruct (decide (a ∈ Engine.providers (engine w))) as [|Hn]; [done|].
    pose proof (serving_outside _ _ _ Hs a Hn). lia.
  - intros Hz' a j. assert (sessions w = ∅) as E.
    { apply map_eq. intros path. rewrite lookup_empty. apply eq_None_not_Some.
      rewrite (paths_in_store _ _ _ _ H), Hz', lookup_empty. apply is_Some_None. }
    unfold runs. rewrite (serving_calls _ _ _ Hs), E. unfold count, wanting.
    rewrite map_filter_empty, map_size_empty. by rewrite andb_false_r.
Qed.
End Applications.

(** * Two applications and two providers *)
Import Engine.Sample.
Definition no_update {T} (x : T) : Update T := MkUpdate x 0.
Definition new_engine : Engine.Engine store :=
  match Engine.construct (Some 0%nat) policy ∅ (Some (Ptree.MkPtree ∅ ∅)) with Ok e => e | Throw _ => idle end.
Definition sample (es : list Event) : World store :=
  serve needs_nothing Sessions.one_pid Sessions.one_uid Sessions.one_profile Sessions.always_granting Sessions.constructs
    Session.reachable_client Session.deliver_reply (Session.sample_position 0)
    (no_update (S754_zero false)) (no_update (S754_zero false)) String.length es (initial new_engine).
Definition history : list Event :=
  [Add 1%nat; Request (Sessions.MkRequest ":1.1" (Ok tt)); Add 2%nat; Request (Sessions.MkRequest ":1.2" (Ok tt));
   Invoke "/sessions/0" Session.StartPositionUpdates; Invoke "/sessions/1" Session.StartPositionUpdates;
   Signal_ 2%nat (SigPosition (Session.sample_position 7)); Vanish "/sessions/1"].

(** The second provider served the second application only, and stopped with it. *)
Lemma providers_serve_their_sessions_witness :
  let w := sample history in
  calls_of 1%nat (Engine.events (engine w)) = [Start Position] /\
  calls_of 2%nat (Engine.events (engine w)) = [Start Position; Stop Position] /\
  counter_of Position (Engine.own (Engine.node (engine w) 1%nat)) = count 1%nat Position (sessions w).
Proof.
  cbv zeta. split; [vm_compute; reflexivity|]. split; [vm_compute; reflexivity|].
  refine (proj1 (providers_serve_their_sessions (HL := Engine.sample_laws) needs_nothing Sessions.one_pid Sessions.one_uid
    Sessions.one_profile Sessions.always_granting Sessions.constructs Session.reachable_client
    Session.deliver_reply (Session.sample_position 0) (no_update (S754_zero false))
    (no_update (S754_zero false)) String.length Position (Some 0%nat) policy (Some (Ptree.MkPtree ∅ ∅)) new_engine
    history _ _ _ _) 1%nat).
  - vm_compute. reflexivity.
  - vm_compute. discriminate.
  - repeat constructor; simpl; done.
  - vm_compute. discriminate.
Defined.

(** ** Two streams *)

(** One application takes positions, another velocities.  When the second one leaves, the
    wrapper's state becomes [enabled] although positions are still delivered, the engine
    becomes [on], and that enables the provider again: its counts are reset.  The stop of
    the first application is then not passed on, its count becomes negative, and the
    provider delivers positions when nobody is left. *)
Definition mixed_streams : list Event :=
  [Add 1%nat; Request (Sessions.MkRequest ":1.1" (Ok tt)); Request (Sessions.MkRequest ":1.2" (Ok tt));
   Invoke "/sessions/0" Session.StartPositionUpdates; Invoke "/sessions/1" Session.StartVelocityUpdates;
   Vanish "/sessions/1"; Vanish "/sessions/0"].

Lemma mixed_streams_outlive_their_sessions :
  let w := sample mixed_streams in
  Sessions.session_store (service w) = ∅ /\ sessions w = ∅ /\
  calls_of 1%nat (Engine.events (engine w)) = [Start Position; Start Velocity; Stop Velocity] /\
  Session.after_calls Position false (calls_of 1%nat (Engine.events (engine w))) = Some true /\
  Engine.own (Engine.node (engine w) 1%nat) = MkCounters our_magic_disabling_value 0 0 /\
  Engine.impl (Engine.node (engine w) 1%nat) = MkCounters 1 0 0.
Proof. cbv zeta. split_and!; vm_compute; reflexivity. Qed.

(** Before that, when the application that takes positions is alone, the engine and the
    wrapper count nobody, but the provider runs. *)
Lemma wanted_providers_run_witness :
  let w := sample (take 6 mixed_streams) in
  Engine.own (Engine.node (engine w) 1%nat) = initial_counters /\
  Engine.engine_state (Engine.configuration (engine w)) = Enums.on /\ runs 1%nat Position w = Some true.
Proof.
  cbv zeta. split; [vm_compute; reflexivity|]. split; [vm_compute; reflexivity|].
  assert (exists running, runs 1%nat Position (sample (take 6 mixed_streams)) = Some running /\
    ((exists path c, enabled_over 1%nat Position path c (sample (take 6 mixed_streams))) -> running = true))
    as (running & -> & Hr).
  { refine (proj2 (wanted_providers_run (HL := Engine.sample_laws) needs_nothing Sessions.one_pid Sessions.one_uid
      Sessions.one_profile Sessions.always_granting Sessions.constructs Session.reachable_client
      Session.deliver_reply (Session.sample_position 0) (no_update (S754_zero false))
      (no_update (S754_zero false)) String.length (Some 0%nat) policy (Some (Ptree.MkPtree ∅ ∅)) new_engine
      (take 6 mixed_streams) _ _ _) 1%nat Position); [vm_compute; reflexivity|vm_compute; discriminate..]. }
  f_equal. apply Hr. exists "/sessions/0"%string.
  destruct (sessions (sample (take 6 mixed_streams)) !! "/sessions/0"%string) as [c|] eqn:E;
    [|vm_compute in E; discriminate E].
  exists c. split; [exact E|]. vm_compute in E. injection E as <-. split; [|reflexivity].
  apply list_elem_of_In. vm_compute. by left.
Defined.

(** An application that comes now is not served: its request for positions is ignored. *)
Lemma mixed_streams_leave_a_provider_disabled :
  let w := sample (mixed_streams ++
    [Request (Sessions.MkRequest ":1.3" (Ok tt)); Invoke "/sessions/2" Session.StartPositionUpdates;
     Vanish "/sessions/2"]) in
  Sessions.session_store (service w) = ∅ /\
  Engine.own (Engine.node (engine w) 1%nat) = MkCounters our_magic_disabling_value 0 0 /\
  calls_of 1%nat (Engine.events (engine w)) = [Start Position; Start Velocity; Stop Velocity].
Proof. cbv zeta. split_and!; vm_compute; reflexivity. Qed.

End Applications.
