(* ===== verification/RadioCell.v ===== *)
(** Radio cells: [connectivity/bounded_integer.h], [connectivity/radio_cell.h/.cpp] and
    the cell of a modem, [connectivity/cached_radio_cell.h/.cpp], with the memory its
    union of cell details shares and the heuristics that invalidate it. *)
From Stdlib Require Import ZArith Lia SpecFloat.
From stdpp Require Import base gmap strings list.
From S2P Require Import Prelude Floats Property.
Local Open Scope Z_scope.
#[local] Set Warnings "-clear-no-such-hyp".

(** * [BoundedInteger<Tag, min, max, inv>] *)
Module Bounded.

Record Bounds : Type := MkBounds { minimum : Z; maximum : Z; invalid : Z }.

Definition range (b : Bounds) : Z := maximum b - minimum b.
(** The default constructor. *)
Definition unset (b : Bounds) : Z := minimum b - 1.
Definition is_valid (b : Bounds) (value : Z) : bool := (minimum b <=? value) && (value <=? maximum b).
(** The constructor from a raw value and [set()]: they throw what is out of range. *)
Definition of_value (b : Bounds) (value : Z) : res Z :=
  if (value <? minimum b) || (maximum b <? value)
  then Throw (runtime_error "is not in [min, max]") else Ok value.
Definition reset (b : Bounds) : Z := invalid b.

(** [from_percent]: [None] stands for a cast whose result the language leaves undefined. *)
Definition from_percent (b : Bounds) (percent : float) : option (res Z) :=
  let percent := std_min (f_of_Z 1) (std_max (f_of_Z 0) percent) in
  match to_int (fadd (f_of_Z (minimum b)) (fmul percent (f_of_Z (range b)))) with
  | Some v => Some (of_value b v)
  | None => None
  end.

(** The ranges of [RadioCell::Gsm], [Umts] and [Lte]. *)
Definition mcc : Bounds := MkBounds 0 999 INT_MAX.
Definition mnc : Bounds := MkBounds 0 999 INT_MAX.
Definition lac : Bounds := MkBounds 0 65535 INT_MAX.
Definition gsm_id : Bounds := MkBounds 0 65535 INT_MAX.
Definition wide_id : Bounds := MkBounds 0 268435455 INT_MAX.
Definition physical : Bounds := MkBounds 0 503 INT_MAX.
Definition asu : Bounds := MkBounds 0 31 99.

Lemma of_value_spec b z :
  of_value b z = if is_valid b z then Ok z else Throw (runtime_error "is not in [min, max]").
Proof.
  unfold of_value, is_valid. destruct (Z.leb_spec (minimum b) z), (Z.leb_spec z (maximum b));
    destruct (Z.ltb_spec z (minimum b)), (Z.ltb_spec (maximum b) z); simpl; try done; lia.
Qed.

(** The integers of a C++ type of [n] values from [lo]. *)
Definition interval (lo : Z) (n : nat) : list Z := map (fun i => lo + Z.of_nat i) (seq 0 n).

Lemma forall_interval lo n (P : Z -> bool) z :
  forallb P (interval lo n) = true -> lo <= z < lo + Z.of_nat n -> P z = true.
Proof.
  intros H Hz. rewrite forallb_forall in H. apply H. apply in_map_iff.
  exists (Z.to_nat (z - lo)). split; [lia|]. apply in_seq. lia.
Qed.

End Bounded.

(** * [CachedRadioCell] *)
Module Cached.
Import Bounded.

(** [RadioCell::Type] *)
Inductive Type_ : Set := unknown | gsm | umts | lte.
#[export] Instance Type_eq_dec : EqDecision Type_.
Proof. solve_decision. Defined.

(** The union [Detail]: the integers of [Gsm], [Umts] and [Lte] one after the other, in
    the order of their members, in the same memory. *)
Record Detail : Type := MkDetail { int0 : Z; int1 : Z; int2 : Z; int3 : Z; int4 : Z; int5 : Z }.
#[export] Instance Detail_eq_dec : EqDecision Detail.
Proof. solve_decision. Defined.

(** The members that are set one by one, and the memory each technology has for it. *)
Inductive Member : Set := MCC | MNC | AREA | ID | PID | STRENGTH.
Definition slot (t : Type_) (m : Member) : nat :=
  match m with
  | MCC => 0 | MNC => 1 | AREA => 2 | ID => 3 | PID => 4
  | STRENGTH => match t with lte => 5 | _ => 4 end
  end.
Definition bounds (t : Type_) (m : Member) : Bounds :=
  match m with
  | MCC => mcc | MNC => mnc | AREA => lac
  | ID => match t with gsm => gsm_id | _ => wide_id end
  | PID => physical | STRENGTH => asu
  end.
Definition load (n : nat) (d : Detail) : Z :=
  match n with 0 => int0 d | 1 => int1 d | 2 => int2 d | 3 => int3 d | 4 => int4 d | _ => int5 d end%nat.
Definition store (n : nat) (z : Z) (d : Detail) : Detail :=
  match n with
  | 0 => MkDetail z (int1 d) (int2 d) (int3 d) (int4 d) (int5 d)
  | 1 => MkDetail (int0 d) z (int2 d) (int3 d) (int4 d) (int5 d)
  | 2 => MkDetail (int0 d) (int1 d) z (int3 d) (int4 d) (int5 d)
  | 3 => MkDetail (int0 d) (int1 d) (int2 d) z (int4 d) (int5 d)
  | 4 => MkDetail (int0 d) (int1 d) (int2 d) (int3 d) z (int5 d)
  | _ => MkDetail (int0 d) (int1 d) (int2 d) (int3 d) (int4 d) z
  end%nat.
(** [detail.t.m] *)
Definition member (t : Type_) (m : Member) (d : Detail) : Z := load (slot t m) d.
Definition set_member (t : Type_) (m : Member) (z : Z) (d : Detail) : Detail := store (slot t m) z d.

(** The members of a technology. *)
Definition members (t : Type_) : list Member :=
  match t with
  | unknown => []
  | gsm | umts => [MCC; MNC; AREA; ID; STRENGTH]
  | lte => [MCC; MNC; AREA; ID; PID; STRENGTH]
  end.

(** [operator==] of [Gsm], [Umts] and [Lte] and of two radio cells. *)
Definition details_eq (t : Type_) (l r : Detail) : bool :=
  forallb (fun m => member t m l =? member t m r) (members t).
Definition radio_cell_eq (lt : Type_) (l : Detail) (rt : Type_) (r : Detail) : bool :=
  if bool_decide (lt = rt) then details_eq lt l r else false.

(** [CellChangeHeuristics] and the other members; [changes] counts the emissions of
    [on_changed], [timer] says whether the invalidation timer is running. *)
Record Cell_ : Type := MkCell_ {
  needed : bool;
  valid : bool;
  timer : bool;
  roaming : bool;
  radio_type : Type_;
  detail : Detail;
  changes : nat
}.

Definition set_valid (b : bool) (w : Cell_) : Cell_ :=
  MkCell_ (needed w) b (timer w) (roaming w) (radio_type w) (detail w) (changes w).
Definition set_timer (b : bool) (w : Cell_) : Cell_ :=
  MkCell_ (needed w) (valid w) b (roaming w) (radio_type w) (detail w) (changes w).
Definition set_roaming (b : bool) (w : Cell_) : Cell_ :=
  MkCell_ (needed w) (valid w) (timer w) b (radio_type w) (detail w) (changes w).
Definition set_radio_type (t : Type_) (w : Cell_) : Cell_ :=
  MkCell_ (needed w) (valid w) (timer w) (roaming w) t (detail w) (changes w).
Definition set_detail (d : Detail) (w : Cell_) : Cell_ :=
  MkCell_ (needed w) (valid w) (timer w) (roaming w) (radio_type w) d (changes w).
Definition emit_changed (w : Cell_) : Cell_ :=
  MkCell_ (needed w) (valid w) (timer w) (roaming w) (radio_type w) (detail w) (S (changes w)).

(** [gsm()], [umts()] and [lte()]. *)
Definition details (t : Type_) (w : Cell_) : res Detail :=
  if bool_decide (radio_type w = t) then Ok (detail w)
  else Throw (runtime_error "Bad access to unset network type.").

Definition is_gsm_valid (d : Detail) : bool := forallb (fun m => is_valid (bounds gsm m) (member gsm m d)) (members gsm).
Definition is_umts_valid (d : Detail) : bool := forallb (fun m => is_valid (bounds umts m) (member umts m d)) (members umts).
Definition is_lte_valid (d : Detail) : bool := forallb (fun m => is_valid (bounds lte m) (member lte m d)) (members lte).
Definition is_cell_details_valid (w : Cell_) : bool :=
  match radio_type w with
  | unknown => false
  | gsm => is_gsm_valid (detail w)
  | umts => is_umts_valid (detail w)
  | lte => is_lte_valid (detail w)
  end.

(** [type_lut()] *)
Definition type_lut (technology : string) : option Type_ :=
  if bool_decide (technology = "gsm") then Some gsm
  else if bool_decide (technology = "lte") then Some lte
  else if bool_decide (technology = "umts") then Some umts
  else if bool_decide (technology = "edge") then Some gsm
  else if bool_decide (technology = "hspa") then Some umts
  else if bool_decide (technology = EmptyString) then Some unknown
  else None.

(** [int value{v}; ss >> value]: leading white space is skipped; nothing left leaves
    [v]; no digits give 0; what does not fit is clamped. *)
Fixpoint digits (acc : option Z) (s : string) : option Z :=
  match s with
  | String.String c s' =>
      let n := Z.of_nat (Ascii.nat_of_ascii c) - 48 in
      if (0 <=? n) && (n <=? 9)
      then digits (Some (10 * (match acc with Some a => a | None => 0 end) + n)) s' else acc
  | String.EmptyString => acc
  end.
Fixpoint read_int (v : Z) (s : string) : Z :=
  match s with
  | String.EmptyString => v
  | String.String c s' =>
      let n := Ascii.nat_of_ascii c in
      if (n =? 32)%nat || ((9 <=? n)%nat && (n <=? 13)%nat) then read_int v s'
      else
        let clamp z := Z.max INT_MIN (Z.min INT_MAX z) in
        if (n =? 45)%nat then match digits None s' with Some d => clamp (- d) | None => 0 end
        else if (n =? 43)%nat then match digits None s' with Some d => clamp d | None => 0 end
        else match digits None s with Some d => clamp d | None => 0 end
  end.

(** The status of a network registration. *)
Definition is_registered_or_roaming (status : string) : bool :=
  bool_decide (status = "registered") || bool_decide (status = "roaming").

(** A property change of the network registration; the variant holds the type the
    property has. *)
Inductive Change : Type :=
| TechnologyIs (value : string)
| CellIdIs (value : Z)
| LocationAreaCodeIs (value : Z)
| MobileCountryCodeIs (value : string)
| MobileNetworkCodeIs (value : string)
| StrengthIs (value : Z)
| StatusIs (value : string)
| OtherChange (key : string).

(** Whether the heuristics are applied to cells of other technologies, too. *)
Section Cells.
Variable also_apply_cell_change_heuristics_to_gsm_cells : bool.

Definition execute_cell_change_heuristics_if_appropriate : M Cell_ unit :=
  w ← gets (fun w => w);
  when (needed w && (bool_decide (radio_type w = umts) || also_apply_cell_change_heuristics_to_gsm_cells))
    (modify (set_timer true);;
     modify (fun w => set_valid (is_cell_details_valid w) w)).

(** The invalidation timer fires, unless it was set anew or destroyed. *)
Definition on_timer : M Cell_ unit :=
  t ← gets timer;
  when t (modify (set_timer false);; modify (set_valid false)).

(** The strength in percent of a registration, as a signal strength. *)
Definition signal_strength (percent : Z) : option (res Z) :=
  from_percent asu (fdiv (f_of_Z percent) (f_of_Z 100)).

(** What the network registration answers; [garbage] is the content of the union before
    it is written. *)
Record Registration : Type := MkRegistration {
  status : string; technology : string; location_area_code : Z;
  mobile_country_code : string; mobile_network_code : string; cell_id : Z; strength : Z
}.

Definition query_technology (r : Registration) : Type_ :=
  match type_lut (technology r) with Some t => t | None => unknown end.

(** The member values of a new cell of technology [t]. *)
Definition new_details (t : Type_) (r : Registration) (garbage : Detail) : res Detail :=
  let lac_ := wrap_u 16 (location_area_code r) in
  let mcc_ := read_int 0 (mobile_country_code r) in
  let mnc_ := read_int 0 (mobile_network_code r) in
  let id_ := wrap_s 32 (cell_id r) in
  a ← of_value mcc mcc_;
  b ← of_value mnc mnc_;
  c ← of_value lac lac_;
  d ← of_value (bounds t ID) id_;
  s ← (match signal_strength (wrap_s 8 (strength r)) with Some x => x | None => Ok (unset asu) end);
  Ok (match t with
      | lte => MkDetail a b c d (unset physical) s
      | _ => MkDetail a b c d s (int5 garbage)
      end).

(** [path.find("ril") != npos] on the modem's path, which decides on the heuristics. *)
Definition is_running_on_problematic_modem_firmware (path : string) : bool :=
  match String.index 0 "ril" path with Some _ => true | None => false end.

(** The constructor: it returns early for a modem that is not registered. *)
Definition construct (problematic_firmware : bool) (garbage : Detail) (r : Registration) : res Cell_ :=
  let this := MkCell_ problematic_firmware true false false (query_technology r) garbage 0 in
  if negb (is_registered_or_roaming (status r)) then Ok this
  else if bool_decide (query_technology r = unknown) then Ok this
  else
    d ← new_details (query_technology r) r garbage;
    let this := set_roaming (bool_decide (status r = "roaming")) (set_detail d this) in
    Ok (exec execute_cell_change_heuristics_if_appropriate this).

(** The details after a change of the technology. *)
Definition convert (from to : Type_) (d : Detail) : Detail :=
  match from, to with
  | unknown, _ | _, unknown => d
  | _, _ =>
      if bool_decide (from = to) then d else
      let d := set_member to AREA (member from AREA d) d in
      let d := set_member to MNC (member from MNC d) d in
      let d := set_member to MCC (member from MCC d) d in
      let d := set_member to STRENGTH (reset asu) d in
      set_member to ID (reset (bounds to ID)) d
  end.

Definition emit_if_valid : M Cell_ unit :=
  v ← gets valid; when v (modify emit_changed).

(** [detail.t.m.set(value)] for the current technology. *)
Definition set_in_cell (m : Member) (value : Z) : M Cell_ unit :=
  t ← gets radio_type;
  match t with
  | unknown => skip
  | _ => v ← lift (of_value (bounds t m) value);
         modify (fun w => set_detail (set_member t m v (detail w)) w)
  end.

(** [detail.t.strength = from_percent(value / 100.f)] for the current technology. *)
Definition set_strength (value : Z) : M Cell_ unit :=
  t ← gets radio_type;
  match t with
  | unknown => skip
  | _ => match signal_strength value with
         | Some r => v ← lift r; modify (fun w => set_detail (set_member t STRENGTH v (detail w)) w)
         | None => skip
         end
  end.

(** The details are converted before the type is set. *)
Definition set_technology (t : Type_) : M Cell_ unit :=
  modify (fun w => set_radio_type t (set_detail (convert (radio_type w) t (detail w)) w)).

Definition on_network_registration_property_changed (c : Change) : M Cell_ unit :=
  match c with
  | TechnologyIs value =>
      match type_lut value with
      | None => skip
      | Some unknown => skip
      | Some t =>
          from ← gets radio_type;
          if bool_decide (from = t) then skip
          else set_technology t;;
               emit_if_valid;;
               execute_cell_change_heuristics_if_appropriate
      end
  | CellIdIs value =>
      set_in_cell ID (wrap_s 32 value);; emit_if_valid;;
      execute_cell_change_heuristics_if_appropriate
  | LocationAreaCodeIs value =>
      set_in_cell AREA value;; emit_if_valid;;
      execute_cell_change_heuristics_if_appropriate
  | MobileCountryCodeIs value =>
      set_in_cell MCC (read_int (-1) value);; emit_if_valid;;
      execute_cell_change_heuristics_if_appropriate
  | MobileNetworkCodeIs value =>
      set_in_cell MNC (read_int (-1) value);; emit_if_valid;;
      execute_cell_change_heuristics_if_appropriate
  | StrengthIs value => set_strength value;; emit_if_valid
  | StatusIs value => modify (set_roaming (bool_decide (value = "roaming")))
  | OtherChange _ => skip
  end.
End Cells.

(** * Lemmas *)

(** Every member but the physical id of LTE is in range or marked unknown. *)
Definition well_formed (w : Cell_) : Prop := forall m, In m (members (radio_type w)) -> m <> PID ->
  let b := bounds (radio_type w) m in
  let v := member (radio_type w) m (detail w) in
  is_valid b v = true \/ v = reset b.

Lemma load_store_eq n z d : (n < 6)%nat -> load n (store n z d) = z.
Proof. intros H. do 6 (destruct n as [|n]; [done|]). lia. Qed.
Lemma load_store_ne n k z d : (n < 6)%nat -> (k < 6)%nat -> n <> k -> load k (store n z d) = load k d.
Proof. intros Hn Hk Hne. do 6 (destruct n as [|n]; [do 6 (destruct k as [|k]; [done|]); lia|]). lia. Qed.
Lemma slot_lt t m : (slot t m < 6)%nat.
Proof. destruct m, t; simpl; lia. Qed.
Lemma slot_inj t m m' : In m (members t) -> In m' (members t) -> slot t m = slot t m' -> m = m'.
Proof. destruct t; simpl; intuition; subst; done. Qed.

Lemma in_members t m : t <> unknown -> m <> PID -> In m (members t).
Proof. destruct t; try done; destruct m; try done; simpl; auto 8. Qed.

Lemma member_set_eq t m z d : member t m (set_member t m z d) = z.
Proof. apply load_store_eq, slot_lt. Qed.
Lemma member_set_ne t m m' z d :
  In m (members t) -> In m' (members t) -> m <> m' -> member t m' (set_member t m z d) = member t m' d.
Proof.
  intros H1 H2 Hne. apply load_store_ne; [apply slot_lt..|]. intros E. by apply Hne, (slot_inj t).
Qed.

(** The exact value of a signal strength, for every percentage an [int8_t] can hold. *)
Lemma signal_strength_table :
  forallb (fun s => match signal_strength s with
                    | Some (Ok v) => v =? 31 * Z.max 0 (Z.min 100 s) / 100
                    | _ => false end) (interval (-128) 256) = true.
Proof. vm_compute. reflexivity. Qed.

Lemma signal_strength_value s :
  -128 <= s <= 127 -> signal_strength s = Some (Ok (31 * Z.max 0 (Z.min 100 s) / 100)).
Proof.
  intros Hs. pose proof (forall_interval (-128) 256 _ s signal_strength_table) as H.
  specialize (H ltac:(lia)). simpl in H. destruct (signal_strength s) as [[v|]|]; try done.
  apply Z.eqb_eq in H. by subst v.
Qed.

Lemma signal_strength_range s : 0 <= 31 * Z.max 0 (Z.min 100 s) / 100 <= 31.
Proof. split; [apply Z.div_pos; lia|]. apply Z.div_le_upper_bound; lia. Qed.

Section Facts.
Variable also : bool.

Lemma preserves_heuristics P :
  (forall b w, P w -> P (set_timer b w)) -> (forall b w, P w -> P (set_valid b w)) ->
  preserves P (execute_cell_change_heuristics_if_appropriate also).
Proof.
  intros Ht Hv. unfold execute_cell_change_heuristics_if_appropriate.
  apply preserves_bind; [apply preserves_gets|]. intros w. apply preserves_when.
  apply preserves_bind; [apply preserves_modify; auto|]. intros _. apply preserves_modify. auto.
Qed.

Lemma preserves_emit P : (forall w, P w -> P (emit_changed w)) -> preserves P emit_if_valid.
Proof.
  intros He. unfold emit_if_valid. apply preserves_bind; [apply preserves_gets|]. intros v.
  by apply preserves_when, preserves_modify.
Qed.

(** A change keeps what its parts keep. *)
Lemma preserves_change P c :
  preserves P (execute_cell_change_heuristics_if_appropriate also) -> preserves P emit_if_valid ->
  (forall b w, P w -> P (set_roaming b w)) ->
  (forall m v, m <> PID -> m <> STRENGTH -> preserves P (set_in_cell m v)) ->
  (forall v, preserves P (set_strength v)) ->
  (forall v t, t <> unknown -> c = TechnologyIs v -> type_lut v = Some t -> preserves P (set_technology t)) ->
  preserves P (on_network_registration_property_changed also c).
Proof.
  intros Hh Hemit Hr Hm Hs Hc.
  assert (forall m v, m <> PID -> m <> STRENGTH -> preserves P (set_in_cell m v;; emit_if_valid;;
            execute_cell_change_heuristics_if_appropriate also)) as Hset.
  { intros. apply preserves_bind; [auto|]. intros _. apply preserves_bind; auto. }
  assert (forall t, preserves P (set_technology t) -> preserves P (from ← gets radio_type;
            if bool_decide (from = t) then skip
            else set_technology t;; emit_if_valid;; execute_cell_change_heuristics_if_appropriate also)) as Htech.
  { intros t Hne. apply preserves_bind; [apply preserves_gets|]. intros from.
    apply preserves_if; [apply preserves_skip|]. apply preserves_bind; [auto|]. intros _.
    apply preserves_bind; auto. }
  destruct c as [value| | | | |value|value|key]; simpl; auto using preserves_skip.
  - destruct (type_lut value) as [[]|] eqn:E; try apply preserves_skip; by apply Htech, (Hc value).
  - apply preserves_bind; auto.
  - apply preserves_modify. auto.
Qed.

(** The details only change through values that were checked. *)
Lemma preserves_set_in_cell P m v :
  (forall w z, P w -> radio_type w <> unknown -> is_valid (bounds (radio_type w) m) z = true ->
     P (set_detail (set_member (radio_type w) m z (detail w)) w)) ->
  preserves P (set_in_cell m v).
Proof.
  intros Hs w Hw. unfold set_in_cell. rewrite (exec_run (gets radio_type) _ w (radio_type w) w eq_refl).
  destruct (radio_type w) eqn:E; [done|..]; unfold exec; unfold_m; rewrite of_value_spec;
    (case_bool; simpl; [|done]); rewrite <- E; apply Hs; rewrite ?E; done.
Qed.

Lemma preserves_set_strength P v :
  (forall w z, P w -> radio_type w <> unknown -> is_valid asu z = true ->
     P (set_detail (set_member (radio_type w) STRENGTH z (detail w)) w)) ->
  preserves P (set_strength v).
Proof.
  intros Hs w Hw. unfold set_strength. rewrite (exec_run (gets radio_type) _ w (radio_type w) w eq_refl).
  assert (forall r, signal_strength v = Some (Ok r) -> is_valid asu r = true) as Hv.
  { intros r Er. unfold signal_strength, from_percent in Er. destruct (to_int _); [|done].
    injection Er as Er. rewrite of_value_spec in Er. by case_match; simplify_eq. }
  destruct (radio_type w) eqn:E; [done|..]; (destruct (signal_strength v) as [[r|e]|]; [|done..]);
    unfold exec; unfold_m; rewrite <- E; apply Hs; rewrite ?E; auto.
Qed.

(** ** The invariant *)
Definition known (w : Cell_) : Prop := radio_type w <> unknown /\ well_formed w.

Lemma known_set_member w m z :
  known w -> In m (members (radio_type w)) -> is_valid (bounds (radio_type w) m) z = true ->
  known (set_detail (set_member (radio_type w) m z (detail w)) w).
Proof.
  intros [Hu Hw] Hin Hv. split; [done|]. intros m' Hm' Hp. simpl in *.
  destruct (decide (slot (radio_type w) m = slot (radio_type w) m')) as [E|Hne].
  - apply slot_inj in E as ->; [|done..]. left. by rewrite member_set_eq.
  - unfold member. unfold set_member. rewrite load_store_ne by (try apply slot_lt; done).
    exact (Hw m' Hm' Hp).
Qed.

Lemma convert_members from to d m :
  from <> unknown -> to <> unknown -> from <> to -> In m (members to) -> m <> PID ->
  member to m (convert from to d) =
  match m with ID | STRENGTH => reset (bounds to m) | _ => member from m d end.
Proof.
  intros Hf Ht Hne Hin Hp. destruct d.
  destruct from, to; try done; destruct m; try done; reflexivity.
Qed.

Lemma known_technology t : t <> unknown -> forall w, known w -> known (exec (set_technology t) w).
Proof.
  intros Ht w [Hu Hw]. unfold exec, set_technology. simpl. split; [done|]. intros m Hin Hp.
  cbn [radio_type detail set_radio_type set_detail] in *.
  destruct (decide (radio_type w = t)) as [E|Hne].
  { subst t. assert (convert (radio_type w) (radio_type w) (detail w) = detail w) as ->
      by (by destruct (radio_type w)). by apply Hw. }
  rewrite convert_members by done.
  pose proof (Hw m (in_members _ _ Hu Hp) Hp) as Hm. simpl in Hm.
  destruct m; try done; by right.
Qed.

Lemma preserves_known c : preserves known (on_network_registration_property_changed also c).
Proof.
  apply preserves_change.
  - by apply preserves_heuristics.
  - by apply preserves_emit.
  - done.
  - intros m v Hp Hs. apply preserves_set_in_cell. intros w z Hw Hu Hv. apply known_set_member; [done| |done].
    by apply in_members.
  - intros v. apply preserves_set_strength. intros w z Hw Hu Hv. apply known_set_member; [done| |done].
    by apply in_members.
  - intros v t Ht _ _ w. by apply known_technology.
Qed.

(** ** The life of a cell *)
Inductive Event : Type := Changed (c : Change) | Expired.
Definition on_event (e : Event) : M Cell_ unit :=
  match e with Changed c => on_network_registration_property_changed also c | Expired => on_timer end.
Definition live (es : list Event) (w : Cell_) : Cell_ := fold_left (fun w e => exec (on_event e) w) es w.

Lemma cell_live_preserves P es w :
  (forall e, In e es -> preserves P (on_event e)) -> P w -> P (live es w).
Proof.
  unfold live. revert w. induction es as [|e es IH]; intros w He Hw; simpl; [done|].
  apply IH; [intros; apply He; by right|]. apply He; [by left|done].
Qed.

Lemma preserves_expired P :
  (forall b w, P w -> P (set_timer b w)) -> (forall w, P w -> P (set_valid false w)) -> preserves P on_timer.
Proof.
  intros Ht Hv. unfold on_timer. apply preserves_bind; [apply preserves_gets|]. intros b.
  apply preserves_when. apply preserves_bind; [apply preserves_modify; auto|]. intros _.
  apply preserves_modify. auto.
Qed.

Lemma new_details_known t r garbage d :
  t <> unknown -> new_details t r garbage = Ok d ->
  forall m, In m (members t) -> m <> PID -> is_valid (bounds t m) (member t m d) = true.
Proof.
  intros Ht Hd m Hin Hp. unfold new_details, mbind, res_bind in Hd. rewrite !of_value_spec in Hd.
  destruct (is_valid mcc _) eqn:E1; [|done]. destruct (is_valid mnc _) eqn:E2; [|done].
  destruct (is_valid lac _) eqn:E3; [|done].
  destruct (is_valid (bounds t ID) (wrap_s 32 (cell_id r))) eqn:E4; [|done].
  rewrite signal_strength_value in Hd by (pose proof (wrap_s_range 8 (strength r)); lia).
  injection Hd as <-. pose proof (signal_strength_range (wrap_s 8 (strength r))) as Hr.
  assert (is_valid asu (31 * Z.max 0 (Z.min 100 (wrap_s 8 (strength r))) / 100) = true) as E5.
  { unfold is_valid, asu; simpl. apply andb_true_intro. split; apply Z.leb_le; lia. }
  destruct t; try done; destruct m; try done; by intuition.
Qed.
End Facts.

(** What the three changes leave in memory. *)
Lemma lte_after_switch also ty nd va ti ro ch d0 d1 d2 d3 d4 d5 id s v :
  ty = gsm \/ ty = umts -> is_valid wide_id id = true -> signal_strength s = Some (Ok v) ->
  let w2 := live also [Changed (TechnologyIs "lte"); Changed (CellIdIs id); Changed (StrengthIs s)]
              (MkCell_ nd va ti ro ty (MkDetail d0 d1 d2 d3 d4 d5) ch) in
  radio_type w2 = lte /\ detail w2 = MkDetail d0 d1 d2 id d4 v.
Proof.
  intros Hty Hid Hs. cbv zeta.
  assert (wrap_s 32 id = id) as Hw.
  { apply wrap_s32_small. unfold is_valid in Hid; simpl in Hid. zbool. unfold INT_MIN, INT_MAX. lia. }
  assert (of_value wide_id id = Ok id) as Hov by (rewrite of_value_spec; by rewrite Hid).
  unfold live. cbn [fold_left on_event].
  set (w0 := MkCell_ _ _ _ _ _ _ _).
  set (P1 := fun w => radio_type w = lte /\ exists e3 e5, detail w = MkDetail d0 d1 d2 e3 d4 e5).
  set (P2 := fun w => radio_type w = lte /\ exists e5, detail w = MkDetail d0 d1 d2 id d4 e5).
  set (P3 := fun w => radio_type w = lte /\ detail w = MkDetail d0 d1 d2 id d4 v).
  assert (P1 (exec (on_network_registration_property_changed also (TechnologyIs "lte")) w0)) as H1.
  { subst w0. destruct Hty as [->| ->]; simpl;
      (erewrite exec_run by reflexivity; simpl; erewrite exec_run by reflexivity;
       apply establish_bind;
       [apply preserves_emit; [done|]; split; [done|]; by eexists _, _
       |intros _; by apply preserves_heuristics]). }
  set (w1 := exec _ w0) in *. clearbody w1.
  assert (P2 (exec (on_network_registration_property_changed also (CellIdIs id)) w1)) as H2.
  { destruct w1 as [nd1 va1 ti1 ro1 ty1 de1 ch1]. destruct H1 as [E1 (e3 & e5 & E2)]. simpl in E1, E2.
    subst. simpl. rewrite Hw. apply establish_bind.
    - unfold set_in_cell, exec. unfold_m. rewrite Hov. simpl. split; [done|]. by eexists.
    - intros _. apply preserves_bind; [by apply preserves_emit|]. intros _. by apply preserves_heuristics. }
  set (w2 := exec _ w1) in *. clearbody w2.
  destruct w2 as [nd2 va2 ti2 ro2 ty2 de2 ch2]. destruct H2 as [E1 (e5 & E2)]. simpl in E1, E2. subst.
  assert (P3 (exec (on_network_registration_property_changed also (StrengthIs s))
    (MkCell_ nd2 va2 ti2 ro2 lte (MkDetail d0 d1 d2 id d4 e5) ch2))) as H3; [|exact H3].
  simpl. apply establish_bind; [|intros _; by apply preserves_emit].
  unfold set_strength, exec. unfold_m. by rewrite Hs.
Qed.

Lemma heuristics_skipped w :
  radio_type w <> umts -> exec (execute_cell_change_heuristics_if_appropriate false) w = w.
Proof.
  intros H. unfold execute_cell_change_heuristics_if_appropriate, exec. unfold_m.
  rewrite bool_decide_false by done. simpl. by rewrite andb_false_r.
Qed.

(** * Properties *)

(** C32: the signal strength of a cell for every percentage a registration can report
    ([int8_t]): the cast is defined, nothing is thrown, the value is the floor of 31
    hundredths of the percentage capped to [0, 100], hence between 0 and 31, and it
    never decreases when the percentage increases. *)
Theorem signal_strength_exact (s : Z) :
  -128 <= s <= 127 ->
  signal_strength s = Some (Ok (31 * Z.max 0 (Z.min 100 s) / 100)) /\
  0 <= 31 * Z.max 0 (Z.min 100 s) / 100 <= 31 /\
  (forall s', s <= s' <= 127 -> exists v v', signal_strength s = Some (Ok v) /\
     signal_strength s' = Some (Ok v') /\ v <= v').
Proof.
  intros Hs. split; [by apply signal_strength_value|]. split; [apply signal_strength_range|].
  intros s' Hs'. exists (31 * Z.max 0 (Z.min 100 s) / 100), (31 * Z.max 0 (Z.min 100 s') / 100).
  split_and!; [apply signal_strength_value; lia..|]. apply Z.div_le_mono; lia.
Qed.

Lemma signal_strength_exact_witness : -128 <= 50 <= 127 /\ signal_strength 50 = Some (Ok 15).
Proof. split; [lia|]. exact (proj1 (signal_strength_exact 50 ltac:(lia))). Defined.

(** C33: a cell that was registered with a known technology when it was created keeps its
    details in range: whatever property changes arrive and whenever the timer fires,
    every member of its current technology but the physical id of LTE is in its range
    or marked unknown (what is out of range is refused with an exception).  A cell that
    was not registered is created as valid with whatever its memory held. *)
Theorem cell_details_in_range (also problematic_firmware : bool) (garbage : Detail) (r : Registration) :
  (is_registered_or_roaming (status r) = false -> exists w,
     construct also problematic_firmware garbage r = Ok w /\ valid w = true /\ detail w = garbage) /\
  (is_registered_or_roaming (status r) = true -> query_technology r <> unknown ->
   forall w, construct also problematic_firmware garbage r = Ok w ->
   forall es, let w' := live also es w in
     radio_type w' <> unknown /\
     forall m, In m (members (radio_type w')) -> m <> PID ->
       let b := bounds (radio_type w') m in
       let v := member (radio_type w') m (detail w') in
       is_valid b v = true \/ v = reset b).
Proof.
  unfold construct. split.
  - intros ->. simpl. eexists. by split_and!.
  - intros -> Ht w Hw es. simpl in Hw. rewrite bool_decide_false in Hw by done.
    destruct (new_details _ r garbage) as [d|] eqn:Ed; [|done]. injection Hw as <-.
    apply (cell_live_preserves also known).
    + intros [c|] _; simpl; [apply preserves_known|]. by apply preserves_expired.
    + apply preserves_heuristics; [done..|]. split; [done|]. intros m Hin Hp. left.
      by apply (new_details_known _ r garbage).
Qed.

Definition sample_registration : Registration := MkRegistration "registered" "gsm" 1 "262" "2" 3 50.
Definition sample_garbage : Detail := MkDetail 7 7 7 7 7 7.

Lemma cell_details_in_range_witness :
  is_registered_or_roaming (status sample_registration) = true /\
  forall w, construct false true sample_garbage sample_registration = Ok w ->
    radio_type (live false [Changed (TechnologyIs "lte"); Changed (CellIdIs 5); Expired] w) <> unknown.
Proof.
  split; [reflexivity|]. intros w Hw.
  exact (proj1 (proj2 (cell_details_in_range false true sample_garbage sample_registration) eq_refl
    ltac:(discriminate) w Hw [Changed (TechnologyIs "lte"); Changed (CellIdIs 5); Expired])).
Defined.

(** the physical id of an LTE cell is never reported by the modem, and a cell that
    changes to LTE does not reset it: it holds the signal strength the GSM or UMTS cell
    had, because the two share their memory.  Once the id of the cell and its strength
    are set, all details of the LTE cell count as valid. *)
Theorem physical_id_is_old_strength (also : bool) (w : Cell_) (id s : Z) :
  radio_type w = gsm \/ radio_type w = umts ->
  (forall m, In m [MCC; MNC; AREA; STRENGTH] ->
     is_valid (bounds (radio_type w) m) (member (radio_type w) m (detail w)) = true) ->
  0 <= id <= 268435455 -> -128 <= s <= 127 ->
  let w' := live also [Changed (TechnologyIs "lte"); Changed (CellIdIs id); Changed (StrengthIs s)] w in
  radio_type w' = lte /\
  member lte PID (detail w') = member (radio_type w) STRENGTH (detail w) /\
  is_cell_details_valid w' = true.
Proof.
  intros Ht Hm Hid Hs. cbv zeta. destruct w as [nd va ti ro ty [d0 d1 d2 d3 d4 d5] ch]. simpl in Ht.
  pose proof (signal_strength_range s) as Hr.
  assert (forall m, In m [MCC; MNC; AREA; STRENGTH] ->
     is_valid (bounds ty m) (member ty m (MkDetail d0 d1 d2 d3 d4 d5)) = true) as Hm' by exact Hm.
  pose proof (Hm' MCC ltac:(simpl; auto)) as M0. pose proof (Hm' MNC ltac:(simpl; auto)) as M1.
  pose proof (Hm' AREA ltac:(simpl; auto)) as M2. pose proof (Hm' STRENGTH ltac:(simpl; auto)) as M3.
  assert (member ty STRENGTH (MkDetail d0 d1 d2 d3 d4 d5) = d4) as Es by (by destruct Ht as [->| ->]).
  rewrite Es in M3. change (is_valid mcc d0 = true) in M0. change (is_valid mnc d1 = true) in M1.
  change (is_valid lac d2 = true) in M2. change (is_valid asu d4 = true) in M3.
  set (w2 := live also _ _).
  assert (radio_type w2 = lte /\ detail w2 = MkDetail d0 d1 d2 id d4 (31 * Z.max 0 (Z.min 100 s) / 100)) as [E1 E2].
  { subst w2. apply (lte_after_switch also ty); try done.
    - unfold is_valid; simpl. apply andb_true_intro; split; apply Z.leb_le; lia.
    - by rewrite signal_strength_value. }
  simpl. rewrite Es, E2. split; [done|]. split; [done|].
  unfold is_cell_details_valid. rewrite E1, E2.
  change (is_valid mcc d0 && (is_valid mnc d1 && (is_valid lac d2 && (is_valid wide_id id &&
    (is_valid physical d4 && (is_valid asu (31 * Z.max 0 (Z.min 100 s) / 100) && true))))) = true).
  rewrite M0, M1, M2. unfold is_valid in *; simpl in *. zbool.
  repeat (apply andb_true_intro; split); try apply Z.leb_le; try done; lia.
Qed.

Lemma physical_id_is_old_strength_witness :
  let w := MkCell_ true true false false gsm (MkDetail 262 2 1 3 15 0) 0 in
  let w' := live false [Changed (TechnologyIs "lte"); Changed (CellIdIs 5); Changed (StrengthIs 80)] w in
  radio_type w = gsm /\ member lte PID (detail w') = 15 /\ is_cell_details_valid w' = true.
Proof.
  cbv zeta. split; [reflexivity|].
  destruct (physical_id_is_old_strength false (MkCell_ true true false false gsm (MkDetail 262 2 1 3 15 0) 0) 5 80)
    as (_ & E & V); [left; reflexivity| |lia|lia|split; [exact E|exact V]].
  intros m [<-|[<-|[<-|[<-|[]]]]]; vm_compute; reflexivity.
Defined.

(** an invalidated cell of another technology stays invalid.  The heuristics' timer is
    started for a UMTS cell and not stopped when the cell changes to GSM or LTE; when it
    then fires the cell becomes invalid although its details are valid, and no change
    that keeps it off UMTS makes it valid or announces a change again. *)
Theorem stale_timer_invalidates (to : string) (w : Cell_) (es : list Event) :
  (to = "gsm" \/ to = "edge" \/ to = "lte") ->
  radio_type w = umts -> timer w = true ->
  (forall v, In (Changed (TechnologyIs v)) es -> type_lut v <> Some umts) ->
  let w1 := live false [Changed (TechnologyIs to); Expired] w in
  let w2 := live false es w1 in
  valid w1 = false /\ valid w2 = false /\ changes w2 = changes w1.
Proof.
  intros Hto Ht Htm Hes. cbv zeta.
  set (P := fun n w => valid w = false /\ changes w = n /\ radio_type w <> umts).
  assert (exists n, P n (live false [Changed (TechnologyIs to); Expired] w)) as (n & Hp).
  { destruct w as [nd va ti ro ty de ch]. simpl in Ht, Htm. subst ty ti.
    assert (exists t, type_lut to = Some t /\ t <> unknown /\ t <> umts) as (t & El & Hu & Hn)
      by (destruct Hto as [->|[->| ->]]; eexists; split_and!; done).
    unfold live. cbn [fold_left on_event].
    set (Q := fun w => timer w = true /\ radio_type w = t).
    assert (Q (exec (on_network_registration_property_changed false (TechnologyIs to))
      (MkCell_ nd va true ro umts de ch))) as [Q1 Q2].
    { simpl. rewrite El. destruct t; try done; simpl; (erewrite exec_run by reflexivity; simpl;
        erewrite exec_run by reflexivity; apply establish_bind;
        [by apply preserves_emit|intros _ v [V1 V2]; rewrite heuristics_skipped; [done|by rewrite V2]]). }
    set (w0 := exec _ _) in *. clearbody w0. exists (changes w0). unfold on_timer, exec. unfold_m.
    rewrite Q1. simpl. split; [done|]. split; [done|]. simpl. by rewrite Q2. }
  split; [apply Hp|].
  assert (P n (live false es (live false [Changed (TechnologyIs to); Expired] w))) as (H1 & H2 & H3).
  { apply cell_live_preserves; [|done]. intros [c|] Hin; simpl.
    - apply preserves_change.
      + intros v (H1 & H2 & H3). by rewrite heuristics_skipped.
      + intros v (H1 & H2 & H3). unfold emit_if_valid, exec. unfold_m. by rewrite H1.
      + by intros b v.
      + intros m z _ _. apply preserves_set_in_cell. by intros v x.
      + intros z. apply preserves_set_strength. by intros v x.
      + intros v t Hu -> El u (H1 & H2 & H3). split; [done|]. split; [done|]. simpl. intros ->.
        by apply (Hes v).
    - apply preserves_expired; [by intros b v|]. intros v (H1 & H2 & H3). by split_and!. }
  split; [done|]. destruct Hp as (_ & -> & _). done.
Qed.

Lemma stale_timer_invalidates_witness :
  let w := MkCell_ true true true false umts (MkDetail 262 2 1 3 15 0) 0 in
  let es := [Changed (CellIdIs 6); Changed (StrengthIs 60)] in
  timer w = true /\ valid (live false es (live false [Changed (TechnologyIs "gsm"); Expired] w)) = false.
Proof.
  cbv zeta. split; [reflexivity|].
  apply (stale_timer_invalidates "gsm" (MkCell_ true true true false umts (MkDetail 262 2 1 3 15 0) 0)
    [Changed (CellIdIs 6); Changed (StrengthIs 60)]); [left; reflexivity|reflexivity|reflexivity|].
  intros v [E|[E|[]]]; discriminate.
Defined.

End Cached.
