(* ===== verification/Ofono.v ===== *)
(** The registration of a modem over the bus ([connectivity/ofono.h]) and how a radio cell
    reads it ([connectivity/cached_radio_cell.cpp]): every property of the registration is
    read with a call of its own, which may fail. *)
From Stdlib Require Import ZArith Lia.
From stdpp Require Import base gmap strings list.
From S2P Require Import Prelude RadioCell.
Local Open Scope Z_scope.

(** * Objects of the bus *)
Module Ofono.
Import Cached.

(** [core::dbus::types::Variant], for the types the registration uses; [as<T>()] throws
    unless the value has the type [T]. *)
Inductive Variant : Type :=
| VString (s : string) | VUint16 (z : Z) | VUint32 (z : Z) | VByte (z : Z) | VOther.
Definition mismatch {A} : res A := Throw (runtime_error "Variant: mismatch between expected and actual type").
Definition as_string (v : Variant) : res string := match v with VString s => Ok s | _ => mismatch end.
Definition as_uint16 (v : Variant) : res Z := match v with VUint16 z => Ok z | _ => mismatch end.
Definition as_uint32 (v : Variant) : res Z := match v with VUint32 z => Ok z | _ => mismatch end.
Definition as_int8 (v : Variant) : res Z := match v with VByte z => Ok (wrap_s 8 z) | _ => mismatch end.

(** A property of an interface: its name, [ValueType{}] and the reading of its type. *)
Record Property (A : Type) : Type := MkProperty { name : string; value_type : A; as_type : Variant -> res A }.
Arguments MkProperty {A}.
Arguments name {A}.
Arguments value_type {A}.
Arguments as_type {A}.

(** The properties of [NetworkRegistration]. *)
Definition Status : Property string := MkProperty "Status" EmptyString as_string.
Definition LocationAreaCode : Property Z := MkProperty "LocationAreaCode" 0 as_uint16.
Definition CellId : Property Z := MkProperty "CellId" 0 as_uint32.
Definition MobileCountryCode : Property string := MkProperty "MobileCountryCode" EmptyString as_string.
Definition MobileNetworkCode : Property string := MkProperty "MobileNetworkCode" EmptyString as_string.
Definition Technology : Property string := MkProperty "Technology" EmptyString as_string.
Definition Strength : Property Z := MkProperty "Strength" 0 as_int8.

(** [Status::Value] and its texts. *)
Inductive StatusValue : Set :=
  unregistered | registered | searching | denied | status_unknown | roaming_.
#[export] Instance StatusValue_eq_dec : EqDecision StatusValue.
Proof. solve_decision. Defined.

Definition value_to_string (v : StatusValue) : string :=
  match v with
  | unregistered => "unregistered"
  | registered => "registered"
  | searching => "searching"
  | denied => "denied"
  | status_unknown => "unknown"
  | roaming_ => "roaming"
  end.

(** ** [NetworkRegistration] *)

(** What a call of [GetProperties] answers: the properties, or an error. *)
Definition Answer : Type := option (gmap string Variant).

(** The proxy's cached properties, what the bus will answer, and how many slots of radio
    cells are connected to the signal [PropertyChanged]. *)
Record NetworkRegistration : Type := MkNetworkRegistration {
  properties : gmap string Variant; answers : list Answer; connected : nat
}.

Definition refresh_properties : M NetworkRegistration bool := fun w =>
  match answers w with
  | Some m :: rest => (Ok true, MkNetworkRegistration m rest (connected w))
  | None :: rest => (Ok false, MkNetworkRegistration (properties w) rest (connected w))
  | [] => (Ok false, w)
  end.

(** [it->second.as<ValueType>()] for what is cached. *)
Definition find_property {A} (p : Property A) (m : gmap string Variant) : res A :=
  match m !! name p with
  | None => Ok (value_type p)
  | Some v => as_type p v
  end.

Definition get {A} (p : Property A) (refresh : bool) : M NetworkRegistration A :=
  refreshed ← (if refresh then refresh_properties else mret true);
  if negb refreshed then mret (value_type p)
  else m ← gets properties; lift (find_property p m).

(** * How a radio cell asks *)

Definition status_of (s : string) : StatusValue :=
  if bool_decide (s = "unregistered"%string) then unregistered
  else if bool_decide (s = "registered"%string) then registered
  else if bool_decide (s = "searching"%string) then searching
  else if bool_decide (s = "denied"%string) then denied
  else if bool_decide (s = "unknown"%string) then status_unknown
  else if bool_decide (s = "roaming"%string) then roaming_
  else status_unknown.

Definition query_status : M NetworkRegistration StatusValue := s ← get Status true; mret (status_of s).
Definition query_technology : M NetworkRegistration Type_ :=
  technology ← get Technology true;
  mret (match type_lut technology with Some t => t | None => unknown end).
Definition query_cid : M NetworkRegistration Z := id ← get CellId true; mret (wrap_s 32 id).
Definition query_lac : M NetworkRegistration Z := get LocationAreaCode true.
Definition query_mnc : M NetworkRegistration Z := s ← get MobileNetworkCode true; mret (read_int 0 s).
Definition query_mcc : M NetworkRegistration Z := s ← get MobileCountryCode true; mret (read_int 0 s).
Definition query_strength : M NetworkRegistration Z := get Strength true.

Definition is_registered_or_roaming_value (s : StatusValue) : bool :=
  bool_decide (s = registered) || bool_decide (s = roaming_).

(** [property_changed->connect(...)]: a slot that holds the cell's address. *)
Definition connect : M NetworkRegistration unit :=
  modify (fun w => MkNetworkRegistration (properties w) (answers w) (S (connected w))).
Definition disconnect : M NetworkRegistration unit :=
  modify (fun w => MkNetworkRegistration (properties w) (answers w) (pred (connected w))).

Section Construction.
Variable also_apply_cell_change_heuristics_to_gsm_cells : bool.

(** The members of a cell of technology [t] from the answers. *)
Definition details_from (t : Type_) (garbage : Detail) (lac_ mcc_ mnc_ cell_id_ strength_ : Z) : res Detail :=
  a ← Bounded.of_value Bounded.mcc mcc_;
  b ← Bounded.of_value Bounded.mnc mnc_;
  c ← Bounded.of_value Bounded.lac (wrap_u 16 lac_);
  d ← Bounded.of_value (bounds t ID) cell_id_;
  s ← (match signal_strength (wrap_s 8 strength_) with Some x => x | None => Ok (Bounded.unset Bounded.asu) end);
  Ok (match t with
      | lte => MkDetail a b c d (Bounded.unset Bounded.physical) s
      | _ => MkDetail a b c d s (int5 garbage)
      end).

(** [CachedRadioCell::CachedRadioCell]: the slot is connected before the queries that
    follow. *)
Definition construct_cell (path : string) (garbage : Detail) : M NetworkRegistration Cell_ :=
  status ← query_status;
  radio_type ← query_technology;
  connect;;
  let this := MkCell_ (is_running_on_problematic_modem_firmware path) true false false radio_type garbage 0 in
  if negb (is_registered_or_roaming_value status) then mret this
  else if bool_decide (radio_type = unknown) then mret this
  else
    lac_ ← query_lac;
    mcc_ ← query_mcc;
    mnc_ ← query_mnc;
    cell_id_ ← query_cid;
    strength_ ← query_strength;
    d ← lift (details_from radio_type garbage lac_ mcc_ mnc_ cell_id_ strength_);
    let this := set_roaming (bool_decide (status = roaming_)) (set_detail d this) in
    mret (exec (execute_cell_change_heuristics_if_appropriate also_apply_cell_change_heuristics_to_gsm_cells) this).

(** [CachedRadioCell::~CachedRadioCell], which runs for a cell that was constructed. *)
Definition destroy_cell : M NetworkRegistration unit := disconnect.

(** A [PropertyChanged] signal: the value is read at the type of the property named. *)
Definition change_of (key : string) (v : Variant) : res Change :=
  if bool_decide (key = name Technology) then s ← as_type Technology v; Ok (TechnologyIs s)
  else if bool_decide (key = name CellId) then z ← as_type CellId v; Ok (CellIdIs z)
  else if bool_decide (key = name LocationAreaCode) then z ← as_type LocationAreaCode v; Ok (LocationAreaCodeIs z)
  else if bool_decide (key = name MobileCountryCode) then s ← as_type MobileCountryCode v; Ok (MobileCountryCodeIs s)
  else if bool_decide (key = name MobileNetworkCode) then s ← as_type MobileNetworkCode v; Ok (MobileNetworkCodeIs s)
  else if bool_decide (key = name Strength) then z ← as_type Strength v; Ok (StrengthIs z)
  else if bool_decide (key = name Status) then s ← as_type Status v; Ok (StatusIs s)
  else Ok (OtherChange key).
Definition on_property_changed (key : string) (v : Variant) : M Cell_ unit :=
  c ← lift (change_of key v);
  on_network_registration_property_changed also_apply_cell_change_heuristics_to_gsm_cells c.

(** * Lemmas *)

(** The registration that properties of the right types describe. *)
Definition registration_of (m : gmap string Variant) : res Registration :=
  s ← find_property Status m;
  t ← find_property Technology m;
  l ← find_property LocationAreaCode m;
  mcc_ ← find_property MobileCountryCode m;
  mnc_ ← find_property MobileNetworkCode m;
  i ← find_property CellId m;
  g ← find_property Strength m;
  Ok (MkRegistration s t l mcc_ mnc_ i g).

Lemma get_answered {A} (p : Property A) m old rest n :
  get p true (MkNetworkRegistration old (Some m :: rest) n) = (find_property p m, MkNetworkRegistration m rest n).
Proof. done. Qed.

Lemma get_failed {A} (p : Property A) old rest n :
  get p true (MkNetworkRegistration old (None :: rest) n)
  = (Ok (value_type p), MkNetworkRegistration old rest n).
Proof. done. Qed.

Lemma status_of_string s :
  is_registered_or_roaming_value (status_of s) = is_registered_or_roaming s /\
  bool_decide (status_of s = roaming_) = bool_decide (s = "roaming"%string).
Proof.
  unfold status_of, is_registered_or_roaming, is_registered_or_roaming_value.
  repeat case_bool_decide; subst; try done; simplify_eq.
Qed.

Lemma registration_found m r :
  registration_of m = Ok r ->
  find_property Status m = Ok (status r) /\ find_property Technology m = Ok (technology r) /\
  find_property LocationAreaCode m = Ok (location_area_code r) /\
  find_property MobileCountryCode m = Ok (mobile_country_code r) /\
  find_property MobileNetworkCode m = Ok (mobile_network_code r) /\
  find_property CellId m = Ok (cell_id r) /\ find_property Strength m = Ok (strength r).
Proof.
  unfold registration_of.
  destruct (find_property Status m) as [s|]; [|done].
  destruct (find_property Technology m) as [t|]; [|done].
  destruct (find_property LocationAreaCode m) as [l|]; [|done].
  destruct (find_property MobileCountryCode m) as [a|]; [|done].
  destruct (find_property MobileNetworkCode m) as [b|]; [|done].
  destruct (find_property CellId m) as [i|]; [|done].
  destruct (find_property Strength m) as [g|]; [|done]. simpl. by intros [= <-].
Qed.

(** Runs the queries of the constructor up to what the properties hold. *)
Ltac queries :=
  unfold construct_cell, query_status, query_technology, query_lac, query_mcc, query_mnc, query_cid,
    query_strength, connect, get, refresh_properties, gets, lift, modify, mbind, m_bind, mret, m_ret;
  cbn -[find_property type_lut construct details_from].
Ltac found E := cbn -[find_property type_lut construct details_from]; rewrite E; cbn -[find_property type_lut construct details_from].

Lemma construct_answered path garbage m r rest old n :
  registration_of m = Ok r ->
  exists w', construct_cell path garbage (MkNetworkRegistration old (replicate 7 (Some m) ++ rest) n) =
    (construct also_apply_cell_change_heuristics_to_gsm_cells (is_running_on_problematic_modem_firmware path) garbage r, w') /\
    connected w' = S n.
Proof.
  intros E. apply registration_found in E as (E1 & E2 & E3 & E4 & E5 & E6 & E7).
  destruct (status_of_string (status r)) as [S1 S2]. queries. found E1. found E2. rewrite S1.
  unfold construct, Cached.query_technology.
  destruct (is_registered_or_roaming (status r)); simpl; [|eexists; split; reflexivity].
  set (ty := match type_lut (technology r) with Some x => x | None => unknown end).
  destruct (bool_decide (ty = unknown)) eqn:K; [eexists; split; reflexivity|].
  found E3. found E4. found E5. found E6. found E7. rewrite S2. eexists.
  change (details_from ty garbage _ _ _ _ _) with (new_details ty r garbage).
  destruct (new_details _ r garbage); split; reflexivity.
Qed.

(** The answers a cell of a known technology needs, all of them lost. *)
Lemma construct_unanswered path garbage m s t rest old n :
  find_property Status m = Ok s -> is_registered_or_roaming s = true ->
  find_property Technology m = Ok t ->
  result (construct_cell path garbage)
    (MkNetworkRegistration old ([Some m; Some m; None; None; None; None; None] ++ rest) n) =
  construct also_apply_cell_change_heuristics_to_gsm_cells (is_running_on_problematic_modem_firmware path)
    garbage (MkRegistration s t 0 EmptyString EmptyString 0 0).
Proof.
  intros E1 R E2. destruct (status_of_string s) as [S1 S2]. unfold result. queries.
  found E1. found E2. rewrite S1, R.
  unfold construct, Cached.query_technology. cbn [status technology]. rewrite R. cbn [negb].
  set (ty := match type_lut t with Some x => x | None => unknown end).
  destruct (bool_decide (ty = unknown)) eqn:K; [done|]. rewrite S2.
  cbn -[details_from new_details execute_cell_change_heuristics_if_appropriate].
  change (details_from ty garbage _ _ _ _ _) with (new_details ty (MkRegistration s t 0 EmptyString EmptyString 0 0) garbage).
  by destruct (new_details _ _ garbage).
Qed.

(** Queries leave the slots as they are. *)
Lemma preserves_queries_get {A} (p : Property A) k : preserves (fun w => connected w = k) (get p true).
Proof.
  unfold get. apply preserves_bind.
  - intros w Hw. unfold refresh_properties, exec. by destruct (answers w) as [|[]].
  - intros b. apply preserves_if; [apply preserves_ret|].
    apply preserves_bind; [apply preserves_gets|]. intros m. apply preserves_lift.
Qed.

Lemma preserves_then_ret {A B} (p : Property A) (f : A -> B) k :
  preserves (fun w => connected w = k) (a ← get p true; mret (f a)).
Proof. apply preserves_bind; [apply preserves_queries_get|]. intros a. apply preserves_ret. Qed.

(** What a constructor leaves connected, once it got to the connection. *)
Lemma construction_connects path garbage w s t w1 :
  (s ← query_status; t ← query_technology; mret (s, t)) w = (Ok (s, t), w1) ->
  connected (exec (construct_cell path garbage) w) = S (connected w).
Proof.
  intros E. unfold construct_cell.
  assert (connected w1 = connected w) as C.
  { pose proof (preserves_bind (fun v => connected v = connected w) query_status
      (fun s => t ← query_technology; mret (s, t)) (preserves_then_ret _ _ _)
      (fun s => preserves_bind _ _ _ (preserves_then_ret _ _ _) (fun t => preserves_ret _ _)) w eq_refl) as P.
    unfold exec in P. by rewrite E in P. }
  unfold mbind, m_bind, mret, m_ret in E.
  destruct (query_status w) as [[s'|] w2] eqn:E1; [|done].
  destruct (query_technology w2) as [[t'|] w3] eqn:E2; [|done]. injection E as -> -> ->.
  rewrite (exec_run _ _ _ _ _ E1), (exec_run _ _ _ _ _ E2).
  rewrite (exec_run connect _ w1 tt (MkNetworkRegistration (properties w1) (answers w1) (S (connected w1))) eq_refl).
  rewrite <- C. generalize (connected w1). intros k.
  apply (preserves_if (fun v => connected v = S k)); [apply preserves_ret| |done].
  apply preserves_if; [apply preserves_ret|].
  apply preserves_bind; [apply preserves_queries_get|]. intros l.
  apply preserves_bind; [apply preserves_then_ret|]. intros a.
  apply preserves_bind; [apply preserves_then_ret|]. intros b.
  apply preserves_bind; [apply preserves_then_ret|]. intros i.
  apply preserves_bind; [apply preserves_queries_get|]. intros g.
  apply preserves_bind; [apply preserves_lift|]. intros d. apply preserves_ret.
Qed.

(** * Theorems *)

(** C37: over a bus that answers, asking for the properties one by one is reading the
    registration at once.  If every call is answered with the same properties, of the
    types the interface declares, the cell is made exactly as from that registration, its
    errors included, and its slot is connected once; and each status is told by the text
    that stands for it. *)
Theorem steady_bus_is_a_registration (path : string) (garbage : Detail) (m : gmap string Variant)
    (r : Registration) (rest : list Answer) (old : gmap string Variant) (n : nat) :
  registration_of m = Ok r ->
  let w := MkNetworkRegistration old (replicate 7 (Some m) ++ rest) n in
  result (construct_cell path garbage) w =
    construct also_apply_cell_change_heuristics_to_gsm_cells (is_running_on_problematic_modem_firmware path)
      garbage r /\
  connected (exec (construct_cell path garbage) w) = S n /\
  (forall v, status_of (value_to_string v) = v).
Proof.
  intros E. cbv zeta. destruct (construct_answered path garbage m r rest old n E) as (w' & C & N).
  unfold result, exec. rewrite C. split_and!; [done|exact N|]. by intros [].
Qed.

(** C38: what a cell makes of calls that fail.  Once the status and the technology of a
    registered modem were answered, five lost answers do not keep the cell from being
    made: it is valid, and its country, network, area, identity and strength, which nobody
    ever reported, are the zeros that are valid members.  And a constructor that throws
    behind the first two queries leaves its slot connected, with no cell to disconnect
    it. *)
Theorem lost_answers_make_a_cell (path : string) (garbage : Detail) (m : gmap string Variant)
    (s t : string) (ty : Type_) (rest : list Answer) (old : gmap string Variant) (n : nat) :
  find_property Status m = Ok s -> is_registered_or_roaming s = true ->
  find_property Technology m = Ok t -> type_lut t = Some ty -> ty <> unknown ->
  is_running_on_problematic_modem_firmware path = false ->
  (exists c, result (construct_cell path garbage)
       (MkNetworkRegistration old ([Some m; Some m; None; None; None; None; None] ++ rest) n) = Ok c /\
     valid c = true /\ radio_type c = ty /\
     (forall x, x ∈ [MCC; MNC; AREA; ID; STRENGTH] ->
        member ty x (detail c) = 0 /\ Bounded.is_valid (bounds ty x) 0 = true)) /\
  (forall w e w1 st te,
     (a ← query_status; b ← query_technology; mret (a, b)) w = (Ok (st, te), w1) ->
     result (construct_cell path garbage) w = Throw e ->
     connected (exec (construct_cell path garbage) w) = S (connected w)).
Proof.
  intros E1 R E2 K U F. split.
  - rewrite (construct_unanswered path garbage m s t rest old n E1 R E2), F.
    unfold construct, Cached.query_technology. cbn [status technology]. rewrite R, K. cbn [negb].
    rewrite bool_decide_false by done.
    destruct ty; [done| | |]; (eexists; split; [reflexivity|]; split; [reflexivity|]; split; [reflexivity|]);
      intros x Hx; repeat (apply elem_of_cons in Hx as [->|Hx]; [by split|]); by apply not_elem_of_nil in Hx.
  - intros w e w1 st te Q _. exact (construction_connects path garbage w st te w1 Q).
Qed.
End Construction.

(** A gsm cell whose identity is too large for the interface of gsm cells. *)
Definition at_home : gmap string Variant :=
  {[ "Status" := VString "registered"; "Technology" := VString "gsm"; "MobileCountryCode" := VString "262";
     "MobileNetworkCode" := VString "07"; "LocationAreaCode" := VUint16 5; "CellId" := VUint32 70000;
     "Strength" := VByte 60 ]}.
Definition home_registration : Registration := MkRegistration "registered" "gsm" 5 "262" "07" 70000 60.

Lemma steady_bus_is_a_registration_witness :
  registration_of at_home = Ok home_registration /\
  result (construct_cell false "/phonesim" (MkDetail 0 0 0 0 0 0))
    (MkNetworkRegistration ∅ (replicate 7 (Some at_home)) 0) = Throw (runtime_error "is not in [min, max]") /\
  connected (exec (construct_cell false "/phonesim" (MkDetail 0 0 0 0 0 0))
    (MkNetworkRegistration ∅ (replicate 7 (Some at_home)) 0)) = 1%nat.
Proof.
  assert (registration_of at_home = Ok home_registration) as E by (vm_compute; reflexivity).
  split; [exact E|].
  destruct (steady_bus_is_a_registration false "/phonesim" (MkDetail 0 0 0 0 0 0) at_home home_registration []
              ∅ 0 E) as (R & C & _).
  split; [|exact C]. etransitivity; [exact R|]. vm_compute. reflexivity.
Defined.

Lemma lost_answers_make_a_cell_witness :
  exists c, result (construct_cell false "/phonesim" (MkDetail 7 7 7 7 7 7))
    (MkNetworkRegistration ∅ [Some at_home; Some at_home; None; None; None; None; None] 0) = Ok c /\
    valid c = true /\ member gsm ID (detail c) = 0.
Proof.
  destruct (lost_answers_make_a_cell false "/phonesim" (MkDetail 7 7 7 7 7 7) at_home "registered" "gsm" gsm []
              ∅ 0 eq_refl eq_refl eq_refl eq_refl ltac:(discriminate) eq_refl) as [(c & R & V & _ & M) _].
  exists c. split; [exact R|]. split; [exact V|]. refine (proj1 (M ID _)). repeat constructor.
Defined.
End Ofono.
