(* ===== verification/AndroidHal.v ===== *)
(** The GPS hardware abstraction over the Android HAL
    ([providers/gps/android_hardware_abstraction_layer.h/.cpp]): the conversion of the
    HAL's reports, the modes and capabilities, and the threads that share the HAL handle
    (the bus thread that starts and stops positioning, the recovery threads, the watchdog
    and the HAL's callbacks) as a step relation. *)
From Stdlib Require Import ZArith Lia SpecFloat.
From stdpp Require Import base gmap fin_sets strings list relations.
From S2P Require Import Prelude Floats Geometry.
Local Open Scope Z_scope.
#[local] Set Warnings "-clear-no-such-hyp".

(** * The HAL's reports *)
Module Reports.

(** The constants of the platform's header, and what [inject] functions receive. *)
Class HardwareGps : Type := {
  HAS_LAT_LONG : Z; HAS_ALTITUDE : Z; HAS_SPEED : Z; HAS_BEARING : Z; HAS_ACCURACY : Z;
  CAPABILITY_SCHEDULING : Z; CAPABILITY_MSB : Z; CAPABILITY_MSA : Z;
  CAPABILITY_SINGLE_SHOT : Z; CAPABILITY_ON_DEMAND_TIME : Z
}.

(** The values of the Android headers. *)
#[export] Instance android_header : HardwareGps := {|
  HAS_LAT_LONG := 1; HAS_ALTITUDE := 2; HAS_SPEED := 4; HAS_BEARING := 8; HAS_ACCURACY := 16;
  CAPABILITY_SCHEDULING := 1; CAPABILITY_MSB := 2; CAPABILITY_MSA := 4;
  CAPABILITY_SINGLE_SHOT := 8; CAPABILITY_ON_DEMAND_TIME := 16
|}.

(** [if (word & flag)] on 32 bits. *)
Definition has_flag (word flag : Z) : bool := negb (Z.land word flag =? 0).

(** [UHardwareGpsLocation] *)
Record UHardwareGpsLocation : Type := MkLocation {
  flags : Z; loc_latitude : double; loc_longitude : double; loc_altitude : double;
  loc_speed : float; loc_bearing : float; loc_accuracy : float
}.

(** What is emitted to the provider. *)
Inductive Emission : Type :=
| EmitPosition (p : Position)
| EmitVelocity (v : double)
| EmitHeading (h : double).

Section Location.
Context `{HardwareGps}.

Definition position_of (location : UHardwareGpsLocation) : res Position :=
  lat ← Wgs84.Coordinate Wgs84.check_latitude (loc_latitude location);
  lon ← Wgs84.Coordinate Wgs84.check_longitude (loc_longitude location);
  let pos := Pos.of_lat_lon lat lon in
  let hor := if has_flag (flags location) HAS_ACCURACY
             then Some (double_of_float (loc_accuracy location)) else horizontal pos in
  let alt := if has_flag (flags location) HAS_ALTITUDE
             then Some (loc_altitude location) else altitude pos in
  Ok (MkPosition (latitude pos) (longitude pos) alt hor (vertical pos)).

(** [on_location_update]: what it emits before it returns or throws. *)
Definition on_location_update (location : UHardwareGpsLocation) : list Emission * res unit :=
  match (if has_flag (flags location) HAS_LAT_LONG
         then match position_of location with
              | Ok pos => Ok [EmitPosition pos]
              | Throw e => Throw e
              end
         else Ok []) with
  | Throw e => ([], Throw e)
  | Ok ps =>
      (ps ++ (if has_flag (flags location) HAS_SPEED
              then [EmitVelocity (double_of_float (loc_speed location))] else [])
          ++ (if has_flag (flags location) HAS_BEARING
              then [EmitHeading (double_of_float (loc_bearing location))] else []), Ok tt)
  end.
End Location.

(** [UHardwareGpsSvInfo] and [UHardwareGpsSvStatus] *)
Record UHardwareGpsSvInfo : Type := MkSvInfo {
  prn : Z; sv_snr : float; sv_elevation : float; sv_azimuth : float
}.
Record UHardwareGpsSvStatus : Type := MkSvStatus {
  sv_list : list UHardwareGpsSvInfo;   (* its first [num_svs] entries *)
  ephemeris_mask : Z; almanac_mask : Z; used_in_fix_mask : Z
}.

(** [1 << prn] on an [int]: not defined from 32 on. *)
Definition shift_one (n : Z) : option Z := if n <? 32 then Some (Z.shiftl 1 n) else None.

(** One entry: [Ok None] is skipped; [None] has no defined result. *)
Definition space_vehicle_of (status : UHardwareGpsSvStatus) (sv : UHardwareGpsSvInfo)
  : option (option SV.SpaceVehicle) :=
  let p := prn sv - 1 in
  if p <? 0 then Some None
  else match shift_one p with
       | None => None
       | Some shift =>
           Some (Some (SV.MkSV (SV.MkKey SV.gps (prn sv)) (sv_snr sv)
             (has_flag (almanac_mask status) shift)
             (has_flag (ephemeris_mask status) shift)
             (has_flag (used_in_fix_mask status) shift)
             (double_of_float (sv_elevation sv))
             (double_of_float (sv_azimuth sv))))
       end.

(** [on_sv_status_update]: the set it emits. *)
Definition on_sv_status_update (status : UHardwareGpsSvStatus) : option (list SV.SpaceVehicle) :=
  fold_left (fun acc sv =>
    match acc, space_vehicle_of status sv with
    | Some svs, Some (Some v) => Some (SV.set_insert v svs)
    | Some svs, Some None => Some svs
    | _, _ => None
    end) (sv_list status) (Some []).

(** The bit of a vehicle in a mask. *)
Lemma has_flag_bit word p : 0 <= p -> has_flag word (Z.shiftl 1 p) = Z.testbit word p.
Proof.
  intros Hp. unfold has_flag. rewrite Z.shiftl_1_l. destruct (Z.testbit word p) eqn:E.
  - apply negb_true_iff, Z.eqb_neq. intros H. apply (f_equal (fun z => Z.testbit z p)) in H.
    rewrite Z.land_spec, E, Z.pow2_bits_true, Z.testbit_0_l in H by done. discriminate.
  - apply negb_false_iff, Z.eqb_eq. apply Z.bits_inj'. intros q Hq.
    rewrite Z.land_spec, Z.testbit_0_l, Z.pow2_bits_eqb by done.
    destruct (Z.eqb_spec p q) as [->|]; [by rewrite E|apply andb_false_r].
Qed.

(** The vehicle an entry with a PRN in range describes. *)
Definition reported (status : UHardwareGpsSvStatus) (e : UHardwareGpsSvInfo) : SV.SpaceVehicle :=
  SV.MkSV (SV.MkKey SV.gps (prn e)) (sv_snr e)
    (Z.testbit (almanac_mask status) (prn e - 1)) (Z.testbit (ephemeris_mask status) (prn e - 1))
    (Z.testbit (used_in_fix_mask status) (prn e - 1))
    (double_of_float (sv_elevation e)) (double_of_float (sv_azimuth e)).

Lemma space_vehicle_of_reported status e :
  prn e <= 32 ->
  space_vehicle_of status e = Some (if prn e <? 1 then None else Some (reported status e)).
Proof.
  intros H. unfold space_vehicle_of, shift_one, reported.
  destruct (Z.ltb_spec (prn e - 1) 0), (Z.ltb_spec (prn e) 1); try lia; [done|].
  destruct (Z.ltb_spec (prn e - 1) 32); [|lia]. by rewrite !has_flag_bit by lia.
Qed.

(** The first entry with its PRN. *)
Definition first_of (l : list UHardwareGpsSvInfo) (e : UHardwareGpsSvInfo) : Prop :=
  exists l1 l2, l = l1 ++ e :: l2 /\ forall x, x ∈ l1 -> prn x <> prn e.

Lemma first_of_elem l e : first_of l e -> e ∈ l.
Proof. intros (l1 & l2 & -> & _). set_solver. Qed.

Lemma first_of_snoc l e x :
  first_of (l ++ [e]) x <-> first_of l x \/ (x = e /\ forall y, y ∈ l -> prn y <> prn e).
Proof.
  split.
  - intros (l1 & l2 & E & Hn). destruct l2 as [|y l2 _] using rev_ind.
    + apply app_inj_tail in E as [-> ->]. by right.
    + left. exists l1, l2. rewrite app_comm_cons, app_assoc in E. by apply app_inj_tail in E as [-> _].
  - intros [(l1 & l2 & -> & Hn)|[-> Hn]]; [|by exists l, []].
    exists l1, (l2 ++ [e]). by rewrite <- app_assoc.
Qed.

Lemma first_of_exists l x : x ∈ l -> exists e, first_of l e /\ prn e = prn x.
Proof.
  induction l as [|y l IH]; [by intros Hx%not_elem_of_nil|]. intros Hx.
  destruct (decide (prn y = prn x)) as [E|E].
  { exists y. split; [|done]. exists [], l. split; [done|]. by intros z Hz%not_elem_of_nil. }
  apply elem_of_cons in Hx as [Hx|Hx]; [by subst|].
  destruct (IH Hx) as (e & (l1 & l2 & -> & Hn) & Hp). exists e. split; [|done].
  exists (y :: l1), l2. split; [done|]. intros z [Hz|Hz]%elem_of_cons; [congruence|auto].
Qed.

(** a status report whose PRNs are at most 32 is defined, and what it emits is a set
    ordered by key that holds, for each PRN from 1 on, exactly the vehicle of the first
    entry with that PRN: a GPS vehicle with the bits number PRN - 1 of the three masks.
    Its azimuth is the entry's elevation and its elevation is the entry's azimuth. *)
Theorem sv_status_is_emitted status :
  Forall (fun e => prn e <= 32) (sv_list status) ->
  exists svs, on_sv_status_update status = Some svs /\ SV.set_ascending svs /\
  forall v, v ∈ svs <-> exists e, first_of (sv_list status) e /\ 1 <= prn e /\ v = reported status e.
Proof.
  unfold on_sv_status_update. generalize (sv_list status). intros l.
  induction l as [|e l IH] using rev_ind; intros Hl.
  - exists []. split; [done|]. split; [constructor|]. intros v. split; [by intros Hv%not_elem_of_nil|].
    intros (e & (l1 & l2 & Hn & _) & _). by destruct l1.
  - apply Forall_app in Hl as [Hl He]. apply Forall_cons in He as [He _].
    destruct (IH Hl) as (svs & Hs & Ha & Hv). rewrite fold_left_app, Hs. simpl.
    rewrite space_vehicle_of_reported by done. setoid_rewrite first_of_snoc.
    destruct (Z.ltb_spec (prn e) 1).
    + exists svs. split; [done|]. split; [done|]. intros v. rewrite Hv. split; [naive_solver|].
      intros (x & [Hx|[-> _]] & Hp & ->); [eauto|lia].
    + exists (SV.set_insert (reported status e) svs).
      split; [done|]. split; [by apply SV.set_insert_ascending|]. intros v.
      rewrite SV.set_insert_elem, Hv by done. split.
      * intros [(x & Hx & Hp & ->)|[-> Hk]]; [eauto|]. exists e. split_and!; [right; split; [done|]|lia|done].
        intros y Hy Ep. destruct (first_of_exists _ _ Hy) as (x & Hx & Epx).
        apply (Hk (reported status x)); [apply Hv; exists x; split_and!; [done|lia|done]|].
        simpl. by rewrite Epx, Ep.
      * intros (x & [Hx|[-> Hn]] & Hp & ->); [eauto|]. right. split; [done|].
        intros y (z & Hz%first_of_elem & _ & ->)%Hv Ek. apply (Hn z Hz). by injection Ek.
Qed.

Lemma sv_status_is_emitted_witness :
  let e p := MkSvInfo p (S754_zero false) (float_of_double (d_of_Z 40)) (float_of_double (d_of_Z 120)) in
  exists svs, on_sv_status_update (MkSvStatus [e 7; e 3; e 7; e 0] 64 4 64) = Some svs /\
    map (fun v => (SV.id (SV.key v), SV.has_ephimeris_data v, SV.has_almanac_data v)) svs = [(3, false, true); (7, true, false)] /\
    forall v, v ∈ svs -> SV.azimuth v = d_of_Z 40.
Proof.
  intros e.
  destruct (sv_status_is_emitted (MkSvStatus [e 7; e 3; e 7; e 0] 64 4 64)) as (svs & Hs & _ & Hv).
  { apply (bool_decide_unpack _). by vm_compute. }
  exists svs. split; [done|]. split.
  - vm_compute in Hs. by injection Hs as <-.
  - intros v (x & Hx%first_of_elem & _ & ->)%Hv. simpl in Hx.
    repeat (apply elem_of_cons in Hx as [->|Hx]; [by vm_compute|]). by apply not_elem_of_nil in Hx.
Defined.

(** ** Modes, capabilities and injected data *)

Inductive AssistanceMode : Set := standalone | mobile_station_based | mobile_station_assisted.
Inductive PositionMode : Set := periodic | single_shot.

Section Capabilities.
Context `{HardwareGps}.
Variable capabilities : Z.

Definition is_capable_of_assistance (mode : AssistanceMode) : bool :=
  match mode with
  | standalone => true
  | mobile_station_assisted => has_flag capabilities CAPABILITY_MSA
  | mobile_station_based => has_flag capabilities CAPABILITY_MSB
  end.
Definition is_capable_of_position (mode : PositionMode) : bool :=
  match mode with
  | single_shot => has_flag capabilities CAPABILITY_SINGLE_SHOT
  | periodic => has_flag capabilities CAPABILITY_SCHEDULING
  end.
Definition is_capable_of_time_injection : bool := has_flag capabilities CAPABILITY_ON_DEMAND_TIME.

(** [inject_reference_position]: the location that is handed to the HAL, with what its
    memory held before. *)
Definition inject_reference_position (garbage : UHardwareGpsLocation) (position : Position)
  : UHardwareGpsLocation :=
  MkLocation
    (match horizontal position with Some _ => Z.lor HAS_LAT_LONG HAS_ACCURACY | None => HAS_LAT_LONG end)
    (latitude position) (longitude position) (loc_altitude garbage) (loc_speed garbage)
    (loc_bearing garbage)
    (match horizontal position with Some h => float_of_double h | None => loc_accuracy garbage end).
End Capabilities.

End Reports.

(** * The threads that share the handle *)
Module Threads.

(** A handle of the HAL: [u_hardware_gps_new] makes a new one or answers null. *)
Abbreviation handle := nat.

(** The functions of the interface that read the handle and call the driver without
    taking [callback_mutex]: the four of [SuplAssistant], [delete_all_aiding_data],
    [set_assistance_mode] and [set_position_mode], [inject_reference_position] (the GPS
    provider calls it with every reference location) and [inject_reference_time]. *)
Inductive Function : Set :=
| SetServer | ConnectionIsOpen | ConnectionIsClosed | ConnectionNotAvailable
| DeleteAidingData | DispatchModes | InjectLocation | InjectTime.

(** What the program calls on a handle, which may be null where the code does not test
    it.  The first four are calls of the bus thread and of the threads that re-register
    the callbacks, the next two of a callback of the HAL, under the shared lock
    ([on_request_utc_time], [on_xtra_download_request]), the last of any other thread. *)
Inductive Call : Set :=
| SetPositionMode (h : handle) | StartGps (h : handle) | StopGps (h : handle) | DeleteGps (h : handle)
| CallbackInjectTime (o : option handle) | CallbackInjectXtraData (o : option handle)
| Unlocked (f : Function) (o : option handle).
Definition target (c : Call) : option handle :=
  match c with
  | SetPositionMode h | StartGps h | StopGps h | DeleteGps h => Some h
  | CallbackInjectTime o | CallbackInjectXtraData o | Unlocked _ o => o
  end.
Definition by_callback (c : Call) : bool :=
  match c with CallbackInjectTime _ | CallbackInjectXtraData _ => true | _ => false end.

(** Where the bus thread is: in [start_positioning] it holds the shared lock until it has
    dispatched the modes, then it only has its copy [h] of the handle; in
    [stop_positioning] it holds the shared lock until it is done. *)
Inductive BusPc : Set :=
| idle
| claiming                     (* saw no handle, about to claim [positioning_active] *)
| starting (h : handle)        (* shared lock held, about to dispatch the modes *)
| dispatched (h : handle)      (* shared lock held, about to unlock *)
| unlocked (h : handle)        (* about to call [u_hardware_gps_start(h)] *)
| stop_begun                   (* [stop_positioning] before its [try_to_lock] *)
| stopping (h : handle).       (* shared lock held, about to call [u_hardware_gps_stop] *)

(** Where a recovery thread or the watchdog is between claiming [positioning_active] and
    releasing it: the phases of [register_callbacks], then the restart. *)
Inductive ReclaimPc : Set :=
| phase1                               (* before the exclusive lock of phase 1 *)
| phase1_locked                        (* exclusive lock held *)
| phase2                               (* before [u_hardware_gps_new] *)
| phase3 (n : option handle)           (* before the exclusive lock of phase 3 *)
| phase3_locked (n : option handle)    (* exclusive lock held *)
| phase4                               (* before the modes are dispatched *)
| read_handle                          (* before the handle is read under the shared lock *)
| dispatch (h : handle)                (* the watchdog, before it dispatches the modes *)
| restart (h : option handle)          (* before [u_hardware_gps_start(h)] *)
| release.                             (* before [positioning_active] is cleared *)

(** The watchdog is thread 0, the recovery threads have the other numbers. *)
Definition tid := nat.
Definition watchdog : tid := 0%nat.

Record State : Type := MkState {
  gps_handle : option handle;
  live : gset handle;                 (* made and not yet deleted *)
  next : handle;                      (* handles from [next] on were not made yet *)
  exclusive : bool;                   (* the exclusive lock of [callback_mutex] is held *)
  callbacks : nat;                    (* callbacks of the HAL holding the shared lock *)
  bus : BusPc;
  reclaimers : gmap tid ReclaimPc;    (* the threads that were let in *)
  watchdog_waits : bool;              (* the watchdog is about to claim [positioning_active] *)
  positioning_active : bool;
  last_gps_ms : Z;
  now : Z;
  clients : list (Function * option handle)   (* in an unlocked function: what it read *)
}.

(** The bus thread holds the shared lock. *)
Definition bus_reads (p : BusPc) : bool :=
  match p with starting _ | dispatched _ | stopping _ => true | idle | claiming | unlocked _ | stop_begun => false end.

(** The staleness test of the watchdog, on unsigned 64-bit numbers. *)
Definition stale (last now : Z) : bool := negb (last =? 0) && (10000 <? wrap_u 64 (now - last)).

Definition with_bus (p : BusPc) (s : State) : State :=
  MkState (gps_handle s) (live s) (next s) (exclusive s) (callbacks s) p (reclaimers s) (watchdog_waits s)
    (positioning_active s) (last_gps_ms s) (now s) (clients s).
Definition with_last (t : Z) (s : State) : State :=
  MkState (gps_handle s) (live s) (next s) (exclusive s) (callbacks s) (bus s) (reclaimers s) (watchdog_waits s)
    (positioning_active s) t (now s) (clients s).
Definition with_reclaimers (r : gmap tid ReclaimPc) (s : State) : State :=
  MkState (gps_handle s) (live s) (next s) (exclusive s) (callbacks s) (bus s) r (watchdog_waits s)
    (positioning_active s) (last_gps_ms s) (now s) (clients s).
Definition with_lock (b : bool) (s : State) : State :=
  MkState (gps_handle s) (live s) (next s) b (callbacks s) (bus s) (reclaimers s) (watchdog_waits s)
    (positioning_active s) (last_gps_ms s) (now s) (clients s).
Definition with_callbacks (n : nat) (s : State) : State :=
  MkState (gps_handle s) (live s) (next s) (exclusive s) n (bus s) (reclaimers s) (watchdog_waits s)
    (positioning_active s) (last_gps_ms s) (now s) (clients s).
Definition with_waits (w : bool) (s : State) : State :=
  MkState (gps_handle s) (live s) (next s) (exclusive s) (callbacks s) (bus s) (reclaimers s) w
    (positioning_active s) (last_gps_ms s) (now s) (clients s).
Definition with_active (b : bool) (s : State) : State :=
  MkState (gps_handle s) (live s) (next s) (exclusive s) (callbacks s) (bus s) (reclaimers s) (watchdog_waits s)
    b (last_gps_ms s) (now s) (clients s).
Definition with_handle (h : option handle) (l : gset handle) (n : handle) (s : State) : State :=
  MkState h l n (exclusive s) (callbacks s) (bus s) (reclaimers s) (watchdog_waits s)
    (positioning_active s) (last_gps_ms s) (now s) (clients s).
Definition with_now (t : Z) (s : State) : State :=
  MkState (gps_handle s) (live s) (next s) (exclusive s) (callbacks s) (bus s) (reclaimers s) (watchdog_waits s)
    (positioning_active s) (last_gps_ms s) t (clients s).
Definition with_clients (l : list (Function * option handle)) (s : State) : State :=
  MkState (gps_handle s) (live s) (next s) (exclusive s) (callbacks s) (bus s) (reclaimers s) (watchdog_waits s)
    (positioning_active s) (last_gps_ms s) (now s) l.

(** Thread [t] goes on at [pc]. *)
Definition goto (t : tid) (pc : ReclaimPc) (s : State) : State :=
  with_reclaimers (<[t:=pc]> (reclaimers s)) s.

(** One step of one thread, with the call it makes on a handle, if it makes one. *)
Inductive step : State -> option Call -> State -> Prop :=
(* time passes; callbacks take the shared lock, note the time and let go *)
| tick t s : now s <= t -> step s None (with_now t s)
| callback_begin s : exclusive s = false -> step s None (with_callbacks (S (callbacks s)) s)
| callback_touch s : callbacks s <> 0%nat -> step s None (with_last (now s) s)
| callback_end n s : callbacks s = S n -> step s None (with_callbacks n s)
(* two of them call the driver on the handle that is installed, if any; it stays the same
   while they hold the lock *)
| callback_time s : callbacks s <> 0%nat -> step s (Some (CallbackInjectTime (gps_handle s))) s
| callback_xtra s : callbacks s <> 0%nat -> step s (Some (CallbackInjectXtraData (gps_handle s))) s
(* another thread, without the lock: it reads the handle, and calls the driver on what it read *)
| client_read f s : step s None (with_clients ((f, gps_handle s) :: clients s) s)
| client_call f o cs ds s : clients s = cs ++ (f, o) :: ds ->
    step s (Some (Unlocked f o)) (with_clients (cs ++ ds) s)
(* start_positioning: the shared lock cannot be had *)
| start_skip s : bus s = idle -> exclusive s = true -> step s None s
(* start_positioning, fast path *)
| start_fast h s : bus s = idle -> exclusive s = false -> gps_handle s = Some h ->
    step s None (with_bus (starting h) s)
| start_dispatch h s : bus s = starting h ->
    step s (Some (SetPositionMode h)) (with_bus (dispatched h) s)
| start_unlock h s : bus s = dispatched h ->
    step s None (with_last (now s) (with_bus (unlocked h) s))
| start_call h s : bus s = unlocked h -> step s (Some (StartGps h)) (with_bus idle s)
(* start_positioning, slow path: the handle is null; claim and spawn, or skip *)
| start_null s : bus s = idle -> exclusive s = false -> gps_handle s = None ->
    step s None (with_bus claiming s)
| start_claim t s : bus s = claiming -> positioning_active s = false ->
    t <> watchdog -> reclaimers s !! t = None ->
    step s None (with_bus idle (goto t phase1 (with_active true s)))
| start_claimed s : bus s = claiming -> positioning_active s = true ->
    step s None (with_bus idle s)
(* stop_positioning *)
| stop_begin s : bus s = idle -> step s None (with_last 0 (with_bus stop_begun s))
| stop_skip s : bus s = stop_begun -> exclusive s = true \/ gps_handle s = None ->
    step s None (with_bus idle s)
| stop_fast h s : bus s = stop_begun -> exclusive s = false -> gps_handle s = Some h ->
    step s None (with_bus (stopping h) s)
| stop_call h s : bus s = stopping h -> step s (Some (StopGps h)) (with_bus idle s)
(* the watchdog wakes up, finds the callbacks stale and the handle valid *)
| watchdog_stale h s : reclaimers s !! watchdog = None -> stale (last_gps_ms s) (now s) = true ->
    exclusive s = false -> gps_handle s = Some h -> step s None (with_waits true s)
| watchdog_claim s : watchdog_waits s = true -> positioning_active s = false ->
    step s None (with_waits false (goto watchdog phase1 (with_active true s)))
| watchdog_skip s : watchdog_waits s = true -> positioning_active s = true ->
    step s None (with_waits false s)
(* register_callbacks, phase 1: delete the old handle under the exclusive lock *)
| phase1_lock t s : reclaimers s !! t = Some phase1 -> exclusive s = false -> callbacks s = 0%nat ->
    bus_reads (bus s) = false ->
    step s None (with_lock true (goto t phase1_locked s))
| phase1_delete t h s : reclaimers s !! t = Some phase1_locked -> gps_handle s = Some h ->
    step s (Some (DeleteGps h))
      (with_lock false (goto t phase2 (with_handle None (live s ∖ {[h]}) (next s) s)))
| phase1_nothing t s : reclaimers s !! t = Some phase1_locked -> gps_handle s = None ->
    step s None (with_lock false (goto t phase2 s))
(* phase 2: make a new handle without the lock *)
| phase2_new t s : reclaimers s !! t = Some phase2 ->
    step s None (goto t (phase3 (Some (next s)))
      (with_handle (gps_handle s) ({[next s]} ∪ live s) (S (next s)) s))
| phase2_null t s : reclaimers s !! t = Some phase2 ->
    step s None (goto t (phase3 None) s)
(* phase 3: install it under the exclusive lock *)
| phase3_lock t n s : reclaimers s !! t = Some (phase3 n) -> exclusive s = false -> callbacks s = 0%nat ->
    bus_reads (bus s) = false ->
    step s None (with_lock true (goto t (phase3_locked n) s))
| phase3_install t n s : reclaimers s !! t = Some (phase3_locked n) ->
    step s None (with_lock false (goto t phase4 (with_handle n (live s) (next s) s)))
(* phase 4: dispatch the modes without the lock *)
| phase4_dispatch t h s : reclaimers s !! t = Some phase4 -> gps_handle s = Some h ->
    step s (Some (SetPositionMode h)) (goto t read_handle s)
| phase4_nothing t s : reclaimers s !! t = Some phase4 -> gps_handle s = None ->
    step s None (goto t read_handle s)
(* after register_callbacks: read the handle, restart; the watchdog dispatches again *)
| read_for_recovery t s : reclaimers s !! t = Some read_handle -> exclusive s = false -> t <> watchdog ->
    step s None (goto t (restart (gps_handle s)) s)
| read_for_watchdog h s : reclaimers s !! watchdog = Some read_handle -> exclusive s = false ->
    gps_handle s = Some h -> step s None (goto watchdog (dispatch h) s)
| read_null s : reclaimers s !! watchdog = Some read_handle -> exclusive s = false ->
    gps_handle s = None -> step s None (goto watchdog (restart None) s)
| watchdog_dispatch t h g s : reclaimers s !! t = Some (dispatch h) -> gps_handle s = Some g ->
    step s (Some (SetPositionMode g)) (goto t (restart (Some h)) s)
| restart_start t h s : reclaimers s !! t = Some (restart (Some h)) ->
    step s (Some (StartGps h)) (goto t release (with_last (now s) s))
| restart_nothing t s : reclaimers s !! t = Some (restart None) ->
    step s None (goto t release s)
| release_active t s : reclaimers s !! t = Some release ->
    step s None (with_reclaimers (delete t (reclaimers s)) (with_active false s)).

(** After the constructor: the callbacks are registered, with or without a handle. *)
Definition initial (h : option handle) : State :=
  MkState h (match h with Some x => {[x]} | None => ∅ end) (match h with Some x => S x | None => 0%nat end)
    false 0 idle ∅ false false 0 0 [].

Inductive reachable : State -> Prop :=
| reachable_initial h : reachable (initial h)
| reachable_step s c s' : reachable s -> step s c s' -> reachable s'.
(** ** The invariant *)

Definition as_set (h : option handle) : gset handle := match h with Some x => {[x]} | None => ∅ end.

(** What holds while a thread reclaims at [pc]: the handle, the handles that live, and
    whether the exclusive lock is held. *)
Definition reclaiming (pc : ReclaimPc) (s : State) : Prop :=
  match pc with
  | phase1 => live s = as_set (gps_handle s) /\ exclusive s = false
  | phase1_locked => live s = as_set (gps_handle s) /\ exclusive s = true
  | phase2 => gps_handle s = None /\ live s = ∅ /\ exclusive s = false
  | phase3 n => gps_handle s = None /\ live s = as_set n /\ exclusive s = false
  | phase3_locked n => gps_handle s = None /\ live s = as_set n /\ exclusive s = true
  | phase4 | read_handle | release => live s = as_set (gps_handle s) /\ exclusive s = false
  | dispatch h => gps_handle s = Some h /\ live s = {[h]} /\ exclusive s = false
  | restart h => gps_handle s = h /\ live s = as_set h /\ exclusive s = false
  end.

Record invariant (s : State) : Prop := {
  inv_claim :
    (positioning_active s = false /\ reclaimers s = ∅ /\
       live s = as_set (gps_handle s) /\ exclusive s = false) \/
    (positioning_active s = true /\ exists t pc, reclaimers s = {[t := pc]} /\ reclaiming pc s);
  inv_bus : match bus s with
            | starting h | dispatched h | stopping h => gps_handle s = Some h /\ exclusive s = false
            | _ => True
            end;
  inv_excl : exclusive s = true -> callbacks s = 0%nat;
  inv_fresh : forall h, h ∈ live s -> (h < next s)%nat
}.

Lemma invariant_initial h : invariant (initial h).
Proof.
  split; simpl; [left; by split_and!; destruct h|done..|].
  intros x Hx. destruct h; simpl in Hx; [apply elem_of_singleton in Hx; lia|set_solver].
Qed.

(** The thread that reclaims is the one the step names. *)
Lemma the_reclaimer s t pc :
  invariant s -> reclaimers s !! t = Some pc ->
  positioning_active s = true /\ reclaimers s = {[t := pc]} /\ reclaiming pc s.
Proof.
  intros [[(_ & E & _)|(Ha & t' & pc' & E & Hr)] _ _ _] Hl; rewrite E in Hl.
  - by rewrite lookup_empty in Hl.
  - apply lookup_singleton_Some in Hl as [-> ->]. auto.
Qed.

(** While the exclusive lock is held, and between the phases of [register_callbacks], the
    bus thread reads nothing. *)
Lemma no_reader s : invariant s -> exclusive s = true \/ gps_handle s = None -> bus_reads (bus s) = false.
Proof.
  intros [_ Hb _ _] H. destruct (bus s); try done; destruct Hb, H; congruence.
Qed.

(** A step of the reclaiming thread that leaves the handle and the lock alone. *)
Lemma invariant_goto s t pc pc' :
  invariant s -> reclaimers s !! t = Some pc -> reclaiming pc' s -> invariant (goto t pc' s).
Proof.
  intros Hi Hl Hr. destruct (the_reclaimer s t pc Hi Hl) as (Ha & E & _). destruct Hi as [_ Hb He Hf].
  split; simpl; [|done..]. right. split; [done|]. exists t, pc'. split; [|done].
  unfold goto; simpl. rewrite E. by rewrite insert_singleton_eq.
Qed.

(** A step of the reclaiming thread that changes the handle, the live handles or the lock. *)
Lemma invariant_reclaim s s' t pc pc' :
  invariant s -> reclaimers s !! t = Some pc ->
  reclaimers s' = <[t:=pc']> (reclaimers s) -> positioning_active s' = positioning_active s ->
  bus s' = bus s -> bus_reads (bus s) = false -> callbacks s' = callbacks s ->
  (exclusive s' = true -> callbacks s = 0%nat) -> reclaiming pc' s' ->
  (forall h, h ∈ live s' -> (h < next s')%nat) -> invariant s'.
Proof.
  intros Hi Hl Er Ea Eb Hb Ec He Hr Hf. destruct (the_reclaimer s t pc Hi Hl) as (Ha & E & _).
  split; [| |by rewrite Ec|done].
  - right. split; [by rewrite Ea|]. exists t, pc'. split; [|done]. by rewrite Er, E, insert_singleton_eq.
  - rewrite Eb. by destruct (bus s).
Qed.

(** The bus thread moves on; the shared lock it takes excludes the exclusive one. *)
Lemma invariant_bus s p :
  invariant s ->
  match p with starting h | dispatched h | stopping h => gps_handle s = Some h /\ exclusive s = false
             | _ => True end ->
  invariant (with_bus p s).
Proof. intros [Hc _ He Hf] Hp. by split. Qed.

(** The fields the invariant does not speak of. *)
Lemma invariant_last t s : invariant s -> invariant (with_last t s).
Proof. intros [Hc Hb He Hf]. by split. Qed.
Lemma invariant_clients l s : invariant s -> invariant (with_clients l s).
Proof. intros [Hc Hb He Hf]. by split. Qed.
Lemma invariant_waits w s : invariant s -> invariant (with_waits w s).
Proof. intros [Hc Hb He Hf]. by split. Qed.

(** A thread is let in when no thread is. *)
Lemma invariant_claim s t :
  invariant s -> positioning_active s = false -> invariant (goto t phase1 (with_active true s)).
Proof.
  intros [[(_ & E & Hl & Hx)|(Ha & _)] Hb He Hf] Hn; [|congruence].
  split; simpl; [|done..]. right. split; [done|]. exists t, phase1. unfold goto; simpl.
  by rewrite E, insert_empty.
Qed.

Lemma invariant_step s c s' : invariant s -> step s c s' -> invariant s'.
Proof.
  intros Hi Hs. pose proof Hi as [Hc Hb He Hf].
  destruct Hs; try match goal with
    | Hl : reclaimers ?s !! ?t = Some ?pc |- _ =>
        pose proof (the_reclaimer s t pc Hi Hl) as (Ha & E & Hr); simpl in Hr; destruct_and?
    end; try match goal with Hp : bus _ = _ |- _ => rewrite Hp in Hb end;
    auto using invariant_bus, invariant_last, invariant_waits, invariant_clients, invariant_claim;
    try (eapply invariant_goto; [by eauto using invariant_last|done|]; simpl; by split_and?).
  - by split.
  - split; simpl; [done..| |done]. congruence.
  - split; simpl; [done..| |done]. intros Hx. apply He in Hx. congruence.
  - eapply invariant_reclaim; eauto; simpl; auto.
  - eapply invariant_reclaim; eauto using no_reader; simpl; [split_and!; try done; set_solver|set_solver].
  - eapply invariant_reclaim; eauto using no_reader; simpl; split_and!; [done|set_solver|done].
  - eapply invariant_reclaim; eauto using no_reader; simpl; [split_and!; try done; set_solver|].
    intros h [->%elem_of_singleton|Hh]%elem_of_union; [lia|apply Hf in Hh; lia].
  - eapply invariant_reclaim; eauto; simpl; auto.
  - eapply invariant_reclaim; eauto using no_reader; simpl; done.
  - eapply invariant_goto; [done..|]; simpl; split_and!; try done. set_solver.
  - eapply invariant_goto; [done..|]; simpl; split_and!; try done. set_solver.
  - eapply invariant_goto; [by apply invariant_last|done|]. simpl. split; [|done]. by replace (gps_handle s).
  - eapply invariant_goto; [done..|]. simpl. split; [|done]. by replace (gps_handle s).
  - split; simpl; [|done..]. left. split_and!; try done. by rewrite E, delete_singleton_eq.
Qed.

Lemma invariant_reachable s : reachable s -> invariant s.
Proof. induction 1; eauto using invariant_initial, invariant_step. Qed.

(** The handles that live are the installed one and the one about to be. *)
Lemma no_orphan s h :
  invariant s -> h ∈ live s ->
  gps_handle s = Some h \/
  exists t, reclaimers s !! t = Some (phase3 (Some h)) \/ reclaimers s !! t = Some (phase3_locked (Some h)).
Proof.
  assert (Has : forall o, h ∈ as_set o -> o = Some h).
  { intros [x|]; simpl; [|set_solver]. by intros ->%elem_of_singleton. }
  intros [[(_ & _ & E & _)|(_ & t & pc & Er & Hr)] _ _ _] Hh.
  - left. apply Has. by rewrite <- E.
  - rewrite Er. setoid_rewrite lookup_singleton_Some.
    destruct pc; simpl in Hr; destruct_and?;
      match goal with El : live s = _ |- _ => rewrite El in Hh end;
      try apply Has in Hh; subst; eauto; try set_solver.
Qed.

Lemma installed_is_live s h : invariant s -> gps_handle s = Some h -> h ∈ live s.
Proof.
  intros [[(_ & _ & E & _)|(_ & t & pc & _ & Hr)] _ _ _] Hh.
  - rewrite E, Hh. set_solver.
  - destruct pc; simpl in Hr; destruct_and?; try congruence;
      match goal with El : live s = _ |- _ => rewrite El end; try rewrite Hh; try set_solver.
Qed.

(** Whom a step calls is the installed handle, the bus thread's copy, null when a
    callback finds no handle, or what a thread without the lock has read. *)
Lemma calls_installed s c s' :
  invariant s -> step s (Some c) s' ->
  (exists h, target c = Some h /\ gps_handle s = Some h) \/
  (by_callback c = true /\ target c = None /\ gps_handle s = None) \/
  (exists h, c = StartGps h /\ bus s = unlocked h) \/
  (exists f o, c = Unlocked f o /\ (f, o) ∈ clients s).
Proof.
  intros Hi Hs. pose proof (inv_bus s Hi) as Hb. inversion Hs; subst; simpl; eauto;
    try match goal with Hp : bus _ = _ |- _ => rewrite Hp in Hb; destruct Hb end; eauto;
    try match goal with Hl : reclaimers ?s !! ?t = Some ?pc |- _ =>
        pose proof (the_reclaimer s t pc Hi Hl) as (Ha & E & Hr); simpl in Hr; destruct_and?
    end; eauto.
  - destruct (gps_handle s'); eauto.
  - destruct (gps_handle s'); eauto.
  - right. right. right. exists f, o. split; [done|]. match goal with H : clients _ = _ |- _ => rewrite H end. set_solver.
  - right. right. left. by exists h.
Qed.

(** How many steps the reclaiming thread has before it, at most. *)
Definition rank (pc : ReclaimPc) : nat :=
  match pc with
  | phase1 => 9 | phase1_locked => 8 | phase2 => 7 | phase3 _ => 6 | phase3_locked _ => 5
  | phase4 => 4 | read_handle => 3 | dispatch _ => 2 | restart _ => 1 | release => 0
  end.

(** What the thread has of a new handle: the answer of [u_hardware_gps_new], if it was asked. *)
Definition obtained (pc : ReclaimPc) (s : State) : option bool :=
  match pc with
  | phase1 | phase1_locked | phase2 => None
  | phase3 n | phase3_locked n => Some (bool_decide (is_Some n))
  | _ => Some (bool_decide (is_Some (gps_handle s)))
  end.
Definition answered (b : bool) (pc : ReclaimPc) (s : State) : Prop :=
  obtained pc s = None \/ obtained pc s = Some b.

Definition some_step (s s' : State) : Prop := exists c, step s c s'.

(** It is never blocked but by a reader of the lock, and each step brings it nearer. *)
Lemma reclaimer_advances b s t pc :
  invariant s -> reclaimers s !! t = Some pc -> pc <> release -> callbacks s = 0%nat ->
  bus_reads (bus s) = false -> answered b pc s ->
  exists s' pc', some_step s s' /\ reclaimers s' !! t = Some pc' /\ (rank pc' < rank pc)%nat /\
    callbacks s' = 0%nat /\ bus s' = bus s /\ answered b pc' s'.
Proof.
  intros Hi Hl Hn Hc Hb Ho. destruct (the_reclaimer s t pc Hi Hl) as (Ha & E & Hr).
  assert (Hgo : forall c s' pc', step s c s' -> reclaimers s' = <[t:=pc']> (reclaimers s) ->
    (rank pc' < rank pc)%nat -> callbacks s' = callbacks s -> bus s' = bus s ->
    answered b pc' s' -> exists s' pc', some_step s s' /\ reclaimers s' !! t = Some pc' /\ (rank pc' < rank pc)%nat /\
      callbacks s' = 0%nat /\ bus s' = bus s /\ answered b pc' s').
  { intros c s' pc' Hs Er Hk Ec Eb Hb'. exists s', pc'.
    split_and!; [by exists c|by rewrite Er, lookup_insert_eq|done|by rewrite Ec|done..]. }
  unfold answered in *. destruct pc; simpl in Hr; destruct_and?; try congruence.
  - eapply Hgo; [by apply phase1_lock|done|simpl; lia|done..].
  - destruct (gps_handle s) eqn:Eh;
      [eapply Hgo; [by apply phase1_delete|..]|eapply Hgo; [by apply phase1_nothing|..]]; try done; simpl; rewrite ?Eh; auto; lia.
  - destruct b; [eapply Hgo; [by apply phase2_new|..]|eapply Hgo; [by apply phase2_null|..]]; try done; simpl; auto; lia.
  - eapply Hgo; [by apply phase3_lock|done|simpl; lia|done..].
  - eapply Hgo; [by apply phase3_install|done|simpl; lia|done..].
  - destruct (gps_handle s) eqn:Eh;
      [eapply Hgo; [by eapply phase4_dispatch|..]|eapply Hgo; [by apply phase4_nothing|..]]; try done; simpl; rewrite ?Eh; auto; lia.
  - destruct (decide (t = watchdog)) as [->|Ht].
    + destruct (gps_handle s) eqn:Eh;
        [eapply Hgo; [by eapply read_for_watchdog|..]|eapply Hgo; [by apply read_null|..]]; try done; simpl; rewrite ?Eh; auto; lia.
    + eapply Hgo; [by apply read_for_recovery|done|simpl; lia|done..].
  - eapply Hgo; [by eapply watchdog_dispatch|done|simpl; lia|done..].
  - destruct h; [eapply Hgo; [by apply restart_start|..]|eapply Hgo; [by apply restart_nothing|..]]; try done; simpl; auto; lia.
Qed.

Lemma reclaimer_finishes b n s t pc :
  (rank pc <= n)%nat -> invariant s -> reclaimers s !! t = Some pc -> callbacks s = 0%nat ->
  bus_reads (bus s) = false -> answered b pc s ->
  exists s', rtc some_step s s' /\ positioning_active s' = false /\ exclusive s' = false /\
    bus s' = bus s /\ bool_decide (is_Some (gps_handle s')) = b.
Proof.
  revert s pc. induction n as [n IH] using lt_wf_ind. intros s pc Hn Hi Hl Hc Hb Ho.
  destruct (decide (rank pc = 0%nat)) as [Hz|Hz].
  - destruct pc; try discriminate Hz. destruct (the_reclaimer _ _ _ Hi Hl) as (_ & _ & _ & Hx).
    eexists. split; [apply rtc_once; eexists; by apply release_active|]. split_and!; try done.
    destruct Ho as [|[= Ho]]; done.
  - destruct (reclaimer_advances b s t pc) as (s' & pc' & [c Hs] & Hl' & Hk & Hc' & Eb & Ho'); try done.
    { intros ->. by apply Hz. }
    destruct (IH (rank pc') ltac:(lia) s' pc') as (s2 & Hr & Ha & Hx & Eb2 & Hb2); auto.
    + eauto using invariant_step.
    + by rewrite Eb.
    + exists s2. split_and!; [|done..|congruence|done]. eapply rtc_l; [by exists c|done].
Qed.

(** ** The theorems *)

(** C10: in every reachable state of the threads at most one thread is re-registering the
    callbacks; the handles that exist are the installed one or the new one about to be
    installed, so that no handle is ever orphaned; a handle is only deleted while no
    callback of the HAL runs and the bus thread holds no lock.  Whatever the bus thread
    and the re-registering threads call on a handle exists, except for the bus thread's
    last call of [start_positioning]; what a callback calls exists too, or is null while
    no handle is installed.  The functions that take no lock call what they read, which
    is the installed handle just if it was not replaced meanwhile
    ([unlocked_call_misses] shows that nothing more holds of them). *)
Theorem handles_are_never_orphaned s :
  reachable s ->
  (forall t t' pc pc', reclaimers s !! t = Some pc -> reclaimers s !! t' = Some pc' -> t = t') /\
  (forall h, h ∈ live s -> gps_handle s = Some h \/
     exists t, reclaimers s !! t = Some (phase3 (Some h)) \/ reclaimers s !! t = Some (phase3_locked (Some h))) /\
  (forall c s', step s (Some c) s' ->
     (exists h, target c = Some h /\ h ∈ live s) \/
     (by_callback c = true /\ target c = None /\ gps_handle s = None) \/
     (exists h, c = StartGps h /\ bus s = unlocked h) \/
     (exists f o, c = Unlocked f o /\ (f, o) ∈ clients s)) /\
  (forall h s', step s (Some (DeleteGps h)) s' -> callbacks s = 0%nat /\ bus_reads (bus s) = false).
Proof.
  intros Hi%invariant_reachable. split_and!.
  - intros t t' pc pc' H1 H2. destruct (the_reclaimer s t pc Hi H1) as (_ & E & _).
    rewrite E in H2. by apply lookup_singleton_Some in H2 as [-> _].
  - intros h Hh. by apply no_orphan.
  - intros c s' Hs. destruct (calls_installed s c s' Hi Hs) as [(h & E & Hh)|]; [|by right].
    left. exists h. split; [done|]. by apply installed_is_live.
  - intros h s' Hs. inversion Hs; subst.
    destruct (the_reclaimer _ _ _ Hi ltac:(eassumption)) as (_ & _ & _ & Hx).
    split; [by apply inv_excl|]. apply no_reader; auto.
Qed.

Lemma handles_are_never_orphaned_witness :
  reachable (initial (Some 0%nat)) /\ exists s', step (initial (Some 0%nat)) None s' /\
  forall c s2, step s' (Some c) s2 ->
     (exists h, target c = Some h /\ h ∈ live s') \/
     (by_callback c = true /\ target c = None /\ gps_handle s' = None) \/
     (exists h, c = StartGps h /\ bus s' = unlocked h) \/
     (exists f o, c = Unlocked f o /\ (f, o) ∈ clients s').
Proof.
  split; [constructor|]. eexists. split; [by apply (start_fast 0)|].
  apply (handles_are_never_orphaned (with_bus (starting 0) (initial (Some 0%nat)))).
  econstructor; [constructor|by apply (start_fast 0)].
Defined.

(** C34: the recovery never deadlocks: whenever a thread is re-registering the callbacks, no
    callback of the HAL runs and the bus thread holds no lock, there are steps that lead
    to the release of [positioning_active] and of the exclusive lock. While
    [u_hardware_gps_new] was not asked yet, this holds for both its answers, and the
    handle that is installed in the end is valid just if it answers one. *)
Theorem recovery_completes (works : bool) s t pc :
  reachable s -> reclaimers s !! t = Some pc -> callbacks s = 0%nat -> bus_reads (bus s) = false ->
  exists s', rtc some_step s s' /\ positioning_active s' = false /\ exclusive s' = false /\
    bus s' = bus s /\ (obtained pc s = None -> bool_decide (is_Some (gps_handle s')) = works).
Proof.
  intros Hi%invariant_reachable Hl Hc Hb. destruct (obtained pc s) as [b|] eqn:Eo.
  - destruct (reclaimer_finishes b (rank pc) s t pc) as (s' & ? & ? & ? & ? & _); auto.
    { by right. }
    by exists s'.
  - destruct (reclaimer_finishes works (rank pc) s t pc) as (s' & ? & ? & ? & ? & ?); auto.
    { by left. }
    by exists s'.
Qed.

Lemma recovery_completes_witness :
  let s := with_bus idle (goto 1%nat phase1 (with_active true (with_bus claiming (initial None)))) in
  reachable s /\ exists s', rtc some_step s s' /\ positioning_active s' = false /\ exclusive s' = false /\
    bus s' = idle /\ (None = (None : option bool) -> bool_decide (is_Some (gps_handle s')) = true).
Proof.
  intros s. assert (Hr : reachable s).
  { eapply reachable_step; [eapply reachable_step; [apply (reachable_initial None)|by apply start_null]|].
    by apply (start_claim 1%nat). }
  split; [done|]. by apply (recovery_completes true s 1%nat phase1 Hr).
Defined.

(** Steps of the other threads while the bus thread makes no request. *)
Definition idle_step (s s' : State) : Prop := bus s = idle /\ bus s' = idle /\ some_step s s'.

Lemma deleted_handle_is_started :
  exists s s', reachable s /\ step s (Some (StartGps 0%nat)) s' /\ (0%nat ∉ live s) /\ gps_handle s = None.
Proof.
  pose (s0 := initial (Some 0%nat)).
  pose (s1 := with_last 1 (with_bus (unlocked 0%nat) (with_bus (dispatched 0%nat) (with_bus (starting 0%nat) (with_now 1 s0))))).
  pose (s2 := with_waits true (with_now 10002 (with_bus idle s1))).
  pose (s3 := with_last 10002 (with_bus (unlocked 0%nat) (with_bus (dispatched 0%nat) (with_bus (starting 0%nat) s2)))).
  pose (s4 := with_lock true (goto watchdog phase1_locked (with_waits false (goto watchdog phase1 (with_active true s3))))).
  pose (s5 := with_lock false (goto watchdog phase2 (with_handle None (live s4 ∖ {[0%nat]}) (next s4) s4))).
  exists s5. eexists. split_and!; [|by apply (start_call 0%nat)|vm_compute; by intros ?|done].
  assert (H1 : reachable s1).
  { do 4 (eapply reachable_step; [|first [by apply start_unlock|by apply start_dispatch|by apply start_fast|by apply (tick 1)]]).
    apply reachable_initial. }
  assert (H2 : reachable s2).
  { do 3 (eapply reachable_step; [|first [by apply (watchdog_stale 0%nat)|by apply (tick 10002)|by apply (start_call 0%nat)]]).
    done. }
  assert (H3 : reachable s3).
  { do 3 (eapply reachable_step; [|first [by apply start_unlock|by apply start_dispatch|by apply start_fast]]). done. }
  assert (H4 : reachable s4).
  { do 2 (eapply reachable_step; [|first [by apply watchdog_claim|by apply phase1_lock]]). done. }
  eapply reachable_step; [exact H4|by apply (phase1_delete watchdog 0%nat)].
Qed.

(** A thread that injects a reference location without the lock: it finds no handle and
    calls the driver on null; or the watchdog deletes the handle it has read before it
    calls. *)
Lemma unlocked_call_misses :
  (exists s s', reachable s /\ step s (Some (Unlocked InjectLocation None)) s') /\
  (exists s s', reachable s /\ step s (Some (Unlocked InjectLocation (Some 0%nat))) s' /\ (0%nat ∉ live s)).
Proof.
  split.
  - exists (with_clients [(InjectLocation, None)] (initial None)). eexists.
    split; [|by apply (client_call InjectLocation None [] [])].
    eapply reachable_step; [apply reachable_initial|apply (client_read InjectLocation (initial None))].
  - pose (s0 := with_last 1 (with_bus (unlocked 0%nat) (with_bus (dispatched 0%nat) (with_bus (starting 0%nat)
      (with_now 1 (initial (Some 0%nat))))))).
    pose (s1 := with_waits true (with_now 10002 (with_bus idle s0))).
    pose (s2 := with_clients [(InjectLocation, Some 0%nat)] s1).
    pose (s3 := with_lock true (goto watchdog phase1_locked (with_waits false (goto watchdog phase1 (with_active true s2))))).
    pose (s4 := with_lock false (goto watchdog phase2 (with_handle None (live s3 ∖ {[0%nat]}) (next s3) s3))).
    exists s4. eexists. split_and!; [|by apply (client_call InjectLocation (Some 0%nat) [] [])|vm_compute; by intros ?].
    assert (H1 : reachable s1).
    { do 7 (eapply reachable_step; [|first [by apply (watchdog_stale 0%nat)|by apply (tick 10002)|by apply (start_call 0%nat)
        |by apply start_unlock|by apply start_dispatch|by apply start_fast|by apply (tick 1)]]).
      apply reachable_initial. }
    assert (H3 : reachable s3).
    { do 2 (eapply reachable_step; [|first [by apply watchdog_claim|by apply phase1_lock]]).
      eapply reachable_step; [exact H1|]. apply (client_read InjectLocation s1). }
    eapply reachable_step; [exact H3|by apply (phase1_delete watchdog 0%nat)].
Qed.

Lemma stopped_receiver_is_started :
  exists s s1 s2 s3, reachable s /\ step s (Some (StopGps 0%nat)) s1 /\ rtc idle_step s1 s2 /\
    bus s2 = idle /\ step s2 (Some (StartGps 1%nat)) s3.
Proof.
  pose (s0 := with_bus idle (with_last 1 (with_bus (unlocked 0%nat) (with_bus (dispatched 0%nat)
    (with_bus (starting 0%nat) (with_now 1 (initial (Some 0%nat)))))))).
  pose (s1 := with_callbacks 1 s0).
  pose (s2 := with_bus (stopping 0%nat) (with_last 0 (with_bus stop_begun s1))).
  pose (s3 := with_waits true (with_now 10002 (with_callbacks 0 (with_last 1 (with_bus idle s2))))).
  pose (s4 := with_lock true (goto watchdog phase1_locked (with_waits false (goto watchdog phase1 (with_active true s3))))).
  pose (s5 := with_lock false (goto watchdog phase2 (with_handle None (live s4 ∖ {[0%nat]}) (next s4) s4))).
  pose (s6 := goto watchdog (phase3 (Some 1%nat)) (with_handle None ({[1%nat]} ∪ live s5) 2 s5)).
  pose (s7 := with_lock false (goto watchdog phase4 (with_handle (Some 1%nat) (live s6) 2
    (with_lock true (goto watchdog (phase3_locked (Some 1%nat)) s6))))).
  pose (s8 := goto watchdog (restart (Some 1%nat)) (goto watchdog (dispatch 1%nat) (goto watchdog read_handle s7))).
  exists s2. eexists. exists s8. eexists. split_and!; [|by apply (stop_call 0%nat)| |done|by apply (restart_start watchdog 1%nat)].
  - assert (H0 : reachable s0).
    { do 5 (eapply reachable_step; [|first [by apply (start_call 0%nat)|by apply start_unlock|by apply start_dispatch|by apply start_fast|by apply (tick 1)]]).
      apply reachable_initial. }
    do 3 (eapply reachable_step; [|first [by apply stop_fast|by apply stop_begin|by apply callback_begin]]). done.
  - assert (Hi : forall a b c d, step a d b -> bus a = idle -> bus b = idle -> rtc idle_step b c -> rtc idle_step a c).
    { intros a b c d Hs Ha Hb Hr. eapply rtc_l; [|done]. split_and!; [done..|by exists d]. }
    eapply Hi; [by apply callback_touch|done..|]. eapply Hi; [by apply (callback_end 0)|done..|].
    eapply Hi; [apply (tick 10002); by vm_compute|done..|].
    eapply Hi; [by apply (watchdog_stale 0%nat)|done..|].
    eapply Hi; [by apply watchdog_claim|done..|]. eapply Hi; [by apply (phase1_lock watchdog)|done..|].
    eapply Hi; [by apply (phase1_delete watchdog 0%nat)|done..|]. eapply Hi; [by apply (phase2_new watchdog)|done..|].
    eapply Hi; [by apply (phase3_lock watchdog (Some 1%nat))|done..|]. eapply Hi; [by apply (phase3_install watchdog (Some 1%nat))|done..|].
    eapply Hi; [by apply (phase4_dispatch watchdog 1%nat)|done..|].
    eapply Hi; [by apply (read_for_watchdog 1%nat)|done..|].
    eapply Hi; [by apply (watchdog_dispatch watchdog 1%nat 1%nat)|done..|]. apply rtc_refl.
Qed.

(** the two races of starting and stopping. [start_positioning] copies the handle and
    lets go of the lock: when the watchdog has just found the callbacks stale, it deletes
    the handle before the bus thread starts it. And a callback that is still running when
    [stop_positioning] has reset the time of the last callback sets it again: with no
    further request the watchdog then starts the receiver that was stopped. *)
Theorem start_and_stop_race :
  (exists s s', reachable s /\ step s (Some (StartGps 0%nat)) s' /\ (0%nat ∉ live s) /\ gps_handle s = None) /\
  (exists s s1 s2 s3, reachable s /\ step s (Some (StopGps 0%nat)) s1 /\ rtc idle_step s1 s2 /\
     bus s2 = idle /\ step s2 (Some (StartGps 1%nat)) s3).
Proof. exact (conj deleted_handle_is_started stopped_receiver_is_started). Qed.
End Threads.
