(* ===== verification/Chipset.v ===== *)
(** The state of the Android GPS HAL and the operations on it
    ([providers/gps/android_hardware_abstraction_layer.h/.cpp],
    [providers/gps/hardware_abstraction_layer.h]): what the driver's callbacks store, the
    assistant for SUPL servers, the modes that are dispatched to the driver, the
    registration of the callbacks, and the download of xtra data
    ([net_cpp_gps_xtra_downloader.h], [null_gps_xtra_downloader.h]).  [AndroidHal] has the
    conversion of the reports and the threads, [GpsConf] the configuration. *)
From Stdlib Require Import ZArith Lia Ascii String.
From stdpp Require Import base gmap strings list pretty.
From S2P Require Import Prelude Floats Geometry Property AndroidHal.
Local Open Scope Z_scope.
#[local] Set Warnings "-clear-no-such-hyp".

Module Chipset.
Import AndroidHal.Reports.

(** * Data *)

(** [gps::ChipsetStatus] and [SuplAssistant::Status]: enumerations over [int], into which
    the callbacks cast what the driver reports without a test. *)
Definition ChipsetStatus := Z.
Definition unknown : ChipsetStatus := 0.
Definition session_begin : ChipsetStatus := 1.
Definition session_end : ChipsetStatus := 2.
Definition engine_on : ChipsetStatus := 3.
Definition engine_off : ChipsetStatus := 4.

Definition Status := Z.
Definition request_data_connection : Status := 1.
Definition release_data_connection : Status := 2.
Definition data_connection_initiated : Status := 3.
Definition data_connection_completed : Status := 4.
Definition data_connection_failed : Status := 5.

(** [IpV4Address]: a 32-bit number; its triplets are the bytes it has in the memory of a
    little-endian machine. *)
Definition IpV4Address := Z.
Definition triplets (ip : IpV4Address) : list Z :=
  map (fun i => Z.land (Z.shiftr ip (8 * i)) 255) [0; 1; 2; 3].
Definition ip_neq (a b : IpV4Address) : bool := negb (a =? b).

(** [ReferenceTimeSample], in milliseconds. *)
Record ReferenceTimeSample : Type := MkSample { since_epoch : Z; since_boot : Z; uncertainty : Z }.

(** [operator<<] of a sample. *)
Definition print_sample (sample : ReferenceTimeSample) : string :=
  "[since epoch: " +:+ pretty (since_epoch sample) +:+ " [ms], since boot: " +:+
  pretty (since_boot sample) +:+ " [ms], uncertainty: " +:+ pretty (uncertainty sample) +:+ " [ms]".

(** [GpsXtraDownloader::Configuration] *)
Record XtraConfiguration : Type := MkXtra { timeout : Z; xtra_hosts : list string }.

(** More of the platform's header: the types of assistance, and the modes of the driver,
    which differ from one another. *)
Class HardwareGpsModes : Type := {
  AGPS_TYPE_SUPL : Z; AGPS_TYPE_C2K : Z;
  MODE_STANDALONE : Z; MODE_MS_BASED : Z; MODE_MS_ASSISTED : Z;
  RECURRENCE_PERIODIC : Z; RECURRENCE_SINGLE : Z;
  modes_differ : NoDup [MODE_STANDALONE; MODE_MS_BASED; MODE_MS_ASSISTED];
  recurrences_differ : NoDup [RECURRENCE_PERIODIC; RECURRENCE_SINGLE]
}.

(** The values of the Android headers. *)
#[export, refine] Instance android_modes : HardwareGpsModes := {|
  AGPS_TYPE_SUPL := 1; AGPS_TYPE_C2K := 2;
  MODE_STANDALONE := 0; MODE_MS_BASED := 1; MODE_MS_ASSISTED := 2;
  RECURRENCE_PERIODIC := 0; RECURRENCE_SINGLE := 1
|}.
Proof. all: apply (bool_decide_unpack _); by vm_compute. Defined.

(** The calls of the driver's functions; a handle is [None] when it is null. *)
Definition handle := option nat.
Inductive DriverCall : Type :=
| DeleteHandle (h : handle)
| NewHandle
| SetPositionMode (h : handle) (mode recurrence min_interval accuracy ttff : Z)
| SetServerForType (h : handle) (type : Z) (host_name : string) (port : Z)
| ConnectionIsOpen (h : handle) (apn : string)
| ConnectionIsClosed (h : handle)
| ConnectionNotAvailable (h : handle)
| DeleteAidingData (h : handle) (flags : Z)
| InjectLocation (h : handle) (location : UHardwareGpsLocation)
| InjectTime (h : handle) (sample : ReferenceTimeSample)
| InjectXtraData (h : handle) (data : list ascii).

(** The changes of its properties the instance announces. *)
Inductive Announcement : Type :=
| ChipsetStatusChanged (s : ChipsetStatus)
| SuplStatusChanged (s : Status)
| SuplServerChanged (ip : IpV4Address).

(** [HardwareAbstractionLayer::Impl]: its data, the calls of the driver it made and the
    changes it announced, oldest first. *)
Record Impl : Type := MkImpl {
  gps_handle : handle;
  capabilities : Z;
  assistance_mode : AssistanceMode;
  position_mode : PositionMode;
  supl_status : Status;
  supl_server_ip : IpV4Address;
  chipset_status : ChipsetStatus;
  calls : list DriverCall;
  announced : list Announcement
}.

(** The members before the constructor's body. *)
Definition initial : Impl :=
  MkImpl None 0 mobile_station_based periodic 0 0 0 [] [].

Definition handle_cell : Cell Impl handle :=
  MkCell gps_handle (fun x i => MkImpl x (capabilities i) (assistance_mode i) (position_mode i)
    (supl_status i) (supl_server_ip i) (chipset_status i) (calls i) (announced i)).
Definition capabilities_cell : Cell Impl Z :=
  MkCell capabilities (fun x i => MkImpl (gps_handle i) x (assistance_mode i) (position_mode i)
    (supl_status i) (supl_server_ip i) (chipset_status i) (calls i) (announced i)).
Definition assistance_cell : Cell Impl AssistanceMode :=
  MkCell assistance_mode (fun x i => MkImpl (gps_handle i) (capabilities i) x (position_mode i)
    (supl_status i) (supl_server_ip i) (chipset_status i) (calls i) (announced i)).
Definition position_cell : Cell Impl PositionMode :=
  MkCell position_mode (fun x i => MkImpl (gps_handle i) (capabilities i) (assistance_mode i) x
    (supl_status i) (supl_server_ip i) (chipset_status i) (calls i) (announced i)).
Definition supl_status_cell : Cell Impl Status :=
  MkCell supl_status (fun x i => MkImpl (gps_handle i) (capabilities i) (assistance_mode i)
    (position_mode i) x (supl_server_ip i) (chipset_status i) (calls i) (announced i)).
Definition supl_server_cell : Cell Impl IpV4Address :=
  MkCell supl_server_ip (fun x i => MkImpl (gps_handle i) (capabilities i) (assistance_mode i)
    (position_mode i) (supl_status i) x (chipset_status i) (calls i) (announced i)).
Definition chipset_cell : Cell Impl ChipsetStatus :=
  MkCell chipset_status (fun x i => MkImpl (gps_handle i) (capabilities i) (assistance_mode i)
    (position_mode i) (supl_status i) (supl_server_ip i) x (calls i) (announced i)).

Definition announce (a : Announcement) : M Impl unit :=
  modify (fun i => MkImpl (gps_handle i) (capabilities i) (assistance_mode i) (position_mode i)
    (supl_status i) (supl_server_ip i) (chipset_status i) (calls i) (announced i ++ [a])).
Definition call_driver (c : DriverCall) : M Impl unit :=
  modify (fun i => MkImpl (gps_handle i) (capabilities i) (assistance_mode i) (position_mode i)
    (supl_status i) (supl_server_ip i) (chipset_status i) (calls i ++ [c]) (announced i)).

(** * The download of xtra data *)

(** [GpsXtraDownloader::download_xtra_data]: an interface. *)
Definition Downloader := XtraConfiguration -> res (list ascii).

(** [NullGpsXtraDownloader] *)
Definition null_downloader : Downloader := fun _ => Ok [].

(** [std::stringstream ss{init}; ss << text]: writing begins at the first character. *)
Definition stringstream_written (init text : string) : string :=
  text +:+ String.substring (String.length text) (String.length init) init.

Section NetCpp.
(** The random number the distribution over [0 .. n - 1] draws, and the http client: the
    status and the body of the answer, or an exception. *)
Variable dist : nat -> nat.
Variable http_get : string -> Z -> res (Z * list ascii).
Definition http_ok : Z := 200.

(** [NetCppGpsXtraDownloader::download_xtra_data] *)
Definition net_cpp_downloader : Downloader := fun config =>
  match xtra_hosts config with
  | [] => Throw (runtime_error "Missing xtra hosts.")
  | _ :: _ =>
      match xtra_hosts config !! dist (length (xtra_hosts config)) with
      | None => Throw (out_of_range "vector::_M_range_check")
      | Some host =>
          response ← http_get host (timeout config);
          if negb (response.1 =? http_ok)
          then Throw (runtime_error (stringstream_written "Request for xtra data on "
                 (host +:+ " did not succeed: " +:+ pretty response.1)))
          else Ok response.2
      end
  end.

(** A host of the configuration is asked; only a status that is not OK makes an error of
    its own. *)
Lemma download_from_one_host config :
  xtra_hosts config <> [] ->
  (dist (length (xtra_hosts config)) < length (xtra_hosts config))%nat ->
  exists host, host ∈ xtra_hosts config /\
  match http_get host (timeout config) with
  | Ok (status, body) => if status =? http_ok then net_cpp_downloader config = Ok body
                         else exists what, net_cpp_downloader config = Throw (runtime_error what)
  | Throw e => net_cpp_downloader config = Throw e
  end.
Proof.
  intros Hn Hd. destruct (lookup_lt_is_Some_2 _ _ Hd) as [host Hh]. exists host.
  split; [by eapply list_elem_of_lookup_2|]. unfold net_cpp_downloader. rewrite Hh.
  destruct (xtra_hosts config); [done|]. destruct (http_get host (timeout config)) as [[st body]|e]; [|done].
  simpl. destruct (st =? http_ok); simpl; eauto.
Qed.
End NetCpp.

(** The text the error's stream was constructed with does not survive a long host. *)
Lemma error_message_is_overwritten :
  stringstream_written "Request for xtra data on " "http://h did not succeed: 404" = "http://h did not succeed: 404"
  /\ stringstream_written "Request for xtra data on " "http://h" = "http://hfor xtra data on ".
Proof. by vm_compute. Qed.

(** * The operations of the HAL *)
Section Hal.
Context `{!CoreProperty} `{!HardwareGps} `{!HardwareGpsModes}.

(** The driver's answer to a request for a mode, after the calls that were made. *)
Variable driver_accepts : list DriverCall -> DriverCall -> bool.

(** [assistance_mode_lut] and [position_mode_lut] *)
Definition assistance_mode_lut (mode : AssistanceMode) : Z :=
  match mode with
  | mobile_station_assisted => MODE_MS_ASSISTED
  | mobile_station_based => MODE_MS_BASED
  | standalone => MODE_STANDALONE
  end.
Definition position_mode_lut (mode : PositionMode) : Z :=
  match mode with periodic => RECURRENCE_PERIODIC | single_shot => RECURRENCE_SINGLE end.

Definition preferred_accuracy_in_meters : Z := 0.
Definition preferred_ttff_in_ms : Z := 0.
Definition min_interval : Z := 500.

(** What the driver is told about the modes. *)
Definition modes_call (h : handle) (am : AssistanceMode) (pm : PositionMode) : DriverCall :=
  SetPositionMode h (assistance_mode_lut am) (position_mode_lut pm) min_interval
    preferred_accuracy_in_meters preferred_ttff_in_ms.

(** [Impl::dispatch_updated_modes_to_driver] *)
Definition dispatch_updated_modes_to_driver : M Impl bool :=
  i ← gets id;
  let c := modes_call (gps_handle i) (assistance_mode i) (position_mode i) in
  call_driver c;;
  mret (driver_accepts (calls i) c).

(** [set_assistance_mode] and [set_position_mode]: the whole operations. *)
Definition set_assistance_mode (mode : AssistanceMode) : M Impl bool :=
  caps ← read capabilities_cell;
  if negb (is_capable_of_assistance caps mode) then mret false
  else write assistance_cell mode;; dispatch_updated_modes_to_driver.
Definition set_position_mode (mode : PositionMode) : M Impl bool :=
  caps ← read capabilities_cell;
  if match mode with
     | single_shot => negb (has_flag caps CAPABILITY_SINGLE_SHOT)
     | periodic => negb (has_flag caps CAPABILITY_SCHEDULING)
     end then mret false
  else write position_cell mode;; dispatch_updated_modes_to_driver.

(** [delete_all_aiding_data], [inject_reference_position] and [inject_reference_time]: the
    handle is passed on as it is. *)
Definition delete_all : Z := 65535.
Definition delete_all_aiding_data : M Impl unit :=
  h ← read handle_cell; call_driver (DeleteAidingData h delete_all).
Definition inject_position (garbage : UHardwareGpsLocation) (position : Position) : M Impl bool :=
  h ← read handle_cell;
  call_driver (InjectLocation h (inject_reference_position garbage position));; mret true.
Definition inject_reference_time (sample : ReferenceTimeSample) : M Impl bool :=
  caps ← read capabilities_cell;
  if negb (is_capable_of_time_injection caps) then mret false
  else h ← read handle_cell; call_driver (InjectTime h sample);; mret true.

(** ** [SuplAssistant] *)
Definition set_server (host_name : string) (port : Z) : M Impl unit :=
  h ← read handle_cell; call_driver (SetServerForType h AGPS_TYPE_SUPL host_name port).
Definition notify_data_connection_open_via_apn (name : string) : M Impl unit :=
  h ← read handle_cell; call_driver (ConnectionIsOpen h name).
Definition notify_data_connection_closed : M Impl unit :=
  h ← read handle_cell; call_driver (ConnectionIsClosed h).
Definition notify_data_connection_not_available : M Impl unit :=
  h ← read handle_cell; call_driver (ConnectionNotAvailable h).

(** ** The driver's callbacks *)

(** [on_status_update], for a 16-bit status. *)
Definition on_status_update (status : Z) : M Impl unit :=
  assign neqb chipset_cell status (fun s => announce (ChipsetStatusChanged s)).

(** [on_set_capabilities] *)
Definition on_set_capabilities (caps : Z) : M Impl unit := write capabilities_cell caps.

(** [UHardwareGpsAGpsStatus] and [on_agps_status_update] *)
Record AGpsStatus : Type := MkAGps { agps_type : Z; agps_status : Z; ipaddr : Z }.
Definition on_agps_status_update (status : AGpsStatus) : M Impl unit :=
  if agps_type status =? AGPS_TYPE_C2K then skip
  else
    assign neqb supl_status_cell (agps_status status) (fun s => announce (SuplStatusChanged s));;
    assign ip_neq supl_server_cell (ipaddr status) (fun ip => announce (SuplServerChanged ip)).

(** [on_request_utc_time]: [context] says whether the pointer is valid, [sample] is what
    [reference_time_source->sample()] does. *)
Definition on_request_utc_time (context : bool) (sample : res ReferenceTimeSample) : M Impl unit :=
  try_catch
    (try_catch
      (if context then s ← lift sample; inject_reference_time s;; skip else skip)
      is_runtime_error (fun _ => skip))
    any_exception (fun _ => skip).

(** [on_xtra_download_request] *)
Definition on_xtra_download_request (gps_xtra_downloader : Downloader)
    (gps_xtra_configuration : XtraConfiguration) : M Impl unit :=
  try_catch
    (try_catch
      (xtra_gps_data ← lift (gps_xtra_downloader gps_xtra_configuration);
       match xtra_gps_data with
       | [] => skip
       | _ :: _ => h ← read handle_cell; call_driver (InjectXtraData h xtra_gps_data)
       end)
      is_std_exception (fun _ => skip))
    any_exception (fun _ => skip).

Inductive Callback : Type :=
| StatusUpdate (status : Z)
| SetCapabilities (caps : Z)
| AGpsStatusUpdate (status : AGpsStatus)
| RequestUtcTime (context : bool) (sample : res ReferenceTimeSample)
| XtraDownloadRequest (d : Downloader) (config : XtraConfiguration).
Definition callback (c : Callback) : M Impl unit :=
  match c with
  | StatusUpdate s => on_status_update s
  | SetCapabilities caps => on_set_capabilities caps
  | AGpsStatusUpdate s => on_agps_status_update s
  | RequestUtcTime context sample => on_request_utc_time context sample
  | XtraDownloadRequest d config => on_xtra_download_request d config
  end.

(** [Impl::register_callbacks]: the driver may run callbacks before [u_hardware_gps_new]
    answers with [new_handle]. *)
Definition register_callbacks (during : list Callback) (new_handle : handle) : M Impl unit :=
  old ← read handle_cell;
  when (bool_decide (is_Some old)) (call_driver (DeleteHandle old));;
  write handle_cell None;;
  call_driver NewHandle;;
  for_each during callback;;
  write handle_cell new_handle;;
  when (bool_decide (is_Some new_handle)) (dispatch_updated_modes_to_driver;; skip).

(** What can be done to an instance after its construction. *)
Inductive Operation : Type :=
| OpSetAssistanceMode (mode : AssistanceMode)
| OpSetPositionMode (mode : PositionMode)
| OpDeleteAidingData
| OpInjectPosition (garbage : UHardwareGpsLocation) (position : Position)
| OpInjectTime (sample : ReferenceTimeSample)
| OpSetServer (host_name : string) (port : Z)
| OpConnectionOpen (apn : string) | OpConnectionClosed | OpConnectionNotAvailable
| OpCallback (c : Callback)
| OpRegister (during : list Callback) (new_handle : handle).
Definition perform (op : Operation) : M Impl unit :=
  match op with
  | OpSetAssistanceMode mode => set_assistance_mode mode;; skip
  | OpSetPositionMode mode => set_position_mode mode;; skip
  | OpDeleteAidingData => delete_all_aiding_data
  | OpInjectPosition garbage position => inject_position garbage position;; skip
  | OpInjectTime sample => inject_reference_time sample;; skip
  | OpSetServer host_name port => set_server host_name port
  | OpConnectionOpen apn => notify_data_connection_open_via_apn apn
  | OpConnectionClosed => notify_data_connection_closed
  | OpConnectionNotAvailable => notify_data_connection_not_available
  | OpCallback c => callback c
  | OpRegister during new_handle => register_callbacks during new_handle
  end.
Definition run (ops : list Operation) : Impl -> Impl := exec (for_each ops perform).

(** ** What the driver was last told *)

Definition mode_request (c : DriverCall) : option DriverCall :=
  match c with SetPositionMode _ _ _ _ _ _ => Some c | _ => None end.
Definition last_modes (cs : list DriverCall) : option DriverCall := last (omap mode_request cs).

Lemma last_modes_snoc cs c :
  last_modes (cs ++ [c]) = match mode_request c with Some c => Some c | None => last_modes cs end.
Proof.
  unfold last_modes. rewrite omap_app. simpl. destruct (mode_request c); simpl; [by rewrite last_snoc|].
  by rewrite app_nil_r.
Qed.

(** The last request names the modes of the instance, and its handle if it has one; without
    a request the modes are those of the construction. *)
Definition driver_knows (i : Impl) : Prop :=
  match last_modes (calls i) with
  | None => gps_handle i = None /\ assistance_mode i = mobile_station_based /\ position_mode i = periodic
  | Some c => exists h, c = modes_call h (assistance_mode i) (position_mode i) /\
                        (is_Some (gps_handle i) -> h = gps_handle i)
  end.

Lemma knows_call c : mode_request c = None -> preserves driver_knows (call_driver c).
Proof.
  intros Hc i. unfold driver_knows, exec. simpl. by rewrite last_modes_snoc, Hc.
Qed.

Lemma knows_announce a : preserves driver_knows (announce a).
Proof. intros i Hi. exact Hi. Qed.

Lemma knows_after_dispatch i : driver_knows (exec dispatch_updated_modes_to_driver i).
Proof.
  unfold driver_knows, exec. simpl. rewrite last_modes_snoc. simpl. by exists (gps_handle i).
Qed.

(** Whatever a statement did, a dispatch makes up for it. *)
Lemma knows_write_dispatch {A} (c : Cell Impl A) a {B} (f : bool -> M Impl B) :
  (forall b, preserves driver_knows (f b)) ->
  preserves driver_knows (write c a;; b ← dispatch_updated_modes_to_driver; f b).
Proof.
  intros Hf i _. change (driver_knows (exec (b ← dispatch_updated_modes_to_driver; f b) (wr c a i))).
  apply establish_bind; [apply knows_after_dispatch|done].
Qed.

Lemma knows_set_mode {A} (c : Cell Impl A) a :
  preserves driver_knows (write c a;; dispatch_updated_modes_to_driver).
Proof.
  intros i _. change (driver_knows (exec dispatch_updated_modes_to_driver (wr c a i))).
  apply knows_after_dispatch.
Qed.

Lemma knows_null : preserves driver_knows (write handle_cell None).
Proof.
  intros i. unfold driver_knows, exec. simpl. destruct (last_modes (calls i)).
  - intros (h & -> & _). exists h. split; [done|]. by intros [? ?].
  - by intros (_ & ? & ?).
Qed.

Lemma knows_stable_capabilities : stable driver_knows capabilities_cell.
Proof. intros a i Hi. exact Hi. Qed.
Lemma knows_stable_status : stable driver_knows supl_status_cell.
Proof. intros a i Hi. exact Hi. Qed.
Lemma knows_stable_server : stable driver_knows supl_server_cell.
Proof. intros a i Hi. exact Hi. Qed.
Lemma knows_stable_chipset : stable driver_knows chipset_cell.
Proof. intros a i Hi. exact Hi. Qed.

#[local] Hint Resolve knows_call knows_announce knows_null knows_stable_capabilities
  knows_stable_status knows_stable_server knows_stable_chipset : ls.
#[local] Hint Extern 1 (mode_request _ = None) => reflexivity : ls.

Ltac keeps := repeat first
  [ progress auto with ls | apply knows_set_mode
  | apply preserves_bind; [|intros ?] | apply preserves_if | apply preserves_try; [|intros ?] ].

Lemma knows_callback c : preserves driver_knows (callback c).
Proof.
  destruct c; simpl; unfold on_status_update, on_set_capabilities, on_agps_status_update,
    on_request_utc_time, on_xtra_download_request, inject_reference_time; keeps.
  destruct a; keeps.
Qed.

Lemma knows_register during new_handle : preserves driver_knows (register_callbacks during new_handle).
Proof.
  unfold register_callbacks. apply preserves_bind; [auto with ls|]. intros old.
  apply preserves_bind; [auto with ls|]. intros _.
  apply preserves_bind; [auto with ls|]. intros _.
  apply preserves_bind; [auto with ls|]. intros _.
  apply preserves_bind; [auto using knows_callback with ls|]. intros _.
  destruct new_handle as [h|]; [|keeps].
  rewrite bool_decide_true by done. apply knows_write_dispatch. auto with ls.
Qed.

Lemma knows_perform op : preserves driver_knows (perform op).
Proof.
  destruct op; simpl; auto using knows_callback, knows_register;
    unfold set_assistance_mode, set_position_mode, delete_all_aiding_data, inject_position,
      inject_reference_time, set_server, notify_data_connection_open_via_apn,
      notify_data_connection_closed, notify_data_connection_not_available; keeps.
Qed.

(** ** No operation throws *)

Lemma nothrow_call c : nothrow (call_driver c).
Proof. apply nothrow_modify. Qed.
Lemma nothrow_announce a : nothrow (announce a).
Proof. apply nothrow_modify. Qed.
Lemma nothrow_dispatch : nothrow dispatch_updated_modes_to_driver.
Proof. unfold dispatch_updated_modes_to_driver, call_driver. auto with ls. Qed.
#[local] Hint Resolve nothrow_call nothrow_announce nothrow_dispatch : ls.

Lemma nothrow_callback c : nothrow (callback c).
Proof.
  destruct c; simpl; unfold on_status_update, on_set_capabilities, on_agps_status_update,
    on_request_utc_time, on_xtra_download_request, write; auto 10 with ls.
Qed.

Lemma nothrow_perform op : nothrow (perform op).
Proof.
  destruct op; simpl; auto using nothrow_callback;
    unfold set_assistance_mode, set_position_mode, delete_all_aiding_data, inject_position,
      inject_reference_time, set_server, notify_data_connection_open_via_apn, register_callbacks,
      notify_data_connection_closed, notify_data_connection_not_available, read, write, when;
    auto 20 using nothrow_callback with ls.
Qed.
Lemma run_knows ops i : driver_knows i -> driver_knows (run ops i).
Proof. apply preserves_for_each. intros op _. apply knows_perform. Qed.

Lemma lut_injective a b : assistance_mode_lut a = assistance_mode_lut b -> a = b.
Proof.
  pose proof modes_differ as Hd. rewrite !NoDup_cons, !not_elem_of_cons in Hd.
  destruct a, b; simpl; intros E; try done; exfalso; naive_solver.
Qed.
Lemma recurrence_injective a b : position_mode_lut a = position_mode_lut b -> a = b.
Proof.
  pose proof recurrences_differ as Hd. rewrite !NoDup_cons, !not_elem_of_cons in Hd.
  destruct a, b; simpl; intros E; try done; exfalso; naive_solver.
Qed.

(** ** What the requests of the driver do *)

Lemma inject_reference_time_run sample i :
  inject_reference_time sample i =
    (if is_capable_of_time_injection (capabilities i)
     then (Ok true, exec (call_driver (InjectTime (gps_handle i) sample)) i) else (Ok false, i)).
Proof.
  unfold inject_reference_time. unfold_m. by destruct (is_capable_of_time_injection _).
Qed.

Lemma on_request_utc_time_run context sample i :
  on_request_utc_time context sample i = (Ok tt,
    match context, sample with
    | true, Ok s => if is_capable_of_time_injection (capabilities i)
                    then exec (call_driver (InjectTime (gps_handle i) s)) i else i
    | _, _ => i
    end).
Proof.
  unfold on_request_utc_time, try_catch. destruct context, sample as [s|e]; try done.
  - unfold_m. rewrite inject_reference_time_run. by destruct (is_capable_of_time_injection _).
  - unfold_m. by destruct (is_runtime_error e).
Qed.

Lemma on_xtra_download_request_run d config i :
  on_xtra_download_request d config i = (Ok tt,
    match d config with
    | Ok ((_ :: _) as data) => exec (call_driver (InjectXtraData (gps_handle i) data)) i
    | _ => i
    end).
Proof.
  unfold on_xtra_download_request, try_catch. unfold_m. destruct (d config) as [[|c l]|e]; try done.
  by destruct (is_std_exception e).
Qed.

(** A driver that reports its capabilities and asks for the time while it is created. *)
Lemma register_asking_for_time context sample new_handle i :
  let i' := exec (register_callbacks
    [SetCapabilities CAPABILITY_ON_DEMAND_TIME; RequestUtcTime context sample] new_handle) i in
  capabilities i' = CAPABILITY_ON_DEMAND_TIME /\ gps_handle i' = new_handle /\
  (CAPABILITY_ON_DEMAND_TIME <> 0 ->
   forall s, context = true -> sample = Ok s -> InjectTime None s ∈ calls i').
Proof.
  unfold register_callbacks, exec. cbn [for_each callback].
  unfold when, on_set_capabilities, write, read, modify, gets, mbind, m_bind, skip.
  destruct (bool_decide (is_Some (rd handle_cell i))); cbn -[on_request_utc_time];
    rewrite on_request_utc_time_run; cbn;
    unfold is_capable_of_time_injection, has_flag; rewrite Z.land_diag;
    destruct new_handle, context, sample as [s|e], (Z.eqb_spec CAPABILITY_ON_DEMAND_TIME 0); cbn;
    (split_and!; [done..|]); intros Hn s' Hc [= ->]; try done; set_solver.
Qed.

(** What a report of another type than C2K leaves. *)
Definition told_assistance (status : AGpsStatus) (i : Impl) : Impl :=
  MkImpl (gps_handle i) (capabilities i) (assistance_mode i) (position_mode i)
    (agps_status status) (ipaddr status) (chipset_status i) (calls i)
    (announced i ++
      (if bool_decide (supl_status i = agps_status status) then [] else [SuplStatusChanged (agps_status status)]) ++
      (if bool_decide (supl_server_ip i = ipaddr status) then [] else [SuplServerChanged (ipaddr status)])).

Lemma on_agps_status_update_run status i :
  agps_type status <> AGPS_TYPE_C2K -> on_agps_status_update status i = (Ok tt, told_assistance status i).
Proof.
  intros Et%Z.eqb_neq. unfold on_agps_status_update. rewrite Et. unfold assign, neqb, ip_neq, told_assistance.
  unfold_m. rewrite emits_iff_different.
  destruct (decide (supl_status i = agps_status status)) as [Es|Es];
    [rewrite bool_decide_false, (bool_decide_true (supl_status i = _)) by naive_solver
    |rewrite bool_decide_true, (bool_decide_false (supl_status i = _)) by done]; simpl;
    rewrite emits_iff_different; destruct (Z.eqb_spec (supl_server_ip i) (ipaddr status)) as [Ei|Ei];
    [rewrite bool_decide_true by done|rewrite bool_decide_false by done
    |rewrite bool_decide_true by done|rewrite bool_decide_false by done]; simpl;
    unfold announce; unfold_m; rewrite <- ?app_assoc, ?app_nil_r; destruct i; simpl in *; by subst.
Qed.
End Hal.

(** ** IPv4 addresses *)

(** The number a list of bytes denotes, lowest first. *)
Fixpoint number_of (bytes : list Z) : Z :=
  match bytes with [] => 0 | b :: bytes => b + 256 * number_of bytes end.

Lemma number_of_triplets ip : 0 <= ip < 2 ^ 32 -> number_of (triplets ip) = ip.
Proof.
  intros Hip.
  assert (E : triplets ip = [ip mod 256; ip / 256 mod 256; ip / 256 / 256 mod 256; ip / 256 / 256 / 256 mod 256]).
  { unfold triplets. cbn [map]. change 255 with (Z.ones 8). rewrite !Z.land_ones, !Z.shiftr_div_pow2 by lia.
    rewrite !Z.div_div by lia. change (2 ^ (8 * 0)) with 1. by rewrite Z.div_1_r. }
  rewrite E. cbn [number_of].
  pose proof (Z.div_mod ip 256). pose proof (Z.div_mod (ip / 256) 256).
  pose proof (Z.div_mod (ip / 256 / 256) 256). rewrite (Z.mod_small (ip / 256 / 256 / 256)); [lia|].
  rewrite !Z.div_div by lia. split; [apply Z.div_pos; lia|apply Z.div_lt_upper_bound; lia].
Qed.

(** * Theorems *)
Section Properties.
Context `{!CoreProperty} `{!HardwareGps} `{!HardwareGpsModes}.
Variable driver_accepts : list DriverCall -> DriverCall -> bool.

(** C26: what the driver was last told are the modes of the instance. After any sequence of
    operations and callbacks, none of which throws, the last modes that were dispatched
    are those of the instance, whether the driver accepted them or not; an instance with a
    handle has dispatched them to that handle, one that never dispatched is as it was
    constructed. The driver's numbers tell the modes apart. A mode the chipset is not
    capable of changes nothing. *)
Theorem modes_reach_the_driver (ops : list Operation) (am : AssistanceMode) (pm : PositionMode) :
  let i := run driver_accepts ops initial in
  result (for_each ops (perform driver_accepts)) initial = Ok tt /\
  match last_modes (calls i) with
  | None => gps_handle i = None /\ assistance_mode i = mobile_station_based /\ position_mode i = periodic
  | Some c => exists h, c = modes_call h (assistance_mode i) (position_mode i) /\
                        (is_Some (gps_handle i) -> h = gps_handle i)
  end /\
  (forall h, modes_call h am pm = modes_call h (assistance_mode i) (position_mode i) ->
     am = assistance_mode i /\ pm = position_mode i) /\
  (is_capable_of_assistance (capabilities i) am = false ->
     set_assistance_mode driver_accepts am i = (Ok false, i)) /\
  (is_capable_of_position (capabilities i) pm = false ->
     set_position_mode driver_accepts pm i = (Ok false, i)).
Proof.
  intros i. split_and!.
  - destruct (nothrow_for_each ops _ (nothrow_perform driver_accepts) initial) as [[] E]. exact E.
  - exact (run_knows driver_accepts ops initial (conj eq_refl (conj eq_refl eq_refl))).
  - intros h [= E1 E2]. eauto using lut_injective, recurrence_injective.
  - clearbody i. intros E. unfold set_assistance_mode. unfold_m. by rewrite E.
  - clearbody i. intros E. unfold set_position_mode. unfold_m. destruct pm; simpl in E; by rewrite E.
Qed.

(** the status of the assistance. A report of the type C2K changes nothing; any other
    stores its status and its server, calls nothing on the driver and announces just what
    differs from before, the status first. The triplets of the server are its number's
    bytes. *)
Theorem agps_status_is_stored (status : AGpsStatus) (i : Impl) :
  let (r, i') := on_agps_status_update status i in
  r = Ok tt /\ calls i' = calls i /\
  (agps_type status = AGPS_TYPE_C2K -> i' = i) /\
  (agps_type status <> AGPS_TYPE_C2K ->
    supl_status i' = agps_status status /\ supl_server_ip i' = ipaddr status /\
    announced i' = announced i ++
      (if bool_decide (supl_status i = agps_status status) then [] else [SuplStatusChanged (agps_status status)]) ++
      (if bool_decide (supl_server_ip i = ipaddr status) then [] else [SuplServerChanged (ipaddr status)]) /\
    on_agps_status_update status i' = (Ok tt, i')) /\
  (0 <= ipaddr status < 2 ^ 32 -> number_of (triplets (ipaddr status)) = ipaddr status).
Proof.
  assert (Hip := number_of_triplets (ipaddr status)).
  destruct (decide (agps_type status = AGPS_TYPE_C2K)) as [Et|Et].
  - unfold on_agps_status_update. rewrite Et, Z.eqb_refl. by split_and!.
  - rewrite on_agps_status_update_run by done. split_and!; try done. intros _. split_and!; try done.
    rewrite on_agps_status_update_run by done. unfold told_assistance. simpl.
    rewrite (bool_decide_true (agps_status status = _)), (bool_decide_true (ipaddr status = _)) by done.
    by rewrite !app_nil_r.
Qed.

(** C39: the requests of the driver. A request for the time or for xtra data never throws,
    whatever the source of the time and the download do. The sample is injected just if
    the pointer is valid, the chipset takes the time on demand and there is a sample; the
    data just if there is some. Both are passed to the handle the instance has: a driver
    that asks for the time while its new handle is being created is answered on a null
    handle. *)
Theorem requests_are_answered (context : bool) (sample : res ReferenceTimeSample)
    (d : Downloader) (config : XtraConfiguration) (new_handle : handle) (i : Impl) :
  (let (r, i') := on_request_utc_time context sample i in
   r = Ok tt /\
   calls i' = calls i ++ match context, sample with
                         | true, Ok s => if is_capable_of_time_injection (capabilities i)
                                         then [InjectTime (gps_handle i) s] else []
                         | _, _ => []
                         end) /\
  (let (r, i') := on_xtra_download_request d config i in
   r = Ok tt /\
   calls i' = calls i ++ match d config with
                         | Ok [] | Throw _ => []
                         | Ok data => [InjectXtraData (gps_handle i) data]
                         end) /\
  (let i' := exec (register_callbacks driver_accepts [SetCapabilities CAPABILITY_ON_DEMAND_TIME; RequestUtcTime context sample] new_handle) i in
   capabilities i' = CAPABILITY_ON_DEMAND_TIME /\ gps_handle i' = new_handle /\
   (CAPABILITY_ON_DEMAND_TIME <> 0 -> forall s, context = true -> sample = Ok s -> InjectTime None s ∈ calls i')).
Proof.
  split; [|split].
  - rewrite on_request_utc_time_run. split; [done|].
    destruct context, sample as [s|e]; rewrite ?app_nil_r; try done.
    destruct (is_capable_of_time_injection _); [done|by rewrite app_nil_r].
  - rewrite on_xtra_download_request_run. split; [done|].
    destruct (d config) as [[|c l]|e]; by rewrite ?app_nil_r.
  - apply register_asking_for_time.
Qed.
End Properties.

End Chipset.
