(* ===== verification/GpsConf.v ===== *)
(** The configuration of the GPS HAL: what [gps.conf] says about xtra hosts and the NTP
    server ([GpsXtraDownloader::Configuration::from_gps_conf_ini_file],
    [SntpReferenceTimeSource::Configuration::from_gps_conf_ini_file]) and how
    [HardwareAbstractionLayer::create_default_instance] reads it from two streams. *)
From Stdlib Require Import ZArith Lia Ascii String.
From stdpp Require Import base gmap strings list.
From S2P Require Import Prelude Settings AndroidHal Chipset.
Local Open Scope Z_scope.

Module GpsConf.
Import Settings.Ptree Chipset.Chipset.

(** [std::istream] and [boost::property_tree::read_ini] on it: [readable] is [good()],
    [usable] the conversion to [bool], which an end of the file alone does not falsify. *)
Class IniStream (Stream T : Type) : Type := {
  readable : Stream -> bool;
  usable : Stream -> bool;
  read_ini_stream : Stream -> res T * Stream
}.

(** The documented behaviour: a stream that is not usable is not good; the reader reads
    lines while the stream is good, so it ends on one that is not, and on one that is not
    it finds nothing; an empty tree has no keys. *)
Class IniStreamLaws (Stream T File : Type) `{!IniStream Stream T} `{!PropertyTree T File} : Prop := {
  readable_usable : forall s, readable s = true -> usable s = true;
  read_to_the_end : forall s t s', read_ini_stream s = (Ok t, s') -> readable s' = false;
  read_nothing : forall s, readable s = false -> read_ini_stream s = (Ok empty_tree, s);
  count_empty : forall k, count (File := File) k empty_tree = 0%nat
}.

(** [SntpReferenceTimeSource::Configuration] *)
Record SntpConfiguration : Type := MkSntp { host : string; sntp_timeout : Z }.
Definition default_sntp : SntpConfiguration := MkSntp "pool.ntp.org" 5000.

(** The default of [GpsXtraDownloader::Configuration]. *)
Definition default_xtra : XtraConfiguration := MkXtra 30000 [].

Definition fallback_hosts : list string :=
  [ "http://xtra1.gpsonextra.net/xtra2.bin";
    "http://xtra2.gpsonextra.net/xtra2.bin";
    "http://xtra3.gpsonextra.net/xtra2.bin" ].

Section Reading.
Context {Stream T File : Type} `{!IniStream Stream T} `{!PropertyTree T File}.

(** [if (config.count(key) > 0) result.xtra_hosts.push_back(config.get<std::string>(key));] *)
Definition push_host (config : T) (key : string) (hosts : list string) : res (list string) :=
  if (0 <? count (File := File) key config)%nat
  then h ← get (File := File) key config; Ok (hosts ++ [h])
  else Ok hosts.

Definition xtra_of_tree (config : T) : res XtraConfiguration :=
  hosts ← push_host config "XTRA_SERVER_1" [];
  hosts ← push_host config "XTRA_SERVER_2" hosts;
  hosts ← push_host config "XTRA_SERVER_3" hosts;
  Ok (MkXtra (timeout default_xtra) hosts).

(** [GpsXtraDownloader::Configuration::from_gps_conf_ini_file] *)
Definition xtra_from_gps_conf_ini_file : M Stream XtraConfiguration :=
  config ← read_ini_stream; lift (xtra_of_tree config).

Definition sntp_of_tree (config : T) : res SntpConfiguration :=
  if (0 <? count (File := File) "NTP_SERVER" config)%nat
  then h ← get (File := File) "NTP_SERVER" config; Ok (MkSntp h (sntp_timeout default_sntp))
  else Ok default_sntp.

(** [SntpReferenceTimeSource::Configuration::from_gps_conf_ini_file] *)
Definition sntp_from_gps_conf_ini_file : M Stream SntpConfiguration :=
  config ← read_ini_stream; lift (sntp_of_tree config).

(** [sntp_reference_time_source_configuration] *)
Definition sntp_reference_time_source_configuration : M Stream SntpConfiguration :=
  try_catch sntp_from_gps_conf_ini_file any_exception (fun _ => mret default_sntp).

(** [gps_xtra_downloader_configuration] *)
Definition gps_xtra_downloader_configuration : M Stream XtraConfiguration :=
  try_catch
    (try_catch xtra_from_gps_conf_ini_file
      is_std_exception (fun _ => mret (MkXtra (timeout default_xtra) fallback_hosts)))
    any_exception (fun _ => mret (MkXtra (timeout default_xtra) fallback_hosts)).

(** [f(in_system_gps_conf ? in_system_gps_conf : in_gps_conf)] *)
Definition on_gps_conf {A} (f : M Stream A) : M (Stream * Stream) A := fun '(in_system, in_gps) =>
  if usable in_system
  then let (r, s) := f in_system in (r, (s, in_gps))
  else let (r, s) := f in_gps in (r, (in_system, s)).

(** [create_default_instance]: the members of the configuration are initialised in order;
    configuration and instance are static, so only the first call makes them. *)
Definition default_configuration : M (Stream * Stream) (XtraConfiguration * SntpConfiguration) :=
  xtra ← on_gps_conf gps_xtra_downloader_configuration;
  sntp ← on_gps_conf sntp_reference_time_source_configuration;
  mret (xtra, sntp).
Definition create_default_instance (instance : option (XtraConfiguration * SntpConfiguration))
    (streams : Stream * Stream) : option (XtraConfiguration * SntpConfiguration) :=
  match instance with
  | Some i => Some i
  | None => match result default_configuration streams with Ok c => Some c | Throw _ => None end
  end.

(** * Lemmas *)
Context `{!IniStreamLaws Stream T File}.

Lemma xtra_unreadable s :
  readable s = false -> gps_xtra_downloader_configuration s = (Ok default_xtra, s).
Proof.
  intros E. unfold gps_xtra_downloader_configuration, xtra_from_gps_conf_ini_file. unfold_m.
  rewrite read_nothing by done. unfold xtra_of_tree, push_host. by rewrite !count_empty.
Qed.

Lemma sntp_unreadable s :
  readable s = false -> sntp_reference_time_source_configuration s = (Ok default_sntp, s).
Proof.
  intros E. unfold sntp_reference_time_source_configuration, sntp_from_gps_conf_ini_file. unfold_m.
  rewrite read_nothing by done. unfold sntp_of_tree. by rewrite count_empty.
Qed.

Lemma xtra_ends s t s' c :
  read_ini_stream s = (Ok t, s') -> xtra_of_tree t = Ok c ->
  gps_xtra_downloader_configuration s = (Ok c, s').
Proof.
  intros E Ec. unfold gps_xtra_downloader_configuration, xtra_from_gps_conf_ini_file. unfold_m.
  by rewrite E, Ec.
Qed.

Lemma sntp_nothrow s : exists c s', sntp_reference_time_source_configuration s = (Ok c, s').
Proof.
  unfold sntp_reference_time_source_configuration, sntp_from_gps_conf_ini_file. unfold_m.
  destruct (read_ini_stream s) as [[t|e] s']; [|eauto]. destruct (sntp_of_tree t); eauto.
Qed.

Lemma xtra_nothrow s : exists c s', gps_xtra_downloader_configuration s = (Ok c, s').
Proof.
  unfold gps_xtra_downloader_configuration, xtra_from_gps_conf_ini_file. unfold_m.
  destruct (read_ini_stream s) as [[t|e] s']; [destruct (xtra_of_tree t) as [|e]; [eauto|]|];
    destruct (is_std_exception e); eauto.
Qed.

Lemma unusable_unreadable s : usable s = false -> readable s = false.
Proof. intros E. apply not_true_iff_false. intros Hr%readable_usable. congruence. Qed.

(** where the configuration of the HAL comes from. Creating the instance never fails,
    and only the first call reads anything. Without any file the instance has no xtra hosts
    at all, not the built-in ones. With a file that is read well, the xtra hosts are those
    of that file, but its NTP server is never used: reading the hosts exhausted the stream,
    so that the source of the time is the default, or, for a system file whose stream became
    unusable, what the other file says. *)
Theorem ntp_server_is_not_read (in_system in_gps : Stream) :
  (exists c, create_default_instance None (in_system, in_gps) = Some c /\
     forall streams, create_default_instance (Some c) streams = Some c) /\
  (usable in_system = false -> usable in_gps = false ->
     create_default_instance None (in_system, in_gps) = Some (default_xtra, default_sntp)) /\
  (forall t s' c, usable in_system = false -> read_ini_stream in_gps = (Ok t, s') -> xtra_of_tree t = Ok c ->
     create_default_instance None (in_system, in_gps) = Some (c, default_sntp)) /\
  (forall t s' c, usable in_system = true -> read_ini_stream in_system = (Ok t, s') -> xtra_of_tree t = Ok c ->
     create_default_instance None (in_system, in_gps) =
       Some (c, if usable s' then default_sntp
                else match result sntp_reference_time_source_configuration in_gps with
                     | Ok n => n | Throw _ => default_sntp end)).
Proof.
  unfold create_default_instance, default_configuration, on_gps_conf, result. split_and!.
  - unfold_m. destruct (usable in_system) eqn:Eu;
      [destruct (xtra_nothrow in_system) as (c & s & E)|destruct (xtra_nothrow in_gps) as (c & s & E)];
      rewrite E; simpl;
      (destruct (usable in_system) eqn:Ev; try done; try destruct (usable s));
      match goal with |- context [sntp_reference_time_source_configuration ?x] =>
        destruct (sntp_nothrow x) as (n & s2 & En); rewrite En end; eauto.
  - intros E1 E2. unfold_m. rewrite E1, xtra_unreadable by auto using unusable_unreadable.
    by rewrite E1, sntp_unreadable by auto using unusable_unreadable.
  - intros t s' c E1 Er Ec. unfold_m. rewrite E1, (xtra_ends _ _ _ _ Er Ec), E1.
    by rewrite sntp_unreadable by eauto using read_to_the_end.
  - intros t s' c E1 Er Ec. unfold_m. rewrite E1, (xtra_ends _ _ _ _ Er Ec). simpl.
    destruct (usable s') eqn:Es.
    + by rewrite sntp_unreadable by eauto using read_to_the_end.
    + destruct (sntp_nothrow in_gps) as (n & s2 & En). by rewrite En.
Qed.
End Reading.

Import Settings.Persistence.

(** A stream over a file: the keys that are still to be read, if it was opened and not
    read yet, and whether it became unusable. *)
Record FileStream : Type := MkStream { unread : option key_map; failed : bool }.
Definition opened (keys : key_map) : FileStream := MkStream (Some keys) false.
Definition missing : FileStream := MkStream None true.

#[local] Instance file_stream : IniStream FileStream key_map := {|
  readable s := match unread s with Some _ => negb (failed s) | None => false end;
  usable s := negb (failed s);
  read_ini_stream s := match unread s with
                       | Some t => if failed s then (Ok ∅, s) else (Ok t, MkStream None true)
                       | None => (Ok ∅, s)
                       end
|}.

#[local] Instance file_stream_laws : IniStreamLaws FileStream key_map key_map.
Proof.
  split; simpl.
  - intros [[t|] []]; simpl; done.
  - intros [[t|] []] t' s' [= <- <-]; done.
  - intros [[t|] []]; simpl; done.
  - done.
Qed.

Lemma ntp_server_is_not_read_witness :
  let keys : key_map := {[ "NTP_SERVER" := "ntp.example.org"; "XTRA_SERVER_1" := "http://x" ]} in
  create_default_instance (File := key_map) None (missing, opened keys) =
    Some (MkXtra 30000 ["http://x"], MkSntp "pool.ntp.org" 5000).
Proof.
  cbv zeta.
  destruct (ntp_server_is_not_read (File := key_map) missing
    (opened {[ "NTP_SERVER" := "ntp.example.org"; "XTRA_SERVER_1" := "http://x" ]})) as (_ & _ & E & _).
  eapply E; [reflexivity|reflexivity|by vm_compute].
Defined.
End GpsConf.
