(* ===== verification/Codec.v ===== *)
(** The D-Bus encoding of the service's values ([codec.h]): one [Codec] per type, written
    against the interface of the message writer and reader, with a law per codec that
    what is written is read back. *)
From Stdlib Require Import ZArith Lia SpecFloat Ascii.
From stdpp Require Import base gmap strings list.
From S2P Require Import Prelude Floats Geometry Criteria Provider Settings.
Local Open Scope Z_scope.
#[local] Set Warnings "-clear-no-such-hyp,-register-all".

(** * Messages *)
Module Wire.

(** [Message::Writer] and [Message::Reader] of the D-Bus library: what the source calls. *)
Class Dbus (Writer Reader : Type) : Type := {
  push_boolean : bool -> Writer -> Writer;
  push_floating_point : double -> Writer -> Writer;
  push_uint32 : Z -> Writer -> Writer;
  push_int32 : Z -> Writer -> Writer;
  push_int64 : Z -> Writer -> Writer;
  push_stringn : string -> Writer -> Writer;
  open_structure : Writer -> Writer;
  close_structure : Writer -> Writer -> Writer;
  open_array : string -> Writer -> Writer;
  close_array : Writer -> Writer -> Writer;
  pop_boolean : Reader -> res (bool * Reader);
  pop_floating_point : Reader -> res (double * Reader);
  pop_uint32 : Reader -> res (Z * Reader);
  pop_int32 : Reader -> res (Z * Reader);
  pop_int64 : Reader -> res (Z * Reader);
  pop_string : Reader -> res (string * Reader);
  pop_structure : Reader -> res (Reader * Reader);
  pop_array : Reader -> res (Reader * Reader);
  type_is_invalid : Reader -> bool
}.

(** The arguments of a message, as the D-Bus specification has them. *)
Inductive Arg : Type :=
| Boolean (b : bool) | Double (d : double) | Uint32 (z : Z) | Int32 (z : Z) | Int64 (z : Z)
| String_ (s : string) | Structure (l : list Arg) | Array (l : list Arg).

(** What the library documents: a writer appends arguments, a reader takes them in the
    order in which they were written; sub-writers and sub-readers do so in a container. *)
Class DbusLaws (Writer Reader : Type) `{Dbus Writer Reader} : Type := {
  written : Writer -> list Arg;
  remaining : Reader -> list Arg;
  written_boolean b w : written (push_boolean b w) = written w ++ [Boolean b];
  written_double d w : written (push_floating_point d w) = written w ++ [Double d];
  written_uint32 z w : 0 <= z < 2 ^ 32 -> written (push_uint32 z w) = written w ++ [Uint32 z];
  written_int32 z w : INT_MIN <= z <= INT_MAX -> written (push_int32 z w) = written w ++ [Int32 z];
  written_int64 z w : - 2 ^ 63 <= z < 2 ^ 63 -> written (push_int64 z w) = written w ++ [Int64 z];
  written_string s w : written (push_stringn s w) = written w ++ [String_ s];
  written_open_structure w : written (open_structure w) = [];
  written_close_structure w sub : written (close_structure w sub) = written w ++ [Structure (written sub)];
  written_open_array s w : written (open_array s w) = [];
  written_close_array w sub : written (close_array w sub) = written w ++ [Array (written sub)];
  read_boolean b r l : remaining r = Boolean b :: l ->
    exists r', pop_boolean r = Ok (b, r') /\ remaining r' = l;
  read_double d r l : remaining r = Double d :: l ->
    exists r', pop_floating_point r = Ok (d, r') /\ remaining r' = l;
  read_uint32 z r l : remaining r = Uint32 z :: l -> exists r', pop_uint32 r = Ok (z, r') /\ remaining r' = l;
  read_int32 z r l : remaining r = Int32 z :: l -> exists r', pop_int32 r = Ok (z, r') /\ remaining r' = l;
  read_int64 z r l : remaining r = Int64 z :: l -> exists r', pop_int64 r = Ok (z, r') /\ remaining r' = l;
  read_string s r l : remaining r = String_ s :: l -> exists r', pop_string r = Ok (s, r') /\ remaining r' = l;
  read_structure xs r l : remaining r = Structure xs :: l ->
    exists sub r', pop_structure r = Ok (sub, r') /\ remaining sub = xs /\ remaining r' = l;
  read_array xs r l : remaining r = Array xs :: l ->
    exists sub r', pop_array r = Ok (sub, r') /\ remaining sub = xs /\ remaining r' = l;
  read_type r : type_is_invalid r = bool_decide (remaining r = [])
}.

(** A message in memory, to instantiate the interface. *)
Definition pop_with {A} (f : Arg -> option A) (r : list Arg) : res (A * list Arg) :=
  match r with
  | a :: l => match f a with Some x => Ok (x, l) | None => Throw (runtime_error "Mismatch between expected and actual type") end
  | [] => Throw (runtime_error "Mismatch between expected and actual type")
  end.
#[export] Instance memory : Dbus (list Arg) (list Arg) := {|
  push_boolean b w := w ++ [Boolean b]; push_floating_point d w := w ++ [Double d];
  push_uint32 z w := w ++ [Uint32 z]; push_int32 z w := w ++ [Int32 z];
  push_int64 z w := w ++ [Int64 z]; push_stringn s w := w ++ [String_ s];
  open_structure w := []; close_structure w sub := w ++ [Structure sub];
  open_array s w := []; close_array w sub := w ++ [Array sub];
  pop_boolean := pop_with (fun a => match a with Boolean b => Some b | _ => None end);
  pop_floating_point := pop_with (fun a => match a with Double b => Some b | _ => None end);
  pop_uint32 := pop_with (fun a => match a with Uint32 b => Some b | _ => None end);
  pop_int32 := pop_with (fun a => match a with Int32 b => Some b | _ => None end);
  pop_int64 := pop_with (fun a => match a with Int64 b => Some b | _ => None end);
  pop_string := pop_with (fun a => match a with String_ b => Some b | _ => None end);
  pop_structure := pop_with (fun a => match a with Structure b => Some b | _ => None end);
  pop_array := pop_with (fun a => match a with Array b => Some b | _ => None end);
  type_is_invalid r := match r with [] => true | _ => false end
|}.
#[export] Instance memory_laws : DbusLaws (list Arg) (list Arg).
Proof.
  refine {| written w := w; remaining r := r |}; try done;
    try (intros x r l ->; simpl; eauto; done).
  by intros [|].
Defined.

End Wire.
Import Wire Enums.

(** * Declared types *)
Module Signatures.

(** [ArgumentType], as far as the source names it. *)
Inductive ArgumentType : Set := string_ | floating_point | structure | array.

(** [helper::TypeMapper<T>] *)
Record TypeMapper : Type := MkMapper {
  type_value : ArgumentType; is_basic_type : bool; requires_signature : bool; signature : string
}.

(** The library's mappers of the basic types: only their signatures are used. *)
Class BasicSignatures : Type := {
  sig_string : string; sig_double : string; sig_float : string; sig_bool : string;
  sig_uint32 : string; sig_uint64 : string
}.
(** The type codes of the D-Bus specification; a [float] travels as a double. *)
#[export] Instance dbus_codes : BasicSignatures := {|
  sig_string := "s"; sig_double := "d"; sig_float := "d"; sig_bool := "b"; sig_uint32 := "u"; sig_uint64 := "t"
|}.

Section Mappers.
Context `{BasicSignatures}.
Local Open Scope string_scope.

Definition mapper_state : TypeMapper := MkMapper string_ true false sig_string.
Definition mapper_quantity : TypeMapper := MkMapper floating_point true false sig_double.
Definition mapper_key : TypeMapper := MkMapper structure false true (sig_uint32 ++ sig_uint32).
Definition mapper_vehicle : TypeMapper :=
  MkMapper structure false true
    ("(" ++ signature mapper_key ++ sig_float ++ sig_bool ++ sig_bool ++ sig_bool ++
     signature mapper_quantity ++ signature mapper_quantity ++ ")").
Definition mapper_vehicle_map : TypeMapper := MkMapper array false true ("a" ++ signature mapper_vehicle).
Definition mapper_update (mapper : TypeMapper) : TypeMapper :=
  MkMapper structure false true (signature mapper ++ sig_uint64).
End Mappers.

(** The type codes of what is written. *)
Fixpoint code (a : Arg) : string :=
  match a with
  | Boolean _ => "b" | Double _ => "d" | Uint32 _ => "u" | Int32 _ => "i" | Int64 _ => "x" | String_ _ => "s"
  | Structure l => String.append "(" (String.append (String.concat "" (map code l)) ")")
  | Array l => String.append "a" (match l with x :: _ => code x | [] => "" end)
  end.
End Signatures.
Import Signatures.

(** * The codecs *)
Module Codecs.

(** What decoding comes to: a value and the reader after it, an exception, or an
    enumeration that was cast from a number none of its enumerators has. *)
Inductive got (A : Type) : Type := Got (a : A) | Threw (e : exn) | Unnamed (n : Z).
Arguments Got {A} a.
Arguments Threw {A} e.
Arguments Unnamed {A} n.

#[export] Instance got_ret : MRet got := fun A a => Got a.
#[export] Instance got_bind : MBind got := fun A B f m =>
  match m with Got a => f a | Threw e => Threw e | Unnamed n => Unnamed n end.

Definition of_res {A} (r : res A) : got A := match r with Ok a => Got a | Throw e => Threw e end.

Section Codecs.
Context {Writer Reader : Type} `{Dbus Writer Reader}.
Context `{BasicSignatures}.

(** [struct Codec<T>]: [encode_argument(writer, in)] and [decode_argument(reader, in)],
    whose [in] is assigned to. *)
Record Codec (T : Type) : Type := MkCodec {
  encode_argument : Writer -> T -> Writer;
  decode_argument : Reader -> T -> got (T * Reader)
}.
Arguments encode_argument {T} c writer in_ : rename.
Arguments decode_argument {T} c reader in_ : rename.
Arguments MkCodec {T}.

(** The library's codecs of the basic types. *)
Definition codec_bool : Codec bool :=
  MkCodec (fun writer in_ => push_boolean in_ writer) (fun reader _ => of_res (pop_boolean reader)).
Definition codec_double : Codec double :=
  MkCodec (fun writer in_ => push_floating_point in_ writer) (fun reader _ => of_res (pop_floating_point reader)).
Definition codec_int64 : Codec Z :=
  MkCodec (fun writer in_ => push_int64 in_ writer) (fun reader _ => of_res (pop_int64 reader)).

(** [Codec<service::State>]: its text. *)
Definition codec_state : Codec State :=
  MkCodec (fun writer in_ => push_stringn (print_state in_) writer)
          (fun reader _ => '(s, r) ← of_res (pop_string reader); v ← of_res (parse_state s); Got (v, r)).

(** [Codec<Optional<T>>], where [value] is a fresh [T]. *)
Definition codec_optional {T} (c : Codec T) (value : T) : Codec (option T) :=
  MkCodec
    (fun writer in_ =>
       let has_value := match in_ with Some _ => true | None => false end in
       let writer := encode_argument codec_bool writer has_value in
       match in_ with Some v => encode_argument c writer v | None => writer end)
    (fun reader _ =>
       '(has_value, r) ← decode_argument codec_bool reader false;
       if has_value : bool
       then '(v, r) ← decode_argument c r value; Got (Some v, r)
       else Got (None, r)).

(** [Codec<Quantity<T>>] and [Codec<Coordinate<T, U>>]. *)
Definition codec_quantity : Codec double :=
  MkCodec (fun writer in_ => encode_argument codec_double writer in_)
          (fun reader in_ => decode_argument codec_double reader (S754_zero false)).
Definition codec_coordinate : Codec double :=
  MkCodec (fun writer in_ => encode_argument codec_quantity writer in_)
          (fun reader in_ => decode_argument codec_quantity reader in_).
Definition optional_quantity : Codec (option double) := codec_optional codec_quantity (S754_zero false).
Definition optional_altitude : Codec (option double) := codec_optional codec_coordinate (S754_zero false).

(** [Codec<Position>] *)
Definition codec_position : Codec Geometry.Position :=
  MkCodec
    (fun writer in_ =>
       let writer := encode_argument codec_coordinate writer (latitude in_) in
       let writer := encode_argument codec_coordinate writer (longitude in_) in
       let writer := encode_argument optional_altitude writer (altitude in_) in
       let writer := encode_argument optional_quantity writer (horizontal in_) in
       encode_argument optional_quantity writer (vertical in_))
    (fun reader in_ =>
       '(lat, r) ← decode_argument codec_coordinate reader (latitude in_);
       '(lon, r) ← decode_argument codec_coordinate r (longitude in_);
       '(alt, r) ← decode_argument optional_altitude r (altitude in_);
       '(hor, r) ← decode_argument optional_quantity r (horizontal in_);
       '(ver, r) ← decode_argument optional_quantity r (vertical in_);
       Got (MkPosition lat lon alt hor ver, r)).

(** [Codec<SpaceVehicle::Key>]: the cast of a number to [Type]. *)
Definition type_of_index (n : Z) : option SV.Type_ :=
  List.find (fun t => SV.type_index t =? n)
    [SV.unknown; SV.beidou; SV.galileo; SV.glonass; SV.gps; SV.compass; SV.irnss; SV.qzss].
Definition codec_key : Codec SV.Key :=
  MkCodec
    (fun writer in_ =>
       let writer := push_uint32 (wrap_u 32 (SV.type_index (SV.type in_))) writer in
       push_uint32 (SV.id in_) writer)
    (fun reader in_ =>
       '(n, r) ← of_res (pop_uint32 reader);
       t ← (match type_of_index (wrap_s 32 n) with Some t => Got t | None => Unnamed n end);
       '(i, r) ← of_res (pop_uint32 r);
       Got (SV.MkKey t i, r)).

(** [Codec<SpaceVehicle>]: a structure; the signal to noise ratio travels as a double. *)
Definition codec_vehicle : Codec SV.SpaceVehicle :=
  MkCodec
    (fun writer in_ =>
       let sub := open_structure writer in
       let sub := encode_argument codec_key sub (SV.key in_) in
       let sub := push_floating_point (double_of_float (SV.snr in_)) sub in
       let sub := push_boolean (SV.has_almanac_data in_) sub in
       let sub := push_boolean (SV.has_ephimeris_data in_) sub in
       let sub := push_boolean (SV.used_in_fix in_) sub in
       let sub := encode_argument codec_quantity sub (SV.azimuth in_) in
       let sub := encode_argument codec_quantity sub (SV.elevation in_) in
       close_structure writer sub)
    (fun reader in_ =>
       '(sub, r) ← of_res (pop_structure reader);
       '(k, sub) ← decode_argument codec_key sub (SV.key in_);
       '(snr, sub) ← of_res (pop_floating_point sub);
       '(almanac, sub) ← of_res (pop_boolean sub);
       '(ephimeris, sub) ← of_res (pop_boolean sub);
       '(used, sub) ← of_res (pop_boolean sub);
       '(az, sub) ← decode_argument codec_quantity sub (SV.azimuth in_);
       '(el, sub) ← decode_argument codec_quantity sub (SV.elevation in_);
       Got (SV.MkSV k (float_of_double snr) almanac ephimeris used az el, r)).

(** A fresh [SpaceVehicle]. *)
Definition fresh_vehicle : SV.SpaceVehicle :=
  SV.MkSV (SV.MkKey SV.unknown 0) (S754_finite true 16777215 104) false false false
    (S754_zero false) (S754_zero false).

(** [Codec<std::map<Key, SpaceVehicle>>]: the [while] loop of [decode_argument] runs
    once per element of the array. *)
Section Vehicles.
Variable fuel : nat.

Fixpoint decode_vehicles (n : nat) (sub : Reader) (out : list (SV.Key * SV.SpaceVehicle))
  : option (got (list (SV.Key * SV.SpaceVehicle))) :=
  if type_is_invalid sub then Some (Got out)
  else match n with
       | O => None
       | S n =>
           match decode_argument codec_vehicle sub fresh_vehicle with
           | Got (sv, sub) => decode_vehicles n sub (SV.insert (SV.key sv) sv out)
           | Threw e => Some (Threw e)
           | Unnamed k => Some (Unnamed k)
           end
       end.

Definition encode_vehicles (writer : Writer) (arg : list (SV.Key * SV.SpaceVehicle)) : Writer :=
  let sub := open_array (signature mapper_vehicle) writer in
  let sub := fold_left (fun sub element => encode_argument codec_vehicle sub element.2) arg sub in
  close_array writer sub.
(** [None]: the loop did not end. *)
Definition decode_vehicle_map (reader : Reader) (out : list (SV.Key * SV.SpaceVehicle))
  : option (got (list (SV.Key * SV.SpaceVehicle) * Reader)) :=
  match pop_array reader with
  | Throw e => Some (Threw e)
  | Ok (sub, r) =>
      match decode_vehicles fuel sub out with
      | None => None
      | Some m => Some (out ← m; Got (out, r))
      end
  end.
End Vehicles.

(** [Codec<Criteria>] *)
Definition codec_criteria : Codec Criteria.Criteria :=
  MkCodec
    (fun writer in_ =>
       let req := Criteria.requires in_ in let acc := Criteria.accuracy in_ in
       let writer := encode_argument codec_bool writer (Criteria.position req) in
       let writer := encode_argument codec_bool writer (Criteria.altitude req) in
       let writer := encode_argument codec_bool writer (Criteria.heading req) in
       let writer := encode_argument codec_bool writer (Criteria.velocity req) in
       let writer := encode_argument codec_quantity writer (Criteria.horizontal acc) in
       let writer := encode_argument optional_quantity writer (Criteria.vertical acc) in
       let writer := encode_argument optional_quantity writer (Criteria.acc_velocity acc) in
       encode_argument optional_quantity writer (Criteria.acc_heading acc))
    (fun reader in_ =>
       let req := Criteria.requires in_ in let acc := Criteria.accuracy in_ in
       '(p, r) ← decode_argument codec_bool reader (Criteria.position req);
       '(a, r) ← decode_argument codec_bool r (Criteria.altitude req);
       '(h, r) ← decode_argument codec_bool r (Criteria.heading req);
       '(v, r) ← decode_argument codec_bool r (Criteria.velocity req);
       '(hor, r) ← decode_argument codec_quantity r (Criteria.horizontal acc);
       '(ver, r) ← decode_argument optional_quantity r (Criteria.vertical acc);
       '(vel, r) ← decode_argument optional_quantity r (Criteria.acc_velocity acc);
       '(hea, r) ← decode_argument optional_quantity r (Criteria.acc_heading acc);
       Got (Criteria.MkCriteria (Criteria.MkRequires p a v h) (Criteria.MkAccuracy hor ver vel hea), r)).

(** [Codec<Provider::Features>] and [Codec<Provider::Requirements>]: any bits. *)
Definition codec_flags : Codec Z :=
  MkCodec (fun writer in_ => push_int32 in_ writer) (fun reader _ => of_res (pop_int32 reader)).

(** [Codec<WifiAndCellIdReportingState>] *)
Definition wifi_index (w : Wifi) : Z := match w with wifi_on => 0 | wifi_off => 1 end.
Definition codec_wifi : Codec Wifi :=
  MkCodec (fun writer in_ => push_int32 (wifi_index in_) writer)
          (fun reader _ =>
             '(n, r) ← of_res (pop_int32 reader);
             if n =? 0 then Got (wifi_on, r) else if n =? 1 then Got (wifi_off, r) else Unnamed n).

(** [Codec<Update<T>>] *)
Definition codec_update {T} (c : Codec T) : Codec (Update T) :=
  MkCodec
    (fun writer in_ =>
       let writer := encode_argument c writer (value in_) in
       encode_argument codec_int64 writer (when_ in_))
    (fun reader in_ =>
       '(v, r) ← decode_argument c reader (value in_);
       '(t, r) ← of_res (pop_int64 r);
       Got (MkUpdate v t, r)).


(** * What is written is read back *)
Context `{!DbusLaws Writer Reader}.

(** Encoding appends some arguments to the message, decoding takes them off and yields
    the value again, whatever it is assigned to. *)
Definition transports {T} (c : Codec T) (v : T) : Prop :=
  exists items,
    (forall w, written (encode_argument c w v) = written w ++ items) /\
    (forall r in_ l, remaining r = items ++ l ->
       exists r', decode_argument c r in_ = Got (v, r') /\ remaining r' = l).

Lemma transports_bool b : transports codec_bool b.
Proof.
  exists [Boolean b]. split; [intros w; apply written_boolean|]. intros r in_ l Hr. simpl in Hr.
  destruct (read_boolean b r l Hr) as (r' & E & Hl). exists r'. simpl. by rewrite E.
Qed.

Lemma transports_double d : transports codec_double d.
Proof.
  exists [Double d]. split; [intros w; apply written_double|]. intros r in_ l Hr. simpl in Hr.
  destruct (read_double d r l Hr) as (r' & E & Hl). exists r'. simpl. by rewrite E.
Qed.

Lemma transports_quantity d : transports codec_quantity d.
Proof. destruct (transports_double d) as (items & Hw & Hr). exists items. split; [exact Hw|]. intros r in_ l. apply Hr. Qed.

Lemma transports_coordinate d : transports codec_coordinate d.
Proof. exact (transports_quantity d). Qed.

Lemma transports_optional {T} (c : Codec T) (d : T) (o : option T) :
  (forall v, o = Some v -> transports c v) -> transports (codec_optional c d) o.
Proof.
  intros Hc. destruct o as [v|].
  - destruct (Hc v eq_refl) as (vs & Hw & Hr), (transports_bool true) as (bs & Hbw & Hbr).
    exists (bs ++ vs). split.
    + intros w. simpl. rewrite Hw. simpl in Hbw. by rewrite Hbw, app_assoc.
    + intros r in_ l E. rewrite <- app_assoc in E. destruct (Hbr r false _ E) as (r1 & E1 & Hr1).
      destruct (Hr r1 d l Hr1) as (r2 & E2 & Hr2). exists r2. split; [|done].
      simpl in *. by rewrite E1; simpl; rewrite E2.
  - destruct (transports_bool false) as (bs & Hbw & Hbr). exists bs. split.
    + intros w. simpl in *. auto.
    + intros r in_ l E. destruct (Hbr r false _ E) as (r1 & E1 & Hr1). exists r1. split; [|done].
      simpl in *. by rewrite E1.
Qed.

Lemma transports_optional_quantity o : transports optional_quantity o.
Proof. apply transports_optional. intros v _. apply transports_quantity. Qed.
Lemma transports_optional_altitude o : transports optional_altitude o.
Proof. apply transports_optional. intros v _. apply transports_coordinate. Qed.

(** The codec of a record runs those of its fields: [carried] opens what is known of one
    field, [write_all] and [read_all] run the two directions. *)
Ltac carried H := let its := fresh "its" in let Hw := fresh "Hw" in let Hr := fresh "Hr" in
  destruct H as (its & Hw & Hr).
Ltac write_all :=
  cbn [encode_argument];
  repeat match goal with Hw : forall w, written (encode_argument ?c w ?v) = _ |- context [written (encode_argument ?c _ ?v)] =>
    rewrite Hw end;
  rewrite <- ?app_assoc; try reflexivity.
Ltac read_all :=
  cbn [decode_argument];
  repeat (match goal with
    | E : remaining ?r = ?its ++ _, Hr : forall r in_ l, remaining r = ?its ++ l -> _
      |- context [decode_argument ?c ?r ?v] =>
        let r' := fresh "r'" in let D := fresh "D" in let E' := fresh "E'" in
        destruct (Hr r v _ E) as (r' & D & E'); rewrite D; clear D E
    end; unfold mbind, got_bind; cbv beta iota).

Lemma transports_position p : transports codec_position p.
Proof.
  destruct p as [lat lon alt hor ver].
  carried (transports_coordinate lat). carried (transports_coordinate lon).
  carried (transports_optional_altitude alt). carried (transports_optional_quantity hor).
  carried (transports_optional_quantity ver).
  exists (its ++ its0 ++ its1 ++ its2 ++ its3). split.
  - intros w. unfold codec_position. cbn [latitude longitude altitude horizontal vertical]. write_all.
  - intros r in_ l E. rewrite <- !app_assoc in E. unfold codec_position. read_all. eauto.
Qed.

Lemma transports_criteria c : transports codec_criteria c.
Proof.
  destruct c as [[p a v h] [hor ver vel hea]].
  carried (transports_bool p). carried (transports_bool a). carried (transports_bool h).
  carried (transports_bool v). carried (transports_quantity hor).
  carried (transports_optional_quantity ver). carried (transports_optional_quantity vel).
  carried (transports_optional_quantity hea).
  exists (its ++ its0 ++ its1 ++ its2 ++ its3 ++ its4 ++ its5 ++ its6). split.
  - intros w. unfold codec_criteria.
    cbn [Criteria.requires Criteria.accuracy Criteria.position Criteria.altitude Criteria.heading Criteria.velocity
      Criteria.horizontal Criteria.vertical Criteria.acc_velocity Criteria.acc_heading]. write_all.
  - intros r in_ l E. rewrite <- !app_assoc in E. unfold codec_criteria. read_all. eauto.
Qed.

Definition int64 (z : Z) : Prop := - 2 ^ 63 <= z < 2 ^ 63.

Lemma transports_int64 z : int64 z -> transports codec_int64 z.
Proof.
  intros Hz. exists [Int64 z]. split; [intros w; by apply written_int64|]. intros r in_ l Hr. simpl in Hr.
  destruct (read_int64 z r l Hr) as (r' & E & Hl). exists r'. simpl. by rewrite E.
Qed.

Lemma transports_update {T} (c : Codec T) (u : Update T) :
  transports c (value u) -> int64 (when_ u) -> transports (codec_update c) u.
Proof.
  destruct u as [v t]. cbn [value when_]. intros Hc Ht. carried Hc. carried (transports_int64 t Ht).
  exists (its ++ its0). split.
  - intros w. unfold codec_update. cbn [value when_]. write_all.
  - intros r in_ l E. rewrite <- !app_assoc in E. unfold codec_update.
    change (of_res (pop_int64 ?r)) with (decode_argument codec_int64 r 0). read_all. eauto.
Qed.

Lemma transports_state x : transports codec_state x.
Proof.
  exists [String_ (print_state x)]. split; [intros w; apply written_string|]. intros r in_ l Hr. simpl in Hr.
  destruct (read_string _ r l Hr) as (r' & E & Hl). exists r'. split; [|done].
  unfold codec_state. cbn [decode_argument]. rewrite E. cbn [of_res]. unfold mbind, got_bind.
  by rewrite parse_print_state.
Qed.

Lemma transports_flags z : INT_MIN <= z <= INT_MAX -> transports codec_flags z.
Proof.
  intros Hz. exists [Int32 z]. split; [intros w; by apply written_int32|]. intros r in_ l Hr. simpl in Hr.
  destruct (read_int32 z r l Hr) as (r' & E & Hl). exists r'. simpl. by rewrite E.
Qed.

Lemma transports_wifi x : transports codec_wifi x.
Proof.
  assert (Hi : INT_MIN <= wifi_index x <= INT_MAX) by (unfold INT_MIN, INT_MAX; destruct x; simpl; lia).
  exists [Int32 (wifi_index x)]. split; [intros w; by apply written_int32|]. intros r in_ l Hr. simpl in Hr.
  destruct (read_int32 _ r l Hr) as (r' & E & Hl). exists r'. simpl. rewrite E. split; [by destruct x|done].
Qed.

(** A vehicle that the source can hold. *)
Definition representable (v : SV.SpaceVehicle) : Prop :=
  0 <= SV.id (SV.key v) < 2 ^ 32 /\ valid_binary 24 128 (SV.snr v) = true.

Definition vehicle_args (v : SV.SpaceVehicle) : list Arg :=
  [Uint32 (SV.type_index (SV.type (SV.key v))); Uint32 (SV.id (SV.key v)); Double (double_of_float (SV.snr v));
   Boolean (SV.has_almanac_data v); Boolean (SV.has_ephimeris_data v); Boolean (SV.used_in_fix v);
   Double (SV.azimuth v); Double (SV.elevation v)].

Lemma written_vehicle w v :
  representable v -> written (encode_argument codec_vehicle w v) = written w ++ [Structure (vehicle_args v)].
Proof.
  intros [Hi _]. unfold codec_vehicle, codec_key, codec_quantity, codec_double, vehicle_args.
  cbn [encode_argument]. rewrite written_close_structure.
  rewrite !written_double, !written_boolean, written_double, written_uint32 by done.
  assert (Ht : wrap_u 32 (SV.type_index (SV.type (SV.key v))) = SV.type_index (SV.type (SV.key v)))
    by by destruct (SV.type (SV.key v)).
  rewrite written_uint32 by (rewrite Ht; destruct (SV.type (SV.key v)); simpl; lia).
  by rewrite Ht, written_open_structure.
Qed.

Lemma read_vehicle r in_ l v :
  representable v -> remaining r = Structure (vehicle_args v) :: l ->
  exists r', decode_argument codec_vehicle r in_ = Got (v, r') /\ remaining r' = l.
Proof.
  intros [_ Hs] Hr. destruct (read_structure _ _ _ Hr) as (sub & r' & E & Hsub & Hl). exists r'. split; [|done].
  destruct v as [[ty i] snr al ep us az el]. unfold vehicle_args in Hsub.
  cbn [SV.key SV.type SV.id SV.snr SV.has_almanac_data SV.has_ephimeris_data SV.used_in_fix SV.azimuth SV.elevation] in *.
  unfold codec_vehicle, codec_key, codec_quantity, codec_double. cbn [decode_argument].
  rewrite E. cbn [of_res]. unfold mbind, got_bind.
  destruct (read_uint32 _ _ _ Hsub) as (s1 & -> & H1). destruct (read_uint32 _ _ _ H1) as (s2 & E2 & H2).
  destruct (read_double _ _ _ H2) as (s3 & E3 & H3). destruct (read_boolean _ _ _ H3) as (s4 & E4 & H4).
  destruct (read_boolean _ _ _ H4) as (s5 & E5 & H5). destruct (read_boolean _ _ _ H5) as (s6 & E6 & H6).
  destruct (read_double _ _ _ H6) as (s7 & E7 & H7). destruct (read_double _ _ _ H7) as (s8 & E8 & H8).
  cbn [of_res]. replace (type_of_index (wrap_s 32 (SV.type_index ty))) with (Some ty) by by destruct ty.
  rewrite E2. cbn [of_res]. rewrite E3. cbn [of_res]. rewrite E4. cbn [of_res]. rewrite E5. cbn [of_res].
  rewrite E6. cbn [of_res]. rewrite E7. cbn [of_res]. rewrite E8. cbn [of_res].
  by rewrite float_of_double_of_float.
Qed.

Lemma written_vehicles w m :
  Forall (fun p => representable p.2) m ->
  written (encode_vehicles w m) = written w ++ [Array (map (fun p => Structure (vehicle_args p.2)) m)].
Proof.
  intros Hm. unfold encode_vehicles. rewrite written_close_array. do 2 f_equal. f_equal.
  rewrite <- (app_nil_l (map _ m)), <- (written_open_array (signature mapper_vehicle) w). generalize (open_array (signature mapper_vehicle) w). clear w.
  induction Hm as [|p m Hp _ IH]; intros sub; cbn [fold_left map]; [by rewrite app_nil_r|].
  by rewrite IH, written_vehicle, <- app_assoc.
Qed.

Lemma read_vehicles m fuel sub out :
  Forall (fun p => representable p.2 /\ p.1 = SV.key p.2) m -> SV.ascending (out ++ m) ->
  remaining sub = map (fun p => Structure (vehicle_args p.2)) m -> (length m <= fuel)%nat ->
  decode_vehicles fuel sub out = Some (Got (out ++ m)).
Proof.
  intros Hm. revert fuel sub out. induction Hm as [|[k v] m [Hv Hk] _ IH]; intros fuel sub out Ha Hr Hf.
  - rewrite app_nil_r. destruct fuel; simpl; by rewrite read_type, Hr.
  - cbn [fst snd map length] in *. destruct fuel as [|fuel]; [lia|].
    destruct (read_vehicle sub fresh_vehicle _ v Hv Hr) as (r' & E & Hr').
    cbn [decode_vehicles]. rewrite read_type, Hr. cbn [bool_decide decide]. rewrite E. subst k.
    rewrite SV.insert_last by (eapply SV.ascending_before; exact Ha).
    rewrite bool_decide_false by done.
    rewrite (IH fuel r') by (rewrite <- ?app_assoc; done || lia). by rewrite <- app_assoc.
Qed.

(** The declared type of an update ends in an unsigned number, but a signed one is written. *)
Lemma update_type_differs mapper t :
  signature (mapper_update (H := dbus_codes) mapper) <> String.append (signature mapper) (code (Int64 t)).
Proof.
  simpl. generalize (signature mapper). intros s E.
  apply (f_equal (fun x => String.get (String.length s) x)) in E. revert E.
  induction s; simpl; [done|auto].
Qed.

(** ** The theorems *)

(** C16: what one side of the bus writes, the other side reads, for every message the
    service and its clients exchange: updates of the position, the heading and the velocity
    whose time fits 64 bits, criteria, service states, cell and Wi-Fi reporting states, and
    the features and requirements of providers. The reader gets the very same value and
    its position in the message is behind it. Coordinates are not checked on the way. *)
Theorem messages_round_trip :
  (forall u : Update Geometry.Position, int64 (when_ u) -> transports (codec_update codec_position) u) /\
  (forall u : Update double, int64 (when_ u) -> transports (codec_update codec_quantity) u) /\
  (forall c : Criteria.Criteria, transports codec_criteria c) /\
  (forall x : State, transports codec_state x) /\
  (forall x : Wifi, transports codec_wifi x) /\
  (forall z : Z, INT_MIN <= z <= INT_MAX -> transports codec_flags z).
Proof.
  split_and!; eauto using transports_update, transports_position, transports_quantity, transports_criteria,
    transports_state, transports_wifi, transports_flags.
Qed.

(** C17: the map of the visible vehicles round trips: an ascending map whose keys are those
    of its vehicles, written as an array, is read back into an empty map, the loop ending
    within as many rounds as there are vehicles. The signal to noise ratio is sent as a
    double and narrowed to the same float. Each element has the declared type. *)
Theorem vehicles_round_trip fuel (m : list (SV.Key * SV.SpaceVehicle)) :
  SV.ascending m -> Forall (fun p => representable p.2 /\ p.1 = SV.key p.2) m -> (length m <= fuel)%nat ->
  exists items,
    (forall w, written (encode_vehicles w m) = written w ++ items) /\
    (forall r l, remaining r = items ++ l ->
       exists r', decode_vehicle_map fuel r [] = Some (Got (m, r')) /\ remaining r' = l) /\
    exists elements, items = [Array elements] /\
      Forall (fun a => code a = signature (mapper_vehicle (H := dbus_codes))) elements.
Proof.
  intros Ha Hm Hf. eexists. split; [|split].
  - intros w. apply written_vehicles. eapply Forall_impl; [exact Hm|]. by intros p [Hp _].
  - intros r l Hr. destruct (read_array _ _ _ Hr) as (sub & r' & E & Hsub & Hl). exists r'. split; [|done].
    unfold decode_vehicle_map. rewrite E. by rewrite (read_vehicles m fuel sub []).
  - eexists. split; [done|]. apply Forall_fmap. by apply Forall_true.
Qed.
End Codecs.
Arguments encode_argument {Writer Reader T} c writer in_ : rename.
Arguments decode_argument {Writer Reader T} c reader in_ : rename.

Definition a_position : Update Geometry.Position :=
  MkUpdate (MkPosition (d_of_Z 9) (d_of_Z 53) None (Some (d_of_Z 10)) None) 1700000000000000000.

Lemma messages_round_trip_witness :
  exists r', decode_argument (codec_update codec_position) (encode_argument (codec_update codec_position) [] a_position)
               (MkUpdate Pos.default_position 0) = Got (a_position, r') /\ r' = [].
Proof.
  destruct (messages_round_trip (Writer := list Arg) (Reader := list Arg)) as (Hp & _).
  destruct (Hp a_position ltac:(unfold int64; simpl; lia)) as (items & Hw & Hr).
  apply Hr. change (encode_argument (codec_update codec_position) [] a_position)
    with (written (encode_argument (codec_update codec_position) [] a_position)).
  rewrite (Hw []). by rewrite app_nil_r.
Defined.

Definition two_vehicles : list (SV.Key * SV.SpaceVehicle) :=
  let sv i := SV.MkSV (SV.MkKey SV.gps i) (f_of_Z 31) true false true (d_of_Z 40) (d_of_Z 120) in
  [(SV.MkKey SV.gps 3, sv 3); (SV.MkKey SV.gps 7, sv 7)].

Lemma vehicles_round_trip_witness :
  exists r', decode_vehicle_map 2 (encode_vehicles ([] : list Arg) two_vehicles) [] =
             Some (Got (two_vehicles, r')) /\ r' = ([] : list Arg).
Proof.
  destruct (vehicles_round_trip (Writer := list Arg) (Reader := list Arg) 2 two_vehicles)
    as (items & Hw & Hr & _).
  - vm_compute. repeat constructor.
  - repeat constructor; vm_compute; congruence.
  - simpl. lia.
  - apply Hr. rewrite app_nil_r. exact (Hw []).
Defined.
End Codecs.
