(* ===== verification/Client.v ===== *)
(** An application asks for a session: the stub of the service
    ([service/stub.cpp]), the message that carries the criteria ([codec.h]), the handler of
    the service's skeleton ([service/skeleton.cpp]) and its reply, in one piece. *)
From Stdlib Require Import ZArith Lia.
From stdpp Require Import base gmap strings list.
From S2P Require Import Prelude Floats Criteria Codec Service.
Local Open Scope Z_scope.
#[local] Set Warnings "-register-all".

Module Client.
Import Wire Codecs Sessions.

(** What the bus does with a call: it starts empty, and arrives as it was written. *)
Class Delivery (Writer Reader : Type) `{L : DbusLaws Writer Reader} : Type := {
  make_method_call : Writer;
  deliver : Writer -> Reader;
  call_is_empty : written make_method_call = [];
  arrives : forall w, remaining (deliver w) = written w
}.

Section Client.
Context {Writer Reader : Type} `{D : Delivery Writer Reader}.
Variables (get_connection_unix_process_id get_connection_unix_user : string -> res Z)
          (app_armor_profile : Z -> res string)
          (check_permission : Credentials -> Result)
          (construct_session : string -> res unit).
Abbreviation resolve := (resolve_credentials get_connection_unix_process_id get_connection_unix_user app_armor_profile).
Abbreviation handle := (handle_create_session_for_criteria get_connection_unix_process_id
  get_connection_unix_user app_armor_profile check_permission construct_session).

(** [sender]: the client's name on the bus; [send]: whether the bus takes a reply. *)
Variables (sender_ : string) (send : Reply -> res unit).

(** [Criteria criteria; in->reader() >> criteria], for criteria as they are constructed. *)
Definition read_criteria (blank : Criteria.Criteria) (r : Reader) : res Criteria.Criteria :=
  match decode_argument codec_criteria r blank with
  | Got (c, _) => Ok c
  | Threw e => Throw e
  | Unnamed _ => Ok blank
  end.

(** The call as the skeleton gets it. *)
Definition request_of (blank c : Criteria.Criteria) : Request :=
  MkRequest sender_ (_ ← read_criteria blank (deliver (encode_argument codec_criteria make_method_call c)); Ok tt).

(** The end of the handler: a reply that cannot be sent is logged, so that the client waits
    in vain; so it does when the handler is left by an exception it does not catch. *)
Definition transact (blank c : Criteria.Criteria) : M Service (option Reply) := fun w =>
  match handle (request_of blank c) w with
  | (Ok reply, w') =>
      match send reply with
      | Ok _ => (Ok (Some reply), w')
      | Throw e => if is_std_exception e then (Ok None, w') else (Throw e, w')
      end
  | (Throw _, w') => (Ok None, w')
  end.

(** [Stub::create_session_for_criteria]: [print] is the text of an error. *)
Variable print : option (string * string) -> string.
Definition signature : string := "create_session_for_criteria".
Definition create_session_for_criteria (blank c : Criteria.Criteria) : M Service string :=
  op ← transact blank c;
  match op with
  | Some (PathReply path) => mret path
  | Some (ErrorReply name text) => throw (runtime_error (signature +:+ ": " +:+ print (Some (name, text))))
  | None => throw (runtime_error (signature +:+ ": " +:+ print None))
  end.

Lemma criteria_arrive blank c :
  read_criteria blank (deliver (encode_argument codec_criteria make_method_call c)) = Ok c.
Proof.
  destruct (transports_criteria c) as (items & Hw & Hr). unfold read_criteria.
  destruct (Hr (deliver (encode_argument codec_criteria make_method_call c)) blank []) as (r & E & _).
  { by rewrite arrives, Hw, call_is_empty, app_nil_r. }
  by rewrite E.
Qed.

Lemma request_is_readable blank c : request_of blank c = MkRequest sender_ (Ok tt).
Proof. unfold request_of. by rewrite criteria_arrive. Qed.

Lemma refused_reply in_ w :
  (forall c, resolve (sender in_) = Ok c -> check_permission c = rejected) ->
  criteria in_ = Ok tt -> (forall e, resolve (sender in_) = Throw e -> is_std_exception e = true) ->
  result (handle in_) w = Ok (ErrorReply creating_session "Error creating session").
Proof.
  intros Hr Hc He. unfold handle_create_session_for_criteria. unfold_m. rewrite Hc.
  destruct (resolve (sender in_)) as [c|e]; [by rewrite (Hr c eq_refl)|]. by rewrite (He e eq_refl).
Qed.

(** C36: an application gets a session exactly when it may.  The criteria arrive as they
    were sent.  A client that is granted gets, when its session can be made and the
    generated path is free, that path, under which the service now keeps the session for
    the client's profile; when only the reply is lost, it gets an error although the
    service keeps the session.  A client that is not granted gets the generic error, and
    the service is unchanged. *)
Theorem application_gets_its_session (blank c : Criteria.Criteria) (cr : Credentials) (w : Service) :
  let m := create_session_for_criteria blank c in
  let path := object_path (index w) in
  read_criteria blank (deliver (encode_argument codec_criteria make_method_call c)) = Ok c /\
  (resolve sender_ = Ok cr -> check_permission cr = granted -> construct_session path = Ok tt ->
   session_store w !! path = None ->
   (forall e, send (PathReply path) = Throw e -> is_std_exception e = true) ->
   session_store (exec m w) !! path = Some (profile cr) /\
   client_applications (exec m w) = client_applications w ++ [profile cr] /\
   result m w = match send (PathReply path) with
                | Ok _ => Ok path
                | Throw _ => Throw (runtime_error (signature +:+ ": " +:+ print None))
                end) /\
  (resolve sender_ = Ok cr -> check_permission cr = rejected ->
   (forall r, send r = Ok tt) ->
   exec m w = w /\
   result m w = Throw (runtime_error (signature +:+ ": " +:+
                  print (Some (creating_session, "Error creating session"))))).
Proof.
  cbv zeta. split; [apply criteria_arrive|]. unfold create_session_for_criteria, transact, result, exec.
  unfold mbind, m_bind. rewrite request_is_readable. split.
  - intros Hr Hp Hs Hf He.
    rewrite (handle_granted get_connection_unix_process_id get_connection_unix_user app_armor_profile
      check_permission construct_session (MkRequest sender_ (Ok tt)) cr w eq_refl Hr Hp Hs Hf).
    destruct (send (PathReply (object_path (index w)))) as [u|e]; [|rewrite (He e eq_refl)]; simpl;
      by rewrite lookup_insert_eq.
  - intros Hr Hp Hs.
    assert (forall c', resolve (sender (MkRequest sender_ (Ok tt))) = Ok c' -> check_permission c' = rejected) as Hall.
    { simpl. rewrite Hr. by intros c' [= <-]. }
    pose proof (handle_refused get_connection_unix_process_id get_connection_unix_user app_armor_profile
      check_permission construct_session (MkRequest sender_ (Ok tt)) w (fun c' _ => Hall c')) as U.
    pose proof (refused_reply (MkRequest sender_ (Ok tt)) w Hall eq_refl
      ltac:(simpl; rewrite Hr; discriminate)) as R.
    unfold exec, result in U, R. destruct (handle (MkRequest sender_ (Ok tt)) w) as [r w']. simpl in U, R.
    subst r w'. by rewrite Hs.
Qed.
End Client.

(** A bus in memory. *)
#[export] Instance memory_delivery : Delivery (list Arg) (list Arg) :=
  {| make_method_call := []; deliver w := w; call_is_empty := eq_refl; arrives _ := eq_refl |}.

Definition blank : Criteria.Criteria :=
  Criteria.MkCriteria (Criteria.MkRequires false false false false)
    (Criteria.MkAccuracy (d_of_Z 3000) None None None).
Definition wanted : Criteria.Criteria :=
  Criteria.MkCriteria (Criteria.MkRequires true false true false)
    (Criteria.MkAccuracy (d_of_Z 50) (Some (d_of_Z 20)) None None).

Lemma application_gets_its_session_witness :
  result (create_session_for_criteria one_pid one_uid one_profile always_granting constructs ":1.7"
            (fun _ => Ok tt) (fun _ => "") blank wanted) initial_service = Ok "/sessions/0" /\
  exec (create_session_for_criteria one_pid one_uid one_profile (trust_store_check false denies) constructs ":1.7"
          (fun _ => Ok tt) (fun _ => "") blank wanted) initial_service = initial_service.
Proof.
  split.
  - refine (proj2 (proj2 (proj1 (proj2 (application_gets_its_session one_pid one_uid one_profile always_granting
      constructs ":1.7" (fun _ => Ok tt) (fun _ => "") blank wanted (MkCredentials 1000 32011 "app")
      initial_service)) _ _ _ _ _))); try reflexivity. discriminate.
  - refine (proj1 (proj2 (proj2 (application_gets_its_session one_pid one_uid one_profile
      (trust_store_check false denies) constructs ":1.7" (fun _ => Ok tt) (fun _ => "") blank wanted
      (MkCredentials 1000 32011 "app") initial_service)) _ _ _)); reflexivity.
Defined.
End Client.
