(* ===== verification/Updates.v ===== *)
(** Updates on their way to an application: the session in the service
    ([service/session/implementation.cpp], [skeleton.cpp]), the messages that carry its
    updates ([codec.h]), and the application's end of the session
    ([service/session/stub.cpp]), interleaved by the bus. *)
From Stdlib Require Import ZArith Lia SpecFloat.
From stdpp Require Import base gmap strings list.
From S2P Require Import Prelude Floats Geometry Provider Property Fusion Session Codec Client.
Local Open Scope Z_scope.
#[local] Set Warnings "-register-all".

Module Updates.
Import Controller Wire Codecs Session.Session Client.Client.

(** * The application's end *)

(** [Interface::updates()] of the stub, what its slots have told the application, and the
    replies, errors with their text, it has sent. *)
Record End : Type := MkEnd {
  e_position : Update Geometry.Position;
  e_heading : Update Geometry.Heading;
  e_velocity : Update Geometry.Velocity;
  told : list Remote;
  replies : list (option string)
}.

Definition e_position_cell : Cell End (Update Geometry.Position) :=
  MkCell e_position (fun u e => MkEnd u (e_heading e) (e_velocity e) (told e) (replies e)).
Definition e_heading_cell : Cell End (Update Geometry.Heading) :=
  MkCell e_heading (fun u e => MkEnd (e_position e) u (e_velocity e) (told e) (replies e)).
Definition e_velocity_cell : Cell End (Update Geometry.Velocity) :=
  MkCell e_velocity (fun u e => MkEnd (e_position e) (e_heading e) u (told e) (replies e)).
Definition tell (r : Remote) : M End unit :=
  modify (fun e => MkEnd (e_position e) (e_heading e) (e_velocity e) (told e ++ [r]) (replies e)).
Definition send_reply (r : option string) : M End unit :=
  modify (fun e => MkEnd (e_position e) (e_heading e) (e_velocity e) (told e) (replies e ++ [r])).

Section Updates.
Context `{CP : !CoreProperty, BO : !BoostOptional}.
Context {Writer Reader : Type} `{D : Delivery Writer Reader}.

(** [Update<T> update; incoming->reader() >> update]; the blank update that is read into is
    made of the default value and the current time. *)
Definition read_update {T} (c : Codec (Writer := Writer) (Reader := Reader) T) (blank : Update T) (r : Reader) : res (Update T) :=
  match decode_argument (codec_update c) r blank with
  | Got (u, _) => Ok u
  | Threw e => Throw e
  | Unnamed _ => Ok blank
  end.

(** The message of an invocation, and the stub's handler of it. *)
Definition encode_update (r : Remote) : Writer :=
  match r with
  | UpdatePosition u => encode_argument (codec_update codec_position) make_method_call u
  | UpdateHeading u => encode_argument (codec_update codec_quantity) make_method_call u
  | UpdateVelocity u => encode_argument (codec_update codec_quantity) make_method_call u
  end.
Variable now : Z.
Definition on_invocation (r : Remote) : M End unit :=
  let message := deliver (encode_update r) in
  match r with
  | UpdatePosition _ =>
      stub_update_position e_position_cell (read_update codec_position (MkUpdate Geometry.Pos.default_position now) message)
        (fun u => tell (UpdatePosition u)) send_reply
  | UpdateHeading _ =>
      stub_update_heading e_heading_cell (read_update codec_quantity (MkUpdate (S754_zero false) now) message)
        (fun u => tell (UpdateHeading u)) send_reply
  | UpdateVelocity _ =>
      stub_update_velocity e_velocity_cell (read_update codec_quantity (MkUpdate (S754_zero false) now) message)
        (fun u => tell (UpdateVelocity u)) send_reply
  end.

(** * Both ends and the bus between them *)

(** The number of invocations that have arrived; those behind it in [sent] are under way. *)
Record World : Type := MkWorld { session : Session; arrived : nat; application : End }.

Variables (reaction : Call -> option exn) (send : Reply -> option exn).

(** A message to the session or an update of its provider; and the arrival of the next
    invocation: the bus keeps the order of the messages from one sender to one receiver. *)
Inductive Event : Type := Service_ (x : Message) | Arrive.
Definition step (e : Event) (w : World) : World :=
  match e with
  | Service_ x => MkWorld (exec (receive reaction reachable_client send x) (session w)) (arrived w) (application w)
  | Arrive =>
      match sent (session w) !! arrived w with
      | None => w
      | Some r => MkWorld (session w) (S (arrived w)) (exec (on_invocation r) (application w))
      end
  end.
Definition history (es : list Event) : World -> World := fold_left (fun w e => step e w) es.

(** * The specification *)

(** The last update of each kind among [l], from the given ones on. *)
Fixpoint latest (l : list Remote) (p : Update Geometry.Position) (h : Update Geometry.Heading)
    (v : Update Geometry.Velocity) : Update Geometry.Position * Update Geometry.Heading * Update Geometry.Velocity :=
  match l with
  | [] => (p, h, v)
  | UpdatePosition u :: l => latest l u h v
  | UpdateHeading u :: l => latest l p u v
  | UpdateVelocity u :: l => latest l p h u
  end.

(** Each update differs from the one before it. *)
Fixpoint all_new (l : list Remote) (p : Update Geometry.Position) (h : Update Geometry.Heading)
    (v : Update Geometry.Velocity) : Prop :=
  match l with
  | [] => True
  | UpdatePosition u :: l => update_neq Geometry.Pos.position_eq p u = true /\ all_new l u h v
  | UpdateHeading u :: l => update_neq deq h u = true /\ all_new l p u v
  | UpdateVelocity u :: l => update_neq deq v u = true /\ all_new l p h u
  end.

(** Times that fit 64 bits. *)
Definition timed (r : Remote) : Prop :=
  int64 match r with UpdatePosition u => when_ u | UpdateHeading u => when_ u | UpdateVelocity u => when_ u end.
Definition timed_message (x : Message) : Prop :=
  match x with
  | Deliver (SigPosition u) => int64 (when_ u)
  | Deliver (SigHeading u) => int64 (when_ u)
  | Deliver (SigVelocity u) => int64 (when_ u)
  | _ => True
  end.

(** ** Lemmas *)

Lemma latest_snoc l r p h v :
  latest (l ++ [r]) p h v =
  let '(p', h', v') := latest l p h v in
  match r with UpdatePosition u => (u, h', v') | UpdateHeading u => (p', u, v') | UpdateVelocity u => (p', h', u) end.
Proof.
  revert p h v. induction l as [|[u|u|u] l IH]; intros p h v; simpl; [by destruct r|apply IH..].
Qed.

Lemma all_new_snoc l r p h v :
  all_new (l ++ [r]) p h v <->
  all_new l p h v /\
  let '(p', h', v') := latest l p h v in
  match r with
  | UpdatePosition u => update_neq Geometry.Pos.position_eq p' u = true
  | UpdateHeading u => update_neq deq h' u = true
  | UpdateVelocity u => update_neq deq v' u = true
  end.
Proof.
  revert p h v. induction l as [|[u|u|u] l IH]; intros p h v; simpl; [destruct r; tauto|rewrite IH; tauto..].
Qed.

Lemma all_new_take n l p h v : all_new l p h v -> all_new (take n l) p h v.
Proof.
  revert n p h v. induction l as [|[u|u|u] l IH]; intros [|n] p h v; simpl; try done; intros [? ?]; auto.
Qed.

(** A message is read as it was written. *)
Lemma read_position blank u :
  int64 (when_ u) -> read_update codec_position blank (deliver (encode_update (UpdatePosition u))) = Ok u.
Proof.
  intros Hu. destruct (transports_update codec_position u (transports_position _) Hu) as (items & Hw & Hr).
  unfold read_update. destruct (Hr (deliver (encode_update (UpdatePosition u))) blank []) as (r & E & _).
  { unfold encode_update. by rewrite arrives, Hw, call_is_empty, app_nil_r. }
  by rewrite E.
Qed.
Lemma read_quantity blank u :
  int64 (when_ u) ->
  read_update codec_quantity blank (deliver (encode_argument (codec_update codec_quantity) make_method_call u)) = Ok u.
Proof.
  intros Hu. destruct (transports_update codec_quantity u (transports_quantity _) Hu) as (items & Hw & Hr).
  unfold read_update.
  destruct (Hr (deliver (encode_argument (codec_update codec_quantity) make_method_call u)) blank []) as (r & E & _).
  { by rewrite arrives, Hw, call_is_empty, app_nil_r. }
  by rewrite E.
Qed.

(** What the handler of an invocation does with an update that differs from the last. *)
Lemma invocation_effect r e :
  timed r ->
  match r with
  | UpdatePosition u => update_neq Geometry.Pos.position_eq (e_position e) u = true
  | UpdateHeading u => update_neq deq (e_heading e) u = true
  | UpdateVelocity u => update_neq deq (e_velocity e) u = true
  end ->
  exec (on_invocation r) e =
  match r with
  | UpdatePosition u => MkEnd u (e_heading e) (e_velocity e) (told e ++ [r]) (replies e ++ [None])
  | UpdateHeading u => MkEnd (e_position e) u (e_velocity e) (told e ++ [r]) (replies e ++ [None])
  | UpdateVelocity u => MkEnd (e_position e) (e_heading e) u (told e ++ [r]) (replies e ++ [None])
  end.
Proof.
  intros Ht Hn. unfold on_invocation, stub_update_position, stub_update_heading, stub_update_velocity, stub_on_update.
  destruct r as [u|u|u]; unfold exec, try_catch; [rewrite read_position by done|unfold encode_update; rewrite read_quantity by done..];
    unfold lift, mbind, m_bind; rewrite assign_differs by done; done.
Qed.

(** Method calls leave the updates of a session alone. *)
Definition shown (w : Session) := (position w, heading w, velocity w, sent w).

Lemma keeps_shown x : keeps (fun w => shown w = x) (proxy reaction).
Proof.
  assert (forall c, preserves (fun w => shown w = x) (perform_call reaction c)) as Hp.
  { intros c. unfold perform_call. apply preserves_bind; [by apply preserves_modify|]. intros _.
    destruct (reaction c); auto with ls. }
  split; try (intros z w Hw; exact Hw); apply Hp.
Qed.

Lemma method_shown m w : shown (exec (receive reaction reachable_client send (Invoke m)) w) = shown w.
Proof.
  set (P := fun v => shown v = shown w).
  assert (forall c, preserves P (request (proxy reaction) c)) as Hr by (intros c; apply preserves_request, keeps_shown).
  assert (forall n, preserves P n -> preserves P (noexcept n)) as Hx by (intros n Hn; unfold noexcept; auto with ls).
  assert (forall k s, preserves P (set_updates_status reaction k s)) as Hs.
  { intros k s. unfold set_updates_status. apply preserves_assign; [intros z v Hv; exact Hv|].
    intros []; destruct k; simpl;
      first [exact (Hr (Start Position))|exact (Hr (Start Heading))|exact (Hr (Start Velocity))
            |exact (Hx _ (Hr (Stop Position)))|exact (Hx _ (Hr (Stop Heading)))|exact (Hx _ (Hr (Stop Velocity)))]. }
  assert (preserves P (receive reaction reachable_client send (Invoke m))) as Hm; [|by apply Hm].
  simpl. apply preserves_bind; [|intros; apply preserves_skip].
  destruct m; simpl; apply preserves_handle, Hs.
Qed.

(** An update of the provider: shown and sent if it differs, dropped otherwise. *)
Lemma signal_shown sg w :
  let w' := exec (receive reaction reachable_client send (Deliver sg)) w in
  shown w' =
  match sg with
  | SigPosition u => if update_neq Geometry.Pos.position_eq (position w) u
                     then (u, heading w, velocity w, sent w ++ [UpdatePosition u]) else shown w
  | SigHeading u => if update_neq deq (heading w) u
                    then (position w, u, velocity w, sent w ++ [UpdateHeading u]) else shown w
  | SigVelocity u => if update_neq deq (velocity w) u
                     then (position w, heading w, u, sent w ++ [UpdateVelocity u]) else shown w
  | SigSvs _ => shown w
  end.
Proof.
  cbv zeta. destruct sg as [u|u|u|u]; [..|done]; case_match; unfold exec; simpl;
    first [by rewrite assign_differs by done|by rewrite assign_same by done].
Qed.

(** ** The invariant *)

Variables (p0 pc : Update Geometry.Position) (h0 hc : Update Geometry.Heading) (v0 vc : Update Geometry.Velocity).

(** The update is not what the application started with, and its time can be written. *)
Definition acceptable (e : Event) : Prop :=
  match e with
  | Service_ (Deliver (SigPosition u)) => update_neq Geometry.Pos.position_eq pc u = true /\ int64 (when_ u)
  | Service_ (Deliver (SigHeading u)) => update_neq deq hc u = true /\ int64 (when_ u)
  | Service_ (Deliver (SigVelocity u)) => update_neq deq vc u = true /\ int64 (when_ u)
  | _ => True
  end.

(** From two starts, the last updates are the same as soon as there is one. *)
Lemma latest_either l p h v p' h' v' :
  let '(a, b, c) := latest l p h v in
  let '(a', b', c') := latest l p' h' v' in
  (a' = a \/ (a = p /\ a' = p')) /\ (b' = b \/ (b = h /\ b' = h')) /\ (c' = c \/ (c = v /\ c' = v')).
Proof.
  revert p h v p' h' v'. induction l as [|[u|u|u] l IH]; intros p h v p' h' v'; simpl; [tauto|..].
  - specialize (IH u h v u h' v'). destruct (latest l u h v) as [[a b] c], (latest l u h' v') as [[a' b'] c'].
    intuition congruence.
  - specialize (IH p u v p' u v'). destruct (latest l p u v) as [[a b] c], (latest l p' u v') as [[a' b'] c'].
    intuition congruence.
  - specialize (IH p h u p' h' u). destruct (latest l p h u) as [[a b] c], (latest l p' h' u) as [[a' b'] c'].
    intuition congruence.
Qed.

(** Nothing of a kind among [l] leaves what was there; something replaces it. *)
Lemma latest_replaced l p h v p' h' v' :
  ((exists u, In (UpdatePosition u) l) -> (latest l p h v).1.1 = (latest l p' h' v').1.1) /\
  ((exists u, In (UpdateHeading u) l) -> (latest l p h v).1.2 = (latest l p' h' v').1.2) /\
  ((exists u, In (UpdateVelocity u) l) -> (latest l p h v).2 = (latest l p' h' v').2).
Proof.
  revert p h v p' h' v'. induction l as [|[u|u|u] l IH]; intros p h v p' h' v'; simpl.
  { split_and!; intros [? []]. }
  - specialize (IH u h v u h' v'). pose proof (latest_either l u h v u h' v') as He.
    destruct (latest l u h v) as [[a b] c], (latest l u h' v') as [[a' b'] c']. simpl in *.
    split_and!; [intuition congruence|intros [x [Hx|Hx]]; [discriminate|apply IH; eauto]..].
  - specialize (IH p u v p' u v'). pose proof (latest_either l p u v p' u v') as He.
    destruct (latest l p u v) as [[a b] c], (latest l p' u v') as [[a' b'] c']. simpl in *.
    split_and!; [|intuition congruence|]; (intros [x [Hx|Hx]]; [discriminate|apply IH; eauto]).
  - specialize (IH p h u p' h' u). pose proof (latest_either l p h u p' h' u) as He.
    destruct (latest l p h u) as [[a b] c], (latest l p' h' u) as [[a' b'] c']. simpl in *.
    split_and!; [| |intuition congruence]; (intros [x [Hx|Hx]]; [discriminate|apply IH; eauto]).
Qed.

Record agreed (w : World) : Prop := {
  agreed_session : shown (session w) = (latest (sent (session w)) p0 h0 v0, sent (session w));
  agreed_new : all_new (sent (session w)) pc hc vc;
  agreed_timed : Forall timed (sent (session w));
  agreed_arrived : (arrived w <= length (sent (session w)))%nat;
  agreed_end : (e_position (application w), e_heading (application w), e_velocity (application w)) =
               latest (take (arrived w) (sent (session w))) pc hc vc;
  agreed_told : told (application w) = take (arrived w) (sent (session w));
  agreed_replies : replies (application w) = replicate (arrived w) None
}.

(** The session's part changes by one more update under way. *)
Lemma agreed_sent w s r :
  agreed w -> shown s = (latest (sent (session w) ++ [r]) p0 h0 v0, sent (session w) ++ [r]) -> timed r ->
  (let '(a, b, c) := latest (sent (session w)) pc hc vc in
   match r with
   | UpdatePosition u => update_neq Geometry.Pos.position_eq a u = true
   | UpdateHeading u => update_neq deq b u = true
   | UpdateVelocity u => update_neq deq c u = true
   end) ->
  agreed (MkWorld s (arrived w) (application w)).
Proof.
  intros [Hs Hn Ht Ha He Hto Hr] Hsh Htr Hnr.
  assert (sent s = sent (session w) ++ [r]) as E by (by injection Hsh).
  split; cbn [session arrived application]; rewrite ?E; rewrite ?take_app_le by done; try done.
  - apply all_new_snoc. by split.
  - apply Forall_app. split; [done|]. by apply Forall_singleton.
  - rewrite length_app. lia.
Qed.

Lemma agreed_step e w : acceptable e -> agreed w -> agreed (step e w).
Proof.
  intros Hacc Hg. destruct e as [[m|sg]|]; simpl.
  - pose proof (method_shown m (session w)) as Hm.
    assert (sent (exec (receive reaction reachable_client send (Invoke m)) (session w)) = sent (session w)) as E
      by (by injection Hm). simpl in *.
    destruct Hg as [Hs Hn Ht Ha He Hto Hr]. split; cbn [session arrived application]; rewrite ?E; try done.
    by rewrite Hm, Hs.
  - pose proof (signal_shown sg (session w)) as Hm. cbv zeta in Hm. simpl in Hm. simpl.
    pose proof (latest_either (sent (session w)) p0 h0 v0 pc hc vc) as Hl.
    pose proof (agreed_session _ Hg) as Hsh. unfold shown in Hsh.
    assert (shown (exec (on_provider_signal reachable_client sg) (session w)) = shown (session w) ->
      agreed (MkWorld (exec (on_provider_signal reachable_client sg) (session w)) (arrived w) (application w))) as Hsame.
    { intros E. assert (sent (exec (on_provider_signal reachable_client sg) (session w)) = sent (session w)) as E'
        by (by injection E).
      destruct Hg as [Hs Hn Ht Ha He Hto Hr]. split; cbn [session arrived application]; rewrite ?E'; try done.
      by rewrite E, Hs. }
    destruct (latest (sent (session w)) p0 h0 v0) as [[a b] c] eqn:El.
    destruct (latest (sent (session w)) pc hc vc) as [[a' b'] c'] eqn:El'.
    injection Hsh as Ea Eb Ec.
    destruct sg as [u|u|u|u]; [..|by apply Hsame]; (case_match; [|by apply Hsame]);
      destruct Hacc as [Hne Htu];
      [apply (agreed_sent w _ (UpdatePosition u))|apply (agreed_sent w _ (UpdateHeading u))
      |apply (agreed_sent w _ (UpdateVelocity u))]; try done; try (rewrite Hm, latest_snoc, El; congruence);
      rewrite El'; destruct Hl as ([->|[_ ->]] & [->|[_ ->]] & [->|[_ ->]]); congruence.
  - destruct (sent (session w) !! arrived w) as [r|] eqn:Hr; [|done].
    destruct Hg as [Hs Hn Ht Ha He Hto Hre].
    pose proof (all_new_take (S (arrived w)) _ _ _ _ Hn) as Hn'.
    rewrite (take_S_r _ _ _ Hr) in Hn'. apply all_new_snoc in Hn' as [_ Hn']. rewrite <- He in Hn'.
    assert (timed r) as Htr by (by eapply Forall_lookup_1).
    rewrite (invocation_effect r (application w)) by (done || by destruct r).
    apply lookup_lt_Some in Hr as Hlt.
    split; cbn [session arrived application]; try done.
    + rewrite (take_S_r _ _ _ Hr), latest_snoc, <- He. by destruct r.
    + rewrite (take_S_r _ _ _ Hr), <- Hto. by destruct r.
    + replace (S (arrived w)) with (arrived w + 1)%nat by lia. rewrite replicate_add, <- Hre. by destruct r.
Qed.

Lemma agreed_history es w : Forall acceptable es -> agreed w -> agreed (history es w).
Proof.
  intros Hes. revert w. induction Hes as [|e es He Hes IH]; intros w Hg; [done|]. simpl. apply IH. by apply agreed_step.
Qed.

Lemma arrive_all n w :
  (arrived w + n <= length (sent (session w)))%nat ->
  arrived (history (replicate n Arrive) w) = (arrived w + n)%nat /\
  session (history (replicate n Arrive) w) = session w.
Proof.
  revert w. induction n as [|n IH]; intros w Hn; [by rewrite Nat.add_0_r|].
  change (history (replicate (S n) Arrive) w) with (history (replicate n Arrive) (step Arrive w)).
  destruct (lookup_lt_is_Some_2 (sent (session w)) (arrived w)) as [r Hr]; [lia|].
  assert (step Arrive w = MkWorld (session w) (S (arrived w)) (exec (on_invocation r) (application w))) as ->
    by (unfold step; by rewrite Hr).
  match goal with |- context [history _ ?w1] => destruct (IH w1) as [E1 E2] end; [simpl; lia|].
  rewrite E1, E2. simpl. split; [lia|done].
Qed.

(** * Property *)

Definition beginning : World :=
  MkWorld (initial_session p0 h0 v0) 0 (MkEnd pc hc vc [] []).

(** C8: the updates of a provider reach the application.  Whatever methods the application
    calls, whatever the provider delivers, whatever the calls on the provider throw and
    however the bus interleaves the two ends: the application is told exactly the updates
    the session has sent and the bus has handed over, in their order and each once, and it
    answers each without an error.  Everything under way arrives; and then the stub shows
    the position, the heading and the velocity of the session, as far as there has been
    one, and the session's position is the last one delivered, up to the equality of the
    program. *)
Theorem updates_reach_the_application (es : list Event) (u : Update Geometry.Position) :
  Forall acceptable es -> acceptable (Service_ (Deliver (SigPosition u))) ->
  let w := history es beginning in
  told (application w) = take (arrived w) (sent (session w)) /\
  replies (application w) = replicate (arrived w) None /\
  let w1 := step (Service_ (Deliver (SigPosition u))) w in
  let w2 := history (replicate (length (sent (session w1)) - arrived w1) Arrive) w1 in
  session w2 = session w1 /\ told (application w2) = sent (session w1) /\
  (position (session w1) = u \/ update_neq Geometry.Pos.position_eq (position (session w1)) u = false) /\
  ((exists x, In (UpdatePosition x) (sent (session w1))) -> e_position (application w2) = position (session w1)) /\
  ((exists x, In (UpdateHeading x) (sent (session w1))) -> e_heading (application w2) = heading (session w1)) /\
  ((exists x, In (UpdateVelocity x) (sent (session w1))) -> e_velocity (application w2) = velocity (session w1)).
Proof.
  intros Hes Hu. cbv zeta.
  assert (agreed (history es beginning)) as Hg by (apply agreed_history; [done|by split]).
  set (w := history es beginning) in *. clearbody w.
  split; [apply Hg|]. split; [apply Hg|].
  pose proof (agreed_step _ w Hu Hg) as H1. set (w1 := step _ w) in *.
  set (n := (length (sent (session w1)) - arrived w1)%nat).
  pose proof (agreed_arrived _ H1) as Hle.
  destruct (arrive_all n w1) as [Ea Es]; [lia|].
  assert (agreed (history (replicate n Arrive) w1)) as H2.
  { apply agreed_history; [|done]. apply Forall_replicate. done. }
  set (w2 := history (replicate n Arrive) w1) in *.
  assert (take (arrived w2) (sent (session w2)) = sent (session w1)) as Et.
  { rewrite Es, Ea. apply take_ge. lia. }
  pose proof (agreed_end _ H2) as He. rewrite Et in He.
  pose proof (agreed_session _ H1) as Hs. unfold shown in Hs.
  destruct (latest_replaced (sent (session w1)) pc hc vc p0 h0 v0) as (L1 & L2 & L3).
  destruct (latest (sent (session w1)) pc hc vc) as [[a b] c], (latest (sent (session w1)) p0 h0 v0) as [[a' b'] c'].
  simpl in L1, L2, L3.
  split; [done|]. split; [rewrite (agreed_told _ H2); exact Et|]. split; [|split_and!; intros Hx].
  - subst w1. cbn [step session]. pose proof (signal_shown (SigPosition u) (session w)) as Hm. cbv beta iota zeta in Hm.
    destruct (update_neq Geometry.Pos.position_eq (position (session w)) u) eqn:E; unfold shown in Hm;
      apply (f_equal (fun t => t.1.1.1)) in Hm; cbn [fst] in Hm; rewrite Hm; auto.
  - specialize (L1 Hx). congruence.
  - specialize (L2 Hx). congruence.
  - specialize (L3 Hx). congruence.
Qed.
End Updates.

(** * An application and two positions *)
Definition an_end : End :=
  MkEnd (sample_position 5) (MkUpdate (S754_zero false) 5) (MkUpdate (S754_zero false) 5) [] [].
Definition some_events : list Event :=
  [Service_ (Invoke StartPositionUpdates); Service_ (Deliver (SigPosition (sample_position 7)));
   Service_ (Deliver (SigPosition (sample_position 7))); Arrive; Arrive].

Lemma updates_reach_the_application_witness :
  let w := history (D := memory_delivery) 5 quiet deliver_reply some_events
             (beginning (sample_position 0) (sample_position 5) (MkUpdate (S754_zero false) 0)
                (MkUpdate (S754_zero false) 5) (MkUpdate (S754_zero false) 0) (MkUpdate (S754_zero false) 5)) in
  told (application w) = [UpdatePosition (sample_position 7)] /\
  told (application w) = take (arrived w) (sent (session w)).
Proof.
  assert (forall t, 6 <= t <= 10 ->
    acceptable (sample_position 5) (MkUpdate (S754_zero false) 5) (MkUpdate (S754_zero false) 5)
      (Service_ (Deliver (SigPosition (sample_position t))))) as Ha.
  { intros t Ht. split; [|unfold int64; simpl; lia]. unfold update_neq.
    assert ((when_ (sample_position 5) =? when_ (sample_position t)) = false) as -> by (apply Z.eqb_neq; simpl; lia).
    by rewrite andb_false_r. }
  cbv zeta. split; [vm_compute; reflexivity|].
  refine (proj1 (updates_reach_the_application (D := memory_delivery) 5 quiet deliver_reply
    (sample_position 0) (sample_position 5) (MkUpdate (S754_zero false) 0) (MkUpdate (S754_zero false) 5)
    (MkUpdate (S754_zero false) 0) (MkUpdate (S754_zero false) 5) some_events (sample_position 9) _ _)).
  - repeat constructor; apply Ha; lia.
  - apply Ha. lia.
Defined.
End Updates.
