(* ===== verification/Connectivity.v ===== *)
(** Connectivity ([connectivity/manager.h/.cpp], [connectivity/wireless_network.h],
    [connectivity/cached_wireless_network.h/.cpp] and
    [connectivity/ofono_nm_connectivity_manager.h/.cpp]): the characteristics of the active
    connection, wireless networks, the manager that mirrors the modems, devices and
    access points of the bus and announces them to its observers, and the manager a
    platform gets by default. *)
From Stdlib Require Import ZArith Lia Ascii String.
From stdpp Require Import base gmap strings list fin_maps fin_sets.
From S2P Require Import Prelude RadioCell.
Local Open Scope Z_scope.
#[local] Set Warnings "-clear-no-such-hyp".

(** * Characteristics of a connection *)
Module Flags.

Definition none : Z := 0.
Definition connection_goes_via_wifi : Z := Z.shiftl 1 0.
Definition connection_goes_via_wwan : Z := Z.shiftl 1 1.
Definition connection_is_roaming : Z := Z.shiftl 1 2.
Definition connection_has_monetary_costs : Z := Z.shiftl 1 3.
Definition connection_is_volume_limited : Z := Z.shiftl 1 4.
Definition connection_is_bandwith_limited : Z := Z.shiftl 1 5.

(** [operator|] and [operator&] *)
Definition flags_or (l r : Z) : Z := Z.lor l r.
Definition flags_and (l r : Z) : Z := Z.land l r.

(** [operator<<] of the characteristics: the names of the flags that are set. *)
Definition names : list (Z * string) :=
  [(connection_goes_via_wifi, "connection_goes_via_wifi");
   (connection_goes_via_wwan, "connection_goes_via_wwan");
   (connection_is_roaming, "connection_is_roaming");
   (connection_has_monetary_costs, "connection_has_monetary_costs");
   (connection_is_bandwith_limited, "connection_is_bandwidth_limited");
   (connection_is_volume_limited, "connection_is_volume_limited")]%string.
Definition print_characteristics (c : Z) : string :=
  let step '(out, first) '(flag, name) :=
    if negb (flags_and c flag =? none)
    then (String.append out (String.append (if first : bool then "" else ", ") name), false)
    else (out, first) in
  String.append (fold_left step names ("["%string, true)).1 "]".

(** [connectivity::State]; the cast keeps any number. *)
Definition from_nm_property (value : Z) : Z := wrap_s 32 value.
Definition print_state (s : Z) : string :=
  match s with
  | 0 => "State::unknown" | 10 => "State::asleep" | 20 => "State::disconnected"
  | 30 => "State::disconnecting" | 40 => "State::connecting" | 50 => "State::connected_local"
  | 60 => "State::connected_site" | 70 => "State::connected_global" | _ => ""
  end.

Definition all_characteristics : Z :=
  flags_or (flags_or connection_has_monetary_costs connection_is_bandwith_limited) connection_is_volume_limited.
End Flags.

(** * Wireless networks *)
Module Wifi.
Import Bounded.

Inductive Mode : Set := unknown | adhoc | infrastructure.

(** The ranges of [WirelessNetwork::Frequency] and [SignalStrength]. *)
Definition frequency_bounds : Bounds := MkBounds 2412 5825 INT_MAX.
Definition strength_bounds : Bounds := MkBounds 0 100 INT_MAX.

(** What the access point answers to the reads of its properties, or sends when they
    change: [as<T>()] throws unless the value has the type [T]. *)
Inductive Variant : Type :=
| VString (s : string) | VBytes (l : list Ascii.ascii) | VUint32 (z : Z) | VInt32 (z : Z) | VInt8 (z : Z).
Definition mismatch {A} : res A := Throw (runtime_error "Variant: mismatch between expected and actual type").
Definition as_string (v : Variant) : res string := match v with VString s => Ok s | _ => mismatch end.
Definition as_bytes (v : Variant) : res (list Ascii.ascii) := match v with VBytes s => Ok s | _ => mismatch end.
Definition as_uint32 (v : Variant) : res Z := match v with VUint32 z => Ok z | _ => mismatch end.
Definition as_int32 (v : Variant) : res Z := match v with VInt32 z => Ok z | _ => mismatch end.
Definition as_int8 (v : Variant) : res Z := match v with VInt8 z => Ok z | _ => mismatch end.

(** [CachedWirelessNetwork] *)
Record Network : Type := MkNetwork {
  last_seen : Z; bssid : string; ssid : string; mode : Mode; frequency : Z; signal_strength : Z
}.

Section Network.
(** The boot time of the system in seconds, read once from [/proc/stat]. *)
Variable ts_when_booted : Z.

Definition utf8_ssid_to_string (ssid : list Ascii.ascii) : string := String.string_of_list_ascii ssid.

Definition wifi_mode_from_ap_mode (value : Z) : Mode :=
  match value with 0 => unknown | 1 => adhoc | 2 => infrastructure | _ => unknown end.

(** [translate_time_stamp]: the argument is converted to [std::uint64_t], the sum of the
    seconds is signed. *)
Definition translate_time_stamp (ts : Z) : Z := ts_when_booted + wrap_s 64 (wrap_u 64 ts).

(** The properties of the access point, each read with a call that may throw. *)
Record AccessPoint : Type := MkAccessPoint {
  ap_last_seen : res Z; ap_hw_address : res string; ap_ssid : res (list Ascii.ascii);
  ap_mode : res Z; ap_frequency : res Z; ap_strength : res Z
}.

(** [CachedWirelessNetwork::CachedWirelessNetwork] *)
Definition construct_network (ap : AccessPoint) : res Network :=
  seen ← ap_last_seen ap;
  hw ← ap_hw_address ap;
  ss ← ap_ssid ap;
  m ← ap_mode ap;
  fv ← ap_frequency ap;
  f ← of_value frequency_bounds (wrap_s 32 fv);
  sv ← ap_strength ap;
  s ← of_value strength_bounds sv;
  Ok (MkNetwork (translate_time_stamp seen) hw (utf8_ssid_to_string ss) (wifi_mode_from_ap_mode m) f s).

(** The table [lut]: what a changed property does to the network. *)
Definition on_property (name : string) (value : Variant) (n : Network) : res Network :=
  if String.eqb name "HwAddress"
  then v ← as_string value;
       Ok (MkNetwork (last_seen n) v (ssid n) (mode n) (frequency n) (signal_strength n))
  else if String.eqb name "Ssid"
  then v ← as_bytes value;
       Ok (MkNetwork (last_seen n) (bssid n) (utf8_ssid_to_string v) (mode n) (frequency n) (signal_strength n))
  else if String.eqb name "Strength"
  then v ← as_int8 value; s ← of_value strength_bounds v;
       Ok (MkNetwork (last_seen n) (bssid n) (ssid n) (mode n) (frequency n) s)
  else if String.eqb name "Frequency"
  then v ← as_uint32 value; f ← of_value frequency_bounds (wrap_s 32 v);
       Ok (MkNetwork (last_seen n) (bssid n) (ssid n) (mode n) f (signal_strength n))
  else if String.eqb name "Mode"
  then v ← as_uint32 value;
       Ok (MkNetwork (last_seen n) (bssid n) (ssid n) (wifi_mode_from_ap_mode v) (frequency n) (signal_strength n))
  else if String.eqb name "LastSeen"
  then v ← as_int32 value;
       Ok (MkNetwork (translate_time_stamp v) (bssid n) (ssid n) (mode n) (frequency n) (signal_strength n))
  else Ok n.

(** [on_access_point_properties_changed]: an exception only skips its entry. *)
Definition on_access_point_properties_changed (dict : list (string * Variant)) (n : Network) : Network :=
  fold_left (fun n entry => match on_property entry.1 entry.2 n with Ok n' => n' | Throw _ => n end) dict n.

(** The frequency and the strength are in their ranges. *)
Definition in_range (n : Network) : Prop :=
  is_valid frequency_bounds (frequency n) = true /\ is_valid strength_bounds (signal_strength n) = true.

Lemma of_value_ok b z v : of_value b z = Ok v -> v = z /\ is_valid b v = true.
Proof. rewrite of_value_spec. destruct (is_valid b z) eqn:E; [|done]. by intros [= <-]. Qed.

Ltac bound_result :=
  repeat match goal with
  | H : (?m ≫= _) = Ok _ |- _ => let E := fresh "E" in destruct m eqn:E; [|discriminate H]; cbn [mbind res_bind] in H
  | E : of_value _ _ = Ok _ |- _ => apply of_value_ok in E as [-> ?]
  | H : Ok _ = Ok _ |- _ => injection H as <-
  end.

Lemma construct_in_range ap n : construct_network ap = Ok n -> in_range n.
Proof. unfold construct_network. intros H. bound_result. by split. Qed.

Lemma on_property_in_range name v n n' : in_range n -> on_property name v n = Ok n' -> in_range n'.
Proof.
  intros [Hf Hs]. unfold on_property.
  repeat case_bool; intros H; bound_result; by split.
Qed.

Lemma properties_changed_in_range dict n : in_range n -> in_range (on_access_point_properties_changed dict n).
Proof.
  unfold on_access_point_properties_changed. revert n. induction dict as [|[k v] dict IH]; intros n Hn; [done|].
  cbn [fold_left]. apply IH. cbn [fst snd].
  destruct (on_property k v n) eqn:E; [by eapply on_property_in_range|done].
Qed.
End Network.
End Wifi.

(** * The connectivity manager *)
Module Manager.
Import Flags.

(** Object paths, in the order of [std::map]. *)
Abbreviation path := string.
(** The objects behind the shared pointers are numbered in the order of their creation. *)
Abbreviation object := nat.

(** The type of a NetworkManager device; other numbers are kept. *)
Definition type_unknown : Z := 0.
Definition type_wifi : Z := 2.
Definition type_modem : Z := 8.

(** What the bus answers while one event is handled. *)
Record Bus : Type := MkBus {
  GetModems : res (list path);
  new_cell : path -> res bool;           (* [CachedRadioCell]'s constructor: is it valid? *)
  GetDevices : res (list path);
  DeviceType : path -> res Z;
  GetAccessPoints : path -> res (list path);
  access_point : path -> Wifi.AccessPoint;
  State : res Z;
  PrimaryConnection : res path;
  Devices : path -> res (list path);     (* of an active connection *)
  WirelessEnabled : res bool; WirelessHardwareEnabled : res bool;
  WwanEnabled : res bool; WwanHardwareEnabled : res bool
}.

(** [org::Ofono::Manager::Modem], as far as the manager reads it: the registration
    properties of this copy, which only [refresh_properties] fills. *)
Record Modem : Type := MkModem { registration : gmap string string }.
(** [modem_for_path] *)
Definition modem_for_path (p : path) : Modem := MkModem ∅.
(** [network_registration.get<Status>(false)] *)
Definition status_without_refresh (m : Modem) : string :=
  match registration m !! "Status"%string with Some s => s | None => ""%string end.

Inductive Signal : Type :=
| ScanFinished | CellAdded (c : object) | CellRemoved (c : object)
| NetworkAdded (n : object) | NetworkRemoved (n : object).

(** What is posted to the dispatcher. *)
Inductive Task : Type :=
| SetupRadio | SetupNetwork
| InterfacesTask (p : path) (interfaces : list string) | CreateCell (p : path)
| DeviceAddedTask (p : path) | DeviceRemovedTask (p : path) | CharacteristicsTask (p : path).

(** [OfonoNmConnectivityManager::Private] *)
Record World : Type := MkWorld {
  modems : gmap path Modem;
  cells : gmap path object;
  wifis : gmap path object;
  nm_devices : gset path;
  cell_valid : gmap object bool;             (* the cells that were made *)
  networks : gmap object Wifi.Network;       (* the networks that were made *)
  next : object;
  tasks : list Task;
  signals : list Signal;                     (* emitted so far *)
  state : Z; characteristics : Z;
  is_wifi_enabled : bool; is_wifi_hardware_enabled : bool;
  is_wwan_enabled : bool; is_wwan_hardware_enabled : bool;
  modem_manager_watched : bool; network_manager_watched : bool
}.

Definition initial : World :=
  MkWorld ∅ ∅ ∅ ∅ ∅ ∅ 0 [] [] 0 none false false false false false false.

Definition set_modems m w := MkWorld m (cells w) (wifis w) (nm_devices w) (cell_valid w) (networks w) (next w) (tasks w) (signals w) (state w) (characteristics w) (is_wifi_enabled w) (is_wifi_hardware_enabled w) (is_wwan_enabled w) (is_wwan_hardware_enabled w) (modem_manager_watched w) (network_manager_watched w).
Definition set_cells c w := MkWorld (modems w) c (wifis w) (nm_devices w) (cell_valid w) (networks w) (next w) (tasks w) (signals w) (state w) (characteristics w) (is_wifi_enabled w) (is_wifi_hardware_enabled w) (is_wwan_enabled w) (is_wwan_hardware_enabled w) (modem_manager_watched w) (network_manager_watched w).
Definition set_wifis x w := MkWorld (modems w) (cells w) x (nm_devices w) (cell_valid w) (networks w) (next w) (tasks w) (signals w) (state w) (characteristics w) (is_wifi_enabled w) (is_wifi_hardware_enabled w) (is_wwan_enabled w) (is_wwan_hardware_enabled w) (modem_manager_watched w) (network_manager_watched w).
Definition set_devices d w := MkWorld (modems w) (cells w) (wifis w) d (cell_valid w) (networks w) (next w) (tasks w) (signals w) (state w) (characteristics w) (is_wifi_enabled w) (is_wifi_hardware_enabled w) (is_wwan_enabled w) (is_wwan_hardware_enabled w) (modem_manager_watched w) (network_manager_watched w).
Definition set_valid v w := MkWorld (modems w) (cells w) (wifis w) (nm_devices w) v (networks w) (next w) (tasks w) (signals w) (state w) (characteristics w) (is_wifi_enabled w) (is_wifi_hardware_enabled w) (is_wwan_enabled w) (is_wwan_hardware_enabled w) (modem_manager_watched w) (network_manager_watched w).
Definition set_networks n w := MkWorld (modems w) (cells w) (wifis w) (nm_devices w) (cell_valid w) n (next w) (tasks w) (signals w) (state w) (characteristics w) (is_wifi_enabled w) (is_wifi_hardware_enabled w) (is_wwan_enabled w) (is_wwan_hardware_enabled w) (modem_manager_watched w) (network_manager_watched w).
Definition set_next n w := MkWorld (modems w) (cells w) (wifis w) (nm_devices w) (cell_valid w) (networks w) n (tasks w) (signals w) (state w) (characteristics w) (is_wifi_enabled w) (is_wifi_hardware_enabled w) (is_wwan_enabled w) (is_wwan_hardware_enabled w) (modem_manager_watched w) (network_manager_watched w).
Definition set_tasks t w := MkWorld (modems w) (cells w) (wifis w) (nm_devices w) (cell_valid w) (networks w) (next w) t (signals w) (state w) (characteristics w) (is_wifi_enabled w) (is_wifi_hardware_enabled w) (is_wwan_enabled w) (is_wwan_hardware_enabled w) (modem_manager_watched w) (network_manager_watched w).
Definition set_signals s w := MkWorld (modems w) (cells w) (wifis w) (nm_devices w) (cell_valid w) (networks w) (next w) (tasks w) s (state w) (characteristics w) (is_wifi_enabled w) (is_wifi_hardware_enabled w) (is_wwan_enabled w) (is_wwan_hardware_enabled w) (modem_manager_watched w) (network_manager_watched w).
Definition set_state s w := MkWorld (modems w) (cells w) (wifis w) (nm_devices w) (cell_valid w) (networks w) (next w) (tasks w) (signals w) s (characteristics w) (is_wifi_enabled w) (is_wifi_hardware_enabled w) (is_wwan_enabled w) (is_wwan_hardware_enabled w) (modem_manager_watched w) (network_manager_watched w).
Definition set_characteristics c w := MkWorld (modems w) (cells w) (wifis w) (nm_devices w) (cell_valid w) (networks w) (next w) (tasks w) (signals w) (state w) c (is_wifi_enabled w) (is_wifi_hardware_enabled w) (is_wwan_enabled w) (is_wwan_hardware_enabled w) (modem_manager_watched w) (network_manager_watched w).
Definition set_flags a b c d w := MkWorld (modems w) (cells w) (wifis w) (nm_devices w) (cell_valid w) (networks w) (next w) (tasks w) (signals w) (state w) (characteristics w) a b c d (modem_manager_watched w) (network_manager_watched w).
Definition set_watched a b w := MkWorld (modems w) (cells w) (wifis w) (nm_devices w) (cell_valid w) (networks w) (next w) (tasks w) (signals w) (state w) (characteristics w) (is_wifi_enabled w) (is_wifi_hardware_enabled w) (is_wwan_enabled w) (is_wwan_hardware_enabled w) a b.

Definition emit (s : Signal) : M World unit := modify (fun w => set_signals (signals w ++ [s]) w).
(** [boost::asio::post(dispatcher.service, task)] *)
Definition post (t : Task) : M World unit := modify (fun w => set_tasks (tasks w ++ [t]) w).
(** [std::make_shared<CachedRadioCell>] and [std::make_shared<CachedWirelessNetwork>] *)
Definition make_cell (valid : bool) : M World object := fun w =>
  (Ok (next w), set_next (S (next w)) (set_valid (<[next w := valid]> (cell_valid w)) w)).
Definition make_network (n : Wifi.Network) : M World object := fun w =>
  (Ok (next w), set_next (S (next w)) (set_networks (<[next w := n]> (networks w)) w)).
Definition return_unit : M World unit := skip.

(** ** Modems and cells *)
Section Handlers.
Variable ts_when_booted : Z.
Variable b : Bus.

Definition on_modem_added (p : path) : M World unit :=
  known ← gets (fun w => bool_decide (is_Some (modems w !! p)));
  if known : bool then return_unit
  else modify (fun w => set_modems (<[p := modem_for_path p]> (modems w)) w);;
       valid ← lift (new_cell b p);
       c ← make_cell valid;
       present ← gets (fun w => bool_decide (is_Some (cells w !! p)));
       if present : bool then return_unit
       else modify (fun w => set_cells (<[p := c]> (cells w)) w);;
            emit (CellAdded c).

Definition on_modem_removed (p : path) : M World unit :=
  cell ← gets (fun w => cells w !! p);
  modify (fun w => set_cells (delete p (cells w)) w);;
  modify (fun w => set_modems (delete p (modems w)) w);;
  match cell with Some c => emit (CellRemoved c) | None => skip end.

Definition network_registration : string := "org.ofono.NetworkRegistration".

Definition on_modem_interfaces_changed (p : path) (interfaces : list string) : M World unit :=
  known ← gets (fun w => bool_decide (is_Some (modems w !! p)));
  if negb known then return_unit
  else
    cell ← gets (fun w => cells w !! p);
    let modem_has_network_registration := bool_decide (network_registration ∈ interfaces) in
    match cell with
    | Some c =>
        if negb modem_has_network_registration
        then modify (fun w => set_cells (delete p (cells w)) w);; emit (CellRemoved c)
        else skip
    | None => if modem_has_network_registration then post (CreateCell p) else skip
    end.

(** The task [on_modem_interfaces_changed] posts. *)
Definition create_cell (p : path) : M World unit :=
  known ← gets (fun w => bool_decide (is_Some (modems w !! p)));
  if negb known then return_unit
  else
    valid ← lift (new_cell b p);
    c ← make_cell valid;
    modify (fun w => set_cells (match cells w !! p with Some _ => cells w | None => <[p := c]> (cells w) end) w);;
    emit (CellAdded c).

(** The slot on [is_valid().changed()] of a cell. *)
Definition on_validity_changed (c : object) (valid : bool) : M World unit :=
  old ← gets (fun w => cell_valid w !! c);
  match old with
  | Some v =>
      if Bool.eqb v valid then skip
      else modify (fun w => set_valid (<[c := valid]> (cell_valid w)) w);;
           emit (if valid then CellAdded c else CellRemoved c)
  | None => skip
  end.

(** ** Devices and access points *)

Definition on_access_point_added (ap_path device_path : path) : M World unit :=
  known ← gets (fun w => bool_decide (device_path ∈ nm_devices w));
  if negb known then return_unit
  else
    t ← lift (DeviceType b device_path);
    if negb (t =? type_wifi) then return_unit
    else
      n ← lift (Wifi.construct_network ts_when_booted (access_point b ap_path));
      wifi ← make_network n;
      modify (fun w => set_wifis (<[ap_path := wifi]> (wifis w)) w);;
      emit (NetworkAdded wifi).

Definition on_access_point_removed (ap_path : path) : M World unit :=
  itw ← gets (fun w => wifis w !! ap_path);
  match itw with
  | None => return_unit
  | Some wifi => modify (fun w => set_wifis (delete ap_path (wifis w)) w);; emit (NetworkRemoved wifi)
  end.

Definition on_device_added (device_path : path) : M World unit :=
  known ← gets (fun w => bool_decide (device_path ∈ nm_devices w));
  if known : bool then return_unit
  else
    t ← lift (DeviceType b device_path);
    when (t =? type_modem) (modify (fun w => set_devices ({[device_path]} ∪ nm_devices w) w));;
    when (t =? type_wifi)
      (modify (fun w => set_devices ({[device_path]} ∪ nm_devices w) w);;
       aps ← lift (GetAccessPoints b device_path);
       for_each aps (fun ap => try_catch (on_access_point_added ap device_path) is_std_exception (fun _ => skip))).

Definition on_device_removed (p : path) : M World unit :=
  modify (fun w => set_devices (nm_devices w ∖ {[p]}) w).

(** ** Characteristics *)

(** What one modem adds. *)
Definition roaming (m : Modem) : Z :=
  if String.eqb "roaming" (status_without_refresh m) then connection_is_roaming else none.

(** The function [enumerate_devices] is called with, on [type] and the characteristics so far. *)
Definition characteristics_of_device (ms : list Modem) (type c : Z) : Z :=
  if type =? type_modem
  then let c := flags_or c connection_goes_via_wwan in
       let c := fold_left (fun c m => flags_or c (roaming m)) ms c in
       flags_or c all_characteristics
  else if type =? type_wifi then flags_or c connection_goes_via_wifi
  else c.

(** The loop over the devices; an exception ends it, what was found stays. *)
Fixpoint characteristics_of_devices (w : World) (ps : list path) (c : Z) : Z :=
  match ps with
  | [] => c
  | p :: ps =>
      match (if bool_decide (p ∈ nm_devices w) then DeviceType b p else Ok type_unknown) with
      | Throw _ => c
      | Ok t =>
          characteristics_of_devices w ps
            (characteristics_of_device (map snd (map_to_list (modems w))) t c)
      end
  end.

Definition characteristics_for_connection (p : path) (w : World) : Z :=
  match Devices b p with
  | Ok ps => characteristics_of_devices w ps none
  | Throw _ => none
  end.

(** ** Setting up *)

Definition setup_radio_stack_access : M World unit :=
  ps ← lift (GetModems b);
  for_each ps (fun p => try_catch (on_modem_added p) is_runtime_error (fun _ => skip)).

Definition setup_network_stack_access : M World unit :=
  ps ← lift (GetDevices b);
  for_each ps on_device_added;;
  s ← lift (State b); modify (set_state (from_nm_property s));;
  p ← lift (PrimaryConnection b);
  modify (fun w => set_characteristics (characteristics_for_connection p w) w);;
  wifi ← lift (WirelessEnabled b);
  modify (fun w => set_flags wifi (is_wifi_hardware_enabled w) (is_wwan_enabled w) (is_wwan_hardware_enabled w) w);;
  wifi_hw ← lift (WirelessHardwareEnabled b);
  modify (fun w => set_flags (is_wifi_enabled w) wifi_hw (is_wwan_enabled w) (is_wwan_hardware_enabled w) w);;
  wwan ← lift (WwanEnabled b);
  modify (fun w => set_flags (is_wifi_enabled w) (is_wifi_hardware_enabled w) wwan (is_wwan_hardware_enabled w) w);;
  wwan_hw ← lift (WwanHardwareEnabled b);
  modify (fun w => set_flags (is_wifi_enabled w) (is_wifi_hardware_enabled w) (is_wwan_enabled w) wwan_hw w).

(** [Private::Private] *)
Definition construct_manager : M World unit :=
  try_catch setup_radio_stack_access is_std_exception
    (fun _ => modify (fun w => set_watched true (network_manager_watched w) w));;
  try_catch setup_network_stack_access is_std_exception
    (fun _ => modify (fun w => set_watched (modem_manager_watched w) true w)).

(** ** Events *)

Inductive NmProperty : Type := NmState (s : Z) | NmPrimaryConnection (p : path) | NmOther.
Inductive Event : Type :=
| ModemAdded (p : path) | ModemRemoved (p : path) | InterfacesChanged (p : path) (interfaces : list string)
| ValidityChanged (c : object) (valid : bool)
| DeviceAdded (p : path) | DeviceRemoved (p : path) | ScanDone
| AccessPointAdded (ap device : path) | AccessPointRemoved (ap : path)
| NetworkPropertiesChanged (n : object) (dict : list (string * Wifi.Variant))
| PropertiesChanged (dict : list NmProperty) | StateChanged (s : Z)
| WifiEnabled (v : bool) | WifiHardwareEnabled (v : bool) | WWanEnabled (v : bool) | WWanHardwareEnabled (v : bool)
| ModemManagerRegistered | NetworkManagerRegistered
| Dispatch.

(** A task of the dispatcher. *)
Definition run_task (t : Task) : M World unit :=
  match t with
  | SetupRadio => setup_radio_stack_access
  | SetupNetwork => setup_network_stack_access
  | InterfacesTask p interfaces => on_modem_interfaces_changed p interfaces
  | CreateCell p => create_cell p
  | DeviceAddedTask p => on_device_added p
  | DeviceRemovedTask p => on_device_removed p
  | CharacteristicsTask p => modify (fun w => set_characteristics (characteristics_for_connection p w) w)
  end.

Definition catch_std (m : M World unit) : M World unit := try_catch m is_std_exception (fun _ => skip).

Definition on_event (e : Event) : M World unit :=
  match e with
  | ModemAdded p => catch_std (on_modem_added p)
  | ModemRemoved p => catch_std (on_modem_removed p)
  | InterfacesChanged p interfaces => post (InterfacesTask p interfaces)
  | ValidityChanged c valid => on_validity_changed c valid
  | DeviceAdded p => post (DeviceAddedTask p)
  | DeviceRemoved p => post (DeviceRemovedTask p)
  | ScanDone => emit ScanFinished
  | AccessPointAdded ap device => catch_std (on_access_point_added ap device)
  | AccessPointRemoved ap => catch_std (on_access_point_removed ap)
  | NetworkPropertiesChanged n dict =>
      modify (fun w => set_networks (alter (Wifi.on_access_point_properties_changed ts_when_booted dict) n (networks w)) w)
  | PropertiesChanged dict =>
      for_each dict (fun p => match p with
                              | NmState s => modify (set_state (from_nm_property s))
                              | NmPrimaryConnection p => post (CharacteristicsTask p)
                              | NmOther => skip
                              end)
  | StateChanged s => modify (set_state (from_nm_property s))
  | WifiEnabled v => modify (fun w => set_flags v (is_wifi_hardware_enabled w) (is_wwan_enabled w) (is_wwan_hardware_enabled w) w)
  | WifiHardwareEnabled v => modify (fun w => set_flags (is_wifi_enabled w) v (is_wwan_enabled w) (is_wwan_hardware_enabled w) w)
  | WWanEnabled v => modify (fun w => set_flags (is_wifi_enabled w) (is_wifi_hardware_enabled w) v (is_wwan_hardware_enabled w) w)
  | WWanHardwareEnabled v => modify (fun w => set_flags (is_wifi_enabled w) (is_wifi_hardware_enabled w) (is_wwan_enabled w) v w)
  | ModemManagerRegistered => ws ← gets modem_manager_watched; when ws (post SetupRadio)
  | NetworkManagerRegistered => ws ← gets network_manager_watched; when ws (post SetupNetwork)
  | Dispatch =>
      ts ← gets tasks;
      match ts with
      | [] => skip
      | t :: ts => modify (set_tasks ts);; try_catch (run_task t) any_exception (fun _ => skip)
      end
  end.

(** ** Queries *)

(** [request_scan_for_wireless_networks]: the devices that are asked, until one throws. *)
Fixpoint scanned (ps : list path) : list path * res unit :=
  match ps with
  | [] => ([], Ok tt)
  | p :: ps =>
      match DeviceType b p with
      | Throw e => ([], Throw e)
      | Ok t => let r := scanned ps in ((if t =? type_wifi then [p] else []) ++ r.1, r.2)
      end
  end.
Definition request_scan_for_wireless_networks (w : World) : list path * res unit :=
  scanned (elements (nm_devices w)).
End Handlers.

Definition enumerate_visible_wireless_networks (w : World) : list object := map snd (map_to_list (wifis w)).
Definition enumerate_connected_radio_cells (w : World) : list object :=
  filter (fun c => cell_valid w !! c = Some true) (map snd (map_to_list (cells w))).

(** ** What an observer of the signals believes *)

Definition networks_step (v : gset object) (s : Signal) : gset object :=
  match s with NetworkAdded n => {[n]} ∪ v | NetworkRemoved n => v ∖ {[n]} | _ => v end.
Definition cells_step (v : gset object) (s : Signal) : gset object :=
  match s with CellAdded c => {[c]} ∪ v | CellRemoved c => v ∖ {[c]} | _ => v end.
Definition announced_networks (ss : list Signal) : gset object := fold_left networks_step ss ∅.
Definition announced_cells (ss : list Signal) : gset object := fold_left cells_step ss ∅.

Lemma announced_networks_snoc ss s : announced_networks (ss ++ [s]) = networks_step (announced_networks ss) s.
Proof. apply fold_left_app. Qed.
Lemma announced_cells_snoc ss s : announced_cells (ss ++ [s]) = cells_step (announced_cells ss) s.
Proof. apply fold_left_app. Qed.

(** ** The invariants *)

(** Modems and cells. *)
Record radio (w : World) : Prop := {
  radio_known : forall p c, cells w !! p = Some c -> is_Some (modems w !! p);
  radio_inj : forall p q c, cells w !! p = Some c -> cells w !! q = Some c -> p = q;
  radio_fresh : forall c v, cell_valid w !! c = Some v -> (c < next w)%nat;
  radio_made : forall p c, cells w !! p = Some c -> is_Some (cell_valid w !! c);
  radio_announced : forall p c, cells w !! p = Some c -> cell_valid w !! c = Some true ->
    c ∈ announced_cells (signals w);
  radio_empty : forall p m, modems w !! p = Some m -> registration m = ∅
}.

(** Access points and networks. *)
Record network (w : World) : Prop := {
  network_inj : forall p q n, wifis w !! p = Some n -> wifis w !! q = Some n -> p = q;
  network_fresh : forall n x, networks w !! n = Some x -> (n < next w)%nat;
  network_made : forall p n, wifis w !! p = Some n -> is_Some (networks w !! n);
  network_announced : forall p n, wifis w !! p = Some n -> n ∈ announced_networks (signals w);
  network_range : forall n x, networks w !! n = Some x -> Wifi.in_range x
}.

Definition no_roaming (w : World) : Prop := Z.testbit (characteristics w) 2 = false.
Definition invariant (w : World) : Prop := radio w /\ network w /\ no_roaming w.

(** The invariants only see some fields. *)
Lemma radio_frame w w' :
  modems w' = modems w -> cells w' = cells w -> cell_valid w' = cell_valid w ->
  announced_cells (signals w') = announced_cells (signals w) -> (next w <= next w')%nat ->
  radio w -> radio w'.
Proof.
  intros Em Ec Ev Es En [H1 H2 H3 H4 H5 H6]. split; rewrite ?Em, ?Ec, ?Ev, ?Es; auto.
  intros c v Hc. apply H3 in Hc. lia.
Qed.

Lemma network_frame w w' :
  wifis w' = wifis w -> networks w' = networks w ->
  announced_networks (signals w') = announced_networks (signals w) -> (next w <= next w')%nat ->
  network w -> network w'.
Proof.
  intros Ew En Es Ex [H1 H2 H3 H4 H5]. split; rewrite ?Ew, ?En, ?Es; auto.
  intros c v Hc. apply H2 in Hc. lia.
Qed.

(** The fields that no invariant sees. *)
Lemma invariant_frame w w' :
  modems w' = modems w -> cells w' = cells w -> cell_valid w' = cell_valid w -> wifis w' = wifis w ->
  networks w' = networks w -> signals w' = signals w -> next w' = next w ->
  characteristics w' = characteristics w -> invariant w -> invariant w'.
Proof.
  intros E1 E2 E3 E4 E5 E6 E7 E8 (Hr & Hn & Hc). split; [|split].
  - eapply radio_frame; [..|exact Hr]; rewrite ?E6, ?E7; done || lia.
  - eapply network_frame; [..|exact Hn]; rewrite ?E6, ?E7; done || lia.
  - unfold no_roaming. by rewrite E8.
Qed.

Lemma manager_initial : invariant initial.
Proof. split; [|split]; [split..|done]; simpl; intros *; rewrite lookup_empty; done. Qed.

Lemma preserves_framed f :
  (forall w, modems (f w) = modems w /\ cells (f w) = cells w /\ cell_valid (f w) = cell_valid w /\
     wifis (f w) = wifis w /\ networks (f w) = networks w /\ signals (f w) = signals w /\
     next (f w) = next w /\ characteristics (f w) = characteristics w) ->
  preserves invariant (modify f).
Proof. intros Hf w Hi. destruct (Hf w) as (? & ? & ? & ? & ? & ? & ? & ?). by eapply invariant_frame. Qed.
Ltac framed := apply preserves_framed; intros ?; by split_and!.

(** ** Every handler keeps them *)

(** A cell that was just made. *)
Definition made_cell (valid : bool) (w : World) : World :=
  set_next (S (next w)) (set_valid (<[next w := valid]> (cell_valid w)) w).
Definition made_network (n : Wifi.Network) (w : World) : World :=
  set_next (S (next w)) (set_networks (<[next w := n]> (networks w)) w).
Definition emitted (s : Signal) (w : World) : World := set_signals (signals w ++ [s]) w.

Lemma cached_is_old w p c : radio w -> cells w !! p = Some c -> next w <> c.
Proof. intros H Hc <-. destruct (radio_made w H p _ Hc) as [v Hv]. apply (radio_fresh w H) in Hv. lia. Qed.
Lemma shown_is_old w p n : network w -> wifis w !! p = Some n -> next w <> n.
Proof. intros H Hc <-. destruct (network_made w H p _ Hc) as [v Hv]. apply (network_fresh w H) in Hv. lia. Qed.

Lemma invariant_made_cell valid w : invariant w -> invariant (made_cell valid w).
Proof.
  intros (Hr & Hn & Hc). split; [|split; [|done]].
  - pose proof (fun p c => cached_is_old w p c Hr) as Hold. destruct Hr as [H1 H2 H3 H4 H5 H6]. split; simpl; auto.
    + intros c v [[<- <-]|[_ Hv]]%lookup_insert_Some; [lia|apply H3 in Hv; lia].
    + intros p c Hp. apply lookup_insert_is_Some'. right. eauto.
    + intros p c Hp. rewrite lookup_insert_ne by eauto. eauto.
  - eapply network_frame; [..|exact Hn]; simpl; done || lia.
Qed.

Lemma invariant_new_cell p valid w :
  invariant w -> is_Some (modems w !! p) -> cells w !! p = None ->
  invariant (emitted (CellAdded (next w)) (set_cells (<[p := next w]> (cells w)) (made_cell valid w))).
Proof.
  intros (Hr & Hn & Hc) Hm Hp. split; [|split; [|done]].
  - pose proof (fun p c => cached_is_old w p c Hr) as Hold. destruct Hr as [H1 H2 H3 H4 H5 H6]. split; simpl; auto.
    + intros q c [[<- <-]|[_ Hq]]%lookup_insert_Some; eauto.
    + intros q1 q2 c [[<- <-]|[N1 Hq1]]%lookup_insert_Some [[<- H]|[N2 Hq2]]%lookup_insert_Some; eauto;
        exfalso; subst; by eapply Hold.
    + intros c v [[<- <-]|[_ Hv]]%lookup_insert_Some; [lia|apply H3 in Hv; lia].
    + intros q c [[<- <-]|[_ Hq]]%lookup_insert_Some; apply lookup_insert_is_Some'; eauto.
    + intros q c [[<- <-]|[_ Hq]]%lookup_insert_Some; rewrite announced_cells_snoc; simpl; [set_solver|].
      rewrite lookup_insert_ne by eauto. intros Hv. apply elem_of_union_r. eauto.
  - eapply network_frame; [..|exact Hn]; simpl; rewrite ?announced_networks_snoc; simpl; done || lia.
Qed.

Lemma invariant_emit_cell_added c w : invariant w -> invariant (emitted (CellAdded c) w).
Proof.
  intros (Hr & Hn & Hc). split; [|split; [|done]].
  - destruct Hr. split; simpl; auto. intros q d Hq Hv. rewrite announced_cells_snoc. simpl.
    apply elem_of_union_r. eauto.
  - eapply network_frame; [..|exact Hn]; simpl; rewrite ?announced_networks_snoc; simpl; done || lia.
Qed.

Lemma invariant_drop_cell p c w :
  invariant w -> cells w !! p = Some c -> invariant (emitted (CellRemoved c) (set_cells (delete p (cells w)) w)).
Proof.
  intros (Hr & Hn & Hc) Hp. split; [|split; [|done]].
  - destruct Hr as [H1 H2 H3 H4 H5 H6]. split; simpl; auto.
    + intros q d [_ Hq]%lookup_delete_Some. eauto.
    + intros q1 q2 d [_ Hq1]%lookup_delete_Some [_ Hq2]%lookup_delete_Some. eauto.
    + intros q d [_ Hq]%lookup_delete_Some. eauto.
    + intros q d [Nq Hq]%lookup_delete_Some Hv. rewrite announced_cells_snoc. simpl.
      apply elem_of_difference. split; [eauto|]. intros ->%elem_of_singleton. apply Nq. eauto.
  - eapply network_frame; [..|exact Hn]; simpl; rewrite ?announced_networks_snoc; simpl; done || lia.
Qed.

(** A modem without a cell comes or goes. *)
Lemma invariant_add_modem p w :
  invariant w -> invariant (set_modems (<[p := modem_for_path p]> (modems w)) w).
Proof.
  intros (Hr & Hn & Hc). split; [|split; [|done]].
  - destruct Hr as [H1 H2 H3 H4 H5 H6]. split; simpl; auto.
    + intros q c Hq. apply lookup_insert_is_Some'. eauto.
    + intros q m [[<- <-]|[_ Hq]]%lookup_insert_Some; [done|eauto].
  - eapply network_frame; [..|exact Hn]; done.
Qed.

Lemma invariant_drop_modem p w :
  invariant w -> cells w !! p = None -> invariant (set_modems (delete p (modems w)) w).
Proof.
  intros (Hr & Hn & Hc) Hp. split; [|split; [|done]].
  - destruct Hr as [H1 H2 H3 H4 H5 H6]. split; simpl; auto.
    + intros q c Hq. apply lookup_delete_is_Some. split; [congruence|eauto].
    + intros q m [_ Hq]%lookup_delete_Some. eauto.
  - eapply network_frame; [..|exact Hn]; done.
Qed.

Lemma invariant_validity c v old w :
  invariant w -> cell_valid w !! c = Some old ->
  invariant (emitted (if v : bool then CellAdded c else CellRemoved c)
               (set_valid (<[c := v]> (cell_valid w)) w)).
Proof.
  intros (Hr & Hn & Hc) Ho. split; [|split; [|done]].
  - destruct Hr as [H1 H2 H3 H4 H5 H6]. split; simpl; auto.
    + intros d x [[<- <-]|[_ Hd]]%lookup_insert_Some; eauto.
    + intros q d Hq. apply lookup_insert_is_Some'. eauto.
    + intros q d Hq [[<- ->]|[Nd Hd]]%lookup_insert_Some; rewrite announced_cells_snoc; [set_solver|].
      specialize (H5 q d Hq Hd). destruct v; set_solver.
  - eapply network_frame; [..|exact Hn]; simpl; rewrite ?announced_networks_snoc; [done..|by destruct v|lia].
Qed.

Lemma invariant_new_network ap n w :
  invariant w -> Wifi.in_range n ->
  invariant (emitted (NetworkAdded (next w)) (set_wifis (<[ap := next w]> (wifis w)) (made_network n w))).
Proof.
  intros (Hr & Hn & Hc) Hn'. split; [|split; [|done]].
  - eapply radio_frame; [..|exact Hr]; simpl; rewrite ?announced_cells_snoc; simpl; done || lia.
  - pose proof (fun p c => shown_is_old w p c Hn) as Hold. destruct Hn as [H1 H2 H3 H4 H5]. split; simpl; auto.
    + intros q1 q2 c [[<- <-]|[N1 Hq1]]%lookup_insert_Some [[<- H]|[N2 Hq2]]%lookup_insert_Some; eauto;
        exfalso; subst; by eapply Hold.
    + intros c x [[<- <-]|[_ Hv]]%lookup_insert_Some; [lia|apply H2 in Hv; lia].
    + intros q c [[<- <-]|[_ Hq]]%lookup_insert_Some; apply lookup_insert_is_Some'; eauto.
    + intros q c [[<- <-]|[_ Hq]]%lookup_insert_Some; rewrite announced_networks_snoc; simpl; [set_solver|].
      apply elem_of_union_r. eauto.
    + intros c x [[<- <-]|[_ Hv]]%lookup_insert_Some; eauto.
Qed.

Lemma invariant_drop_network ap n w :
  invariant w -> wifis w !! ap = Some n ->
  invariant (emitted (NetworkRemoved n) (set_wifis (delete ap (wifis w)) w)).
Proof.
  intros (Hr & Hn & Hc) Hp. split; [|split; [|done]].
  - eapply radio_frame; [..|exact Hr]; simpl; rewrite ?announced_cells_snoc; simpl; done || lia.
  - destruct Hn as [H1 H2 H3 H4 H5]. split; simpl; auto.
    + intros q1 q2 d [_ Hq1]%lookup_delete_Some [_ Hq2]%lookup_delete_Some. eauto.
    + intros q d [_ Hq]%lookup_delete_Some. eauto.
    + intros q d [Nq Hq]%lookup_delete_Some. rewrite announced_networks_snoc. simpl.
      apply elem_of_difference. split; [eauto|]. intros ->%elem_of_singleton. apply Nq. eauto.
Qed.

Lemma invariant_network_changed ts dict n w :
  invariant w -> invariant (set_networks (alter (Wifi.on_access_point_properties_changed ts dict) n (networks w)) w).
Proof.
  intros (Hr & Hn & Hc). split; [|split; [|done]].
  - by eapply radio_frame; [..|exact Hr].
  - destruct Hn as [H1 H2 H3 H4 H5]. split; simpl; auto.
    + intros m x [[? (y & Hy & _)]|[? Hx]]%lookup_alter_Some; subst; eauto.
    + intros p m Hp. destruct (H3 p m Hp) as [x Hx]. destruct (decide (n = m)) as [->|Hne].
      * rewrite lookup_alter_eq, Hx. eauto.
      * rewrite lookup_alter_ne by done. eauto.
    + intros m x [[? (y & Hy & ->)]|[? Hx]]%lookup_alter_Some; subst; eauto using Wifi.properties_changed_in_range.
Qed.

(** Modems that were never refreshed add no roaming. *)
Lemma roaming_of_unrefreshed m : registration m = ∅ -> roaming m = none.
Proof. intros E. unfold roaming, status_without_refresh. by rewrite E, lookup_empty. Qed.

Lemma device_characteristics ms t c :
  (forall m, m ∈ ms -> registration m = ∅) ->
  characteristics_of_device ms t c =
  Z.lor c (if t =? type_modem then Z.lor connection_goes_via_wwan all_characteristics
           else if t =? type_wifi then connection_goes_via_wifi else none).
Proof.
  intros Hm. unfold characteristics_of_device, flags_or.
  assert (E : forall d, fold_left (fun c m => Z.lor c (roaming m)) ms d = d).
  { clear c. induction ms as [|m ms IH]; intros d; simpl; [done|].
    rewrite roaming_of_unrefreshed, Z.lor_0_r by (apply Hm; set_solver). apply IH. set_solver. }
  destruct (t =? type_modem); [by rewrite E, Z.lor_assoc|].
  destruct (t =? type_wifi); [done|]. by rewrite Z.lor_0_r.
Qed.

(** The types of the devices that are examined: up to the first that cannot be read. *)
Fixpoint examined (b : Bus) (w : World) (ps : list path) : list Z :=
  match ps with
  | [] => []
  | p :: ps =>
      match (if bool_decide (p ∈ nm_devices w) then DeviceType b p else Ok type_unknown) with
      | Throw _ => []
      | Ok t => t :: examined b w ps
      end
  end.

Definition has (t : Z) (ts : list Z) (c : Z) : Z := if bool_decide (t ∈ ts) then c else none.

(** The characteristics in closed form. *)
Definition expected (ts : list Z) : Z :=
  Z.lor (has type_modem ts (Z.lor connection_goes_via_wwan all_characteristics))
        (has type_wifi ts connection_goes_via_wifi).

Lemma expected_cons t ts :
  expected (t :: ts) =
  Z.lor (if t =? type_modem then Z.lor connection_goes_via_wwan all_characteristics
         else if t =? type_wifi then connection_goes_via_wifi else none) (expected ts).
Proof.
  unfold expected, has. rewrite !(bool_decide_ext (_ ∈ t :: ts) _ (elem_of_cons _ _ _)).
  destruct (Z.eqb_spec t type_modem) as [->|H1]; [|destruct (Z.eqb_spec t type_wifi) as [->|H2]].
  - rewrite (bool_decide_true (type_modem = _ \/ _)) by auto.
    rewrite (bool_decide_ext (type_wifi = type_modem \/ _) (type_wifi ∈ ts)) by (split; [intros [[=]|]|]; auto).
    by repeat case_bool.
  - rewrite (bool_decide_true (type_wifi = _ \/ _)) by auto.
    rewrite (bool_decide_ext (type_modem = type_wifi \/ _) (type_modem ∈ ts)) by (split; [intros [[=]|]|]; auto).
    by repeat case_bool.
  - rewrite (bool_decide_ext (type_modem = t \/ _) (type_modem ∈ ts)) by naive_solver.
    rewrite (bool_decide_ext (type_wifi = t \/ _) (type_wifi ∈ ts)) by naive_solver.
    by repeat case_bool.
Qed.

Lemma characteristics_exact b w ps c :
  radio w -> characteristics_of_devices b w ps c = Z.lor c (expected (examined b w ps)).
Proof.
  intros Hr. assert (Hm : forall m, m ∈ map snd (map_to_list (modems w)) -> registration m = ∅).
  { intros m ((p & m') & -> & Hp)%list_elem_of_fmap. apply elem_of_map_to_list in Hp. by eapply radio_empty. }
  revert c. induction ps as [|p ps IH]; intros c; simpl; [by rewrite Z.lor_0_r|].
  destruct (if bool_decide (p ∈ nm_devices w) then DeviceType b p else Ok type_unknown); [|by rewrite Z.lor_0_r].
  by rewrite IH, device_characteristics, expected_cons, Z.lor_assoc.
Qed.

Lemma expected_no_roaming ts : Z.testbit (expected ts) 2 = false.
Proof. unfold expected, has. by repeat case_bool. Qed.

Lemma no_roaming_for_connection b p w :
  radio w -> Z.testbit (characteristics_for_connection b p w) 2 = false.
Proof.
  intros Hr. unfold characteristics_for_connection. destruct (Devices b p); [|done].
  rewrite characteristics_exact by done. apply expected_no_roaming.
Qed.

Section Preserved.
Variable ts : Z.
Variable b : Bus.

(** A statement whose result decides the rest. *)
Lemma preserves_query {A B} (f : World -> A) (k : A -> M World B) :
  (forall w, invariant w -> invariant (exec (k (f w)) w)) -> preserves invariant (gets f ≫= k).
Proof. intros Hk w Hi. exact (Hk w Hi). Qed.

Lemma preserves_lifted {A B} (r : res A) (k : A -> M World B) :
  (forall a, r = Ok a -> preserves invariant (k a)) -> preserves invariant (lift r ≫= k).
Proof. intros Hk w Hi. destruct r as [a|e]; [by apply (Hk a eq_refl)|done]. Qed.

Lemma preserves_on_modem_added p : preserves invariant (on_modem_added b p).
Proof.
  apply preserves_query. intros w Hi. destruct (bool_decide _); [done|].
  unfold exec, lift, make_cell, emit, mbind, m_bind, modify, gets; cbn -[invariant].
  destruct (new_cell b p) as [valid|e]; cbn -[invariant]; [|by apply invariant_add_modem].
  pose proof (invariant_add_modem p w Hi) as Hi'.
  destruct (cells w !! p) eqn:Ec; cbn -[invariant].
  - by apply (invariant_made_cell valid) in Hi'.
  - apply (invariant_new_cell p valid) in Hi'; [exact Hi'| |done]. cbn. rewrite lookup_insert_eq. eauto.
Qed.

Lemma preserves_on_modem_removed p : preserves invariant (on_modem_removed p).
Proof.
  apply preserves_query. intros w Hi. unfold exec, emit, mbind, m_bind, modify. cbn -[invariant].
  destruct (cells w !! p) as [c|] eqn:Ec; cbn -[invariant].
  - apply (invariant_drop_cell p c) in Hi; [|done].
    apply (invariant_drop_modem p) in Hi; [exact Hi|]. cbn. apply lookup_delete_eq.
  - rewrite (delete_id (cells w) p) by done. apply (invariant_drop_modem p) in Hi; [|done].
    revert Hi. apply invariant_frame; done.
Qed.

Lemma preserves_post t : preserves invariant (post t).
Proof. framed. Qed.

Lemma preserves_interfaces_changed p interfaces : preserves invariant (on_modem_interfaces_changed p interfaces).
Proof.
  unfold on_modem_interfaces_changed. apply preserves_query. intros w Hi. destruct (negb _); [done|].
  revert w Hi. apply preserves_query. intros w Hi. destruct (cells w !! p) as [c|] eqn:Ec.
  - destruct (negb _); [|done]. by apply (invariant_drop_cell p c) in Hi.
  - destruct (bool_decide _); [by apply preserves_post|done].
Qed.

Lemma preserves_create_cell p : preserves invariant (create_cell b p).
Proof.
  apply preserves_query. intros w Hi. destruct (bool_decide _) eqn:Em; [|done]. cbn [negb].
  apply bool_decide_eq_true in Em. unfold exec, lift, make_cell, emit, mbind, m_bind, modify. cbn -[invariant].
  destruct (new_cell b p) as [valid|e]; [|done]. cbn -[invariant].
  destruct (cells w !! p) as [c|] eqn:Ec.
  - apply (invariant_made_cell valid) in Hi. exact (invariant_emit_cell_added _ _ Hi).
  - exact (invariant_new_cell p valid w Hi Em Ec).
Qed.

Lemma preserves_validity c valid : preserves invariant (on_validity_changed c valid).
Proof.
  apply preserves_query. intros w Hi. destruct (cell_valid w !! c) as [old|] eqn:Ec; [|done].
  destruct (Bool.eqb old valid); [done|]. exact (invariant_validity c valid old w Hi Ec).
Qed.

Lemma preserves_access_point_added ap dev : preserves invariant (on_access_point_added ts b ap dev).
Proof.
  apply preserves_query. intros w Hi. destruct (negb _); [done|]. revert w Hi.
  apply preserves_lifted. intros t _. destruct (negb _); [apply preserves_skip|].
  apply preserves_lifted. intros n Hn%Wifi.construct_in_range w Hi.
  exact (invariant_new_network ap n w Hi Hn).
Qed.

Lemma preserves_access_point_removed ap : preserves invariant (on_access_point_removed ap).
Proof.
  apply preserves_query. intros w Hi. destruct (wifis w !! ap) as [n|] eqn:E; [|done].
  exact (invariant_drop_network ap n w Hi E).
Qed.

Lemma preserves_device_added p : preserves invariant (on_device_added ts b p).
Proof.
  apply preserves_query. intros w Hi. destruct (bool_decide _); [done|]. revert w Hi.
  apply preserves_lifted. intros t _.
  apply preserves_bind; [apply preserves_when; framed|]. intros _. apply preserves_when.
  apply preserves_bind; [framed|]. intros _. apply preserves_lifted. intros aps _.
  apply preserves_for_each. intros ap _. apply preserves_try; auto using preserves_access_point_added, preserves_skip.
Qed.

Lemma preserves_characteristics p :
  preserves invariant (modify (fun w => set_characteristics (characteristics_for_connection b p w) w)).
Proof.
  intros w (Hr & Hn & Hc). split; [|split].
  - by eapply radio_frame; [..|exact Hr].
  - by eapply network_frame; [..|exact Hn].
  - apply (no_roaming_for_connection b p w Hr).
Qed.

Lemma preserves_setup_radio : preserves invariant (setup_radio_stack_access b).
Proof.
  apply preserves_lifted. intros ps _. apply preserves_for_each. intros p _.
  apply preserves_try; auto using preserves_on_modem_added, preserves_skip.
Qed.

Lemma preserves_setup_network : preserves invariant (setup_network_stack_access ts b).
Proof.
  apply preserves_lifted. intros ps _.
  apply preserves_bind; [apply preserves_for_each; auto using preserves_device_added|]. intros _.
  apply preserves_lifted. intros st _. apply preserves_bind; [framed|]. intros _.
  apply preserves_lifted. intros p _. apply preserves_bind; [apply preserves_characteristics|]. intros _.
  repeat (apply preserves_lifted; intros ? _; try (apply preserves_bind; [framed|]; intros _)). framed.
Qed.

Lemma preserves_construct : preserves invariant (construct_manager ts b).
Proof.
  apply preserves_bind; [|intros _]; apply preserves_try;
    auto using preserves_setup_radio, preserves_setup_network; intros _; framed.
Qed.

Lemma preserves_run_task t : preserves invariant (run_task ts b t).
Proof.
  destruct t; simpl; auto using preserves_setup_radio, preserves_setup_network, preserves_interfaces_changed,
    preserves_create_cell, preserves_device_added, preserves_characteristics. framed.
Qed.

Lemma preserves_scan : preserves invariant (emit ScanFinished).
Proof.
  intros w (Hr & Hn & Hc). split; [|split; [|done]].
  - eapply radio_frame; [..|exact Hr]; simpl; rewrite ?announced_cells_snoc; simpl; done || lia.
  - eapply network_frame; [..|exact Hn]; simpl; rewrite ?announced_networks_snoc; simpl; done || lia.
Qed.

Lemma preserves_on_event e : preserves invariant (on_event ts b e).
Proof.
  destruct e; cbn [on_event]; try (apply preserves_try; [|intros _; apply preserves_skip]);
    auto using preserves_on_modem_added, preserves_on_modem_removed, preserves_post, preserves_validity,
      preserves_scan, preserves_access_point_added, preserves_access_point_removed; try framed.
  - intros w Hi. exact (invariant_network_changed ts dict n w Hi).
  - apply preserves_for_each. intros [|p|] _; auto using preserves_post, preserves_skip. framed.
  - apply preserves_query. intros w Hi. revert Hi. apply preserves_when, preserves_post.
  - apply preserves_query. intros w Hi. revert Hi. apply preserves_when, preserves_post.
  - apply preserves_query. intros w Hi. destruct (tasks w) as [|t l]; [done|]. revert w Hi.
    apply preserves_bind; [framed|]. intros _.
    apply preserves_try; auto using preserves_run_task, preserves_skip.
Qed.
End Preserved.

(** ** The theorems *)

(** The manager after its construction and some events, the bus answering anew each time. *)
Definition run (ts : Z) (b0 : Bus) (events : list (Bus * Event)) : World :=
  fold_left (fun w be => exec (on_event ts be.1 be.2) w) events (exec (construct_manager ts b0) initial).

Lemma run_invariant ts b0 events : invariant (run ts b0 events).
Proof.
  unfold run. assert (Hi : invariant (exec (construct_manager ts b0) initial)) by apply preserves_construct, manager_initial.
  revert Hi. generalize (exec (construct_manager ts b0) initial).
  induction events as [|[b e] events IH]; intros w Hi; [done|]. apply IH. by apply preserves_on_event.
Qed.

(** C12: whatever happens on the bus, and whatever it answers, the manager's caches stay
    consistent with each other and with what its observers were told: every cell belongs
    to a known modem, no two paths share a cell or a network, the wireless networks and
    the valid cells that are enumerated were announced and not withdrawn since, and the
    frequency and the strength of an enumerated network are in their ranges. *)
Theorem caches_are_consistent ts b0 events :
  let w := run ts b0 events in
  (forall p c, cells w !! p = Some c -> is_Some (modems w !! p)) /\
  NoDup (enumerate_visible_wireless_networks w) /\
  (forall n, n ∈ enumerate_visible_wireless_networks w ->
     n ∈ announced_networks (signals w) /\ exists x, networks w !! n = Some x /\ Wifi.in_range x) /\
  (forall c, c ∈ enumerate_connected_radio_cells w -> c ∈ announced_cells (signals w)).
Proof.
  intros w. destruct (run_invariant ts b0 events) as (Hr & Hn & _). fold w in Hr, Hn. clearbody w.
  split_and!.
  - apply (radio_known w Hr).
  - apply NoDup_fmap_2_strong; [|apply NoDup_map_to_list]. intros [p n] [q m] Hp%elem_of_map_to_list Hq%elem_of_map_to_list.
    simpl. intros <-. by rewrite (network_inj w Hn p q n Hp Hq).
  - intros n ([p m] & -> & Hp%elem_of_map_to_list)%list_elem_of_fmap. simpl.
    split; [by eapply network_announced|]. destruct (network_made w Hn p m Hp) as [x Hx].
    exists x. split; [done|]. by eapply network_range.
  - intros c [Hv ([p d] & -> & Hp%elem_of_map_to_list)%list_elem_of_fmap]%list_elem_of_filter.
    by eapply radio_announced.
Qed.

(** the characteristics of a connection are exactly those of the types of its devices,
    as far as they can be read: a modem adds mobile broadband, monetary costs and the two
    limits, a Wi-Fi device adds Wi-Fi, nothing else adds anything. In particular a roaming
    connection is never recognised: the status is read from a copy of the modem whose
    properties nobody refreshes. *)
Theorem characteristics_never_roam ts b0 events b p :
  let w := run ts b0 events in
  characteristics_for_connection b p w =
    match Devices b p with Ok ps => expected (examined b w ps) | Throw _ => none end /\
  flags_and (characteristics w) connection_is_roaming = none.
Proof.
  intros w. destruct (run_invariant ts b0 events) as (Hr & _ & Hc). fold w in Hr, Hc. clearbody w. split.
  - unfold characteristics_for_connection. destruct (Devices b p); [|done]. by rewrite characteristics_exact.
  - apply Z.bits_inj'. intros n Hn. unfold flags_and, connection_is_roaming, none, no_roaming in *.
    rewrite Z.land_spec, Z.shiftl_1_l, Z.pow2_bits_eqb, Z.testbit_0_l by lia.
    destruct (Z.eqb_spec 2 n) as [<-|]; [by rewrite Hc|apply andb_false_r].
Qed.

Definition an_access_point : Wifi.AccessPoint :=
  Wifi.MkAccessPoint (Ok 100) (Ok "00:11:22:33:44:55"%string) (Ok []) (Ok 2) (Ok 2412) (Ok 80).
Definition a_bus : Bus :=
  MkBus (Ok ["/modem"%string]) (fun _ => Ok true) (Ok ["/wlan"%string]) (fun _ => Ok type_wifi)
    (fun _ => Ok ["/ap"%string]) (fun _ => an_access_point) (Ok 70) (Ok "/connection"%string)
    (fun _ => Ok ["/wlan"%string]) (Ok true) (Ok true) (Ok true) (Ok true).
Definition sequence (es : list Event) : World := run 1700000000 a_bus (map (fun e => (a_bus, e)) es).

(** three ways in which observers are left behind. An access point that is reported
    twice is announced twice and withdrawn once; the networks of a device that was removed
    stay visible; and when a modem's interfaces change twice before the dispatcher runs,
    two cells are announced for it, one of which is not in the cache and is not withdrawn
    with its modem. *)
Theorem observers_are_left_behind :
  (let w := sequence [AccessPointAdded "/ap" "/wlan"; AccessPointRemoved "/ap"] in
   enumerate_visible_wireless_networks w = [] /\ announced_networks (signals w) <> ∅) /\
  (let w := sequence [DeviceRemoved "/wlan"; Dispatch] in
   nm_devices w = ∅ /\ length (enumerate_visible_wireless_networks w) = 1%nat) /\
  (let w := sequence [InterfacesChanged "/modem" []; Dispatch;
                      InterfacesChanged "/modem" [network_registration];
                      InterfacesChanged "/modem" [network_registration];
                      Dispatch; Dispatch; Dispatch; Dispatch; ModemRemoved "/modem"] in
   modems w = ∅ /\ enumerate_connected_radio_cells w = [] /\ announced_cells (signals w) <> ∅).
Proof. vm_compute. split_and!; congruence. Qed.
End Manager.

(** * The manager of the platform *)
Module Platform.

(** The function's static variables, and what the constructors that are still to run
    throw, if they throw. *)
Record Statics : Type := MkStatics {
  runtime : bool;
  instance : bool;
  dummy_instance : bool;
  outcomes : list (option exn)
}.
Definition runtime_cell : Cell Statics bool :=
  MkCell runtime (fun b w => MkStatics b (instance w) (dummy_instance w) (outcomes w)).
Definition instance_cell : Cell Statics bool :=
  MkCell instance (fun b w => MkStatics (runtime w) b (dummy_instance w) (outcomes w)).
Definition dummy_cell : Cell Statics bool :=
  MkCell dummy_instance (fun b w => MkStatics (runtime w) (instance w) b (outcomes w)).

(** A local static: initialised when control first passes, and again the next time if
    that threw. *)
Definition static_variable (c : Cell Statics bool) (init : M Statics unit) : M Statics unit :=
  b ← read c; when (negb b) (init;; write c true).

(** A constructor whose outcome the system decides. *)
Definition attempt : M Statics unit := fun w =>
  match outcomes w with
  | Some e :: rest => (Throw e, MkStatics (runtime w) (instance w) (dummy_instance w) rest)
  | None :: rest => (Ok tt, MkStatics (runtime w) (instance w) (dummy_instance w) rest)
  | [] => (Ok tt, w)
  end.

(** [Runtime::instance]: the system bus with its executor and its thread. *)
Definition runtime_instance : M Statics unit := static_variable runtime_cell attempt.

Inductive PlatformManager : Set := ofono_nm | dummy_manager.

(** [connectivity::platform_default_manager] *)
Definition platform_default_manager : M Statics PlatformManager :=
  try_catch
    (static_variable instance_cell (runtime_instance;; attempt);; mret ofono_nm)
    any_exception
    (fun _ => static_variable dummy_cell skip;; mret dummy_manager).

Fixpoint ask (n : nat) (w : Statics) : list PlatformManager * Statics :=
  match n with
  | O => ([], w)
  | S n => match platform_default_manager w with
           | (Ok m, w') => let r := ask n w' in (m :: r.1, r.2)
           | (Throw _, w') => ask n w'
           end
  end.

(** The thread of the bus: [runs] are the ends of [system_bus->run()], by an exception or
    by a return; what is left of them when the thread ends. *)
Fixpoint worker_thread (runs : list (res unit)) : option (list (res unit)) :=
  match runs with
  | [] => None
  | Throw _ :: runs => worker_thread runs
  | Ok _ :: runs => Some runs
  end.

(** The thread survives every exception, and ends with the first return. *)
Lemma worker_survives es rest : worker_thread (map Throw es ++ Ok tt :: rest) = Some rest.
Proof. by induction es. Qed.

(** Somebody always gets a manager, and who asks after the manager of the platform was
    made gets that one; until then the dummy, and the next question tries again. *)
Lemma manager_total w : exists m w', platform_default_manager w = (Ok m, w').
Proof.
  unfold platform_default_manager, static_variable, runtime_instance, static_variable, attempt, try_catch.
  unfold_m. destruct w as [[] [] [] [|[e|] [|[e'|] l]]]; simpl; by eexists _, _.
Qed.

Lemma manager_stays w n : instance w = true -> ask n w = (replicate n ofono_nm, w).
Proof.
  intros Hw. induction n as [|n IH]; [done|].
  assert (platform_default_manager w = (Ok ofono_nm, w)) as E.
  { unfold platform_default_manager, static_variable, try_catch. unfold_m. rewrite Hw. done. }
  simpl. by rewrite E, IH.
Qed.

Lemma manager_made_once w m w' :
  platform_default_manager w = (Ok m, w') ->
  (m = ofono_nm -> instance w' = true) /\ (m = dummy_manager -> instance w = false /\ instance w' = false).
Proof.
  unfold platform_default_manager, static_variable, runtime_instance, static_variable, attempt, try_catch.
  unfold_m. destruct w as [[] [] [] [|[e|] [|[e'|] l]]]; simpl; intros [= <- <-]; by split.
Qed.

(** The bus cannot be had twice; then it can, but the manager fails once more. *)
Example platform_tries_again :
  ask 5 (MkStatics false false false
    [Some (runtime_error "bus"); Some (runtime_error "bus"); None; Some (runtime_error "ofono"); None]) =
  ([dummy_manager; dummy_manager; dummy_manager; ofono_nm; ofono_nm], MkStatics true true true []).
Proof. reflexivity. Qed.
End Platform.
