(* ===== verification/GeoSource.v ===== *)
(** The Qt position source of a client application ([qt/position/core_geo_position_info_source.h]
    and [.cpp]): its states, its timer, the session it creates on demand and the
    information it hands to the application, on top of the client's session stub
    ([Session]). *)
From Stdlib Require Import ZArith Lia SpecFloat.
From stdpp Require Import base gmap strings list.
From S2P Require Import Prelude Floats Geometry Provider Property Session.
Local Open Scope Z_scope.
#[local] Set Warnings "-clear-no-such-hyp".
Module GeoSource.
Import Session.

(** [QTimer] in its single-shot mode, as the library documents it. *)
Class QTimer (T : Type) : Type := {
  isActive : T -> bool;
  interval : T -> Z;
  start : Z -> T -> T;
  stop : T -> T;
  expire : T -> T;            (* what becomes of it when it fires *)
  isActive_start : forall n t, isActive (start n t) = true;
  interval_start : forall n t, interval (start n t) = n;
  isActive_stop : forall t, isActive (stop t) = false;
  isActive_expire : forall t, isActive (expire t) = false
}.
#[export] Instance plain_timer : QTimer (bool * Z) := {|
  isActive t := t.1; interval t := t.2; start n _ := (true, n); stop t := (false, t.2); expire t := (false, t.2);
  isActive_start _ _ := eq_refl; interval_start _ _ := eq_refl; isActive_stop _ := eq_refl;
  isActive_expire _ := eq_refl
|}.

(** [QGeoPositionInfo], as far as the source fills it. *)
Record QGeoCoordinate : Type := MkCoordinate { latitude : double; longitude : double; altitude : double }.
Record QGeoPositionInfo : Type := MkInfo {
  coordinate : option QGeoCoordinate;
  timestamp : option Z;                   (* milliseconds since the epoch *)
  direction : option double; groundSpeed : option double;
  horizontalAccuracy : option double; verticalAccuracy : option double
}.
Definition no_info : QGeoPositionInfo := MkInfo None None None None None None.

(** [QGeoPositionInfoSource::Error], as far as it is used, and the source's [State]. *)
Inductive Error : Set := NoError | AccessError | UpdateTimeoutError.
Inductive SourceState : Set := stopped | running | one_shot | suspended.
Inductive ApplicationState : Set := ApplicationInactive | ApplicationActive | OtherState.
#[export] Instance Error_eq_dec : EqDecision Error.
Proof. solve_decision. Defined.
#[export] Instance SourceState_eq_dec : EqDecision SourceState.
Proof. solve_decision. Defined.

Inductive Emission : Type := ErrorOccurred (e : Error) | UpdateTimeout | PositionUpdated (info : QGeoPositionInfo).

Section Source.
Context {T : Type} `{QTimer T} `{!CoreProperty}.

(** The source with its [Private]: the statuses of the session, the queued invocations of
    [positionUpdated], what was emitted and what was called on the service. *)
Record Source : Type := MkSource {
  m_applicationActive : bool;
  m_lastReqTimeout : Z;
  m_state : SourceState;
  session : option Statuses;
  timer : T;
  error : Error;
  lastKnownPosition : QGeoPositionInfo;
  queued : list QGeoPositionInfo;
  emitted : list Emission;
  invoked : list Method
}.

Definition set_active b w := MkSource b (m_lastReqTimeout w) (m_state w) (session w) (timer w) (error w) (lastKnownPosition w) (queued w) (emitted w) (invoked w).
Definition set_last_timeout z w := MkSource (m_applicationActive w) z (m_state w) (session w) (timer w) (error w) (lastKnownPosition w) (queued w) (emitted w) (invoked w).
Definition set_m_state s w := MkSource (m_applicationActive w) (m_lastReqTimeout w) s (session w) (timer w) (error w) (lastKnownPosition w) (queued w) (emitted w) (invoked w).
Definition set_session s w := MkSource (m_applicationActive w) (m_lastReqTimeout w) (m_state w) s (timer w) (error w) (lastKnownPosition w) (queued w) (emitted w) (invoked w).
Definition set_timer t w := MkSource (m_applicationActive w) (m_lastReqTimeout w) (m_state w) (session w) t (error w) (lastKnownPosition w) (queued w) (emitted w) (invoked w).
Definition set_error e w := MkSource (m_applicationActive w) (m_lastReqTimeout w) (m_state w) (session w) (timer w) e (lastKnownPosition w) (queued w) (emitted w) (invoked w).
Definition set_info i w := MkSource (m_applicationActive w) (m_lastReqTimeout w) (m_state w) (session w) (timer w) (error w) i (queued w) (emitted w) (invoked w).
Definition set_queued q w := MkSource (m_applicationActive w) (m_lastReqTimeout w) (m_state w) (session w) (timer w) (error w) (lastKnownPosition w) q (emitted w) (invoked w).
Definition set_emitted e w := MkSource (m_applicationActive w) (m_lastReqTimeout w) (m_state w) (session w) (timer w) (error w) (lastKnownPosition w) (queued w) e (invoked w).
Definition set_invoked i w := MkSource (m_applicationActive w) (m_lastReqTimeout w) (m_state w) (session w) (timer w) (error w) (lastKnownPosition w) (queued w) (emitted w) i.

(** [GeoPositionInfoSource::GeoPositionInfoSource] *)
Definition construct (t : T) : Source := MkSource true (-1) stopped None t NoError no_info [] [] [].

Definition Q_EMIT (e : Emission) : M Source unit := modify (fun w => set_emitted (emitted w ++ [e]) w).

(** The statuses of the session that exists; the session is only used when it does. *)
Definition no_statuses : Statuses := MkStatuses disabled disabled disabled.
Definition current (w : Source) : Statuses := match session w with Some s => s | None => no_statuses end.
Definition session_cell (k : Controller.Kind) : Cell Source Status :=
  MkCell (fun w => status_of k (current w)) (fun x w => set_session (Some (set_status k x (current w))) w).

(** What the service answers while one event is handled: whether a session can be created,
    and the error of each method, if any. *)
Record Answers : Type := MkAnswers { create_session : res unit; transact_error : Method -> option string }.
Variable a : Answers.
Definition transact (m : Method) : M Source (option string) :=
  modify (fun w => set_invoked (invoked w ++ [m]) w);; mret (transact_error a m).

(** [session->updates().x_status.set(s)], through the stub. *)
Definition set_updates_status (k : Controller.Kind) (s : Status) : M Source unit :=
  stub_set_status transact session_cell k s.

Definition createLocationServiceSession : M Source unit :=
  match create_session a with
  | Ok _ => modify (set_session (Some no_statuses));; modify (set_error NoError)
  | Throw _ => modify (set_error AccessError)
  end.

Definition failed (w : Source) : bool := bool_decide (error w <> NoError).

(** The guard of most operations: the error is emitted again. *)
Definition unless_failed (m : M Source unit) : M Source unit :=
  e ← gets error;
  if bool_decide (e <> NoError) then Q_EMIT (ErrorOccurred e) else m.

Definition startUpdates : M Source unit :=
  none ← gets (fun w => match session w with None => true | Some _ => false end);
  when none createLocationServiceSession;;
  unless_failed
    (set_updates_status Controller.Position enabled;;
     set_updates_status Controller.Heading enabled;;
     set_updates_status Controller.Velocity enabled;;
     s ← gets m_state;
     when (bool_decide (s <> one_shot)) (modify (set_m_state running))).

Definition stopUpdates : M Source unit :=
  off ← gets (fun w => failed w || match session w with None => true | Some _ => false end);
  if off : bool then skip
  else set_updates_status Controller.Position disabled;;
       set_updates_status Controller.Heading disabled;;
       set_updates_status Controller.Velocity disabled;;
       modify (set_m_state stopped).

Definition default_timeout_in_ms : Z := 10 * 1000.

Definition requestUpdate (timeout : Z) : M Source unit :=
  unless_failed
    (active ← gets (fun w => isActive (timer w));
     if active : bool then skip
     else let timeout := if timeout <=? 0 then default_timeout_in_ms else timeout in
          startUpdates;;
          modify (fun w => set_timer (start timeout (timer w)) w)).

(** The slot [timeout()], with the signal of Qt 6. *)
Definition timeout : M Source unit := stopUpdates;; Q_EMIT (ErrorOccurred UpdateTimeoutError).

Definition applicationStateChanged (state : ApplicationState) : M Source unit :=
  match state with
  | ApplicationInactive =>
      active ← gets m_applicationActive;
      when active
        (s ← gets m_state;
         stopUpdates;;
         modify (set_active false);;
         match s with
         | one_shot =>
             ticking ← gets (fun w => isActive (timer w));
             when ticking
               (modify (fun w => set_last_timeout (interval (timer w)) w);;
                modify (fun w => set_timer (stop (timer w)) w))
         | running => modify (set_m_state suspended)
         | stopped | suspended => skip
         end)
  | ApplicationActive =>
      active ← gets m_applicationActive;
      when (negb active)
        (modify (set_active true);;
         last ← gets m_lastReqTimeout;
         s ← gets m_state;
         if -1 <? last then requestUpdate last;; modify (set_last_timeout (-1))
         else when (bool_decide (s = suspended)) startUpdates)
  | OtherState => skip
  end.

(** [setUpdateInterval] and [setPreferredPositioningMethods] only report the error;
    [supportedPositioningMethods], [minimumUpdateInterval] and [lastKnownPosition]. *)
Definition setUpdateInterval (msec : Z) : M Source unit := unless_failed skip.
Definition setPreferredPositioningMethods : M Source unit := unless_failed skip.
Definition supportsAllMethods (w : Source) : bool := negb (failed w).
Definition minimumUpdateInterval (w : Source) : Z := if failed w then -1 else 500.
Definition getLastKnownPosition (w : Source) : QGeoPositionInfo := if failed w then no_info else lastKnownPosition w.

(** ** Updates of the service *)

(** [duration_cast<milliseconds>] of nanoseconds truncates. *)
Definition milliseconds (when_ : Z) : Z := Z.quot when_ 1000000.

Definition with_accuracy (a old : option double) : option double :=
  match a with Some x => if isnan x then old else Some x | None => old end.

Definition info_of_position (u : Update Geometry.Position) (i : QGeoPositionInfo) : QGeoPositionInfo :=
  let p := value u in
  MkInfo (Some (MkCoordinate (Geometry.latitude p) (Geometry.longitude p)
                  (match Geometry.altitude p with Some a => a | None => S754_zero false end)))
    (Some (milliseconds (when_ u))) (direction i) (groundSpeed i)
    (with_accuracy (horizontal p) (horizontalAccuracy i)) (with_accuracy (vertical p) (verticalAccuracy i)).
Definition info_of_heading (u : Update double) (i : QGeoPositionInfo) : QGeoPositionInfo :=
  MkInfo (coordinate i) (Some (milliseconds (when_ u))) (Some (value u)) (groundSpeed i)
    (horizontalAccuracy i) (verticalAccuracy i).
Definition info_of_velocity (u : Update double) (i : QGeoPositionInfo) : QGeoPositionInfo :=
  MkInfo (coordinate i) (Some (milliseconds (when_ u))) (direction i) (Some (value u))
    (horizontalAccuracy i) (verticalAccuracy i).

(** The information is stored and a copy of it queued for [positionUpdated]. *)
Definition hand_out (f : QGeoPositionInfo -> QGeoPositionInfo) : M Source unit :=
  modify (fun w => set_info (f (lastKnownPosition w)) w);;
  modify (fun w => set_queued (queued w ++ [lastKnownPosition w]) w).

Definition handlePositionUpdate (u : Update Geometry.Position) : M Source unit :=
  hand_out (info_of_position u);;
  active ← gets (fun w => isActive (timer w));
  when active (modify (fun w => set_timer (stop (timer w)) w));;
  s ← gets m_state;
  when (bool_decide (s = one_shot)) stopUpdates.
Definition handleHeadingUpdate (u : Update double) : M Source unit := hand_out (info_of_heading u).
Definition handleVelocityUpdate (u : Update double) : M Source unit := hand_out (info_of_velocity u).

(** ** Events *)
Inductive Event : Type :=
| StateChanged (s : ApplicationState) | StartUpdates | StopUpdates | RequestUpdate (timeout : Z) | TimerFires
| PositionArrives (u : Update Geometry.Position) | HeadingArrives (u : Update double) | VelocityArrives (u : Update double)
| Delivered.          (* the next queued invocation of [positionUpdated] *)

Definition swallow (m : M Source unit) : M Source unit := try_catch m any_exception (fun _ => skip).

Definition on_event (e : Event) : M Source unit :=
  match e with
  | StateChanged s => applicationStateChanged s
  | StartUpdates => startUpdates
  | StopUpdates => stopUpdates
  | RequestUpdate t => requestUpdate t
  | TimerFires =>
      active ← gets (fun w => isActive (timer w));
      when active (modify (fun w => set_timer (expire (timer w)) w);; timeout)
  | PositionArrives u => swallow (handlePositionUpdate u)
  | HeadingArrives u => swallow (handleHeadingUpdate u)
  | VelocityArrives u => swallow (handleVelocityUpdate u)
  | Delivered =>
      q ← gets queued;
      match q with
      | [] => skip
      | i :: q => modify (set_queued q);; Q_EMIT (PositionUpdated i);;
                  modify (fun w => set_timer (stop (timer w)) w)
      end
  end.
End Source.
Arguments Source T : clear implicits.

(** * What holds of the source *)
Section Facts.
Context {T : Type} `{QTimer T} `{!CoreProperty}.

Definition all_enabled : Statuses := MkStatuses enabled enabled enabled.

(** The service accepts every start, when there is a session. *)
Definition starts_succeed (a : Answers) : Prop :=
  forall m, m = StartPositionUpdates \/ m = StartHeadingUpdates \/ m = StartVelocityUpdates ->
    transact_error a m = None.

Record good (w : Source T) : Prop := {
  good_one_shot : m_state w <> one_shot;
  good_last : m_lastReqTimeout w = -1;
  good_running : m_state w = running -> session w = Some all_enabled;
  good_stopped : m_state w = stopped -> session w = None \/ session w = Some no_statuses;
  good_suspended : m_state w = suspended -> m_applicationActive w = false /\ session w = Some no_statuses;
  good_error : error w <> NoError -> session w = None
}.

(** [w] and [w'] differ at most in what was called on the service. *)
Definition same_but_calls (w w' : Source T) : Prop := exists inv, w' = set_invoked inv w.

(** Setting one status of a session, where the service accepts it. *)
Lemma set_status_runs a k x (w : Source T) st :
  session w = Some st -> (x = enabled -> starts_succeed a) ->
  exists inv, set_updates_status a k x w =
    (Ok tt, set_invoked inv (set_session (Some (set_status k x st)) w)).
Proof.
  intros Hs Ha. unfold set_updates_status, stub_set_status.
  destruct (decide (status_of k st = x)) as [E|E].
  - rewrite assign_same by (unfold session_cell, current; cbn [rd]; rewrite Hs, E; apply neqb_refl).
    exists (invoked w). f_equal. destruct w; simpl in *. rewrite Hs. unfold set_session, set_invoked; simpl.
    do 2 f_equal. destruct st as [p h v]. by destruct k; simpl in *; subst.
  - rewrite assign_differs by (unfold session_cell, current; cbn [rd]; rewrite Hs; by apply neqb_ne).
    unfold session_cell, current. cbn [wr]. rewrite Hs.
    assert (Hstart : forall m who (w : Source T), x = enabled ->
      m = StartPositionUpdates \/ m = StartHeadingUpdates \/ m = StartVelocityUpdates ->
      stub_start (transact a) m who w = (Ok tt, set_invoked (invoked w ++ [m]) w)).
    { intros m who w0 -> Hm. unfold stub_start, transact. unfold_m. by rewrite (Ha eq_refl m Hm). }
    assert (Hstop : forall m who (w : Source T), stub_stop (transact a) m who w = (Ok tt, set_invoked (invoked w ++ [m]) w)).
    { intros m who w0. unfold stub_stop, transact, noexcept. unfold_m. by destruct (transact_error a m). }
    destruct k, x; cbn [stub_status_slot]; unfold stub_start_position_updates, stub_stop_position_updates,
      stub_start_velocity_updates, stub_stop_velocity_updates, stub_start_heading_updates, stub_stop_heading_updates;
      rewrite ?Hstop, ?Hstart by auto; by eexists.
Qed.

(** Setting all three. *)
Lemma set_statuses_run {A} a x (w : Source T) st (k : unit -> M (Source T) A) :
  session w = Some st -> (x = enabled -> starts_succeed a) ->
  exists inv, (set_updates_status a Controller.Position x ≫= fun _ =>
               set_updates_status a Controller.Heading x ≫= fun _ =>
               set_updates_status a Controller.Velocity x ≫= k) w =
    k tt (set_invoked inv (set_session (Some (MkStatuses x x x)) w)).
Proof.
  intros Hs Ha.
  destruct (set_status_runs a Controller.Position x w st Hs Ha) as (i1 & E1).
  set (w1 := set_invoked i1 _) in E1.
  destruct (set_status_runs a Controller.Heading x w1 _ eq_refl Ha) as (i2 & E2).
  set (w2 := set_invoked i2 _) in E2.
  destruct (set_status_runs a Controller.Velocity x w2 _ eq_refl Ha) as (i3 & E3).
  exists i3. erewrite bind_run by exact E1. erewrite bind_run by exact E2. by erewrite bind_run by exact E3.
Qed.

(** [stopUpdates] where there is a session, and where there is none. *)
Lemma stop_runs a (w : Source T) st :
  good w -> session w = Some st ->
  exists inv, stopUpdates a w = (Ok tt, set_m_state stopped (set_invoked inv (set_session (Some no_statuses) w))).
Proof.
  intros Hg Hs. assert (He : error w = NoError).
  { destruct (decide (error w = NoError)) as [|He]; [done|]. apply (good_error w Hg) in He. congruence. }
  destruct (set_statuses_run a disabled w st (fun _ => modify (set_m_state stopped)) Hs) as (inv & E); [done|].
  exists inv. unfold stopUpdates. rewrite (bind_run _ _ _ false w); [exact E|].
  unfold gets, failed. rewrite He, Hs. by rewrite bool_decide_false by auto.
Qed.

Lemma stop_idles a (w : Source T) : session w = None -> stopUpdates a w = (Ok tt, w).
Proof.
  intros Hs. unfold stopUpdates. rewrite (bind_run _ _ _ true w); [done|].
  unfold gets. by rewrite Hs, orb_true_r.
Qed.

(** [startUpdates] where a session can be had, and where it cannot. *)
Lemma start_runs a (w : Source T) :
  m_state w <> one_shot -> (error w <> NoError -> session w = None) -> starts_succeed a ->
  (session w = None -> is_ok (create_session a) = true) ->
  exists inv, startUpdates a w =
    (Ok tt, set_m_state running (set_invoked inv (set_session (Some all_enabled) (set_error NoError w)))).
Proof.
  intros H1 He Ha Hc.
  assert (Hrest : forall (w0 : Source T) st, session w0 = Some st -> error w0 = NoError -> m_state w0 <> one_shot ->
    exists inv, unless_failed
      (set_updates_status a Controller.Position enabled;;
       set_updates_status a Controller.Heading enabled;;
       set_updates_status a Controller.Velocity enabled;;
       s ← gets m_state; when (bool_decide (s <> one_shot)) (modify (set_m_state running))) w0 =
      (Ok tt, set_m_state running (set_invoked inv (set_session (Some all_enabled) w0)))).
  { intros w0 st Hs0 He0 Hm0.
    destruct (set_statuses_run a enabled w0 st
      (fun _ => s ← gets m_state; when (bool_decide (s <> one_shot)) (modify (set_m_state running))) Hs0) as (inv & E);
      [done|].
    exists inv. unfold unless_failed. rewrite (bind_run _ _ _ NoError w0) by (unfold gets; by rewrite He0).
    rewrite bool_decide_false by auto. rewrite E.
    unfold gets. unfold_m. by rewrite bool_decide_true by done. }
  unfold startUpdates. destruct (session w) as [st|] eqn:Es.
  - destruct (Hrest w st Es) as (inv & E); [|done|].
    { destruct (decide (error w = NoError)) as [|Hd]; [done|]. by apply He in Hd. }
    exists inv. rewrite (bind_run _ _ _ false w) by (unfold gets; by rewrite Es).
    rewrite (bind_run _ _ _ tt w) by done. rewrite E. destruct w; simpl in *. do 4 f_equal.
    destruct (decide (error0 = NoError)) as [->|Hd]; [done|]. by apply He in Hd.
  - specialize (Hc eq_refl). destruct (create_session a) as [[]|] eqn:Ec; [|done].
    destruct (Hrest (set_error NoError (set_session (Some no_statuses) w)) no_statuses) as (inv & E); [done..|].
    exists inv. rewrite (bind_run _ _ _ true w) by (unfold gets; by rewrite Es).
    rewrite (bind_run _ _ _ tt (set_error NoError (set_session (Some no_statuses) w)))
      by (unfold when, createLocationServiceSession; by rewrite Ec).
    exact E.
Qed.

Lemma start_fails a (w : Source T) :
  session w = None -> is_ok (create_session a) = false ->
  startUpdates a w = (Ok tt, set_emitted (emitted w ++ [ErrorOccurred AccessError]) (set_error AccessError w)).
Proof.
  intros Hs Hc. unfold startUpdates, createLocationServiceSession. destruct (create_session a) as [|e]; [done|].
  unfold unless_failed, Q_EMIT. unfold_m. by rewrite Hs.
Qed.

(** ** The invariant *)

(** The fields the invariant does not speak of. *)
Lemma good_frame (w w' : Source T) :
  m_state w' = m_state w -> m_lastReqTimeout w' = m_lastReqTimeout w -> session w' = session w ->
  m_applicationActive w' = m_applicationActive w -> error w' = error w -> good w -> good w'.
Proof. intros E1 E2 E3 E4 E5 []. split; rewrite ?E1, ?E2, ?E3, ?E4, ?E5; auto. Qed.
Ltac framed := intros w Hg; revert Hg; by apply good_frame.

Lemma good_construct t : good (construct t).
Proof. split; simpl; auto; done. Qed.

Lemma source_keeps_emit e : preserves good (Q_EMIT (T := T) e).
Proof. framed. Qed.

Lemma preserves_unless_failed (m : M (Source T) unit) : preserves good m -> preserves good (unless_failed m).
Proof.
  intros Hm. unfold unless_failed. apply preserves_bind; [apply preserves_gets|]. intros e.
  apply preserves_if; auto using source_keeps_emit.
Qed.

Lemma good_started (w : Source T) inv :
  m_lastReqTimeout w = -1 -> good (set_m_state running (set_invoked inv (set_session (Some all_enabled) (set_error NoError w)))).
Proof. intros Hl. by split. Qed.

Lemma source_keeps_start a : starts_succeed a -> preserves good (startUpdates (T := T) a).
Proof.
  intros Ha w Hg. pose proof Hg as [H1 H2 H3 H4 H5 H6].
  destruct (is_ok (create_session a)) eqn:Ec; [|destruct (session w) eqn:Es].
  - destruct (start_runs a w H1 H6 Ha) as (inv & E); [done|]. unfold exec. rewrite E. by apply good_started.
  - destruct (start_runs a w H1) as (inv & E); [by rewrite Es|done|congruence|].
    unfold exec. rewrite E. by apply good_started.
  - unfold exec. rewrite start_fails by done. simpl.
    split; simpl; auto; intros Hm; [by apply H3 in Hm; congruence|by destruct (H5 Hm); congruence].
Qed.

(** What stopping leaves, whether or not there was something to stop. *)
Lemma stop_result a (w : Source T) :
  good w -> exists w', stopUpdates a w = (Ok tt, w') /\ good w' /\ m_state w' <> running /\
    (m_state w = running -> m_state w' = stopped /\ session w' = Some no_statuses) /\
    m_applicationActive w' = m_applicationActive w /\ timer w' = timer w.
Proof.
  intros Hg. destruct (session w) as [st|] eqn:Es.
  - destruct (stop_runs a w st Hg Es) as (inv & E). eexists. split; [exact E|].
    destruct Hg. split_and!; try done. split; simpl; auto; try done.
    intros He. apply good_error0 in He. congruence.
  - exists w. split; [by apply stop_idles|].
    assert (m_state w <> running) by (intros Hm; apply (good_running w Hg) in Hm; congruence).
    by split_and!.
Qed.

Lemma source_keeps_stop a : preserves good (stopUpdates (T := T) a).
Proof. intros w Hg. destruct (stop_result a w Hg) as (w' & E & Hg' & _). unfold exec. by rewrite E. Qed.

Lemma source_keeps_request a z : starts_succeed a -> preserves good (requestUpdate (T := T) a z).
Proof.
  intros Ha. apply preserves_unless_failed. apply preserves_bind; [apply preserves_gets|]. intros act.
  apply preserves_if; [apply preserves_skip|].
  apply preserves_bind; [by apply source_keeps_start|]. intros _. framed.
Qed.

(** The application becomes inactive or active. *)
Lemma preserves_inactive a : preserves good (applicationStateChanged (T := T) a ApplicationInactive).
Proof.
  intros w Hg. unfold applicationStateChanged, exec. rewrite (bind_run _ _ _ (m_applicationActive w) w) by done.
  destruct (m_applicationActive w) eqn:Ea; [|done]. cbn [when].
  destruct (stop_result a w Hg) as (w' & E & Hg' & Hr & Hs & Hact & _).
  rewrite (bind_run _ _ _ (m_state w) w) by done. erewrite bind_run by exact E.
  rewrite (bind_run _ _ _ tt (set_active false w')) by done.
  assert (Hbase : good (set_active false w')).
  { destruct Hg'. split; simpl; auto. intros Hm. split; [done|]. by apply good_suspended0. }
  destruct (m_state w) eqn:Em; try exact Hbase.
  - destruct (Hs eq_refl) as [_ Hses]. destruct Hbase. by split.
  - by destruct (good_one_shot w Hg).
Qed.

Lemma preserves_active a : starts_succeed a -> preserves good (applicationStateChanged (T := T) a ApplicationActive).
Proof.
  intros Ha w Hg. unfold applicationStateChanged, exec. rewrite (bind_run _ _ _ (m_applicationActive w) w) by done.
  destruct (m_applicationActive w) eqn:Ea; [done|]. cbn [negb when].
  rewrite (bind_run _ _ _ tt (set_active true w)) by done.
  rewrite (bind_run _ _ _ (-1) (set_active true w)) by (unfold gets; simpl; by rewrite (good_last w Hg)).
  rewrite (bind_run _ _ _ (m_state w) (set_active true w)) by done. cbn [Z.ltb Z.compare].
  destruct (bool_decide_reflect (m_state w = suspended)) as [Em|Em]; cbn [when].
  - destruct (good_suspended w Hg Em) as [_ Es], Hg.
    destruct (start_runs a (set_active true w)) as (inv & E); simpl; [done..|congruence|].
    rewrite E. by apply good_started.
  - destruct Hg. by split.
Qed.

(** ** The theorems *)

Lemma preserves_hand_out f : preserves good (hand_out (T := T) f).
Proof. unfold hand_out. apply preserves_bind; [|intros _]; framed. Qed.

Lemma preserves_event a e : starts_succeed a -> preserves good (on_event (T := T) a e).
Proof.
  intros Ha. destruct e; cbn [on_event]; auto using source_keeps_start, source_keeps_stop, source_keeps_request.
  - destruct s; auto using preserves_inactive, preserves_active. apply preserves_skip.
  - apply preserves_bind; [apply preserves_gets|]. intros act. apply preserves_when.
    apply preserves_bind; [framed|]. intros _.
    unfold timeout. apply preserves_bind; auto using source_keeps_stop, source_keeps_emit.
  - apply preserves_try; auto using preserves_skip.
    apply preserves_bind; [apply preserves_hand_out|]. intros _.
    apply preserves_bind; [apply preserves_gets|]. intros act.
    apply preserves_bind; [apply preserves_when; framed|]. intros _.
    apply preserves_bind; [apply preserves_gets|]. intros s. apply preserves_when, source_keeps_stop.
  - apply preserves_try; [apply preserves_hand_out|auto using preserves_skip].
  - apply preserves_try; [apply preserves_hand_out|auto using preserves_skip].
  - apply preserves_bind; [apply preserves_gets|]. intros [|i q]; [apply preserves_skip|].
    apply preserves_bind; [framed|]. intros _. apply preserves_bind; [apply source_keeps_emit|]. intros _. framed.
Qed.

(** The source after some events, the service answering anew each time. *)
Definition run (t : T) (events : list (Answers * Event)) : Source T :=
  fold_left (fun w ae => exec (on_event ae.1 ae.2) w) events (construct t).

Lemma run_good t events : Forall (fun ae => starts_succeed ae.1) events -> good (run t events).
Proof.
  unfold run. generalize (good_construct t). generalize (construct t).
  induction events as [|[a e] events IH]; intros w Hg Ha; [done|].
  apply Forall_cons in Ha as [Ha Hes]. apply IH; [by apply preserves_event|done].
Qed.

(** C28: the state of the source describes its session, for every sequence of requests,
    timer expirations, changes of the application and updates, as long as a service that
    gives out a session accepts the starts: the three streams are enabled exactly while
    the source is running, a source that has failed has no session, only a source of an
    inactive application is suspended, and the state [one_shot] is never entered. *)
Theorem state_describes_session t events :
  Forall (fun ae => starts_succeed ae.1) events ->
  let w := run t events in
  m_state w <> one_shot /\
  (m_state w = running <-> session w = Some all_enabled) /\
  (m_state w <> running -> session w = None \/ session w = Some no_statuses) /\
  (m_state w = suspended -> m_applicationActive w = false) /\
  (error w <> NoError -> session w = None /\ m_state w = stopped).
Proof.
  intros Ha w. pose proof (run_good t events Ha) as Hg. fold w in Hg. clearbody w. destruct Hg as [H1 H2 H3 H4 H5 H6].
  split_and!; auto.
  - split; [done|]. unfold all_enabled, no_statuses in *. intros Hs. destruct (m_state w); [destruct (H4 eq_refl); congruence|done|done|].
    destruct (H5 eq_refl); congruence.
  - intros Hr. destruct (m_state w); [auto|done|done|]. right. by apply H5.
  - intros Hs. by apply H5.
  - intros He. split; [auto|]. apply H6 in He. destruct (m_state w); [done|by rewrite H3 in He|done|].
    destruct (H5 eq_refl); congruence.
Qed.
End Facts.

(** A service that accepts everything, and one that refuses clients. *)
Definition willing : Answers := MkAnswers (Ok tt) (fun _ => None).
Definition refusing : Answers := MkAnswers (Throw (runtime_error "no permission")) (fun _ => None).
Definition scenario (es : list Event) : Source (bool * Z) := run (false, 0) (map (fun e => (willing, e)) es).

Lemma state_describes_session_witness :
  Forall (fun ae => starts_succeed ae.1) [(refusing, StartUpdates); (willing, StartUpdates)] /\
  m_state (run (false, 0) [(refusing, StartUpdates); (willing, StartUpdates)]) = running /\
  session (run (false, 0) [(refusing, StartUpdates); (willing, StartUpdates)]) = Some all_enabled.
Proof.
  assert (H : Forall (fun ae => starts_succeed ae.1) [(refusing, StartUpdates); (willing, StartUpdates)]).
  { by repeat constructor. }
  split; [exact H|]. split; [reflexivity|].
  apply (state_describes_session (false, 0) _ H). reflexivity.
Defined.

Definition an_update : Update Geometry.Position := MkUpdate (Geometry.Pos.of_lat_lon (d_of_Z 9) (d_of_Z 53)) 5000000.

(** what single requests and their timer do to the streams. The answer to a single
    request does not end it: the source goes on running. The timer of a request that was
    made while updates were running ends these updates. And when the timer expires while
    the application is inactive, the updates are not resumed with the application. After
    a refused session a single request only repeats the error, however willing the service
    is by then, while starting the updates tries again. *)
Theorem single_requests_are_not_single :
  m_state (scenario [RequestUpdate 1000; PositionArrives an_update; Delivered]) = running /\
  session (scenario [RequestUpdate 1000; PositionArrives an_update; Delivered]) = Some all_enabled /\
  session (scenario [StartUpdates; RequestUpdate 1000; TimerFires]) = Some no_statuses /\
  m_state (scenario [StartUpdates; StateChanged ApplicationInactive; StateChanged ApplicationActive]) = running /\
  m_state (scenario [StartUpdates; RequestUpdate 1000; StateChanged ApplicationInactive; TimerFires;
                     StateChanged ApplicationActive]) = stopped /\
  (let w := run (false, 0) [(refusing, StartUpdates); (willing, RequestUpdate 1000)] in
   session w = None /\ emitted w = [ErrorOccurred AccessError; ErrorOccurred AccessError]) /\
  m_state (run (false, 0) [(refusing, StartUpdates); (willing, StartUpdates)]) = running.
Proof. by vm_compute. Qed.

(** The accuracies that were reported once stay with later positions that have none. *)
Lemma accuracy_is_kept u i :
  horizontal (value u) = None -> horizontalAccuracy (info_of_position u i) = horizontalAccuracy i.
Proof. intros E. unfold info_of_position. simpl. by rewrite E. Qed.
End GeoSource.
