(* ===== verification/Endian.v ===== *)
(** The byte-order library the SNTP packet is built from ([3rd-party/boost/endian/
    conversion.hpp], [buffers.hpp]): reversal of byte order by masks and shifts, the
    unrolled loops that load and store integers, and the four kinds of buffers.  A machine
    is its native byte order; memory is a list of bytes. *)
From Stdlib Require Import ZArith Lia.
From stdpp Require Import base list.
From S2P Require Import Prelude.
Local Open Scope Z_scope.

Module Endian.

(** [order] and [align] *)
Inductive order : Set := big | little.
Inductive align : Set := align_no | align_yes.
#[export] Instance order_eq_dec : EqDecision order.
Proof. solve_decision. Defined.

(** An integer type: its width in bytes and its signedness; [wrap] is the conversion to
    it. *)
Record IntType : Set := MkInt { size : nat; is_signed : bool }.
Definition width (n : nat) : Z := 8 * Z.of_nat n.
Definition wrap (t : IntType) (z : Z) : Z :=
  if is_signed t then wrap_s (width (size t)) z else wrap_u (width (size t)) z.
Definition int8 := MkInt 1 true.
Definition uint8 := MkInt 1 false.
Definition int16 := MkInt 2 true.
Definition uint16 := MkInt 2 false.
Definition int32 := MkInt 4 true.
Definition uint32 := MkInt 4 false.
Definition int64 := MkInt 8 true.
Definition uint64 := MkInt 8 false.

(** The type arithmetic is done in: at least [int]. *)
Definition promoted (t : IntType) : IntType := if (size t <? 4)%nat then int32 else t.

(** * Bytes *)

(** The number a list of bytes denotes, lowest first, and the lowest [n] bytes of a
    number. *)
Fixpoint combine (bytes : list Z) : Z :=
  match bytes with [] => 0 | b :: bytes => Z.lor b (Z.shiftl (combine bytes) 8) end.
Fixpoint split (n : nat) (z : Z) : list Z :=
  match n with O => [] | S n => wrap_u 8 z :: split n (Z.shiftr z 8) end.

(** * [conversion.hpp] *)

(** [endian_reverse] without intrinsics: the type of the argument decides. *)
Definition reverse16 (x : Z) : Z :=
  let x := wrap_u 16 x in Z.lor (Z.shiftl x 8) (Z.shiftr x 8).
Definition reverse32 (x : Z) : Z :=
  let x := wrap_u 32 x in
  let step16 := wrap_u 32 (Z.lor (wrap_u 32 (Z.shiftl x 16)) (Z.shiftr x 16)) in
  Z.lor (Z.land (wrap_u 32 (Z.shiftl step16 8)) 0xff00ff00)
        (Z.land (Z.shiftr step16 8) 0x00ff00ff).
Definition reverse64 (x : Z) : Z :=
  let x := wrap_u 64 x in
  let step32 := Z.lor (wrap_u 64 (Z.shiftl x 32)) (Z.shiftr x 32) in
  let step16 := Z.lor (wrap_u 64 (Z.shiftl (Z.land step32 0x0000FFFF0000FFFF) 16))
                      (Z.shiftr (Z.land step32 0xFFFF0000FFFF0000) 16) in
  Z.lor (wrap_u 64 (Z.shiftl (Z.land step16 0x00FF00FF00FF00FF) 8))
        (Z.shiftr (Z.land step16 0xFF00FF00FF00FF00) 8).
Definition endian_reverse (t : IntType) (x : Z) : Z :=
  match size t with
  | 1%nat => x
  | 2%nat => wrap t (reverse16 x)
  | 4%nat => wrap t (reverse32 x)
  | _ => wrap t (reverse64 x)
  end.

Section Machine.
(** [order::native] *)
Variable native : order.

(** The bytes of an object of type [t], and the value of an object that has them. *)
Definition bytes_of (t : IntType) (x : Z) : list Z :=
  match native with little => split (size t) x | big => rev (split (size t) x) end.
Definition value_of (t : IntType) (bytes : list Z) : Z :=
  wrap t (combine (match native with little => bytes | big => rev bytes end)).

(** [detail::std_endian_reverse] *)
Definition std_endian_reverse (t : IntType) (x : Z) : Z := value_of t (rev (bytes_of t x)).

Definition big_to_native (t : IntType) (x : Z) : Z :=
  match native with big => x | little => endian_reverse t x end.
Definition native_to_big (t : IntType) (x : Z) : Z :=
  match native with big => x | little => endian_reverse t x end.
Definition little_to_native (t : IntType) (x : Z) : Z :=
  match native with little => x | big => endian_reverse t x end.
Definition native_to_little (t : IntType) (x : Z) : Z :=
  match native with little => x | big => endian_reverse t x end.

(** [conditional_reverse], by template arguments and at run time. *)
Definition value_converter (t : IntType) (from to : order) (x : Z) : Z :=
  match from, to with
  | big, big => x
  | little, little => x
  | big, little => endian_reverse t x
  | little, big => endian_reverse t x
  end.
Definition conditional_reverse (t : IntType) (from : Z) (from_order to_order : order) : Z :=
  if bool_decide (from_order = to_order) then from else endian_reverse t from.

(** * [buffers.hpp] *)

(** [unrolled_byte_loops<T, n_bytes>]: the loads take the bytes before or from the
    pointer on, the stores give them; a load of one byte takes the type's sign. *)
Definition load_byte (t : IntType) (byte : Z) : Z := if is_signed t then wrap_s 8 byte else byte.
Fixpoint load_big (t : IntType) (n : nat) (bytes : list Z) : Z :=
  match n with
  | O => 0
  | 1%nat => load_byte t (nth 0 bytes 0)
  | S m => wrap t (Z.lor (nth m bytes 0) (wrap (promoted t) (Z.shiftl (load_big t m bytes) 8)))
  end.
Fixpoint load_little (t : IntType) (n : nat) (bytes : list Z) : Z :=
  match n with
  | O => 0
  | 1%nat => load_byte t (nth 0 bytes 0)
  | S m => wrap t (Z.lor (nth 0 bytes 0) (wrap (promoted t) (Z.shiftl (load_little t m (tail bytes)) 8)))
  end.
Fixpoint store_big (t : IntType) (n : nat) (value : Z) : list Z :=
  match n with
  | O => []
  | 1%nat => [wrap_u 8 value]
  | S m => store_big t m (wrap t (Z.shiftr value 8)) ++ [wrap_u 8 value]
  end.
Fixpoint store_little (t : IntType) (n : nat) (value : Z) : list Z :=
  match n with
  | O => []
  | 1%nat => [wrap_u 8 value]
  | S m => wrap_u 8 value :: store_little t m (wrap t (Z.shiftr value 8))
  end.

(** Whether the code is compiled for x86, where an integer whose size is that of the
    buffer is read and written directly. *)
Variable x86 : bool.

Definition load_big_endian (t : IntType) (n : nat) (bytes : list Z) : Z := load_big t n bytes.
Definition load_little_endian (t : IntType) (n : nat) (bytes : list Z) : Z :=
  if x86 && (size t =? n)%nat then value_of t bytes else load_little t n bytes.
Definition store_big_endian (t : IntType) (n : nat) (value : Z) : list Z := store_big t n value.
Definition store_little_endian (t : IntType) (n : nat) (value : Z) : list Z :=
  if x86 && (size t =? n)%nat then bytes_of t value else store_little t n value.

(** The types of the buffers: order, value type, bytes and alignment. *)
Record BufferType : Set := MkBuffer { buf_order : order; value_type : IntType; n_bytes : nat; buf_align : align }.

(** The typedefs of the header: [int_leastN_t] is the smallest type that holds the bits. *)
Definition least (n : nat) (sign : bool) : IntType :=
  MkInt (if (n <=? 1)%nat then 1 else if (n <=? 2)%nat then 2 else if (n <=? 4)%nat then 4 else 8) sign.
Definition aligned_buffers : list BufferType :=
  o ← [big; little]; sign ← [true; false]; n ← [1; 2; 4; 8]%nat; [MkBuffer o (MkInt n sign) n align_yes].
Definition unaligned_buffers : list BufferType :=
  o ← [big; little]; sign ← [true; false]; n ← [1; 2; 3; 4; 5; 6; 7; 8]%nat;
  [MkBuffer o (least n sign) n align_no].

(** [endian_buffer(val)] and [operator=], [value()]; the memory of the buffer is its
    [data()]. *)
Definition assign_buffer (b : BufferType) (value : Z) : list Z :=
  let t := value_type b in
  match buf_order b, buf_align b with
  | big, align_no => store_big_endian t (n_bytes b) value
  | little, align_no => store_little_endian t (n_bytes b) value
  | big, align_yes => bytes_of t (native_to_big t value)
  | little, align_yes => bytes_of t (native_to_little t value)
  end.
Definition buffer_value (b : BufferType) (data : list Z) : Z :=
  let t := value_type b in
  match buf_order b, buf_align b with
  | big, align_no => load_big_endian t (n_bytes b) data
  | little, align_no => load_little_endian t (n_bytes b) data
  | big, align_yes => big_to_native t (value_of t data)
  | little, align_yes => little_to_native t (value_of t data)
  end.
End Machine.

(** The buffers the packet uses. *)
Definition big_uint8_buf_t := MkBuffer big uint8 1 align_no.
Definition big_int8_buf_t := MkBuffer big int8 1 align_no.
Definition big_int16_buf_t := MkBuffer big int16 2 align_no.
Definition big_uint16_buf_t := MkBuffer big uint16 2 align_no.
Definition big_uint32_buf_t := MkBuffer big uint32 4 align_no.

(** * Lemmas *)

(** ** Bits and ranges *)

Lemma wrap_u_testbit b z k : 0 <= b -> Z.testbit (wrap_u b z) k = (0 <=? k) && (k <? b) && Z.testbit z k.
Proof.
  intros Hb. destruct (Z.leb_spec 0 k); [|by rewrite Z.testbit_neg_r]. simpl. unfold wrap_u.
  destruct (Z.ltb_spec k b); [by rewrite Z.mod_pow2_bits_low|by rewrite Z.mod_pow2_bits_high by lia].
Qed.

Lemma lor_shifted_byte b z : 0 <= b < 256 -> Z.lor b (Z.shiftl z 8) = b + 256 * z.
Proof.
  intros Hb. assert (E : Z.land b (Z.shiftl z 8) = 0).
  { apply Z.bits_inj'. intros k Hk. rewrite Z.land_spec, Z.shiftl_spec, Z.testbit_0_l by lia.
    destruct (Z.ltb_spec k 8); [by rewrite (Z.testbit_neg_r z), andb_false_r by lia|].
    assert (Ez : b = wrap_u 8 b) by (symmetry; apply wrap_u_small; lia).
    rewrite Ez, wrap_u_testbit by lia. by replace (k <? 8) with false by (symmetry; apply Z.ltb_ge; lia);
      rewrite andb_false_r. }
  rewrite <- Z.lxor_lor, <- Z.add_nocarry_lxor, Z.shiftl_mul_pow2 by (done || lia). lia.
Qed.

Lemma shiftr_byte z : Z.shiftr z 8 = z / 256.
Proof. by rewrite Z.shiftr_div_pow2 by lia. Qed.
Lemma byte_range z : 0 <= wrap_u 8 z < 256.
Proof. apply (wrap_u_range 8). lia. Qed.

Definition is_byte (b : Z) : Prop := 0 <= b < 256.

Lemma split_length n z : length (split n z) = n.
Proof. revert z. induction n; simpl; auto. Qed.
Lemma split_bytes n z : Forall is_byte (split n z).
Proof. revert z. induction n; simpl; constructor; [apply byte_range|auto]. Qed.

(** Equal remainders have equal bytes. *)
Lemma split_mod n y z : wrap_u (width n) y = wrap_u (width n) z -> split n y = split n z.
Proof.
  revert y z. induction n as [|n IH]; intros y z H; [done|]. simpl. rewrite !shiftr_byte.
  assert (E : 2 ^ width (S n) = 256 * 2 ^ width n).
  { unfold width. rewrite Nat2Z.inj_succ, Z.mul_succ_r, Z.pow_add_r by lia. change (2 ^ 8) with 256. lia. }
  unfold wrap_u in *. rewrite E in H. pose proof (Z.pow_pos_nonneg 2 (width n)).
  rewrite !Z.rem_mul_r in H by (unfold width in *; lia).
  pose proof (Z.mod_pos_bound y 256). pose proof (Z.mod_pos_bound z 256). change (2 ^ 8) with 256.
  assert (y mod 256 = z mod 256) by lia. f_equal; [done|]. apply IH. lia.
Qed.

Lemma combine_split n z : combine (split n z) = wrap_u (width n) z.
Proof.
  revert z. induction n as [|n IH]; intros z; [unfold wrap_u; simpl; by rewrite Z.mod_1_r|].
  cbn [split combine]. rewrite lor_shifted_byte, IH, shiftr_byte by apply byte_range. unfold wrap_u.
  assert (E : 2 ^ width (S n) = 256 * 2 ^ width n).
  { unfold width. rewrite Nat2Z.inj_succ, Z.mul_succ_r, Z.pow_add_r by lia. change (2 ^ 8) with 256. lia. }
  rewrite E, Z.rem_mul_r by (try apply Z.pow_pos_nonneg; unfold width; lia). done.
Qed.

Lemma wrap_low t n z : (n <= size t)%nat -> wrap_u (width n) (wrap t z) = wrap_u (width n) z.
Proof.
  intros Hn. assert (Hd : exists k, 2 ^ width (size t) = k * 2 ^ width n).
  { exists (2 ^ (width (size t) - width n)). rewrite <- Z.pow_add_r by (unfold width; lia). f_equal. lia. }
  destruct Hd as [k Ek]. assert (Hp : 0 < 2 ^ width n) by (apply Z.pow_pos_nonneg; unfold width; lia).
  assert (Hs : 0 < 2 ^ width (size t)) by (apply Z.pow_pos_nonneg; unfold width; lia).
  unfold wrap, wrap_s, wrap_u. destruct (is_signed t).
  - pose proof (Z.div_mod (z + 2 ^ (width (size t) - 1)) (2 ^ width (size t)) ltac:(lia)) as D.
    replace ((z + 2 ^ (width (size t) - 1)) mod 2 ^ width (size t) - 2 ^ (width (size t) - 1))
      with (z + (- k * ((z + 2 ^ (width (size t) - 1)) / 2 ^ width (size t))) * 2 ^ width n) by nia.
    by rewrite Z.mod_add by lia.
  - pose proof (Z.div_mod z (2 ^ width (size t)) ltac:(lia)) as D.
    replace (z mod 2 ^ width (size t)) with (z + (- k * (z / 2 ^ width (size t))) * 2 ^ width n) by nia.
    by rewrite Z.mod_add by lia.
Qed.

Lemma split_wrap t n z : (n <= size t)%nat -> split n (wrap t z) = split n z.
Proof. intros. apply split_mod. by apply wrap_low. Qed.

(** What [n] bytes hold, with or without a sign. *)
Definition fits (sign : bool) (n : nat) (z : Z) : Prop :=
  if sign then - 2 ^ (width n - 1) <= z < 2 ^ (width n - 1) else 0 <= z < 2 ^ width n.

Lemma wrap_fits t z : fits (is_signed t) (size t) z -> (0 < size t)%nat -> wrap t z = z.
Proof.
  intros H Hs. unfold wrap, fits in *. destruct (is_signed t); [apply wrap_s_small|by apply wrap_u_small].
  - unfold width. lia.
  - done.
Qed.

Lemma fits_le sign m n z : (1 <= m <= n)%nat -> fits sign m z -> fits sign n z.
Proof.
  intros Hm. unfold fits. destruct sign.
  - pose proof (Z.pow_le_mono_r 2 (width m - 1) (width n - 1)). unfold width in *. lia.
  - pose proof (Z.pow_le_mono_r 2 (width m) (width n)). unfold width in *. lia.
Qed.

Lemma fits_cons sign m b z :
  (1 <= m)%nat -> is_byte b -> fits sign (S m) (b + 256 * z) <-> fits sign m z.
Proof.
  intros Hm Hb. unfold fits, is_byte in *.
  assert (E : 2 ^ width (S m) = 256 * 2 ^ width m).
  { unfold width. rewrite Nat2Z.inj_succ, Z.mul_succ_r, Z.pow_add_r by lia. change (2 ^ 8) with 256. lia. }
  assert (E' : 2 ^ (width (S m) - 1) = 256 * 2 ^ (width m - 1)).
  { unfold width. replace (8 * Z.of_nat (S m) - 1) with (8 + (8 * Z.of_nat m - 1)) by lia.
    rewrite Z.pow_add_r by lia. done. }
  rewrite E, E'. destruct sign; lia.
Qed.

Lemma fits_shift sign m z : (1 <= m)%nat -> fits sign (S m) z <-> fits sign m (Z.shiftr z 8).
Proof.
  intros Hm. rewrite shiftr_byte. rewrite <- (fits_cons sign m (z mod 256)) by (done || apply Z.mod_pos_bound; lia).
  pose proof (Z.div_mod z 256 ltac:(lia)). by replace (z mod 256 + 256 * (z / 256)) with z by lia.
Qed.
(** ** Stores and loads *)

Lemma store_big_split t n v : (1 <= n <= size t)%nat -> store_big t n v = rev (split n v).
Proof.
  revert v. induction n as [|[|m] IH]; intros v Hn; [lia|done|].
  change (store_big t (S m) (wrap t (Z.shiftr v 8)) ++ [wrap_u 8 v] = rev (split (S (S m)) v)).
  rewrite IH, split_wrap by lia. done.
Qed.

Lemma store_little_split t n v : (1 <= n <= size t)%nat -> store_little t n v = split n v.
Proof.
  revert v. induction n as [|[|m] IH]; intros v Hn; [lia|done|].
  change (wrap_u 8 v :: store_little t (S m) (wrap t (Z.shiftr v 8)) = split (S (S m)) v).
  rewrite IH, split_wrap by lia. done.
Qed.

(** The value bytes have, lowest first. *)
Fixpoint value (sign : bool) (bytes : list Z) : Z :=
  match bytes with
  | [] => 0
  | [b] => if sign then wrap_s 8 b else b
  | b :: bytes => b + 256 * value sign bytes
  end.

Lemma value_cons sign b b' l : value sign (b :: b' :: l) = b + 256 * value sign (b' :: l).
Proof. done. Qed.

Lemma value_fits sign l : (1 <= length l)%nat -> Forall is_byte l -> fits sign (length l) (value sign l).
Proof.
  induction l as [|b [|b' l] IH]; intros Hl Hb; [simpl in Hl; lia| |].
  - apply Forall_cons in Hb as [Hb _]. destruct sign; simpl; [apply (wrap_s_range 8); lia|exact Hb].
  - apply Forall_cons in Hb as [Hb Hl']. rewrite value_cons. apply fits_cons; [simpl; lia|done|].
    apply IH; [simpl; lia|done].
Qed.

Lemma value_split sign n v : (1 <= n)%nat -> fits sign n v -> value sign (split n v) = v.
Proof.
  revert v. induction n as [|[|m] IH]; intros v Hn Hf; [lia| |].
  - cbn [split value]. destruct sign; [|by apply wrap_u_small].
    change (-128 <= v < 128) in Hf. unfold wrap_s, wrap_u. change (2 ^ (8 - 1)) with 128. change (2 ^ 8) with 256.
    rewrite Z.add_mod_idemp_l by lia. rewrite Z.mod_small by lia. lia.
  - change (split (S (S m)) v) with (wrap_u 8 v :: split (S m) (Z.shiftr v 8)).
    change (split (S m) (Z.shiftr v 8)) with (wrap_u 8 (Z.shiftr v 8) :: split m (Z.shiftr (Z.shiftr v 8) 8)).
    rewrite value_cons. change (wrap_u 8 (Z.shiftr v 8) :: split m (Z.shiftr (Z.shiftr v 8) 8)) with (split (S m) (Z.shiftr v 8)).
    rewrite IH; [|lia|exact (proj1 (fits_shift sign (S m) v ltac:(lia)) Hf)]. rewrite shiftr_byte. unfold wrap_u. change (2 ^ 8) with 256.
    pose proof (Z.div_mod v 256 ltac:(lia)). lia.
Qed.

Lemma value_combine sign l :
  (1 <= length l)%nat -> Forall is_byte l -> wrap_u (width (length l)) (value sign l) = wrap_u (width (length l)) (combine l).
Proof.
  induction l as [|b [|b' l] IH]; intros Hl Hb; [simpl in Hl; lia| |].
  - simpl. rewrite Z.lor_0_r. destruct sign; [|done]. by apply (wrap_low (MkInt 1 true) 1).
  - apply Forall_cons in Hb as [Hb Hl']. rewrite value_cons.
    assert (Ec : combine (b :: b' :: l) = b + 256 * combine (b' :: l)) by (cbn [combine]; by rewrite !lor_shifted_byte by done).
    rewrite Ec. clear Ec. specialize (IH ltac:(simpl; lia) Hl').
    set (x := value sign (b' :: l)) in *. set (y := combine (b' :: l)) in *.
    assert (E : 2 ^ width (length (b :: b' :: l)) = 256 * 2 ^ width (length (b' :: l))).
    { change (length (b :: b' :: l)) with (S (length (b' :: l))). unfold width.
      rewrite Nat2Z.inj_succ, Z.mul_succ_r, Z.pow_add_r by lia. change (2 ^ 8) with 256. lia. }
    unfold wrap_u in *. rewrite E.
    assert (0 < 2 ^ width (length (b' :: l))) by (apply Z.pow_pos_nonneg; unfold width; lia).
    rewrite !Z.rem_mul_r by lia. rewrite !(Z.mul_comm 256), !Z.mod_add, !Z.div_add by lia.
    rewrite (Z.div_small b 256) by exact Hb. rewrite !Z.add_0_l, IH. done.
Qed.

(** Reading memory directly gives the same as the loop. *)
Lemma wrap_combine t l :
  (1 <= length l)%nat -> length l = size t -> Forall is_byte l -> wrap t (combine l) = value (is_signed t) l.
Proof.
  intros H1 Hl Hb. rewrite <- (wrap_fits t (value (is_signed t) l)); [|rewrite <- Hl; by apply value_fits|lia].
  pose proof (value_combine (is_signed t) l H1 Hb) as E. rewrite Hl in E. unfold wrap, wrap_s.
  destruct (is_signed t); [|done]. unfold wrap_u in E. by rewrite <- Z.add_mod_idemp_l, <- E, Z.add_mod_idemp_l by (apply Z.pow_nonzero; unfold width; lia).
Qed.

Lemma load_step t m b r :
  (1 <= m)%nat -> (S m <= size t)%nat -> is_byte b -> fits (is_signed t) m r ->
  wrap t (Z.lor b (wrap (promoted t) (Z.shiftl r 8))) = b + 256 * r.
Proof.
  intros Hm Hs Hb Hr.
  assert (Hf : fits (is_signed t) (S m) (256 * r)) by (apply (fits_cons _ m 0); [done|unfold is_byte; lia|done]).
  assert (E : wrap (promoted t) (Z.shiftl r 8) = 256 * r).
  { rewrite Z.shiftl_mul_pow2 by lia. change (2 ^ 8) with 256. rewrite Z.mul_comm.
    apply wrap_fits; unfold promoted; destruct (Nat.ltb_spec (size t) 4); simpl; try lia.
    - destruct (is_signed t); [by apply (fits_le true (S m)); [lia|]|].
      unfold fits in *. pose proof (Z.pow_le_mono_r 2 (width (S m)) (width 4 - 1)). unfold width in *. lia.
    - by apply (fits_le _ (S m)); [lia|]. }
  assert (El : Z.lor b (256 * r) = b + 256 * r).
  { rewrite <- (lor_shifted_byte b r Hb). f_equal. rewrite Z.shiftl_mul_pow2 by lia. lia. }
  rewrite E, El. apply wrap_fits; [|lia]. apply (fits_le _ (S m)); [lia|]. by apply fits_cons.
Qed.

Lemma load_little_value t n bytes :
  (1 <= n <= size t)%nat -> length bytes = n -> Forall is_byte bytes -> load_little t n bytes = value (is_signed t) bytes.
Proof.
  revert bytes. induction n as [|[|m] IH]; intros [|b bytes] Hn Hl Hb; try (simpl in Hl; lia).
  - by destruct bytes.
  - apply Forall_cons in Hb as [Hb Hbs].
    change (wrap t (Z.lor b (wrap (promoted t) (Z.shiftl (load_little t (S m) bytes) 8))) = value (is_signed t) (b :: bytes)).
    simpl in Hl. rewrite IH by (done || lia). rewrite (load_step t (S m)).
    + destruct bytes; [simpl in Hl; lia|done].
    + lia.
    + lia.
    + done.
    + injection Hl as Hl. rewrite <- Hl. apply value_fits; [lia|done].
Qed.

(** A load reads the bytes before its pointer only. *)
Lemma load_big_app t n l l' : (1 <= n)%nat -> length l = n -> load_big t n (l ++ l') = load_big t n l.
Proof.
  intros Hn Hl. assert (Hg : forall m, (m <= length l)%nat -> load_big t m (l ++ l') = load_big t m l); [|apply Hg; lia].
  clear n Hn Hl. induction m as [|[|m] IH]; intros Hm; [done| |].
  - destruct l; [simpl in Hm; lia|done].
  - change (wrap t (Z.lor (nth (S m) (l ++ l') 0) (wrap (promoted t) (Z.shiftl (load_big t (S m) (l ++ l')) 8))) =
            wrap t (Z.lor (nth (S m) l 0) (wrap (promoted t) (Z.shiftl (load_big t (S m) l) 8)))).
    rewrite app_nth1, IH by lia. done.
Qed.

Lemma load_big_value t n bytes :
  (1 <= n <= size t)%nat -> length bytes = n -> Forall is_byte bytes -> load_big t n (rev bytes) = value (is_signed t) bytes.
Proof.
  revert bytes. induction n as [|[|m] IH]; intros [|b bytes] Hn Hl Hb; try (simpl in Hl; lia).
  - by destruct bytes.
  - apply Forall_cons in Hb as [Hb Hbs]. simpl in Hl. injection Hl as Hl. cbn [rev].
    change (wrap t (Z.lor (nth (S m) (rev bytes ++ [b]) 0)
      (wrap (promoted t) (Z.shiftl (load_big t (S m) (rev bytes ++ [b])) 8))) = value (is_signed t) (b :: bytes)).
    rewrite load_big_app by (rewrite ?length_rev; lia).
    rewrite app_nth2, length_rev, Hl, Nat.sub_diag by (rewrite length_rev; lia). cbn [nth].
    rewrite IH by (done || lia). rewrite (load_step t (S m)).
    + destruct bytes; [simpl in Hl; lia|done].
    + lia.
    + lia.
    + done.
    + rewrite <- Hl. apply value_fits; [lia|done].
Qed.

(** ** Reversal *)

(** The types that can be reversed. *)
Definition exact (t : IntType) : Prop := size t ∈ [1; 2; 4; 8]%nat.

Lemma shiftl_testbit z n k : Z.testbit (Z.shiftl z n) k = (0 <=? k) && Z.testbit z (k - n).
Proof. destruct (Z.leb_spec 0 k); [by rewrite Z.shiftl_spec|by rewrite Z.testbit_neg_r]. Qed.
Lemma shiftr_testbit z n k : Z.testbit (Z.shiftr z n) k = (0 <=? k) && Z.testbit z (k + n).
Proof. destruct (Z.leb_spec 0 k); [by rewrite Z.shiftr_spec|by rewrite Z.testbit_neg_r]. Qed.

(** The bits of a reversed number, as an expression over the bits of the number. *)
Ltac bits_of :=
  eexists; intros x k; unfold reverse16, reverse32, reverse64; cbv zeta;
  rewrite ?Z.lor_spec, ?Z.land_spec, ?shiftl_testbit, ?shiftr_testbit, ?wrap_u_testbit by lia;
  repeat progress rewrite ?Z.lor_spec, ?Z.land_spec, ?shiftl_testbit, ?shiftr_testbit, ?wrap_u_testbit by lia;
  match goal with |- ?l = _ =>
    let l' := eval pattern (Z.testbit x), k in l in
    match l' with ?g _ _ => instantiate (1 := g) end
  end; reflexivity.

Definition reverse16_bits : {f | forall x k, Z.testbit (reverse16 x) k = f (Z.testbit x) k}.
Proof. bits_of. Defined.
Definition reverse32_bits : {f | forall x k, Z.testbit (reverse32 x) k = f (Z.testbit x) k}.
Proof. bits_of. Defined.
Definition reverse64_bits : {f | forall x k, Z.testbit (reverse64 x) k = f (Z.testbit x) k}.
Proof. bits_of. Defined.

(** A byte of a reversed number: its eight bits are computed. *)
Ltac bitwise_byte e x :=
  apply Z.bits_inj'; intros k Hk; rewrite !wrap_u_testbit by lia;
  destruct (Z.ltb_spec k 8) as [Hl|_]; [|by rewrite !andb_false_r];
  let H := fresh in
  assert (k = 0 \/ k = 1 \/ k = 2 \/ k = 3 \/ k = 4 \/ k = 5 \/ k = 6 \/ k = 7) as H by lia;
  clear Hl Hk; rewrite ?shiftr_testbit, (proj2_sig e);
  generalize (Z.testbit x); let tb := fresh in intros tb;
  repeat destruct H as [H|H]; subst k; vm_compute;
  repeat match goal with |- context [tb ?i] => destruct (tb i) end; reflexivity.

Lemma reverse16_bytes x : split 2 (reverse16 x) = rev (split 2 x).
Proof. cbn [split rev app]. f_equal; [|f_equal]; bitwise_byte reverse16_bits x. Qed.
Lemma reverse32_bytes x : split 4 (reverse32 x) = rev (split 4 x).
Proof. cbn [split rev app]. f_equal; [|f_equal; [|f_equal; [|f_equal]]]; bitwise_byte reverse32_bits x. Qed.
Lemma reverse64_bytes x : split 8 (reverse64 x) = rev (split 8 x).
Proof.
  cbn [split rev app].
  do 7 (apply f_equal2; [bitwise_byte reverse64_bits x|]). f_equal. bitwise_byte reverse64_bits x.
Qed.

Lemma endian_reverse_bytes t x : exact t -> split (size t) (endian_reverse t x) = rev (split (size t) x).
Proof.
  destruct t as [n sign]. unfold exact, endian_reverse. simpl size. intros H.
  repeat (apply elem_of_cons in H as [->|H]); [done| | | |by apply not_elem_of_nil in H];
    rewrite (split_wrap (MkInt _ sign)) by (simpl; lia); auto using reverse16_bytes, reverse32_bytes, reverse64_bytes.
Qed.

Lemma wrap_range t z : (0 < size t)%nat -> fits (is_signed t) (size t) (wrap t z).
Proof.
  intros H. unfold wrap, fits. destruct (is_signed t); [apply wrap_s_range|apply wrap_u_range]; unfold width; lia.
Qed.

Lemma exact_positive t : exact t -> (1 <= size t)%nat.
Proof. unfold exact. intros H. repeat (apply elem_of_cons in H as [->|H]); try lia. by apply not_elem_of_nil in H. Qed.

Lemma endian_reverse_fits t x :
  exact t -> fits (is_signed t) (size t) x -> fits (is_signed t) (size t) (endian_reverse t x).
Proof.
  intros He Hf. pose proof (exact_positive t He).
  assert (Hw : forall z, fits (is_signed t) (size t) (wrap t z)) by (intros; apply wrap_range; lia).
  unfold endian_reverse. destruct (size t) as [|[|[|[|[|?]]]]]; auto.
Qed.

Lemma endian_reverse_value t x :
  exact t -> fits (is_signed t) (size t) x ->
  endian_reverse t x = value (is_signed t) (rev (split (size t) x)).
Proof.
  intros He Hf. rewrite <- endian_reverse_bytes by done. symmetry. apply value_split; [by apply exact_positive|].
  by apply endian_reverse_fits.
Qed.

Lemma value_of_bytes_of native t x :
  (1 <= size t)%nat -> fits (is_signed t) (size t) x -> value_of native t (bytes_of native t x) = x.
Proof.
  intros Hs Hf. unfold value_of, bytes_of.
  assert (E : wrap t (combine (split (size t) x)) = x).
  { rewrite wrap_combine by (rewrite ?split_length; auto using split_bytes). by apply value_split. }
  destruct native; [by rewrite rev_involutive|done].
Qed.

Lemma native_to_big_bytes native t x :
  exact t -> bytes_of native t (native_to_big native t x) = rev (split (size t) x).
Proof. intros He. unfold bytes_of, native_to_big. destruct native; by rewrite ?endian_reverse_bytes. Qed.
Lemma native_to_little_bytes native t x :
  exact t -> bytes_of native t (native_to_little native t x) = split (size t) x.
Proof.
  intros He. unfold bytes_of, native_to_little. destruct native; by rewrite ?endian_reverse_bytes, ?rev_involutive.
Qed.

Lemma endian_reverse_involutive t x :
  exact t -> fits (is_signed t) (size t) x -> endian_reverse t (endian_reverse t x) = x.
Proof.
  intros He Hf. rewrite (endian_reverse_value t (endian_reverse t x)) by auto using endian_reverse_fits.
  rewrite endian_reverse_bytes, rev_involutive by done. apply value_split; [by apply exact_positive|done].
Qed.

(** * Theorems *)

(** the masks and shifts reverse the bytes: on every exact integer type and either
    kind of machine, [endian_reverse] is what reversing the object's bytes in memory gives,
    twice it is the identity, and the four conversions and the two conditional reversals
    agree with it. *)
Theorem endian_reverse_reverses_bytes (native : order) (t : IntType) (x : Z) :
  exact t -> fits (is_signed t) (size t) x ->
  endian_reverse t x = std_endian_reverse native t x /\
  bytes_of native t (endian_reverse t x) = rev (bytes_of native t x) /\
  endian_reverse t (endian_reverse t x) = x /\
  bytes_of native t (native_to_big native t x) = rev (split (size t) x) /\
  bytes_of native t (native_to_little native t x) = split (size t) x /\
  big_to_native native t (native_to_big native t x) = x /\
  little_to_native native t (native_to_little native t x) = x /\
  (forall from to, conditional_reverse t x from to = value_converter t from to x) /\
  conditional_reverse t x native big = native_to_big native t x.
Proof.
  intros He Hf. pose proof (exact_positive t He) as Hs. pose proof (endian_reverse_bytes t x He) as Eb.
  pose proof (endian_reverse_involutive t x He Hf) as Ei.
  split_and!.
  - rewrite endian_reverse_value by done. unfold std_endian_reverse, value_of, bytes_of.
    rewrite <- wrap_combine by (rewrite ?length_rev, ?split_length; auto; apply Forall_rev, split_bytes).
    destruct native; by rewrite ?rev_involutive.
  - unfold bytes_of. rewrite Eb. by destruct native.
  - done.
  - by apply native_to_big_bytes.
  - by apply native_to_little_bytes.
  - unfold big_to_native, native_to_big. by destruct native.
  - unfold little_to_native, native_to_little. by destruct native.
  - intros [] []; unfold conditional_reverse; by case_bool_decide.
  - unfold conditional_reverse, native_to_big. destruct native; by case_bool_decide.
Qed.

Lemma endian_reverse_reverses_bytes_witness :
  exact int32 /\ endian_reverse int32 0x01020384 = - 0x7bfcfdff /\
  std_endian_reverse big int32 0x01020384 = - 0x7bfcfdff.
Proof.
  assert (H : exact int32) by (by apply (bool_decide_unpack _); vm_compute).
  destruct (endian_reverse_reverses_bytes big int32 0x01020384 H ltac:(vm_compute; intuition discriminate)) as [E _].
  split; [exact H|]. split; [by vm_compute|]. rewrite <- E. by vm_compute.
Defined.

(** The typedefs of the header. *)
Definition known (b : BufferType) : Prop := b ∈ aligned_buffers ++ unaligned_buffers.

(** Their types have room for the bits. *)
Lemma typedefs_fit b :
  known b ->
  (1 <= n_bytes b <= size (value_type b))%nat /\
  (buf_align b = align_yes -> exact (value_type b) /\ n_bytes b = size (value_type b)).
Proof.
  intros Hb.
  assert (Hall : Forall (fun b => ((1 <=? n_bytes b) && (n_bytes b <=? size (value_type b)))%nat &&
      match buf_align b with align_yes => bool_decide (exact (value_type b)) && (n_bytes b =? size (value_type b))%nat
                           | align_no => true end = true)
    (aligned_buffers ++ unaligned_buffers)).
  { apply (bool_decide_unpack _). by vm_compute. }
  rewrite Forall_forall in Hall. specialize (Hall b Hb). apply andb_true_iff in Hall as [H1 H2].
  apply andb_true_iff in H1 as [H3 H4]. apply Nat.leb_le in H3, H4. split; [done|]. intros E. rewrite E in H2.
  apply andb_true_iff in H2 as [H5 H6]. apply Nat.eqb_eq in H6. split; [by apply bool_decide_eq_true in H5|done].
Qed.

(** The bytes a buffer holds for a value. *)
Definition wire (b : BufferType) (v : Z) : list Z :=
  match buf_order b with big => rev (split (n_bytes b) v) | little => split (n_bytes b) v end.

Lemma assign_buffer_wire native x86 b v :
  (x86 = true -> native = little) -> known b -> assign_buffer native x86 b v = wire b v.
Proof.
  intros Hx Hb. destruct (typedefs_fit b Hb) as [Hn Ha].
  unfold assign_buffer, wire. destruct (buf_order b), (buf_align b) eqn:Eal.
  - unfold store_big_endian. by apply store_big_split.
  - destruct (Ha eq_refl) as [He En]. rewrite En. by apply native_to_big_bytes.
  - unfold store_little_endian. destruct x86; simpl; [|by apply store_little_split].
    destruct (Nat.eqb_spec (size (value_type b)) (n_bytes b)) as [Es|]; [|by apply store_little_split].
    unfold bytes_of. by rewrite (Hx eq_refl), Es.
  - destruct (Ha eq_refl) as [He En]. rewrite En. by apply native_to_little_bytes.
Qed.

Lemma buffer_value_wire native x86 b v :
  (x86 = true -> native = little) -> known b -> fits (is_signed (value_type b)) (n_bytes b) v ->
  buffer_value native x86 b (wire b v) = v.
Proof.
  intros Hx Hb Hf. destruct (typedefs_fit b Hb) as [Hn Ha].
  unfold buffer_value, wire, load_big_endian, load_little_endian.
  pose proof (split_bytes (n_bytes b) v) as Hs. pose proof (split_length (n_bytes b) v) as Hl.
  assert (Ev : value (is_signed (value_type b)) (split (n_bytes b) v) = v) by (apply value_split; [lia|done]).
  destruct (buf_order b), (buf_align b) eqn:Eal.
  - by rewrite load_big_value.
  - destruct (Ha eq_refl) as [He En]. rewrite En in *. rewrite <- (native_to_big_bytes native) by done.
    rewrite value_of_bytes_of.
    + unfold big_to_native, native_to_big. destruct native; [done|by apply endian_reverse_involutive].
    + lia.
    + unfold native_to_big. destruct native; [done|by apply endian_reverse_fits].
  - destruct x86; simpl; [|by rewrite load_little_value].
    destruct (Nat.eqb_spec (size (value_type b)) (n_bytes b)) as [Es|]; [|by rewrite load_little_value].
    unfold value_of. rewrite (Hx eq_refl), wrap_combine by (done || lia || congruence). done.
  - destruct (Ha eq_refl) as [He En]. rewrite En in *. rewrite <- (native_to_little_bytes native) by done.
    rewrite value_of_bytes_of.
    + unfold little_to_native, native_to_little. destruct native; [by apply endian_reverse_involutive|done].
    + lia.
    + unfold native_to_little. destruct native; [by apply endian_reverse_fits|done].
Qed.

Lemma wire_length b v : length (wire b v) = n_bytes b.
Proof. unfold wire. destruct (buf_order b); by rewrite ?length_rev, split_length. Qed.

(** buffers carry their values between machines. Every buffer type of the header holds
    the same bytes on every machine, aligned or not, compiled for x86 or not: the bytes of
    the value in the buffer's order; and every machine reads the value back from them. *)
Theorem buffers_round_trip (native native' : order) (x86 x86' : bool) (b : BufferType) (v : Z) :
  (x86 = true -> native = little) -> (x86' = true -> native' = little) ->
  known b -> fits (is_signed (value_type b)) (n_bytes b) v ->
  assign_buffer native x86 b v = wire b v /\ length (wire b v) = n_bytes b /\
  buffer_value native' x86' b (assign_buffer native x86 b v) = v.
Proof.
  intros Hx Hx' Hb Hf. rewrite assign_buffer_wire by done.
  split_and!; [done|apply wire_length|by apply buffer_value_wire].
Qed.

Lemma buffers_round_trip_witness :
  let b := MkBuffer little (least 3 true) 3 align_no in
  known b /\ wire b (-2) = [254; 255; 255] /\
  buffer_value big false b (assign_buffer little true b (-2)) = -2.
Proof.
  cbv zeta.
  assert (H : known (MkBuffer little (least 3 true) 3 align_no)).
  { by apply (list_elem_of_lookup_2 _ 34). }
  split; [exact H|]. split; [by vm_compute|].
  refine (proj2 (proj2 (buffers_round_trip little big true false _ (-2) _ _ H _)));
    [done|discriminate|vm_compute; intuition discriminate].
Defined.
End Endian.
