(* ===== verification/Sntp.v ===== *)
(** The SNTP client of the GPS provider ([providers/gps/sntp_client.h/.cpp],
    [providers/gps/sntp_reference_time_source.h/.cpp]): packets, time stamps at their
    widths, the computation of the reference time and the steps of a request. *)
From Stdlib Require Import ZArith Lia Ascii String.
From stdpp Require Import base strings list.
From S2P Require Import Prelude Endian.
Local Open Scope Z_scope.
Module Sntp.
Import Endian.Endian.

(** [detail::enum_constant] *)
Definition enum_constant (a b c d : Z) : Z :=
  wrap_u 32 (Z.lor (Z.lor (Z.lor (Z.shiftl a 24) (Z.shiftl b 16)) (Z.shiftl c 8)) d).

(** [ReferenceIdentifier]: each enumerator is its name in ASCII, the fourth character 0
    where there are three. *)
Definition identifier (name : string) : Z :=
  let c i := match String.get i name with Some a => Z.of_nat (nat_of_ascii a) | None => 0 end in
  enum_constant (c 0%nat) (c 1%nat) (c 2%nat) (c 3%nat).
Definition reference_identifiers : list string :=
  [ "LOCL"; "CESM"; "RBDM"; "PPS"; "IRIG"; "ACTS"; "USNO"; "PTB"; "TDF"; "DCF"; "MSF"; "WWV"; "WWVB";
    "WWVH"; "CHU"; "LORC"; "OMEG"; "GPS" ].
Definition locl : Z := identifier "LOCL".
Definition gps : Z := identifier "GPS".

(** [offset_1900_to_1970], in seconds. *)
Definition offset_1900_to_1970 : Z := ((365 * 70) + 17) * 24 * 60 * 60.

(** * Time stamps *)

(** The value types of the two buffers of a [Timestamp]: their widths and signedness. *)
Record Format : Type := MkFormat { bits : Z; signed : bool; fraction_bits : Z }.
Definition stamp : Format := MkFormat 32 false 32.
Definition root_delay_format : Format := MkFormat 16 true 16.
Definition root_dispersion_format : Format := MkFormat 16 false 16.

(** [Timestamp<Seconds, FractionalSeconds>] *)
Record Timestamp : Type := MkTimestamp { seconds : Z; fractional_seconds : Z }.

Section Timestamps.
Variable f : Format.

Definition store_seconds (z : Z) : Z := if signed f then wrap_s (bits f) z else wrap_u (bits f) z.
Definition fraction_max : Z := 2 ^ fraction_bits f - 1.

(** [from_milliseconds_since_epoch]: the product is computed on 64 bits, the second
    summand is [1 / 1000], the result is narrowed. *)
Definition from_milliseconds_since_epoch (ts : Z) : Timestamp :=
  let secs := Z.quot ts 1000 in
  let msecs := ts - secs * 1000 in
  let secs := secs + offset_1900_to_1970 in
  MkTimestamp (store_seconds secs)
    (wrap_u (fraction_bits f) (wrap_s 64 (msecs * fraction_max + Z.quot 1 1000))).

(** [to_milliseconds_since_epoch]: a 32-bit fraction is multiplied on 32 unsigned bits, a
    16-bit fraction is promoted to [int] first. *)
Definition times_1000 (fraction : Z) : Z :=
  if fraction_bits f =? 32 then wrap_u 32 (fraction * 1000) else wrap_s 32 (fraction * 1000).
Definition to_milliseconds_since_epoch (t : Timestamp) : Z :=
  (seconds t - offset_1900_to_1970) * 1000 + Z.quot (times_1000 (fractional_seconds t)) fraction_max.
End Timestamps.

(** * Packets *)

Inductive LeapIndicator : Set := no_warning | last_minute_has_61_seconds | last_minute_has_59_seconds | alarm.
Inductive Mode : Set :=
| reserved | symmetric_active | symmetric_passive | client | server | broadcast
| reserved_for_control | reserved_for_private_use.
Definition leap_index (l : LeapIndicator) : Z :=
  match l with no_warning => 0 | last_minute_has_61_seconds => 1 | last_minute_has_59_seconds => 2 | alarm => 3 end.
Definition mode_index (m : Mode) : Z :=
  match m with
  | reserved => 0 | symmetric_active => 1 | symmetric_passive => 2 | client => 3 | server => 4
  | broadcast => 5 | reserved_for_control => 6 | reserved_for_private_use => 7
  end.

(** [Packet::LeapIndicatorVersionMode] on the byte [livm]: the readers and the setters. *)
Definition leap_indicator (livm : Z) : Z := Z.land (Z.shiftr livm 6) 3.
Definition version (livm : Z) : Z := Z.land (Z.shiftr livm 3) 7.
Definition mode (livm : Z) : Z := Z.land livm 7.
Definition set_leap_indicator (li : LeapIndicator) (livm : Z) : Z := wrap_u 8 (Z.lor livm (Z.shiftl (leap_index li) 6)).
Definition set_version (v livm : Z) : Z := wrap_u 8 (Z.lor livm (Z.shiftl v 3)).
Definition set_mode (m : Mode) (livm : Z) : Z := wrap_u 8 (Z.lor (mode_index m) livm).

Record Packet : Type := MkPacket {
  livm : Z; stratum : Z; poll_interval : Z; precision : Z;
  root_delay : Timestamp; root_dispersion : Timestamp; reference_identifier : Z;
  reference : Timestamp; originate : Timestamp; receive : Timestamp; transmit : Timestamp
}.

Definition sntp_version : Z := 3.

(** [Client::request] up to the send: [garbage] is what the memory of the packet held. *)
Definition request_packet (garbage : Packet) (now : Z) : Packet :=
  let p := garbage in
  MkPacket (set_version sntp_version (set_mode client (livm p))) (stratum p) (poll_interval p) (precision p)
    (root_delay p) (root_dispersion p) (reference_identifier p) (reference p) (originate p) (receive p)
    (from_milliseconds_since_epoch stamp now).

(** ** The packet in memory *)

(** The machine: its byte order, and whether the code is compiled for x86. *)
Section Wire.
Context (native : order) (x86 : bool).
Local Abbreviation put := (assign_buffer native x86).

(** A [Timestamp] is its two buffers. *)
Definition stamp_bytes (secs fraction : BufferType) (t : Timestamp) : list Z :=
  put secs (seconds t) ++ put fraction (fractional_seconds t).

(** The members of a [Packet] in the order of their declaration; all are arrays of bytes,
    so there is no padding. *)
Definition packet_bytes (p : Packet) : list Z :=
  put big_uint8_buf_t (livm p) ++ put big_uint8_buf_t (stratum p) ++
  put big_uint8_buf_t (poll_interval p) ++ put big_int8_buf_t (precision p) ++
  stamp_bytes big_int16_buf_t big_uint16_buf_t (root_delay p) ++
  stamp_bytes big_uint16_buf_t big_uint16_buf_t (root_dispersion p) ++
  put big_uint32_buf_t (reference_identifier p) ++
  stamp_bytes big_uint32_buf_t big_uint32_buf_t (reference p) ++
  stamp_bytes big_uint32_buf_t big_uint32_buf_t (originate p) ++
  stamp_bytes big_uint32_buf_t big_uint32_buf_t (receive p) ++
  stamp_bytes big_uint32_buf_t big_uint32_buf_t (transmit p).

Definition value_at (b : BufferType) (offset : nat) (bytes : list Z) : Z :=
  buffer_value native x86 b (take (n_bytes b) (drop offset bytes)).
Definition stamp_at (secs fraction : BufferType) (offset : nat) (bytes : list Z) : Timestamp :=
  MkTimestamp (value_at secs offset bytes) (value_at fraction (offset + n_bytes secs) bytes).

(** The members of the packet whose memory holds [bytes]. *)
Definition packet_of_bytes (bytes : list Z) : Packet :=
  MkPacket (value_at big_uint8_buf_t 0 bytes) (value_at big_uint8_buf_t 1 bytes)
    (value_at big_uint8_buf_t 2 bytes) (value_at big_int8_buf_t 3 bytes)
    (stamp_at big_int16_buf_t big_uint16_buf_t 4 bytes)
    (stamp_at big_uint16_buf_t big_uint16_buf_t 8 bytes)
    (value_at big_uint32_buf_t 12 bytes)
    (stamp_at big_uint32_buf_t big_uint32_buf_t 16 bytes)
    (stamp_at big_uint32_buf_t big_uint32_buf_t 24 bytes)
    (stamp_at big_uint32_buf_t big_uint32_buf_t 32 bytes)
    (stamp_at big_uint32_buf_t big_uint32_buf_t 40 bytes).

(** [socket.async_receive(buffer(&packet, sizeof(packet)), ...)]: a datagram overwrites the
    front of the packet, and what is too long is cut off. *)
Definition received_into (memory datagram : list Z) : list Z :=
  take (length memory) datagram ++ drop (length datagram) memory.

(** [Client::request]: the packet that is sent also takes the answer. *)
Definition request (garbage : Packet) (now : Z) (sent : res unit) (datagram : res (list Z)) : res Packet :=
  let packet := packet_bytes (request_packet garbage now) in
  _ ← sent;
  d ← datagram;
  Ok (packet_of_bytes (received_into packet d)).
End Wire.

(** * A request *)

(** [Now]: the wall clock in milliseconds and the ticks since boot, both in nanoseconds. *)
Record Now : Type := MkNow { time : Z; ticks : Z }.
Definition nanoseconds (ms : Z) : Z := ms * 1000000.
Definition to_ms (ns : Z) : Z := Z.quot ns 1000000.

Record Response : Type := MkResponse {
  packet : Packet; ntp_time : Z; ntp_time_reference : Z; round_trip_time : Z
}.

(** What [request_time] computes from the answer. *)
Definition evaluate (p : Packet) (before after : Now) : Response :=
  let originate := to_milliseconds_since_epoch stamp (originate p) in
  let receive := to_milliseconds_since_epoch stamp (receive p) in
  let transmit := to_milliseconds_since_epoch stamp (transmit p) in
  let rtt := ticks after - ticks before - nanoseconds (transmit - receive) in
  let offset := Z.quot (nanoseconds (receive - originate) + (nanoseconds transmit - time after)) 2 in
  MkResponse p (to_ms (time after + offset)) (to_ms (ticks after)) (to_ms rtt).

(** What the network and the clock do during one request: [expired_n] is the comparison of
    the timer's expiry with the clock at its n-th place, [garbage] the memory the packet is
    made in, [clock] the time it is stamped with, [datagram] the answer. *)
Record Course : Type := MkCourse {
  resolved : res unit; expired_1 : bool; connected : res unit; before : Now; expired_2 : bool;
  garbage : Packet; clock : Z; sent : res unit; datagram : res (list Z); expired_3 : bool; after : Now
}.
Definition timed_out : exn := runtime_error "Timed out".

Definition request_time (native : order) (x86 : bool) (c : Course) : res Response :=
  _ ← resolved c;
  _ ← (if expired_1 c then Throw timed_out else Ok tt);
  _ ← connected c;
  _ ← (if expired_2 c then Throw timed_out else Ok tt);
  p ← request native x86 (garbage c) (clock c) (sent c) (datagram c);
  _ ← (if expired_3 c then Throw timed_out else Ok tt);
  Ok (evaluate p (before c) (after c)).

(** [SntpReferenceTimeSource::sample] *)
Definition sample (native : order) (x86 : bool) (c : Course) : res (Z * Z * Z) :=
  r ← request_time native x86 c; Ok (ntp_time r, ntp_time_reference r, round_trip_time r).

(** * Lemmas *)

Lemma identifiers_differ :
  NoDup (map identifier reference_identifiers) /\ locl = 1280262988 /\ gps = 1196446464.
Proof. split; [|done]. apply (bool_decide_unpack _). by vm_compute. Qed.

(** A 32-bit time stamp hardly sees its fraction. *)
Lemma decode_stamp t :
  0 <= fractional_seconds t < 2 ^ 32 ->
  to_milliseconds_since_epoch stamp t =
    (seconds t - offset_1900_to_1970) * 1000 +
    (if wrap_u 32 (fractional_seconds t * 1000) =? 2 ^ 32 - 1 then 1 else 0).
Proof.
  intros Hf. unfold to_milliseconds_since_epoch, times_1000, fraction_max. cbn [stamp fraction_bits Z.eqb Pos.eqb].
  f_equal. pose proof (wrap_u_range 32 (fractional_seconds t * 1000) ltac:(lia)) as Hw.
  set (x := wrap_u 32 _) in *. destruct (Z.eqb_spec x (2 ^ 32 - 1)) as [->|]; [done|].
  apply Z.quot_small. lia.
Qed.

(** Since a multiple of 8 is never odd, it does not see it at all. *)
Lemma multiple_of_1000_even z : wrap_u 32 (z * 1000) <> 2 ^ 32 - 1.
Proof.
  unfold wrap_u. intros E. pose proof (Z.div_mod (z * 1000) (2 ^ 32) ltac:(lia)) as D. rewrite E in D.
  assert (Z.even (z * 1000) = Z.even (2 ^ 32 * (z * 1000 / 2 ^ 32) + (2 ^ 32 - 1))) by (by rewrite <- D).
  rewrite Z.even_mul, Z.even_add, Z.even_mul in H. simpl in H. by rewrite orb_true_r in H.
Qed.

Lemma decode_seconds t :
  0 <= fractional_seconds t < 2 ^ 32 ->
  to_milliseconds_since_epoch stamp t = (seconds t - offset_1900_to_1970) * 1000.
Proof.
  intros Hf. rewrite decode_stamp by done.
  destruct (Z.eqb_spec (wrap_u 32 (fractional_seconds t * 1000)) (2 ^ 32 - 1)) as [E|]; [|lia].
  by apply multiple_of_1000_even in E.
Qed.

Lemma encode_seconds ts :
  0 <= ts -> ts / 1000 + offset_1900_to_1970 < 2 ^ 32 ->
  seconds (from_milliseconds_since_epoch stamp ts) = ts / 1000 + offset_1900_to_1970 /\
  fractional_seconds (from_milliseconds_since_epoch stamp ts) = wrap_u 32 (- (ts mod 1000)).
Proof.
  intros H0 H1. unfold from_milliseconds_since_epoch. cbn [seconds fractional_seconds].
  rewrite Z.quot_div_nonneg by lia.
  assert (0 <= ts / 1000) by (apply Z.div_pos; lia). pose proof (Z.mod_pos_bound ts 1000 ltac:(lia)).
  assert (Em : ts - ts / 1000 * 1000 = ts mod 1000) by (pose proof (Z.div_mod ts 1000 ltac:(lia)); lia).
  rewrite Em. split.
  - unfold store_seconds. cbn [stamp signed bits]. apply wrap_u_small. unfold offset_1900_to_1970 in *. lia.
  - cbn [stamp fraction_bits]. unfold fraction_max. cbn [stamp fraction_bits]. simpl (Z.quot 1 1000).
    rewrite Z.add_0_r, wrap_s_small by (try change (64 - 1) with 63; lia). unfold wrap_u.
    replace (ts mod 1000 * (2 ^ 32 - 1)) with (- (ts mod 1000) + ts mod 1000 * 2 ^ 32) by lia.
    rewrite Z.mod_add by lia. done.
Qed.

(** * Theorems *)

(** a time stamp carries no milliseconds. A 32-bit time stamp is read as its whole
    seconds, whatever its fraction; a time from 1970 to 2036 is written with its seconds
    and a fraction that is the negated count of its milliseconds; and what is written is
    read back as the time rounded down to the second. *)
Theorem timestamps_lose_milliseconds t ts :
  0 <= fractional_seconds t < 2 ^ 32 -> 0 <= ts -> ts / 1000 + offset_1900_to_1970 < 2 ^ 32 ->
  to_milliseconds_since_epoch stamp t = (seconds t - offset_1900_to_1970) * 1000 /\
  fractional_seconds (from_milliseconds_since_epoch stamp ts) = wrap_u 32 (- (ts mod 1000)) /\
  to_milliseconds_since_epoch stamp (from_milliseconds_since_epoch stamp ts) = ts - ts mod 1000.
Proof.
  intros Hf H0 H1. destruct (encode_seconds ts H0 H1) as [Es Ef]. split_and!; [by apply decode_seconds|done|].
  rewrite decode_seconds by (rewrite Ef; apply wrap_u_range; lia). rewrite Es.
  pose proof (Z.div_mod ts 1000 ltac:(lia)). lia.
Qed.

Lemma timestamps_lose_milliseconds_witness :
  to_milliseconds_since_epoch stamp (from_milliseconds_since_epoch stamp 1700000000999) = 1700000000000.
Proof.
  destruct (timestamps_lose_milliseconds (MkTimestamp 0 0) 1700000000999) as (_ & _ & E);
    [simpl; lia|lia|by vm_compute|]. exact E.
Defined.

(** The setters only set bits: what the memory of the packet held stays. The client's mode
    and version come out right only if it held no bit that they have not. *)
Lemma request_header garbage now :
  0 <= livm garbage < 256 ->
  livm (request_packet garbage now) = Z.lor (livm garbage) 27.
Proof.
  intros Hg. unfold request_packet. cbn [livm]. unfold set_version, set_mode, sntp_version. cbn [mode_index].
  assert (Hl : forall a b, 0 <= a < 2 ^ 8 -> 0 <= b < 2 ^ 8 -> 0 <= Z.lor a b < 2 ^ 8).
  { intros a b Ha Hb. split; [apply Z.lor_nonneg; lia|].
    destruct (Z.eq_dec (Z.lor a b) 0) as [->|]; [lia|]. apply Z.log2_lt_pow2; [pose proof (Z.lor_nonneg a b); lia|].
    rewrite Z.log2_lor by lia. apply Z.max_lub_lt;
      [destruct (Z.eq_dec a 0) as [->|]|destruct (Z.eq_dec b 0) as [->|]]; try (simpl; lia);
      apply Z.log2_lt_pow2; lia. }
  rewrite (wrap_u_small 8 (Z.lor 3 _)) by (apply Hl; lia).
  change (Z.shiftl 3 3) with 24. rewrite wrap_u_small by (apply Hl; [apply Hl|]; lia).
  rewrite (Z.lor_comm 3), <- Z.lor_assoc. done.
Qed.

(** The order of the failures of a request: the first of the steps decides. *)
Lemma request_time_ok native x86 c r :
  request_time native x86 c = Ok r ->
  expired_1 c = false /\ expired_2 c = false /\ expired_3 c = false /\
  exists d, datagram c = Ok d /\
    r = evaluate (packet_of_bytes native x86 (received_into (packet_bytes native x86 (request_packet (garbage c) (clock c))) d))
          (before c) (after c).
Proof.
  unfold request_time, request. destruct (resolved c), (expired_1 c), (connected c), (expired_2 c), (sent c), (datagram c), (expired_3 c);
    try discriminate. intros [= <-]. eauto 10.
Qed.

(** ** Packets on the wire *)

Definition stamp_fits (secs fraction : BufferType) (t : Timestamp) : Prop :=
  fits (is_signed (value_type secs)) (n_bytes secs) (seconds t) /\
  fits (is_signed (value_type fraction)) (n_bytes fraction) (fractional_seconds t).

(** The members of a packet are in the range of their types. *)
Definition packet_fits (p : Packet) : Prop :=
  fits false 1 (livm p) /\ fits false 1 (stratum p) /\ fits false 1 (poll_interval p) /\
  fits true 1 (precision p) /\
  stamp_fits big_int16_buf_t big_uint16_buf_t (root_delay p) /\
  stamp_fits big_uint16_buf_t big_uint16_buf_t (root_dispersion p) /\
  fits false 4 (reference_identifier p) /\
  stamp_fits big_uint32_buf_t big_uint32_buf_t (reference p) /\
  stamp_fits big_uint32_buf_t big_uint32_buf_t (originate p) /\
  stamp_fits big_uint32_buf_t big_uint32_buf_t (receive p) /\
  stamp_fits big_uint32_buf_t big_uint32_buf_t (transmit p).

Section WireLemmas.
Context (native : order) (x86 : bool) (Hx : x86 = true -> native = little).

Lemma value_at_wire b offset bytes v :
  known b -> fits (is_signed (value_type b)) (n_bytes b) v ->
  take (n_bytes b) (drop offset bytes) = wire b v -> value_at native x86 b offset bytes = v.
Proof. intros Hb Hf E. unfold value_at. rewrite E. by apply buffer_value_wire. Qed.

Definition stamp_wire (secs fraction : BufferType) (t : Timestamp) : list Z :=
  wire secs (seconds t) ++ wire fraction (fractional_seconds t).

Lemma stamp_bytes_wire secs fraction t :
  known secs -> known fraction -> stamp_bytes native x86 secs fraction t = stamp_wire secs fraction t.
Proof. intros H1 H2. unfold stamp_bytes. by rewrite !assign_buffer_wire. Qed.

Lemma stamp_at_wire secs fraction offset bytes t :
  known secs -> known fraction -> stamp_fits secs fraction t ->
  take (n_bytes secs) (drop offset bytes) = wire secs (seconds t) ->
  take (n_bytes fraction) (drop (offset + n_bytes secs) bytes) = wire fraction (fractional_seconds t) ->
  stamp_at native x86 secs fraction offset bytes = t.
Proof.
  intros H1 H2 [F1 F2] E1 E2. unfold stamp_at. destruct t. f_equal; by apply value_at_wire.
Qed.
End WireLemmas.

(** The layout of the 48 bytes. *)
Definition packet_wire (p : Packet) : list Z :=
  wire big_uint8_buf_t (livm p) ++ wire big_uint8_buf_t (stratum p) ++
  wire big_uint8_buf_t (poll_interval p) ++ wire big_int8_buf_t (precision p) ++
  stamp_wire big_int16_buf_t big_uint16_buf_t (root_delay p) ++
  stamp_wire big_uint16_buf_t big_uint16_buf_t (root_dispersion p) ++
  wire big_uint32_buf_t (reference_identifier p) ++
  stamp_wire big_uint32_buf_t big_uint32_buf_t (reference p) ++
  stamp_wire big_uint32_buf_t big_uint32_buf_t (originate p) ++
  stamp_wire big_uint32_buf_t big_uint32_buf_t (receive p) ++
  stamp_wire big_uint32_buf_t big_uint32_buf_t (transmit p).

Lemma packet_buffers_known :
  known big_uint8_buf_t /\ known big_int8_buf_t /\ known big_int16_buf_t /\ known big_uint16_buf_t /\
  known big_uint32_buf_t.
Proof.
  split_and!; [apply (list_elem_of_lookup_2 _ 24)|apply (list_elem_of_lookup_2 _ 16)
              |apply (list_elem_of_lookup_2 _ 17)|apply (list_elem_of_lookup_2 _ 25)
              |apply (list_elem_of_lookup_2 _ 27)]; done.
Qed.

Lemma packet_bytes_wire native x86 p :
  (x86 = true -> native = little) -> packet_bytes native x86 p = packet_wire p.
Proof.
  intros Hx. destruct packet_buffers_known as (? & ? & ? & ? & ?).
  unfold packet_bytes, packet_wire. by rewrite !stamp_bytes_wire, !assign_buffer_wire.
Qed.

Lemma packet_wire_read native x86 p :
  (x86 = true -> native = little) -> packet_fits p -> packet_of_bytes native x86 (packet_wire p) = p.
Proof.
  intros Hx (F1 & F2 & F3 & F4 & F5 & F6 & F7 & F8 & F9 & F10 & F11).
  destruct packet_buffers_known as (? & ? & ? & ? & ?). destruct p. unfold packet_of_bytes.
  f_equal; first [by apply value_at_wire | by apply stamp_at_wire].
Qed.

Lemma received_whole memory datagram rest :
  length datagram = length memory -> received_into memory (datagram ++ rest) = datagram.
Proof.
  intros Hl. unfold received_into. rewrite <- Hl, take_app_length, drop_ge, app_nil_r; [done|].
  rewrite length_app. lia.
Qed.

(** Behind a short datagram the memory is what it was. *)
Lemma received_behind memory datagram k :
  (length datagram <= k)%nat -> (k <= length memory)%nat ->
  drop k (received_into memory datagram) = drop k memory.
Proof.
  intros H1 H2. unfold received_into. rewrite take_ge by lia. rewrite drop_app_ge by lia.
  rewrite drop_drop. f_equal. lia.
Qed.

Lemma packet_wire_length p : length (packet_wire p) = 48%nat.
Proof. unfold packet_wire, stamp_wire. by rewrite !length_app, !wire_length. Qed.

Lemma stamp_of_time_fits now : stamp_fits big_uint32_buf_t big_uint32_buf_t (from_milliseconds_since_epoch stamp now).
Proof. split; apply (wrap_u_range 32); lia. Qed.

(** C27: what the client reads from the wire. A packet is 48 bytes, the same on every
    machine; when the server answers with a packet, followed by anything, the client has
    just that packet, whatever its memory held before. An answer that ends before the
    transmit stamp is taken as well: the client then reads its own request's stamp for the
    server's. *)
Theorem answers_are_read_from_the_wire (native native' : order) (x86 x86' : bool)
    (garbage p : Packet) (now : Z) (datagram rest : list Z) :
  (x86 = true -> native = little) -> (x86' = true -> native' = little) ->
  packet_fits p -> (length datagram <= 40)%nat ->
  length (packet_bytes native' x86' p) = 48%nat /\
  packet_bytes native x86 p = packet_bytes native' x86' p /\
  request native x86 garbage now (Ok tt) (Ok (packet_bytes native' x86' p ++ rest)) = Ok p /\
  exists q, request native x86 garbage now (Ok tt) (Ok datagram) = Ok q /\
    transmit q = from_milliseconds_since_epoch stamp now.
Proof.
  intros Hx Hx' Hp Hd. rewrite !packet_bytes_wire by done. split_and!; [apply packet_wire_length|done| |].
  - unfold request. rewrite packet_bytes_wire by done. cbn [mbind res_bind].
    rewrite received_whole by (by rewrite !packet_wire_length). by rewrite packet_wire_read.
  - unfold request. rewrite packet_bytes_wire by done. eexists. split; [done|].
    destruct packet_buffers_known as (_ & _ & _ & _ & Hk). cbn [packet_of_bytes transmit].
    pose proof (packet_wire_length (request_packet garbage now)) as Hl.
    apply stamp_at_wire; auto using stamp_of_time_fits; rewrite received_behind by (simpl; lia); done.
Qed.

Definition an_answer : Packet :=
  MkPacket 36 1 6 (-20) (MkTimestamp (-1) 2) (MkTimestamp 3 4) gps (MkTimestamp 5 6) (MkTimestamp 7 8)
    (MkTimestamp 9 10) (MkTimestamp 11 12).

Lemma answers_are_read_from_the_wire_witness :
  packet_fits an_answer /\
  request big false an_answer 1700000000000 (Ok tt) (Ok (packet_bytes little true an_answer ++ [1; 2])) = Ok an_answer /\
  exists q, request big false an_answer 1700000000000 (Ok tt) (Ok []) = Ok q /\ seconds (transmit q) = 3908988800.
Proof.
  assert (H : packet_fits an_answer).
  { unfold packet_fits, stamp_fits, fits. vm_compute. intuition discriminate. }
  split; [exact H|].
  destruct (answers_are_read_from_the_wire big little false true an_answer an_answer 1700000000000 [] [1; 2]
    ltac:(discriminate) ltac:(done) H ltac:(simpl; lia)) as (_ & _ & E & q & Eq & Et).
  split; [exact E|]. exists q. split; [exact Eq|]. rewrite Et. by vm_compute.
Defined.
End Sntp.
