(* ===== verification/Remote.v ===== *)
(** Providers in another process ([providers/remote/provider.cpp]): the stub the
    engine talks to, the skeleton that drives the implementation behind it, the
    task queue of the stub's worker thread and the bus between the two.  The stub's
    start and stop functions only post a task; the tasks cross the bus later. *)
From Stdlib Require Import ZArith Lia SpecFloat.
From stdpp Require Import base gmap strings list.
From S2P Require Import Prelude Floats Geometry Criteria Provider Settings.
Local Open Scope Z_scope.

Module Remote.
Import Controller Enums.

(** * The interface *)

(** The methods of [remote::Interface], by name. *)
Inductive MethodName : Set :=
| MatchesCriteria | Requires | Supports
| OnWifiAndCellIdReportingStateChanged
| OnReferenceLocationChanged | OnReferenceHeadingChanged | OnReferenceVelocityChanged
| StartPositionUpdates | StopPositionUpdates
| StartHeadingUpdates | StopHeadingUpdates
| StartVelocityUpdates | StopVelocityUpdates.

#[export] Instance MethodName_eq_dec : EqDecision MethodName.
Proof. solve_decision. Defined.

(** What a call carries, and the type of its reply. *)
Inductive Method : Type -> Type :=
| matches_criteria_call (criteria : Criteria.Criteria) : Method bool
| requires_call (r : Z) : Method bool
| supports_call (f : Z) : Method bool
| wifi_state_call (state : Wifi) : Method unit
| reference_location_call (u : Update Geometry.Position) : Method unit
| reference_heading_call (u : Update Geometry.Heading) : Method unit
| reference_velocity_call (u : Update Geometry.Velocity) : Method unit
| stream_call (c : Call) : Method unit.

Definition stream_method (c : Call) : MethodName :=
  match c with
  | Start Position => StartPositionUpdates
  | Stop Position => StopPositionUpdates
  | Start Heading => StartHeadingUpdates
  | Stop Heading => StopHeadingUpdates
  | Start Velocity => StartVelocityUpdates
  | Stop Velocity => StopVelocityUpdates
  end.

Definition name_of {R} (m : Method R) : MethodName :=
  match m with
  | matches_criteria_call _ => MatchesCriteria
  | requires_call _ => Requires
  | supports_call _ => Supports
  | wifi_state_call _ => OnWifiAndCellIdReportingStateChanged
  | reference_location_call _ => OnReferenceLocationChanged
  | reference_heading_call _ => OnReferenceHeadingChanged
  | reference_velocity_call _ => OnReferenceVelocityChanged
  | stream_call c => stream_method c
  end.

(** The values of the three signals: a position, a heading or a velocity, without
    the time of the update they come from. *)
Inductive Signal : Type :=
| PositionChanged (p : Geometry.Position)
| HeadingChanged (h : Geometry.Heading)
| VelocityChanged (v : Geometry.Velocity).

(** An update of one of the three kinds. *)
Inductive AnyUpdate : Type :=
| PositionUpdate (u : Update Geometry.Position)
| HeadingUpdate (u : Update Geometry.Heading)
| VelocityUpdate (u : Update Geometry.Velocity).

(** [dbus::Result<T>]: the value of the reply, or the text of the error. *)
Inductive Result (T : Type) : Type :=
| Value (v : T)
| Error (print : string).
Arguments Value {T} v.
Arguments Error {T} print.

(** What becomes of a method call on the bus: it is answered, it is lost before the
    skeleton sees it, or its reply is lost afterwards. *)
Inductive Outcome : Type := Answered | Lost (print : string) | ReplyLost (print : string).

(** The closures posted to the stub's worker. *)
Inductive Task : Type :=
| ReferenceLocation (u : Update Geometry.Position)
| ReferenceVelocity (u : Update Geometry.Velocity)
| ReferenceHeading (u : Update Geometry.Heading)
| Transact (c : Call)
| Deliver (s : Signal).

(** What the implementation behind the skeleton is told. *)
Inductive Told : Type :=
| told_call (c : Call)
| told_wifi (state : Wifi)
| told_position (u : Update Geometry.Position)
| told_heading (u : Update Geometry.Heading)
| told_velocity (u : Update Geometry.Velocity).

(** * The world of a stub and its skeleton *)

(** Where the thread that serves [task.service] is in [Runtime::run]: before the test
    of the loop, inside [io_context::run], or returned. *)
Inductive Phase : Type := checking | in_run | exited.

Record World : Type := MkWorld {
  stub_counters : Counters;          (* the controller of the stub, as a provider *)
  stub_alive : bool;
  tasks : list Task;                 (* Runtime's task.service *)
  running : bool;                    (* Runtime::running *)
  stopped : bool;                    (* whether task.service has been stopped *)
  worker : Phase;                    (* of Runtime's worker2 *)
  outcomes : list Outcome;           (* of the next calls; answered from then on *)
  handlers : list MethodName;        (* installed on the skeleton's object *)
  skeleton_alive : bool;
  dangling : list MethodName;        (* handlers run after the skeleton's destruction *)
  impl_counters : Counters;          (* the controller of the implementation *)
  told : list Told;
  wire : list Signal;                (* signals emitted and not yet received *)
  delivered : list AnyUpdate;        (* the stub's own updates() *)
  now : Z                            (* Clock::now *)
}.

Definition stub_cell : Cell World Counters :=
  MkCell stub_counters (fun x w => MkWorld x (stub_alive w) (tasks w) (running w) (stopped w)
    (worker w) (outcomes w) (handlers w) (skeleton_alive w) (dangling w) (impl_counters w) (told
    w) (wire w) (delivered w) (now w)).
Definition alive_cell : Cell World bool :=
  MkCell stub_alive (fun x w => MkWorld (stub_counters w) x (tasks w) (running w) (stopped w)
    (worker w) (outcomes w) (handlers w) (skeleton_alive w) (dangling w) (impl_counters w) (told
    w) (wire w) (delivered w) (now w)).
Definition tasks_cell : Cell World (list Task) :=
  MkCell tasks (fun x w => MkWorld (stub_counters w) (stub_alive w) x (running w) (stopped w)
    (worker w) (outcomes w) (handlers w) (skeleton_alive w) (dangling w) (impl_counters w) (told
    w) (wire w) (delivered w) (now w)).
Definition running_cell : Cell World bool :=
  MkCell running (fun x w => MkWorld (stub_counters w) (stub_alive w) (tasks w) x (stopped w)
    (worker w) (outcomes w) (handlers w) (skeleton_alive w) (dangling w) (impl_counters w) (told
    w) (wire w) (delivered w) (now w)).
Definition stopped_cell : Cell World bool :=
  MkCell stopped (fun x w => MkWorld (stub_counters w) (stub_alive w) (tasks w) (running w) x
    (worker w) (outcomes w) (handlers w) (skeleton_alive w) (dangling w) (impl_counters w) (told
    w) (wire w) (delivered w) (now w)).
Definition worker_cell : Cell World Phase :=
  MkCell worker (fun x w => MkWorld (stub_counters w) (stub_alive w) (tasks w) (running w)
    (stopped w) x (outcomes w) (handlers w) (skeleton_alive w) (dangling w) (impl_counters w)
    (told w) (wire w) (delivered w) (now w)).
Definition outcomes_cell : Cell World (list Outcome) :=
  MkCell outcomes (fun x w => MkWorld (stub_counters w) (stub_alive w) (tasks w) (running w)
    (stopped w) (worker w) x (handlers w) (skeleton_alive w) (dangling w) (impl_counters w)
    (told w) (wire w) (delivered w) (now w)).
Definition handlers_cell : Cell World (list MethodName) :=
  MkCell handlers (fun x w => MkWorld (stub_counters w) (stub_alive w) (tasks w) (running w)
    (stopped w) (worker w) (outcomes w) x (skeleton_alive w) (dangling w) (impl_counters w)
    (told w) (wire w) (delivered w) (now w)).
Definition skeleton_cell : Cell World bool :=
  MkCell skeleton_alive (fun x w => MkWorld (stub_counters w) (stub_alive w) (tasks w) (running
    w) (stopped w) (worker w) (outcomes w) (handlers w) x (dangling w) (impl_counters w) (told
    w) (wire w) (delivered w) (now w)).
Definition dangling_cell : Cell World (list MethodName) :=
  MkCell dangling (fun x w => MkWorld (stub_counters w) (stub_alive w) (tasks w) (running w)
    (stopped w) (worker w) (outcomes w) (handlers w) (skeleton_alive w) x (impl_counters w)
    (told w) (wire w) (delivered w) (now w)).
Definition impl_cell : Cell World Counters :=
  MkCell impl_counters (fun x w => MkWorld (stub_counters w) (stub_alive w) (tasks w) (running
    w) (stopped w) (worker w) (outcomes w) (handlers w) (skeleton_alive w) (dangling w) x (told
    w) (wire w) (delivered w) (now w)).
Definition told_cell : Cell World (list Told) :=
  MkCell told (fun x w => MkWorld (stub_counters w) (stub_alive w) (tasks w) (running w)
    (stopped w) (worker w) (outcomes w) (handlers w) (skeleton_alive w) (dangling w)
    (impl_counters w) x (wire w) (delivered w) (now w)).
Definition wire_cell : Cell World (list Signal) :=
  MkCell wire (fun x w => MkWorld (stub_counters w) (stub_alive w) (tasks w) (running w)
    (stopped w) (worker w) (outcomes w) (handlers w) (skeleton_alive w) (dangling w)
    (impl_counters w) (told w) x (delivered w) (now w)).
Definition delivered_cell : Cell World (list AnyUpdate) :=
  MkCell delivered (fun x w => MkWorld (stub_counters w) (stub_alive w) (tasks w) (running w)
    (stopped w) (worker w) (outcomes w) (handlers w) (skeleton_alive w) (dangling w)
    (impl_counters w) (told w) (wire w) x (now w)).
Definition now_cell : Cell World Z :=
  MkCell now (fun x w => MkWorld (stub_counters w) (stub_alive w) (tasks w) (running w) (stopped
    w) (worker w) (outcomes w) (handlers w) (skeleton_alive w) (dangling w) (impl_counters w)
    (told w) (wire w) (delivered w) x).

(** Appending to a list held by the world. *)
Definition push {A} (c : Cell World (list A)) (a : A) : M World unit :=
  l ← read c; write c (l ++ [a]).

(** The virtual functions of the implementation that answer questions. *)
Class Answers : Type := {
  impl_matches : Criteria.Criteria -> bool;
  impl_supports : Z -> bool;
  impl_requires : Z -> bool
}.

(** * The skeleton *)
Section Skeleton.
Context `{Answers}.

Definition impl_tell (t : Told) : M World unit := push told_cell t.

(** The implementation's controller calls the implementation. *)
Definition impl_instance : Instance World :=
  MkInstance (impl_tell (told_call (Start Position))) (impl_tell (told_call (Stop Position)))
             (impl_tell (told_call (Start Heading))) (impl_tell (told_call (Stop Heading)))
             (impl_tell (told_call (Start Velocity))) (impl_tell (told_call (Stop Velocity))).
Definition impl_controller : Controller World := controller_at impl_cell impl_instance.

Definition skeleton_matches_criteria (criteria : Criteria.Criteria) : M World bool :=
  mret (impl_matches criteria).
Definition skeleton_supports (f : Z) : M World bool := mret (impl_supports f).
Definition skeleton_requires (r : Z) : M World bool := mret (impl_requires r).
Definition skeleton_on_wifi_and_cell_reporting_state_changed (state : Wifi) : M World unit :=
  impl_tell (told_wifi state).
Definition skeleton_on_reference_location_updated (u : Update Geometry.Position) : M World unit :=
  impl_tell (told_position u).
Definition skeleton_on_reference_velocity_updated (u : Update Geometry.Velocity) : M World unit :=
  impl_tell (told_velocity u).
Definition skeleton_on_reference_heading_updated (u : Update Geometry.Heading) : M World unit :=
  impl_tell (told_heading u).
Definition skeleton_start_position_updates : M World unit := start_position_updates impl_controller.
Definition skeleton_stop_position_updates : M World unit := stop_position_updates impl_controller.
Definition skeleton_start_heading_updates : M World unit := start_heading_updates impl_controller.
Definition skeleton_stop_heading_updates : M World unit := stop_heading_updates impl_controller.
Definition skeleton_start_velocity_updates : M World unit := start_velocity_updates impl_controller.
Definition skeleton_stop_velocity_updates : M World unit := stop_velocity_updates impl_controller.

(** The bodies of the method handlers: what the skeleton does for a call and what
    the reply carries. *)
Definition handler {R} (m : Method R) : M World R :=
  match m with
  | matches_criteria_call criteria => skeleton_matches_criteria criteria
  | supports_call f => skeleton_supports f
  | requires_call r => skeleton_requires r
  | wifi_state_call s => skeleton_on_wifi_and_cell_reporting_state_changed s
  | reference_location_call u => skeleton_on_reference_location_updated u
  | reference_heading_call u => skeleton_on_reference_heading_updated u
  | reference_velocity_call u => skeleton_on_reference_velocity_updated u
  | stream_call (Start Position) => skeleton_start_position_updates
  | stream_call (Stop Position) => skeleton_stop_position_updates
  | stream_call (Start Heading) => skeleton_start_heading_updates
  | stream_call (Stop Heading) => skeleton_stop_heading_updates
  | stream_call (Start Velocity) => skeleton_start_velocity_updates
  | stream_call (Stop Velocity) => skeleton_stop_velocity_updates
  end.

(** [Skeleton::Skeleton] installs a handler for every method. *)
Definition all_methods : list MethodName :=
  [MatchesCriteria; Supports; Requires; OnWifiAndCellIdReportingStateChanged;
   OnReferenceLocationChanged; OnReferenceHeadingChanged; OnReferenceVelocityChanged;
   StartPositionUpdates; StopPositionUpdates; StartHeadingUpdates; StopHeadingUpdates;
   StartVelocityUpdates; StopVelocityUpdates].

Definition install_method_handler (n : MethodName) : M World unit := push handlers_cell n.
Definition uninstall_method_handler (n : MethodName) : M World unit :=
  hs ← read handlers_cell; write handlers_cell (filter (fun m => m <> n) hs).

Definition skeleton_construct : M World unit :=
  write skeleton_cell true;;
  for_each all_methods install_method_handler.

(** [~Skeleton] *)
Definition skeleton_destroy : M World unit :=
  for_each [MatchesCriteria; StartPositionUpdates; StopPositionUpdates; StartHeadingUpdates;
            StopHeadingUpdates; StartVelocityUpdates; StopVelocityUpdates]
    uninstall_method_handler;;
  write skeleton_cell false.

(** The connections of [Skeleton::Private]: the implementation's updates go out as
    signals that carry the value alone. *)
Definition skeleton_report (u : AnyUpdate) : M World unit :=
  push wire_cell match u with
                 | PositionUpdate u => PositionChanged (value u)
                 | HeadingUpdate u => HeadingChanged (value u)
                 | VelocityUpdate u => VelocityChanged (value u)
                 end.

(** ** The bus *)

Definition next_outcome : M World Outcome :=
  os ← read outcomes_cell;
  match os with
  | [] => mret Answered
  | o :: os => write outcomes_cell os;; mret o
  end.

(** A call that reaches the other process runs the handler installed for it, which
    captured the skeleton by address; without a handler the caller gets an error.  The
    handlers that reply before they act are one step like the others.  What a handler
    does with a destroyed skeleton is undefined: here it is recorded in [dangling]. *)
Definition dispatch {R} (m : Method R) : M World (Result R) :=
  hs ← read handlers_cell;
  alive ← read skeleton_cell;
  if decide (name_of m ∈ hs) then
    if (alive : bool) then v ← handler m; mret (Value v)
    else push dangling_cell (name_of m);; mret (Error "")
  else mret (Error "UnknownMethod").

(** [transact_method] *)
Definition transact_method {R} (m : Method R) : M World (Result R) :=
  o ← next_outcome;
  match o with
  | Answered => dispatch m
  | Lost e => mret (Error e)
  | ReplyLost e => dispatch m;; mret (Error e)
  end.
End Skeleton.

(** * The stub *)
Section Stub.
Context `{Answers}.

Definition throw_if_error (result : Result unit) : M World unit :=
  match result with
  | Error print => throw (runtime_error print)
  | Value _ => skip
  end.

Definition throw_if_error_or_return {T} (result : Result T) : M World T :=
  match result with
  | Error print => throw (runtime_error print)
  | Value v => mret v
  end.

Definition stub_matches_criteria (criteria : Criteria.Criteria) : M World bool :=
  r ← transact_method (matches_criteria_call criteria); throw_if_error_or_return r.
Definition stub_supports (f : Z) : M World bool :=
  r ← transact_method (supports_call f); throw_if_error_or_return r.
Definition stub_requires (r : Z) : M World bool :=
  x ← transact_method (requires_call r); throw_if_error_or_return x.
Definition stub_on_wifi_and_cell_reporting_state_changed (state : Wifi) : M World unit :=
  r ← transact_method (wifi_state_call state); throw_if_error r.

(** [boost::asio::post] on the stub's worker. *)
Definition post (t : Task) : M World unit := push tasks_cell t.

Definition stub_on_reference_location_updated (position : Update Geometry.Position) : M World unit :=
  post (ReferenceLocation position).
Definition stub_on_reference_velocity_updated (velocity : Update Geometry.Velocity) : M World unit :=
  post (ReferenceVelocity velocity).
Definition stub_on_reference_heading_updated (heading : Update Geometry.Heading) : M World unit :=
  post (ReferenceHeading heading).
Definition stub_start_position_updates : M World unit := post (Transact (Start Position)).
Definition stub_stop_position_updates : M World unit := post (Transact (Stop Position)).
Definition stub_start_heading_updates : M World unit := post (Transact (Start Heading)).
Definition stub_stop_heading_updates : M World unit := post (Transact (Stop Heading)).
Definition stub_start_velocity_updates : M World unit := post (Transact (Start Velocity)).
Definition stub_stop_velocity_updates : M World unit := post (Transact (Stop Velocity)).

Definition stub_instance : Instance World :=
  MkInstance stub_start_position_updates stub_stop_position_updates
             stub_start_heading_updates stub_stop_heading_updates
             stub_start_velocity_updates stub_stop_velocity_updates.
Definition stub_controller : Controller World := controller_at stub_cell stub_instance.

(** [setup_event_connections]: a signal that arrives posts its delivery. *)
Definition receive_signal : M World unit :=
  ss ← read wire_cell;
  match ss with
  | [] => skip
  | s :: ss => write wire_cell ss;; post (Deliver s)
  end.

(** [mutable_updates().position(arg)]: the value becomes an [Update] whose time is
    the default argument [Clock::now()]. *)
Definition deliver (s : Signal) : M World unit :=
  t ← read now_cell;
  push delivered_cell match s with
                      | PositionChanged p => PositionUpdate (MkUpdate p t)
                      | HeadingChanged h => HeadingUpdate (MkUpdate h t)
                      | VelocityChanged v => VelocityUpdate (MkUpdate v t)
                      end.

(** The bodies of the posted closures; each locks its weak pointer first. *)
Definition reference_task (m : Method unit) : M World unit :=
  try_catch (r ← transact_method m; throw_if_error r) is_std_exception (fun _ => skip).
Definition stream_task (c : Call) : M World unit :=
  r ← transact_method (stream_call c); throw_if_error r.

Definition run_task (t : Task) : M World unit :=
  sp ← read alive_cell;
  if negb sp then skip
  else match t with
       | ReferenceLocation u => reference_task (reference_location_call u)
       | ReferenceVelocity u => reference_task (reference_velocity_call u)
       | ReferenceHeading u => reference_task (reference_heading_call u)
       | Transact c => stream_task c
       | Deliver s => deliver s
       end.

(** ** The worker *)

(** One step of [io_context::run].  A stopped context leaves the call at once,
    whatever is queued.  Otherwise the next handler is taken and run; when there is
    none, the call returns only if nothing keeps the context busy, and else waits.  [keep_alive]
    says whether an [executor_work_guard] does. *)
Definition io_context_run (keep_alive : bool) (return_ : M World unit) : M World unit :=
  b ← read stopped_cell;
  if (b : bool) then return_
  else
    ts ← read tasks_cell;
    match ts with
    | [] => when (negb keep_alive) return_
    | t :: ts => write tasks_cell ts;; run_task t
    end.

(** [Runtime::task.keep_alive] lives as long as the runtime. *)
Definition keep_alive : bool := true.

(** One step of [Runtime::run] on [task.service]: the test of the loop, or a step of
    the call inside it.  A call that returns breaks the loop; one that a handler's
    exception left is made again, if the test allows. *)
Definition runtime_run : M World unit :=
  p ← read worker_cell;
  match p with
  | checking => r ← read running_cell; write worker_cell (if (r : bool) then in_run else exited)
  | in_run => try_catch (io_context_run keep_alive (write worker_cell exited))
                any_exception (fun _ => write worker_cell checking)
  | exited => skip
  end.

(** [Runtime::stop], its two statements about the worker; [join] then waits for the
    worker to be [exited]. *)
Definition stop_running : M World unit := write running_cell false.
Definition stop_service : M World unit := write stopped_cell true.

(** ** Creation and destruction *)

(** [Stub::ping] *)
Definition ping : M World bool := stub_requires Flags.satellites.

(** The instance dies with the exception if the ping fails. *)
Definition create_instance_with_config : M World unit :=
  write stub_cell initial_counters;;
  write alive_cell true;;
  try_catch (ping;; skip) any_exception (fun e => write alive_cell false;; throw e).

Inductive Bus : Type := system | session | address (a : string).

(** [bus_from_name]; [get_or_throw] reads the environment of the process. *)
Definition bus_from_name (get_or_throw : string -> res string) (bus_name : string) : res Bus :=
  if String.eqb bus_name "system" then Ok system
  else if String.eqb bus_name "session" then Ok session
  else if String.eqb bus_name "system_with_address_from_env" then
    a ← get_or_throw "DBUS_SYSTEM_BUS_ADDRESS"; Ok (address a)
  else if String.eqb bus_name "session_with_address_from_env" then
    a ← get_or_throw "DBUS_SESSION_BUS_ADDRESS"; Ok (address a)
  else Throw (runtime_error ("Could not create bus for name: " +:+ bus_name)).

Definition key_bus : string := "bus".
Definition key_name : string := "name".
Definition key_path : string := "path".

Definition required (config : gmap string string) (key what : string) : res string :=
  match config !! key with Some v => Ok v | None => Throw (runtime_error what) end.

(** [create_instance]; [has_owner_for_name] asks the bus daemon, [registered] says
    whether the name appears within the 30 seconds of the wait. *)
Definition create_instance (get_or_throw : string -> res string)
    (has_owner_for_name registered : Bus -> string -> bool) (config : gmap string string) : M World unit :=
  let bus_name := default "system" (config !! key_bus) in
  name ← lift (required config key_name "Missing bus-name");
  path ← lift (required config key_path "Missing bus-path");
  bus ← lift (bus_from_name get_or_throw bus_name);
  when (negb (has_owner_for_name bus name) && negb (registered bus name))
    (throw (runtime_error "Remote service failed to start"));;
  create_instance_with_config.

(** [~Stub]: the weak pointers of the queued tasks no longer lock. *)
Definition stub_destroy : M World unit := write alive_cell false.

(** ** Histories *)

Inductive Event : Type :=
| Observe (c : Call)                        (* a request on the stub's controller *)
| Disable | Enable                          (* of the stub's controller *)
| Wifi_state (state : Wifi)
| Reference_location (u : Update Geometry.Position)
| Reference_velocity (u : Update Geometry.Velocity)
| Reference_heading (u : Update Geometry.Heading)
| Report (u : AnyUpdate)                    (* by the implementation *)
| Receive                                   (* the stub's bus thread gets a signal *)
| Work                                      (* a step of the stub's worker *)
| Stop_running | Stop_service               (* [Runtime::stop] *)
| Tick (t : Z)
| Destroy.                                  (* of the stub *)

(** Nobody calls a stub that has been destroyed. *)
Definition on_stub (m : M World unit) : M World unit :=
  sp ← read alive_cell; when sp m.

Definition step (e : Event) : M World unit :=
  match e with
  | Observe c => on_stub (request stub_controller c)
  | Disable => on_stub (disable stub_controller)
  | Enable => on_stub (enable stub_controller)
  | Wifi_state s => on_stub (stub_on_wifi_and_cell_reporting_state_changed s)
  | Reference_location u => on_stub (stub_on_reference_location_updated u)
  | Reference_velocity u => on_stub (stub_on_reference_velocity_updated u)
  | Reference_heading u => on_stub (stub_on_reference_heading_updated u)
  | Report u => skeleton_report u
  | Receive => receive_signal
  | Work => runtime_run
  | Stop_running => stop_running
  | Stop_service => stop_service
  | Tick t => write now_cell t
  | Destroy => stub_destroy
  end.

Definition history (es : list Event) (w : World) : World :=
  fold_left (fun w e => exec (step e) w) es w.

(** [n] steps of the worker. *)
Definition turns (n : nat) (w : World) : World := Nat.iter n (exec runtime_run) w.

(** The worker until its queue is empty: a task takes a step, and one more to come
    back if it throws. *)
Definition drain (w : World) : World := turns (S (2 * length (tasks w))) w.
End Stub.

(** A stub just connected to the skeleton of an idle implementation; its worker waits
    for tasks. *)
Definition connected (os : list Outcome) : World :=
  MkWorld initial_counters true [] true false in_run os all_methods true [] initial_counters [] [] [] 0.

#[global] Arguments history : simpl never.

(** * The worker *)
Section Worker.
Context `{Answers}.

Section Frames.
Context (P : World -> Prop).

Lemma preserves_push {A} (c : Cell World (list A)) a : stable P c -> preserves P (push c a).
Proof. intros. unfold push. auto with ls. Qed.

Lemma preserves_next_outcome : stable P outcomes_cell -> preserves P next_outcome.
Proof.
  intros. unfold next_outcome. apply preserves_bind; [auto with ls|]. intros []; auto with ls.
Qed.

Lemma preserves_dispatch {R} (m : Method R) :
  stable P dangling_cell -> preserves P (handler m) -> preserves P (dispatch m).
Proof.
  intros. unfold dispatch. do 2 (apply preserves_bind; [auto with ls|intros ?]).
  case_decide; [|auto with ls]. apply preserves_if; auto using preserves_push with ls.
Qed.

Lemma preserves_transact {R} (m : Method R) :
  stable P outcomes_cell -> stable P dangling_cell -> preserves P (handler m) ->
  preserves P (transact_method m).
Proof.
  intros. unfold transact_method. apply preserves_bind; [by apply preserves_next_outcome|].
  intros []; auto using preserves_dispatch with ls.
Qed.

Lemma preserves_remote_task t :
  stable P outcomes_cell -> stable P dangling_cell -> (forall s, preserves P (deliver s)) ->
  (forall m : Method unit, preserves P (handler m)) -> preserves P (run_task t).
Proof.
  intros Ho Hd Hl Hm.
  assert (forall m : Method unit, preserves P (r ← transact_method m; throw_if_error r)) as Ht.
  { intros m. apply preserves_bind; [by apply preserves_transact|]. intros []; simpl; auto with ls. }
  unfold run_task, reference_task, stream_task.
  apply preserves_bind; [auto with ls|]. intros []; simpl; [|auto with ls].
  destruct t; auto using preserves_push with ls; apply preserves_try; auto with ls.
Qed.
End Frames.

Lemma handler_stream c : handler (stream_call c) = request impl_controller c.
Proof. by destruct c as [[]|[]]. Qed.

(** What no function of the skeleton touches. *)
Lemma preserves_handler {R} (P : World -> Prop) (m : Method R) :
  stable P impl_cell -> stable P told_cell -> preserves P (handler m).
Proof.
  intros Hi Ht.
  destruct m as [| | | | | | |c]; [apply preserves_ret..| | | | |]; try by apply preserves_push.
  rewrite handler_stream. apply preserves_request.
  split; simpl; try (by apply preserves_push); intros a w Hw; by apply Hi.
Qed.

(** The call a controller makes on its provider for a request. *)
Definition provider_call {W} (i : Instance W) (c : Call) : M W unit :=
  match c with
  | Start Position => i_start_position i
  | Stop Position => i_stop_position i
  | Start Heading => i_start_heading i
  | Stop Heading => i_stop_heading i
  | Start Velocity => i_start_velocity i
  | Stop Velocity => i_stop_velocity i
  end.

(** The counter value at which a request reaches the provider. *)
Definition edge_at (c : Call) : Z := match c with Start _ => 1 | Stop _ => 0 end.

Lemma request_run {W} (cs : Cell W Counters) (i : Instance W) c w :
  CellLaws cs ->
  let n := counter_of (stream c) (rd cs w) in
  let n' := wrap_s 32 (n + change c) in
  request (controller_at cs i) c w =
  if n <? 0 then (Ok tt, w)
  else when (n' =? edge_at c) (provider_call i c) (wr cs (set_counter (stream c) n' (rd cs w)) w).
Proof.
  intros Hcs. destruct c as [[]|[]]; simpl; unfold_m;
    unfold start_position_updates, stop_position_updates, start_heading_updates,
      stop_heading_updates, start_velocity_updates, stop_velocity_updates, start_updates,
      stop_updates, increment, decrement; unfold_m; by case_bool.
Qed.

#[export] Instance stub_cell_laws : CellLaws stub_cell.
Proof. split; [done..|]. by intros []. Qed.
#[export] Instance impl_cell_laws : CellLaws impl_cell.
Proof. split; [done..|]. by intros []. Qed.
#[export] Instance recorder_cell_laws : CellLaws counters_cell.
Proof. split; [done..|]. by intros []. Qed.
#[export] Instance tasks_cell_laws : CellLaws tasks_cell.
Proof. split; [done..|]. by intros []. Qed.
#[export] Instance worker_cell_laws : CellLaws worker_cell.
Proof. split; [done..|]. by intros []. Qed.
#[export] Instance running_cell_laws : CellLaws running_cell.
Proof. split; [done..|]. by intros []. Qed.
#[export] Instance stopped_cell_laws : CellLaws stopped_cell.
Proof. split; [done..|]. by intros []. Qed.

(** A task neither sees nor changes [c], if the implementation's counters, the bus and
    the stub's updates are no part of it. *)
Section Alone.
Context {A : Type} (c : Cell World A).
Context (Ha : apart c alive_cell) (Ho : apart c outcomes_cell) (Hh : apart c handlers_cell)
  (Hs : apart c skeleton_cell) (Hd : apart c dangling_cell) (Hi : apart c impl_cell)
  (Ht : apart c told_cell) (Hl : apart c delivered_cell) (Hn : apart c now_cell).

Lemma ignores_push {B} (d : Cell World (list B)) b : apart c d -> ignores c (push d b).
Proof. intros. unfold push. auto with ls. Qed.

Lemma ignores_handler {R} (m : Method R) : ignores c (handler m).
Proof.
  assert (forall t, ignores c (impl_tell t)) as Hp by (intros; by apply ignores_push).
  destruct m as [| | | | | | |k]; try (by apply ignores_ret); try (by apply Hp).
  rewrite handler_stream. intros x w. unfold result, exec, impl_controller.
  rewrite !(request_run impl_cell) by apply _. destruct Hi as [Er Ew]. rewrite Er.
  destruct (_ <? 0); [done|]. rewrite Ew.
  replace (provider_call impl_instance k) with (impl_tell (told_call k)) by by destruct k as [[]|[]].
  by apply ignores_when.
Qed.

Lemma ignores_transact {R} (m : Method R) : ignores c (transact_method m).
Proof.
  assert (ignores c (dispatch m)) as Hd'.
  { unfold dispatch. do 2 (apply ignores_bind; [auto with ls|intros ?]).
    case_decide; [|auto with ls]. apply ignores_if; auto using ignores_handler, ignores_push with ls. }
  unfold transact_method, next_outcome. apply ignores_bind; [|intros []; auto with ls].
  apply ignores_bind; [auto with ls|]. intros []; auto with ls.
Qed.

Lemma ignores_task t : ignores c (run_task t).
Proof.
  assert (forall m : Method unit, ignores c (r ← transact_method m; throw_if_error r)) as Hm.
  { intros m. apply ignores_bind; [apply ignores_transact|]. intros []; simpl; auto with ls. }
  unfold run_task, reference_task, stream_task, deliver.
  apply ignores_bind; [auto with ls|]. intros []; simpl; [|auto with ls].
  destruct t; auto using ignores_push with ls; apply ignores_try; auto with ls.
Qed.
End Alone.

Lemma task_ignores_tasks t : ignores tasks_cell (run_task t).
Proof. by apply ignores_task. Qed.
Lemma task_ignores_worker t : ignores worker_cell (run_task t).
Proof. by apply ignores_task. Qed.
Lemma task_keeps_running t w : running (exec (run_task t) w) = running w.
Proof. by apply (ignores_rd running_cell), ignores_task. Qed.
Lemma task_keeps_stopped t w : stopped (exec (run_task t) w) = stopped w.
Proof. by apply (ignores_rd stopped_cell), ignores_task. Qed.

(** ** The queue *)

(** The effects of tasks, one after the other, whatever they throw. *)
Definition effects (ts : list Task) (w : World) : World :=
  fold_left (fun w t => exec (run_task t) w) ts w.

(** The tasks other threads post, and the steps of the worker, in some order. *)
Inductive Act : Type := Post (t : Task) | Turn.
Definition act (a : Act) (w : World) : World :=
  match a with Post t => exec (post t) w | Turn => exec runtime_run w end.
Definition schedule (acts : list Act) (w : World) : World := fold_left (fun w a => act a w) acts w.
Definition posted (acts : list Act) : list Task :=
  omap (fun a => match a with Post t => Some t | Turn => None end) acts.

(** The worker has left the tasks [rest] of those it found, and is at [p]. *)
Definition served (w : World) (done rest : list Task) (p : Phase) : World :=
  wr worker_cell p (wr tasks_cell rest (effects done w)).

Lemma effects_ignore_tasks ts us w :
  effects ts (wr tasks_cell us w) = wr tasks_cell us (effects ts w).
Proof.
  revert w. induction ts as [|t ts IH]; intros w; [done|]. cbn [effects fold_left].
  unfold exec at 2. rewrite task_ignores_tasks. apply IH.
Qed.
Lemma effects_ignore_worker ts p w :
  effects ts (wr worker_cell p w) = wr worker_cell p (effects ts w).
Proof.
  revert w. induction ts as [|t ts IH]; intros w; [done|]. cbn [effects fold_left].
  unfold exec at 2. rewrite task_ignores_worker. apply IH.
Qed.
Lemma effects_keep ts w :
  running (effects ts w) = running w /\ stopped (effects ts w) = stopped w.
Proof.
  revert w. induction ts as [|t ts IH]; intros w; [done|].
  change (effects (t :: ts) w) with (effects ts (exec (run_task t) w)).
  by rewrite !(proj1 (IH _)), !(proj2 (IH _)), task_keeps_running, task_keeps_stopped.
Qed.

Lemma served_nil w : served w [] (tasks w) (worker w) = w.
Proof. by destruct w. Qed.
Lemma served_served w ts us rest rest' p p' :
  served (served w ts rest p) us rest' p' = served w (ts ++ us) rest' p'.
Proof.
  unfold served. rewrite effects_ignore_worker, effects_ignore_tasks.
  unfold effects. by rewrite fold_left_app.
Qed.

(** One step of the worker. *)
Lemma runtime_run_checking w :
  worker w = checking -> exec runtime_run w = wr worker_cell (if running w then in_run else exited) w.
Proof. intros E. unfold runtime_run. unfold_m. by rewrite E. Qed.
Lemma runtime_run_exited w : worker w = exited -> exec runtime_run w = w.
Proof. intros E. unfold runtime_run. unfold_m. by rewrite E. Qed.
Lemma runtime_run_stopped w :
  worker w = in_run -> stopped w = true -> exec runtime_run w = wr worker_cell exited w.
Proof.
  intros E Es. unfold runtime_run, io_context_run.
  rewrite (exec_run _ _ _ in_run w) by (unfold read, gets; simpl; by rewrite E).
  unfold exec, try_catch. by rewrite (bind_run _ _ _ true w) by (unfold read, gets; simpl; by rewrite Es).
Qed.
Lemma runtime_run_waits w :
  worker w = in_run -> stopped w = false -> tasks w = [] -> exec runtime_run w = w.
Proof.
  intros E Es Et. unfold runtime_run, io_context_run.
  rewrite (exec_run _ _ _ in_run w) by (unfold read, gets; simpl; by rewrite E).
  unfold exec, try_catch. rewrite (bind_run _ _ _ false w) by (unfold read, gets; simpl; by rewrite Es).
  by rewrite (bind_run _ _ _ [] w) by (unfold read, gets; simpl; by rewrite Et).
Qed.
Lemma runtime_run_task w t ts :
  worker w = in_run -> stopped w = false -> tasks w = t :: ts ->
  exec runtime_run w =
  served w [t] ts (if is_ok (result (run_task t) w) then in_run else checking).
Proof.
  intros E Es Et. unfold served, effects, runtime_run, io_context_run. cbn [fold_left].
  rewrite (exec_run _ _ _ in_run w) by (unfold read, gets; simpl; by rewrite E).
  unfold exec at 1, try_catch.
  rewrite (bind_run _ _ _ false w) by (unfold read, gets; simpl; by rewrite Es).
  rewrite (bind_run _ _ _ (t :: ts) w) by (unfold read, gets; simpl; by rewrite Et).
  rewrite (bind_run _ _ _ tt (wr tasks_cell ts w)) by done.
  rewrite task_ignores_tasks.
  assert (worker (exec (run_task t) w) = in_run) as Ew.
  { rewrite <- E. by apply (ignores_rd worker_cell), task_ignores_worker. }
  unfold exec in *. destruct (result (run_task t) w) as [[]|e]; [|done].
  cbn [is_ok snd]. rewrite <- Ew. symmetry.
  exact (wr_rd (c := worker_cell) (wr tasks_cell ts (run_task t w).2)).
Qed.

(** A step of a worker that is not to stop. *)
Lemma runtime_run_serves w :
  running w = true -> stopped w = false -> worker w <> exited ->
  exists ts rest p, tasks w = ts ++ rest /\ p <> exited /\ exec runtime_run w = served w ts rest p.
Proof.
  intros Hr Hs Hw. destruct (worker w) eqn:E; [| |done].
  - exists [], (tasks w), in_run. split_and!; [done..|].
    rewrite runtime_run_checking, Hr by done. by destruct w.
  - destruct (tasks w) as [|t ts] eqn:Et.
    + exists [], [], in_run. split_and!; [done..|]. rewrite runtime_run_waits by done.
      pose proof (served_nil w) as Hn. rewrite Et, E in Hn. by rewrite Hn.
    + exists [t], ts, (if is_ok (result (run_task t) w) then in_run else checking).
      split_and!; [done| |by apply runtime_run_task]. by destruct (is_ok _).
Qed.

Lemma served_flags w ts rest p :
  running (served w ts rest p) = running w /\ stopped (served w ts rest p) = stopped w.
Proof. apply effects_keep. Qed.

Lemma schedule_serves acts w :
  running w = true -> stopped w = false -> worker w <> exited ->
  exists ts rest p, tasks w ++ posted acts = ts ++ rest /\ p <> exited /\
                    schedule acts w = served w ts rest p.
Proof.
  revert w. induction acts as [|a acts IH]; intros w Hr Hs Hw.
  { exists [], (tasks w), (worker w). rewrite app_nil_r. by rewrite served_nil. }
  assert (exists ts rest p, tasks w ++ posted [a] = ts ++ rest /\ p <> exited /\
                            act a w = served w ts rest p) as (ts & rest & p & E & Hp & Ea).
  { destruct a as [t|]; simpl.
    - exists [], (tasks w ++ [t]), (worker w). split_and!; [done..|]. by destruct w.
    - rewrite app_nil_r. by apply runtime_run_serves. }
  change (schedule (a :: acts) w) with (schedule acts (act a w)). rewrite Ea.
  destruct (served_flags w ts rest p) as [Fr Fs].
  destruct (IH (served w ts rest p)) as (us & rest' & p' & E' & Hp' & Ea'); [by rewrite Fr|by rewrite Fs|done|].
  exists (ts ++ us), rest', p'. split_and!; [|done|by rewrite Ea', served_served].
  change (posted (a :: acts)) with (posted ([a] ++ acts)). unfold posted in *.
  rewrite omap_app, app_assoc, E, <- !app_assoc. by f_equal.
Qed.

(** Every task takes two steps at most: one that runs it, and one to come back into
    [io_context::run] if it throws. *)
Definition steps_left (w : World) : nat :=
  2 * length (tasks w) + match worker w with checking => 1 | _ => 0 end.

Lemma turns_S n w : turns (S n) w = turns n (exec runtime_run w).
Proof. apply Nat.iter_succ_r. Qed.

Lemma turns_serve n w :
  running w = true -> stopped w = false -> worker w <> exited -> (steps_left w <= n)%nat ->
  turns n w = served w (tasks w) [] in_run.
Proof.
  revert w. induction n as [|n IH]; intros w Hr Hs Hw Hn.
  - unfold steps_left in Hn. destruct (tasks w) as [|t ts] eqn:E; simpl in Hn; [|lia].
    destruct (worker w) eqn:Ew; [lia| |done].
    pose proof (served_nil w) as Hq. rewrite E, Ew in Hq. by rewrite Hq.
  - rewrite turns_S. unfold steps_left in Hn. destruct (worker w) eqn:Ew; [| |done].
    + rewrite runtime_run_checking, Hr by done.
      rewrite IH; [|done..|unfold steps_left; simpl; lia].
      replace (wr worker_cell in_run w) with (served w [] (tasks w) in_run) by by destruct w.
      by rewrite served_served.
    + destruct (tasks w) as [|t ts] eqn:E.
      * rewrite runtime_run_waits by done.
        rewrite IH; [by rewrite E|done..|by rewrite Ew|]. unfold steps_left. rewrite E, Ew. simpl. lia.
      * rewrite (runtime_run_task w t ts) by done.
        destruct (served_flags w [t] ts (if is_ok (result (run_task t) w) then in_run else checking)) as [Fr Fs].
        rewrite IH; [by rewrite served_served|by rewrite Fr|by rewrite Fs|by destruct (is_ok _)|].
        unfold steps_left. simpl in *. destruct (is_ok _); lia.
Qed.

Lemma turns_stop n w :
  running w = false -> stopped w = true -> (2 <= n)%nat -> turns n w = wr worker_cell exited w.
Proof.
  intros Hr Hs Hn. destruct n as [|[|n]]; [lia..|]. clear Hn.
  assert (forall n w, worker w = exited -> turns n w = w) as Hx.
  { clear. intros n w E. induction n as [|n IH]; [done|]. by rewrite turns_S, runtime_run_exited. }
  rewrite turns_S. destruct (worker w) eqn:E.
  - rewrite runtime_run_checking, Hr by done. by apply Hx.
  - rewrite runtime_run_stopped by done. by apply Hx.
  - rewrite runtime_run_exited by done. rewrite Hx by done. symmetry. rewrite <- E. by destruct w.
Qed.

(** C23: the worker runs every posted task once, in the order of posting, and waits
    for more until it is told to stop.  While the runtime runs, however the posts of
    other threads and the steps of the worker follow each other: the tasks run so far
    are the first ones posted, each has had its effect exactly once, whatever they
    threw, the others are still queued in order, and the thread has not ended (after
    an exception [Runtime::run] calls [io_context::run] again).  Two steps per queued
    task, and one more, then empty the queue and leave the thread waiting inside
    [io_context::run], which the work guard keeps from returning.  Once
    [Runtime::stop] has set its two flags the thread ends within two steps, and the
    tasks still queued are never run. *)
Theorem worker_runs_every_task (w : World) (acts : list Act) :
  running w = true -> stopped w = false -> worker w <> exited ->
  (exists ran rest p, tasks w ++ posted acts = ran ++ rest /\ p <> exited /\
     schedule acts w = wr worker_cell p (wr tasks_cell rest (effects ran w))) /\
  (forall n, (2 * length (tasks (schedule acts w)) < n)%nat ->
     turns n (schedule acts w) =
     wr worker_cell in_run (wr tasks_cell [] (effects (tasks w ++ posted acts) w))) /\
  (forall n, (2 <= n)%nat ->
     let w' := exec (stop_running;; stop_service) (schedule acts w) in
     turns n w' = wr worker_cell exited w').
Proof.
  intros Hr Hs Hw. destruct (schedule_serves acts w Hr Hs Hw) as (ts & rest & p & E & Hp & Ea).
  rewrite Ea. split_and!; [by exists ts, rest, p| |intros n Hn; by apply turns_stop].
  intros n Hn. destruct (served_flags w ts rest p) as [Fr Fs].
  rewrite turns_serve; [|by rewrite Fr|by rewrite Fs|done|].
  - rewrite served_served. simpl. by rewrite <- E.
  - unfold steps_left. simpl in *. destruct p; lia.
Qed.
End Worker.

(** * Transparency *)
Section Transparency.
Context `{Answers}.

(** The runtime runs, both objects live and the bus answers: a method that is called
    reaches its handler. *)
Definition healthy (w : World) : Prop :=
  running w = true /\ outcomes w = [] /\ handlers w = all_methods /\
  stub_alive w = true /\ skeleton_alive w = true /\ stopped w = false /\ worker w <> exited.

Lemma all_methods_complete n : n ∈ all_methods.
Proof. apply (bool_decide_unpack (n ∈ all_methods)). by destruct n. Qed.

Lemma transact_healthy {R} (m : Method R) v w w' :
  healthy w -> handler m w = (Ok v, w') -> transact_method m w = (Ok (Value v), w').
Proof.
  intros (_ & Ho & Hh & _ & Hs & _) Hm. unfold transact_method, next_outcome, dispatch.
  unfold_m. rewrite Ho, Hh, Hs.
  destruct (decide _) as [_|Hn]; [|by destruct (Hn (all_methods_complete _))].
  simpl. by rewrite Hm.
Qed.

(** ** The calls in transit *)

Definition calls (ts : list Task) : list Call :=
  omap (fun t => match t with Transact c => Some c | _ => None end) ts.
Definition told_calls (ts : list Told) : list Call :=
  omap (fun t => match t with told_call c => Some c | _ => None end) ts.

Lemma calls_app ts us : calls (ts ++ us) = calls ts ++ calls us.
Proof. apply omap_app. Qed.
Lemma told_calls_app ts us : told_calls (ts ++ us) = told_calls ts ++ told_calls us.
Proof. apply omap_app. Qed.

(** Whether stream [k] runs after the calls [cs]; [None] when a call repeats the
    state it finds. *)
Fixpoint replay (k : Kind) (cs : list Call) (on : bool) : option bool :=
  match cs with
  | [] => Some on
  | c :: cs =>
      if decide (stream c = k) then
        if Bool.eqb on (edge_at c =? 1) then None else replay k cs (negb on)
      else replay k cs on
  end.

Lemma replay_app k cs ds on :
  replay k (cs ++ ds) on = match replay k cs on with Some b => replay k ds b | None => None end.
Proof.
  revert on. induction cs as [|c cs IH]; intros on; simpl; [done|].
  destruct (decide (stream c = k)); [destruct (Bool.eqb on (edge_at c =? 1))|]; auto.
Qed.

(** ** The simulation *)

(** The local provider [s] and the remote one: the same observers, and the calls
    [s] saw are those the implementation saw followed by those in the queue. *)
Record linked (n : Z) (s : Standalone) (w : World) : Prop := {
  l_healthy : healthy w;
  l_counters : stub_counters w = counters s;
  l_log : log s = told_calls (told w) ++ calls (tasks w);
  l_range : forall k, -1 <= counter_of k (counters s) <= n;
  l_impl : forall k, exists on,
    counter_of k (impl_counters w) = (if on : bool then 1 else 0) /\
    replay k (calls (tasks w)) on = Some (0 <? counter_of k (counters s))
}.

Lemma linked_connected : linked 0 fresh (connected []).
Proof.
  split; [done..| |]; intros k.
  - by destruct k.
  - exists false. by destruct k.
Qed.

(** A step that touches none of what the relation reads. *)
Lemma linked_frame n s w w' :
  linked n s w -> healthy w' -> stub_counters w' = stub_counters w ->
  impl_counters w' = impl_counters w -> told_calls (told w') = told_calls (told w) ->
  calls (tasks w') = calls (tasks w) -> linked n s w'.
Proof.
  intros [] Hh E1 E2 E3 E4. by split; rewrite ?E1, ?E2, ?E3, ?E4.
Qed.

Lemma linked_weaken n m s w : linked n s w -> n <= m -> linked m s w.
Proof. intros [] Hm. split; try done. intros k. specialize (l_range0 k). lia. Qed.

(** A call of the queue on the implementation's controller. *)
Lemma linked_call n s w c ts :
  linked n s w -> tasks w = Transact c :: ts ->
  exists w', handler (stream_call c) (wr tasks_cell ts w) = (Ok tt, w') /\
             healthy w' /\ tasks w' = ts /\ linked n s w'.
Proof.
  intros [Hh Hc Hl Hr Hi] E. rewrite handler_stream. unfold impl_controller.
  destruct (Hi (stream c)) as (on & Ei & Er). rewrite E in Er. simpl in Er.
  rewrite decide_True in Er by done. destruct (Bool.eqb on (edge_at c =? 1)) eqn:Eb; [done|].
  rewrite (request_run impl_cell _ c) by apply _. simpl. rewrite Ei.
  assert (wrap_s 32 ((if on then 1 else 0) + change c) = edge_at c) as ->.
  { destruct c, on; simpl in *; done || reflexivity. }
  replace (_ <? 0) with false by (destruct on; done). rewrite Z.eqb_refl.
  unfold when. eexists. split.
  { by destruct c as [[]|[]]. }
  split; [exact Hh|]. split; [done|]. split; [exact Hh|exact Hc| |exact Hr|]; simpl.
  - rewrite Hl, E, told_calls_app. simpl. by rewrite <- app_assoc.
  - intros k. destruct (decide (stream c = k)) as [<-|Hk].
    + exists (negb on). rewrite counter_set_eq. split; [|done]. by destruct c, on.
    + destruct (Hi k) as (on' & Ei' & Er'). exists on'. rewrite counter_set_ne by done.
      split; [done|]. rewrite E in Er'. simpl in Er'. by rewrite decide_False in Er'.
Qed.

Lemma linked_task n s w t ts :
  linked n s w -> tasks w = t :: ts ->
  exists w', run_task t (wr tasks_cell ts w) = (Ok tt, w') /\ tasks w' = ts /\ linked n s w'.
Proof.
  intros L E. pose proof (l_healthy _ _ _ L) as Hh. pose proof Hh as (_ & _ & _ & Ha & _).
  set (w1 := wr tasks_cell ts w). assert (healthy w1) as Hh1 by done.
  unfold run_task. rewrite (bind_run _ _ _ true w1) by (unfold read, gets; simpl; by rewrite Ha).
  assert (forall m : Method unit, forall w', handler m w1 = (Ok tt, w') ->
    (r ← transact_method m; throw_if_error r) w1 = (Ok tt, w')) as Ht.
  { intros m w' Hm. by rewrite (bind_run _ _ _ _ _ (transact_healthy m tt w1 w' Hh1 Hm)). }
  destruct t as [u|u|u|c|sg]; simpl.
  1-3: unfold reference_task, try_catch; erewrite Ht by reflexivity;
    eexists; split_and!; [reflexivity|done|]; apply (linked_frame n s w); try done;
    simpl; [by rewrite told_calls_app, app_nil_r|by rewrite E].
  - destruct (linked_call n s w c ts L E) as (w' & E1 & _ & E2 & L'). exists w'.
    unfold stream_task. by rewrite (Ht _ w').
  - eexists. split_and!; [reflexivity|done|]. apply (linked_frame n s w); try done.
    simpl. by rewrite E.
Qed.

Lemma linked_observe n s w c :
  linked n s w -> n < INT_MAX ->
  linked (n + 1) (exec (request standalone c) s) (exec (step (Observe c)) w).
Proof.
  intros L Hn. pose proof L as [Hh Hc Hl Hr Hi]. pose proof Hh as (_ & _ & _ & Ha & _).
  simpl. unfold on_stub. rewrite (exec_run _ _ _ true w) by (unfold read, gets; simpl; by rewrite Ha).
  unfold when at 1, exec, standalone, stub_controller. rewrite !request_run by apply _. simpl. rewrite Hc.
  pose proof (Hr (stream c)) as Hx. destruct (counter_of (stream c) (counters s) <? 0) eqn:E0; simpl.
  { apply (linked_weaken n); [done|lia]. }
  zbool. set (x := counter_of (stream c) (counters s)) in *.
  rewrite wrap_s32_small by (unfold INT_MIN, INT_MAX in *; destruct c; simpl; lia).
  assert (forall k, -1 <= counter_of k (set_counter (stream c) (x + change c) (counters s)) <= n + 1) as Hr'.
  { intros k. specialize (Hr k). destruct (decide (stream c = k)) as [<-|Hk].
    - rewrite counter_set_eq. destruct c; simpl; lia.
    - rewrite counter_set_ne by done. lia. }
  destruct (x + change c =? edge_at c) eqn:Ee; unfold when.
  - replace (provider_call stub_instance c) with (post (Transact c)) by by destruct c as [[]|[]].
    replace (provider_call recorder c) with (emit c) by by destruct c as [[]|[]].
    split; [exact Hh|done| |exact Hr'|]; simpl.
    + rewrite Hl, calls_app. by rewrite <- app_assoc.
    + intros k. destruct (Hi k) as (on & Ei & Er). exists on. split; [done|].
      rewrite calls_app, replay_app, Er. simpl. destruct (decide (stream c = k)) as [<-|Hk].
      * rewrite counter_set_eq. fold x. zbool. destruct c; simpl in *.
        -- by replace x with 0 by lia.
        -- by replace x with 1 by lia.
      * by rewrite counter_set_ne.
  - split; [exact Hh|done|exact Hl|exact Hr'|]; simpl.
    intros k. destruct (Hi k) as (on & Ei & Er). exists on. split; [done|]. rewrite Er. f_equal.
    destruct (decide (stream c = k)) as [<-|Hk]; [|by rewrite counter_set_ne].
    rewrite counter_set_eq. fold x. zbool.
    destruct c; simpl in *; destruct (Z.ltb_spec 0 x), (Z.ltb_spec 0 (x + 1)), (Z.ltb_spec 0 (x + -1));
      done || lia.
Qed.

(** The stops [disable] makes. *)
Definition stops (c : Counters) : list Call :=
  (if 0 <? c_position c then [Stop Position] else []) ++
  (if 0 <? c_heading c then [Stop Heading] else []) ++
  (if 0 <? c_velocity c then [Stop Velocity] else []).

Lemma stub_disable_effect w :
  exec (disable stub_controller) w =
  wr stub_cell disabled_counters (wr tasks_cell (tasks w ++ map Transact (stops (stub_counters w))) w).
Proof.
  destruct w as [[p h v] ???????????]. unfold disable, stops. unfold_m.
  destruct (0 <? p); simpl; (destruct (0 <? h); simpl; (destruct (0 <? v); simpl));
    by rewrite <- ?app_assoc, ?app_nil_r.
Qed.

Lemma replay_stops k c : replay k (stops c) (0 <? counter_of k c) = Some false.
Proof.
  unfold stops. destruct k; simpl;
    destruct (0 <? c_position c), (0 <? c_heading c), (0 <? c_velocity c); reflexivity.
Qed.

Lemma calls_transact cs : calls (map Transact cs) = cs.
Proof. unfold calls. induction cs as [|c cs IH]; simpl; [done|]. by f_equal. Qed.

Lemma linked_disable n s w :
  linked n s w -> 0 <= n -> linked n (exec (disable standalone) s) (exec (step Disable) w).
Proof.
  intros [Hh Hc Hl Hr Hi] Hn. pose proof Hh as (_ & _ & _ & Ha & _).
  simpl. unfold on_stub. rewrite (exec_run _ _ _ true w) by (unfold read, gets; simpl; by rewrite Ha).
  unfold when. rewrite stub_disable_effect. destruct s as [[p h v] l]. rewrite disable_effect.
  rewrite Hc. split; [exact Hh|done| | |]; simpl.
  - simpl in Hl. rewrite Hl, calls_app, calls_transact. by rewrite <- app_assoc.
  - intros []; simpl; unfold our_magic_disabling_value; lia.
  - intros k. destruct (Hi k) as (on & Ei & Er). exists on. split; [done|].
    rewrite calls_app, calls_transact, replay_app, Er, replay_stops. by destruct k.
Qed.

Lemma linked_enable n s w :
  linked n s w -> 0 <= n -> (forall k, counter_of k (counters s) <= 0) ->
  linked n (exec (enable standalone) s) (exec (step Enable) w).
Proof.
  intros [Hh Hc Hl Hr Hi] Hn Hk. pose proof Hh as (_ & _ & _ & Ha & _).
  simpl. unfold on_stub. rewrite (exec_run _ _ _ true w) by (unfold read, gets; simpl; by rewrite Ha).
  destruct s as [[p h v] l]. split; [exact Hh|done|exact Hl| |]; simpl.
  - intros []; simpl; lia.
  - intros k. destruct (Hi k) as (on & Ei & Er). exists on. split; [done|]. rewrite Er. f_equal.
    specialize (Hk k). destruct k; simpl in *; by rewrite (proj2 (Z.ltb_ge 0 _)).
Qed.

Lemma linked_work n s w : linked n s w -> linked n s (exec (step Work) w).
Proof.
  intros L. pose proof (l_healthy _ _ _ L) as (Hr & _ & _ & _ & _ & Hs & Hw).
  change (step Work) with runtime_run. destruct (worker w) eqn:Ew; [| |done].
  - rewrite runtime_run_checking, Hr by done. destruct L as [(? & ? & ? & ? & ? & ? & ?) ? ? ? ?].
    by split.
  - destruct (tasks w) as [|t ts] eqn:E; [by rewrite runtime_run_waits|].
    destruct (linked_task n s w t ts L E) as (w' & E1 & E2 & L').
    unfold runtime_run, io_context_run.
    rewrite (exec_run _ _ _ in_run w) by (unfold read, gets; simpl; by rewrite Ew).
    unfold exec, try_catch. rewrite (bind_run _ _ _ false w) by (unfold read, gets; simpl; by rewrite Hs).
    rewrite (bind_run _ _ _ (t :: ts) w) by (unfold read, gets; simpl; by rewrite E).
    rewrite (bind_run _ _ _ tt (wr tasks_cell ts w)) by done. by rewrite E1.
Qed.

Lemma linked_drain n s w : linked n s w -> linked n s (drain w) /\ tasks (drain w) = [].
Proof.
  intros L. split.
  - unfold drain, turns. generalize (S (2 * length (tasks w))). intros m.
    induction m as [|m IH]; [done|]. by apply linked_work in IH.
  - destruct (l_healthy _ _ _ L) as (Hr & _ & _ & _ & _ & Hs & Hw). unfold drain.
    rewrite turns_serve; [done..|]. unfold steps_left. destruct (worker w); lia.
Qed.

(** What the same history does to a provider in the same process. *)
Definition local_step (e : Event) (s : Standalone) : Standalone :=
  match e with
  | Observe c => exec (request standalone c) s
  | Disable => exec (disable standalone) s
  | Enable => exec (enable standalone) s
  | _ => s
  end.
Definition local_history (es : list Event) (s : Standalone) : Standalone :=
  fold_left (fun s e => local_step e s) es s.

(** The stub and the runtime last, and the stub is enabled only while it has no
    observer (as it has none after [disable]). *)
Definition unobserved (c : Counters) : bool :=
  (c_position c <=? 0) && (c_heading c <=? 0) && (c_velocity c <=? 0).
Definition admissible (e : Event) (s : Standalone) : bool :=
  match e with
  | Destroy | Stop_running | Stop_service => false
  | Enable => unobserved (counters s)
  | _ => true
  end.
Fixpoint orderly (es : list Event) (s : Standalone) : bool :=
  match es with
  | [] => true
  | e :: es => admissible e s && orderly es (local_step e s)
  end.

Lemma unobserved_spec c k : unobserved c = true -> counter_of k c <= 0.
Proof. unfold unobserved. rewrite !andb_true_iff, !Z.leb_le. intros [[? ?] ?]. by destruct k. Qed.

Lemma linked_step n s w e :
  linked n s w -> 0 <= n < INT_MAX -> admissible e s = true ->
  linked (n + 1) (local_step e s) (exec (step e) w).
Proof.
  intros L Hn He. pose proof (l_healthy _ _ _ L) as Hh. pose proof Hh as (_ & _ & _ & Ha & _).
  assert (forall m, exec (on_stub m) w = exec m w) as Hon.
  { intros m. unfold on_stub.
    by rewrite (exec_run _ _ _ true w) by (unfold read, gets; simpl; by rewrite Ha). }
  assert (forall t w', post t w = (Ok tt, w') -> calls [t] = [] -> linked n s w') as Hpost.
  { intros t w' [= <-] Et. apply (linked_frame n s w); try done.
    simpl. by rewrite calls_app, Et, app_nil_r. }
  destruct e as [c| | |st|u|u|u|u| | | | |t|]; try done; simpl local_step.
  - apply linked_observe; [done|lia].
  - apply (linked_weaken n); [apply linked_disable; [done|lia]|lia].
  - apply (linked_weaken n); [|lia]. apply linked_enable; [done|lia|].
    intros k. by apply unobserved_spec.
  - apply (linked_weaken n); [|lia]. simpl. rewrite Hon.
    unfold stub_on_wifi_and_cell_reporting_state_changed, exec.
    erewrite bind_run by (apply transact_healthy; [done|reflexivity]).
    apply (linked_frame n s w); try done. simpl. by rewrite told_calls_app, app_nil_r.
  - apply (linked_weaken n); [|lia]. simpl. rewrite Hon. by eapply Hpost.
  - apply (linked_weaken n); [|lia]. simpl. rewrite Hon. by eapply Hpost.
  - apply (linked_weaken n); [|lia]. simpl. rewrite Hon. by eapply Hpost.
  - apply (linked_weaken n); [by apply (linked_frame n s w)|lia].
  - apply (linked_weaken n); [|lia]. simpl. unfold receive_signal.
    rewrite (exec_run _ _ _ (wire w) w) by done. destruct (wire w) as [|sg ss]; [done|].
    apply (linked_frame n s w); try done. simpl. by rewrite calls_app, app_nil_r.
  - apply (linked_weaken n); [by apply linked_work|lia].
  - apply (linked_weaken n); [by apply (linked_frame n s w)|lia].
Qed.

Lemma linked_history n s w es :
  linked n s w -> 0 <= n -> n + Z.of_nat (length es) <= INT_MAX -> orderly es s = true ->
  linked (n + Z.of_nat (length es)) (local_history es s) (history es w).
Proof.
  revert n s w. unfold local_history, history.
  induction es as [|e es IH]; intros n s w L Hn Hm Hes; simpl in *.
  - by rewrite Z.add_0_r.
  - apply andb_true_iff in Hes as [He Hes].
    replace (n + _) with (n + 1 + Z.of_nat (length es)) by lia.
    apply IH; [apply linked_step; [done|lia|done]|lia|lia|done].
Qed.

(** C2: a remote provider is as good as a local one, as long as the bus answers every
    call, the stub and its runtime live and the stub is only enabled while nobody
    observes it.  Whatever the interleaving of the engine's requests, its disabling and
    enabling of the provider, the steps of the worker, the reference updates and the
    signals: once the worker has emptied its queue the implementation in the other
    process has been called exactly as a provider in this process would have been, in
    the same order, and each of its streams runs if and only if the stub has an
    observer for it.  The three conditions are needed: [lost_start_disables_remote],
    [destroyed_stub_leaves_remote_running] and [enable_leaks_remote_observer] show what
    happens without each of them. *)
Theorem remote_provider_is_transparent (es : list Event) :
  orderly es fresh = true -> Z.of_nat (length es) <= INT_MAX ->
  let w := drain (history es (connected [])) in
  let s := local_history es fresh in
  tasks w = [] /\ told_calls (told w) = log s /\
  stub_counters w = counters s /\
  forall k, counter_of k (impl_counters w) = if 0 <? counter_of k (counters s) then 1 else 0.
Proof.
  intros Hes Hn w s.
  destruct (linked_drain (0 + Z.of_nat (length es)) s (history es (connected []))) as [[Hh Hc Hl Hr Hi] Ht].
  { apply linked_history; [apply linked_connected|lia|lia|done]. }
  fold w in Hc, Hl, Hi, Ht. rewrite Ht in *. split_and!; [done|by rewrite Hl, app_nil_r|done|].
  intros k. destruct (Hi k) as (on & -> & E). simpl in E. injection E as ->. done.
Qed.
End Transparency.

(** * What a lost call leaves behind *)
Section Losses.
Context `{Answers}.

(** What every event keeps that the skeleton's stream handlers and the bus keep. *)
Lemma preserves_remote_step (P : World -> Prop) e :
  stable P stub_cell -> stable P alive_cell -> stable P tasks_cell -> stable P outcomes_cell ->
  stable P dangling_cell -> stable P wire_cell -> stable P worker_cell ->
  stable P running_cell -> stable P stopped_cell ->
  (forall t, e = Tick t -> stable P now_cell) -> (forall s, preserves P (deliver s)) ->
  (forall m : Method unit, preserves P (handler m)) -> preserves P (step e).
Proof.
  intros Hs Ha Ht Ho Hd Hw Hk Hr Hp' Hn Hl Hm.
  assert (forall t, preserves P (post t)) as Hp by (intros; by apply preserves_push).
  assert (keeps P stub_controller) as K by (split; simpl; try apply Hp; intros a w Hw'; by apply Hs).
  assert (forall m, preserves P m -> preserves P (on_stub m)) as Hon.
  { intros m Hm'. unfold on_stub. auto with ls. }
  assert (preserves P (io_context_run keep_alive (write worker_cell exited))) as Hrun.
  { unfold io_context_run. apply preserves_bind; [auto with ls|]. intros []; [auto with ls|].
    apply preserves_bind; [auto with ls|]. intros []; [auto with ls|].
    auto using preserves_remote_task with ls. }
  destruct e; cbn [step].
  - apply Hon. by apply preserves_request.
  - apply Hon. by apply preserves_disable.
  - apply Hon. destruct K. by apply preserves_enable.
  - apply Hon. unfold stub_on_wifi_and_cell_reporting_state_changed.
    apply preserves_bind; [by apply preserves_transact|]. intros []; simpl; auto with ls.
  - by apply Hon, Hp.
  - by apply Hon, Hp.
  - by apply Hon, Hp.
  - by apply preserves_push.
  - unfold receive_signal. apply preserves_bind; [auto with ls|]. intros []; auto with ls.
  - unfold runtime_run. apply preserves_bind; [auto with ls|]. intros []; auto with ls.
  - unfold stop_running. auto with ls.
  - unfold stop_service. auto with ls.
  - eauto with ls.
  - unfold stub_destroy. auto with ls.
Qed.

Lemma preserves_history (P : World -> Prop) es w :
  (forall e, preserves P (step e)) -> P w -> P (history es w).
Proof.
  intros Hs. unfold history. revert w. induction es as [|e es IH]; intros w Hw; simpl; [done|].
  apply IH. by apply Hs.
Qed.

(** The implementation's stream [k] is disabled, and its history of calls fixed. *)
Definition dead_stream (k : Kind) (w : World) : Prop :=
  counter_of k (impl_counters w) = our_magic_disabling_value /\
  filter (fun c => stream c = k) (told_calls (told w)) = [].

Lemma dead_stream_handler {R} k (m : Method R) : preserves (dead_stream k) (handler m).
Proof.
  intros w [Hc Hl]. destruct m as [| | | | | | |c]; try done.
  1-4: split; [done|]; simpl; by rewrite told_calls_app, app_nil_r.
  unfold exec, impl_controller. rewrite handler_stream.
  unfold impl_controller. rewrite (request_run impl_cell) by apply _. simpl.
  destruct (decide (stream c = k)) as [<-|Hk].
  - rewrite Hc. done.
  - destruct (_ <? 0); [done|]. unfold when. destruct (_ =? _); simpl.
    + replace (provider_call impl_instance c) with (impl_tell (told_call c)) by by destruct c as [[]|[]].
      split; simpl; [by rewrite counter_set_ne|]. rewrite told_calls_app, filter_app, Hl. simpl.
      by rewrite filter_cons_False.
    + split; simpl; [by rewrite counter_set_ne|done].
Qed.

Lemma dead_stream_step k e : preserves (dead_stream k) (step e).
Proof. apply preserves_remote_step; try by intros ? ? ?. intros m. apply dead_stream_handler. Qed.

(** one lost call is for ever.  The bus loses the call that starts a stream of the
    remote provider; the worker logs the failure and the stub's observers are counted
    as if the stream ran.  When the last of them leaves, the stop does arrive: it takes
    the implementation's counter from 0 to the value that means "disabled", and since
    nothing forwards [enable] across the bus, no later history (whatever is requested,
    lost or answered) starts that stream again. *)
Theorem lost_start_disables_remote (k : Kind) (e : string) (os : list Outcome) (es : list Event) :
  let w := history ([Observe (Start k); Work; Observe (Stop k); Work; Work] ++ es)
                   (connected (Lost e :: Answered :: os)) in
  counter_of k (impl_counters w) = our_magic_disabling_value /\
  filter (fun c => stream c = k) (told_calls (told w)) = [].
Proof.
  cbv zeta. unfold history. rewrite fold_left_app.
  apply (preserves_history (dead_stream k)); [apply dead_stream_step|].
  by destruct k.
Qed.

(** The stub is gone, and stream [k] of the implementation has been told nothing but
    to start. *)
Definition orphaned (k : Kind) (w : World) : Prop :=
  stub_alive w = false /\ counter_of k (impl_counters w) = 1 /\
  filter (fun c => stream c = k) (told_calls (told w)) = [Start k].

(** Once the stub is gone, the worker only empties its queue. *)
Lemma dead_work (P : World -> Prop) w :
  stub_alive w = false -> stable P tasks_cell -> stable P worker_cell -> P w ->
  P (exec (step Work) w).
Proof.
  intros Ha Ht Hk HP. cbn [step]. unfold runtime_run.
  rewrite (exec_run _ _ _ (worker w) w) by done. destruct (worker w); [|unfold exec, try_catch|done].
  { by apply Hk. }
  unfold io_context_run. rewrite (bind_run _ _ _ (stopped w) w) by done.
  destruct (stopped w); [by apply Hk|]. rewrite (bind_run _ _ _ (tasks w) w) by done.
  destruct (tasks w) as [|t ts]; [done|].
  rewrite (bind_run _ _ _ tt (wr tasks_cell ts w)) by done. unfold run_task.
  rewrite (bind_run _ _ _ false (wr tasks_cell ts w)) by (unfold read, gets; simpl; by rewrite Ha).
  by apply Ht.
Qed.

Lemma orphaned_step k e : preserves (orphaned k) (step e).
Proof.
  intros w (Ha & Hc & Ht).
  assert (forall m, exec (on_stub m) w = w) as Hon.
  { intros m. unfold on_stub.
    by rewrite (exec_run _ _ _ false w) by (unfold read, gets; simpl; by rewrite Ha). }
  destruct e; cbn [step]; rewrite ?Hon; try done.
  - unfold receive_signal. rewrite (exec_run _ _ _ (wire w) w) by done. by destruct (wire w).
  - apply (dead_work (orphaned k)); [done|by intros ? ? ?..|done].
Qed.

(** A stub that is destroyed while a stop is still queued leaves the remote stream
    running: the queued closure holds a weak pointer only, and the destructor stops
    nothing. *)
Lemma destroyed_stub_leaves_remote_running (k : Kind) (os : list Outcome) (es : list Event) :
  orphaned k (history ([Observe (Start k); Work; Observe (Stop k); Destroy] ++ es)
                      (connected (Answered :: os))).
Proof.
  unfold history. rewrite fold_left_app.
  apply (preserves_history (orphaned k)); [apply orphaned_step|]. by destruct k.
Qed.

(** Enabling a stub that was not disabled forgets the observer it had, while the
    implementation keeps counting it: its stream then survives every observer. *)
Lemma enable_leaks_remote_observer :
  let w := drain (history [Observe (Start Position); Enable; Observe (Start Position);
                           Observe (Stop Position)] (connected [])) in
  c_position (stub_counters w) = 0 /\ c_position (impl_counters w) = 1 /\
  told_calls (told w) = [Start Position].
Proof. split_and!; reflexivity. Qed.

(** ** The skeleton's end *)

(** What the destructor leaves installed. *)
Definition left_installed : list MethodName :=
  [Supports; Requires; OnWifiAndCellIdReportingStateChanged;
   OnReferenceLocationChanged; OnReferenceHeadingChanged; OnReferenceVelocityChanged].

Lemma construct_destroy w :
  handlers w = [] ->
  exec skeleton_destroy (exec skeleton_construct w) =
  wr handlers_cell left_installed (wr skeleton_cell false w).
Proof. destruct w. simpl. intros ->. vm_compute. reflexivity. Qed.

(** The destructor of the skeleton uninstalls the handlers of seven of its thirteen
    methods.  The others stay on the object and hold the skeleton's address: a call
    of one of them, once the skeleton is destroyed, still runs its handler. *)
Lemma skeleton_leaves_handlers {R} (m : Method R) (w : World) :
  handlers w = [] -> outcomes w = [] ->
  let w' := exec (skeleton_destroy) (exec skeleton_construct w) in
  dangling (exec (transact_method m) w') =
    dangling w ++ (if decide (name_of m ∈ left_installed) then [name_of m] else []).
Proof.
  intros Hh Ho. cbv zeta. rewrite construct_destroy by done.
  unfold transact_method, next_outcome, dispatch. unfold_m. rewrite Ho. simpl.
  destruct (decide (name_of m ∈ left_installed)); simpl; [done|]. by rewrite app_nil_r.
Qed.
End Losses.

(** * Updates *)
Section Updates.
Context `{Answers}.

Definition signal_of (u : AnyUpdate) : Signal :=
  match u with
  | PositionUpdate u => PositionChanged (value u)
  | HeadingUpdate u => HeadingChanged (value u)
  | VelocityUpdate u => VelocityChanged (value u)
  end.
Definition time_of (u : AnyUpdate) : Z :=
  match u with PositionUpdate u => when_ u | HeadingUpdate u => when_ u | VelocityUpdate u => when_ u end.

Definition deliveries (ts : list Task) : list Signal :=
  omap (fun t => match t with Deliver s => Some s | _ => None end) ts.
Definition reports (es : list Event) : list Signal :=
  omap (fun e => match e with Report u => Some (signal_of u) | _ => None end) es.

(** The updates on their way: delivered, queued for the worker, on the bus. *)
Definition in_transit (w : World) : list Signal :=
  map signal_of (delivered w) ++ deliveries (tasks w) ++ wire w.

Lemma deliveries_app ts us : deliveries (ts ++ us) = deliveries ts ++ deliveries us.
Proof. apply omap_app. Qed.

(** The stub lives, and what is on its way is [sig]. *)
Record on_their_way (sig : list Signal) (w : World) : Prop := {
  o_alive : stub_alive w = true;
  o_order : in_transit w = sig
}.

Section Step.
Context (sig : list Signal).
Let P := on_their_way sig.

Lemma way_post t : deliveries [t] = [] -> preserves P (post t).
Proof.
  intros E w []. split; try done. simpl. rewrite <- o_order0. unfold in_transit. simpl.
  by rewrite deliveries_app, E, app_nil_r.
Qed.

Lemma way_transact {R} (m : Method R) : preserves P (transact_method m).
Proof.
  apply preserves_transact; [by intros ? ? []; split..|].
  apply preserves_handler; by intros ? ? []; split.
Qed.

Lemma way_checked (m : Method unit) : preserves P (r ← transact_method m; throw_if_error r).
Proof. apply preserves_bind; [apply way_transact|]. intros []; simpl; auto with ls. Qed.

Lemma way_stub_controller : keeps P stub_controller.
Proof. split; simpl; try (by apply way_post); by intros ? ? []; split. Qed.

Lemma way_on_stub m : preserves P m -> preserves P (on_stub m).
Proof. intros. unfold on_stub. auto with ls. Qed.

(** A task that is taken from the queue ends up with the updates delivered. *)
Lemma way_task t ts w : P w -> tasks w = t :: ts -> P (exec (run_task t) (wr tasks_cell ts w)).
Proof.
  intros HP E. pose proof HP as [Ha Ho]. unfold run_task.
  rewrite (exec_run _ _ _ true (wr tasks_cell ts w)) by (unfold read, gets; simpl; by rewrite Ha).
  assert (deliveries [t] = [] -> P (wr tasks_cell ts w)) as Hq.
  { intros Et. split; [done|]. rewrite <- Ho. unfold in_transit. simpl. rewrite E.
    change (t :: ts) with ([t] ++ ts). by rewrite deliveries_app, Et. }
  destruct t as [u|u|u|c|s]; simpl negb; cbv iota.
  1-3: unfold reference_task; apply (preserves_try P); [apply way_checked|auto with ls|by apply Hq].
  - unfold stream_task. apply (way_checked (stream_call c) _ (Hq eq_refl)).
  - split; [exact Ha|]. rewrite <- Ho. unfold in_transit. simpl. rewrite E, map_app, <- app_assoc.
    by destruct s.
Qed.

Lemma way_worker p : preserves P (write worker_cell p).
Proof. by intros ? []. Qed.

Lemma way_work : preserves P (step Work).
Proof.
  cbn [step]. unfold runtime_run. apply preserves_bind; [auto with ls|].
  intros []; [|apply preserves_try; [|intros; apply way_worker]|auto with ls].
  { apply preserves_bind; [auto with ls|]. intros []; apply way_worker. }
  unfold io_context_run. apply preserves_bind; [auto with ls|]. intros []; [apply way_worker|].
  intros w HP. rewrite (exec_run _ _ _ (tasks w) w) by done. destruct (tasks w) as [|t ts] eqn:E; [done|].
  rewrite (exec_run _ _ _ tt (wr tasks_cell ts w)) by done. by apply way_task.
Qed.
End Step.

Lemma way_step sig e w :
  e <> Destroy -> on_their_way sig w -> on_their_way (sig ++ reports [e]) (exec (step e) w).
Proof.
  intros He HP.
  assert (forall m : M World unit, reports [e] = [] -> preserves (on_their_way sig) m ->
    on_their_way (sig ++ reports [e]) (exec m w)) as Hq.
  { intros m -> Hm. rewrite app_nil_r. by apply Hm. }
  destruct e; try done; cbn [step].
  - apply Hq; [done|]. apply way_on_stub, preserves_request, way_stub_controller.
  - apply Hq; [done|]. apply way_on_stub, preserves_disable, way_stub_controller.
  - apply Hq; [done|]. apply way_on_stub. destruct (way_stub_controller sig). by apply preserves_enable.
  - apply Hq; [done|]. apply way_on_stub, way_checked.
  - apply Hq; [done|]. by apply way_on_stub, way_post.
  - apply Hq; [done|]. by apply way_on_stub, way_post.
  - apply Hq; [done|]. by apply way_on_stub, way_post.
  - destruct HP as [? Ho]. split; [done|]. simpl. rewrite <- Ho.
    unfold in_transit. simpl. rewrite <- !app_assoc. by destruct u.
  - apply Hq; [done|]. clear HP. intros w' [? Ho]. unfold receive_signal.
    rewrite (exec_run _ _ _ (wire w') w') by done. destruct (wire w') as [|s ss] eqn:E; [by split|].
    split; [done|]. rewrite <- Ho. unfold in_transit. simpl.
    by rewrite E, deliveries_app, <- app_assoc.
  - apply Hq; [done|]. apply way_work.
  - apply Hq; [done|]. by intros ? [].
  - apply Hq; [done|]. by intros ? [].
  - apply Hq; [done|]. by intros ? [].
Qed.

(** The stub is gone, and has delivered [us]. *)
Definition silent (us : list AnyUpdate) (w : World) : Prop :=
  stub_alive w = false /\ delivered w = us.

Lemma silent_step us e : preserves (silent us) (step e).
Proof.
  intros w [Ha Hd].
  assert (forall m, exec (on_stub m) w = w) as Hon.
  { intros m. unfold on_stub.
    by rewrite (exec_run _ _ _ false w) by (unfold read, gets; simpl; by rewrite Ha). }
  destruct e; cbn [step]; rewrite ?Hon; try done.
  - unfold receive_signal. rewrite (exec_run _ _ _ (wire w) w) by done. by destruct (wire w).
  - apply (dead_work (silent us)); [done|by intros ? ? ?..|done].
Qed.

(** With the stub alive or not: what was delivered begins the reports. *)
Definition relayed (sig : list Signal) (w : World) : Prop :=
  map signal_of (delivered w) `prefix_of` sig /\ (stub_alive w = true -> in_transit w = sig).

Lemma way_relayed sig w : on_their_way sig w -> relayed sig w.
Proof. intros [Ha Ho]. split; [|done]. rewrite <- Ho. unfold in_transit. by eexists. Qed.

Lemma relayed_step sig e w : relayed sig w -> relayed (sig ++ reports [e]) (exec (step e) w).
Proof.
  intros [Hp Ho].
  assert (forall w', silent (delivered w) w' -> relayed (sig ++ reports [e]) w') as Hs.
  { intros w' [Ha Hd]. split; [|by rewrite Ha]. rewrite Hd. by apply prefix_app_r. }
  destruct (stub_alive w) eqn:Ha; [|by apply Hs, silent_step].
  assert (e = Destroy \/ e <> Destroy) as [->|He] by (destruct e; (by left) || (by right)).
  - by apply Hs.
  - apply way_relayed, way_step; [done|]. split; auto.
Qed.

Lemma relayed_history sig w es : relayed sig w -> relayed (sig ++ reports es) (history es w).
Proof.
  revert sig w. induction es as [|e es IH]; intros sig w HP; [by rewrite app_nil_r|].
  change (e :: es) with ([e] ++ es). unfold reports. rewrite omap_app, app_assoc.
  by apply IH, relayed_step.
Qed.

Lemma alive_history w es : stub_alive w = true -> Destroy ∉ es -> stub_alive (history es w) = true.
Proof.
  revert w. induction es as [|e es IH]; intros w Ha Hes; [done|].
  apply not_elem_of_cons in Hes as [He Hes]. apply IH; [|done].
  by apply (way_step (in_transit w) e w).
Qed.

(** ** The clock *)

Definition ticks (es : list Event) : list Z :=
  omap (fun e => match e with Tick t => Some t | _ => None end) es.

(** The updates delivered after [us] carry the time [t], and the clock shows it. *)
Definition stamped (us : list AnyUpdate) (t : Z) (w : World) : Prop :=
  now w = t /\ exists vs, delivered w = us ++ vs /\ Forall (fun u => time_of u = t) vs.

Lemma stamped_step us t e : (forall t', e <> Tick t') -> preserves (stamped us t) (step e).
Proof.
  intros He. apply preserves_remote_step; try by intros ? ? ?.
  - intros t' ->. by destruct (He t').
  - intros s w [Hn (vs & Hd & Ht)]. unfold deliver. rewrite (exec_run _ _ _ t w) by (unfold read, gets; simpl; by rewrite Hn).
    split; [done|]. eexists (vs ++ [_]). simpl. rewrite Hd, app_assoc. split; [done|].
    apply Forall_app. split; [done|]. constructor; [by destruct s|done].
  - intros m. by apply preserves_handler; intros ? ? ?.
Qed.

Lemma stamped_now w : stamped (delivered w) (now w) w.
Proof. split; [done|]. exists []. by rewrite app_nil_r. Qed.

Lemma now_step w e : now (exec (step e) w) = default (now w) (last (ticks [e])).
Proof.
  assert ((exists t, e = Tick t) \/ forall t, e <> Tick t) as [[t ->]|He].
  { destruct e; (by right) || (left; by eexists). }
  - done.
  - destruct (stamped_step (delivered w) (now w) e He w (stamped_now w)) as [-> _].
    destruct e; try done. by destruct (He t).
Qed.

Lemma now_history w es : now (history es w) = default (now w) (last (ticks es)).
Proof.
  induction es as [|e es IH] using rev_ind; [done|].
  unfold history, ticks. rewrite fold_left_app, omap_app. simpl fold_left.
  rewrite now_step. change (fold_left _ es w) with (history es w). rewrite IH.
  destruct e; simpl; by rewrite ?app_nil_r, ?last_snoc.
Qed.

(** C22: updates of a remote provider arrive at most once each and in order, and lose
    their time.  Whatever crosses the bus, whatever calls the bus loses and whether or
    not the stub is destroyed: the values the stub has delivered are the first ones
    the implementation reported, in this order.  As long as the stub has not been
    destroyed the rest is on its way: what the stub has delivered, what waits for its
    worker and what is still on the bus are, in this order, exactly the reports.  An
    update is stamped when it is delivered: whatever happens next, the updates then
    delivered carry what the stub's own clock shows at that moment, which is its last
    reading so far, and not the time at which the implementation made them. *)
Theorem remote_updates_in_order (os : list Outcome) (es : list Event) :
  let w := history es (connected os) in
  map signal_of (delivered w) `prefix_of` reports es /\
  (Destroy ∉ es -> in_transit w = reports es) /\
  now w = default 0 (last (ticks es)) /\
  forall e, exists us, delivered (exec (step e) w) = delivered w ++ us /\
                       Forall (fun u => time_of u = now w) us.
Proof.
  intros w. destruct (relayed_history [] (connected os) es) as [Hp Ho].
  { by apply way_relayed. }
  split_and!; [done|intros Hes; by apply Ho, alive_history|apply now_history|].
  intros e. assert ((exists t, e = Tick t) \/ forall t, e <> Tick t) as [[t ->]|He].
  { destruct e; (by right) || (left; by eexists). }
  - exists []. by rewrite app_nil_r.
  - destruct (stamped_step (delivered w) (now w) e He w (stamped_now w)) as [_ H']. done.
Qed.

(** ** Creation *)

(** The ping neither reads nor writes the stub's own state. *)
Lemma ping_frame c b w :
  ping (wr alive_cell b (wr stub_cell c w)) =
  (result ping w, wr alive_cell b (wr stub_cell c (exec ping w))).
Proof.
  unfold ping, stub_requires, transact_method, next_outcome, dispatch. unfold_m.
  destruct w as [? ? ? ? ? ? os ? sk ? ? ? ? ? ?]. cbn.
  destruct os as [|[] ?]; cbn; try done; (destruct (decide _); cbn; [|done]); by destruct sk.
Qed.

(** When the stub of a remote provider comes to exist: its service and object are
    named, the bus is one of the four known names (two need an address in the
    environment), somebody owns the name or comes to own it in time, and the first
    call is answered.  In every other case the exception says which step failed and
    no stub is left. *)
Lemma create_instance_outcomes (get_or_throw : string -> res string)
    (has_owner registered : Bus -> string -> bool) (config : gmap string string) (w : World) :
  stub_alive w = false ->
  let r := create_instance get_or_throw has_owner registered config w in
  match config !! key_name, config !! key_path,
        bus_from_name get_or_throw (default "system" (config !! key_bus)) with
  | None, _, _ => r = (Throw (runtime_error "Missing bus-name"), w)
  | Some _, None, _ => r = (Throw (runtime_error "Missing bus-path"), w)
  | Some _, Some _, Throw e => r = (Throw e, w)
  | Some name, Some _, Ok bus =>
      if (has_owner bus name || registered bus name)%bool then
        match result ping w with
        | Ok _ => r.1 = Ok tt /\ stub_alive r.2 = true /\ stub_counters r.2 = initial_counters
        | Throw e => r.1 = Throw e /\ stub_alive r.2 = false
        end
      else r = (Throw (runtime_error "Remote service failed to start"), w)
  end.
Proof.
  intros Ha. cbv zeta. unfold create_instance, required.
  destruct (config !! key_name) as [name|]; [|done]. destruct (config !! key_path) as [path|]; [|done].
  destruct (bus_from_name _ _) as [bus|e]; [|done].
  rewrite (bind_run _ _ _ name w), (bind_run _ _ _ path w), (bind_run _ _ _ bus w) by done.
  assert (match result ping w with
          | Ok _ => (create_instance_with_config w).1 = Ok tt /\
                    stub_alive (create_instance_with_config w).2 = true /\
                    stub_counters (create_instance_with_config w).2 = initial_counters
          | Throw e => (create_instance_with_config w).1 = Throw e /\
                       stub_alive (create_instance_with_config w).2 = false
          end) as Hc.
  { unfold create_instance_with_config.
    rewrite (bind_run _ _ _ tt (wr stub_cell initial_counters w)) by done.
    rewrite (bind_run _ _ _ tt (wr alive_cell true (wr stub_cell initial_counters w))) by done.
    assert (forall w1, w1 = wr alive_cell true (wr stub_cell initial_counters w) ->
      (ping;; skip) w1 = (match result ping w with Ok _ => Ok tt | Throw e => Throw e end,
                          wr alive_cell true (wr stub_cell initial_counters (exec ping w)))) as Hp.
    { intros w1 ->. unfold mbind, m_bind. rewrite ping_frame. by destruct (result ping w). }
    unfold try_catch. rewrite (Hp _ eq_refl). by destruct (result ping w). }
  destruct (has_owner bus name), (registered bus name); simpl; try exact Hc. done.
Qed.
End Updates.

(** * Sample histories *)

(** An implementation for everybody, with positions only and without needs. *)
Definition anybody : Answers := {|
  impl_matches _ := true;
  impl_supports := Flags.supports Flags.features_position;
  impl_requires := Flags.requires Flags.requirements_none
|}.
#[local] Existing Instance anybody.

Definition unlucky : World :=
  exec (for_each [Start Heading; Start Position; Stop Heading] (fun c => post (Transact c)))
    (connected [Lost "timeout"; Answered; ReplyLost "timeout"]).

Lemma worker_runs_every_task_witness :
  length (tasks unlucky) = 3%nat /\
  told (turns 9 (schedule [Turn; Post (Transact (Stop Position)); Turn] unlucky)) =
    [told_call (Start Position); told_call (Stop Position)] /\
  worker (turns 9 (schedule [Turn; Post (Transact (Stop Position)); Turn] unlucky)) = in_run.
Proof.
  split; [reflexivity|].
  destruct (worker_runs_every_task unlucky [Turn; Post (Transact (Stop Position)); Turn])
    as (_ & E & _); [reflexivity|reflexivity|discriminate|].
  rewrite E by (vm_compute; lia). split; reflexivity.
Defined.

Definition busy_client : list Event :=
  [Observe (Start Position); Observe (Start Heading); Work; Observe (Start Position);
   Tick 7; Report (HeadingUpdate (MkUpdate (S754_zero false) 3)); Observe (Stop Heading); Receive;
   Reference_heading (MkUpdate (S754_zero false) 4); Disable; Work; Enable; Observe (Stop Position); Work].

Lemma remote_provider_is_transparent_witness :
  orderly busy_client fresh = true /\ Z.of_nat (length busy_client) <= INT_MAX /\
  told_calls (told (drain (history busy_client (connected [])))) =
  [Start Position; Start Heading; Stop Heading; Stop Position].
Proof.
  assert (orderly busy_client fresh = true) as HF by reflexivity.
  assert (Z.of_nat (length busy_client) <= INT_MAX) as HL by (vm_compute; intros [=]).
  split; [exact HF|]. split; [exact HL|].
  destruct (remote_provider_is_transparent busy_client HF HL) as (_ & E & _). exact E.
Defined.

Definition stale_heading : list Event :=
  [Tick 90; Report (HeadingUpdate (MkUpdate (S754_zero false) 3)); Receive; Tick 100].

Lemma remote_updates_in_order_witness :
  in_transit (history stale_heading (connected [])) = [HeadingChanged (S754_zero false)] /\
  now (history stale_heading (connected [])) = 100 /\
  delivered (history (stale_heading ++ [Work]) (connected [])) =
    [HeadingUpdate (MkUpdate (S754_zero false) 100)].
Proof.
  destruct (remote_updates_in_order [] stale_heading) as (_ & E & En & _).
  split; [|split; [exact En|reflexivity]]. rewrite E; [reflexivity|].
  unfold stale_heading. rewrite !not_elem_of_cons. split_and!; try done. apply not_elem_of_nil.
Defined.
End Remote.
