(* ===== verification/Daemon.v ===== *)
(** The service's executables ([service/program_options.h], [service/daemon.cpp],
    [service/daemon_main.cpp], [service/daemon_cli_main.cpp], [provider_factory.cpp],
    [service/provider_daemon.cpp]): options of providers on the command line, the
    factory and the loading of providers, and the command line client. *)
From Stdlib Require Import ZArith Lia Ascii String.
From stdpp Require Import base gmap strings list sorting.
From S2P Require Import Prelude Floats Geometry Provider Settings Property Fusion Engine Synchronisation.
Local Open Scope Z_scope.

(** * Strings as the code cuts them *)
Module Text.
Local Open Scope nat_scope.

Fixpoint take_s (n : nat) (s : string) : string :=
  match n, s with
  | S n, String c s => String c (take_s n s)
  | _, _ => ""%string
  end.
Fixpoint drop_s (n : nat) (s : string) : string :=
  match n, s with
  | S n, String _ s => drop_s n s
  | _, _ => s
  end.

Fixpoint contains (c : ascii) (s : string) : bool :=
  match s with
  | EmptyString => false
  | String d s => Ascii.eqb c d || contains c s
  end.

(** [s.find(pattern)]: where [pattern] occurs first, or [npos]. *)
Fixpoint find_ (pattern s : string) : option nat :=
  if String.prefix pattern s then Some 0
  else match s with
       | EmptyString => None
       | String _ s => option_map S (find_ pattern s)
       end.

(** [s.find_first_of(set)]: where any character of [set] occurs first, or [npos]. *)
Fixpoint find_first_of (set s : string) : option nat :=
  match s with
  | EmptyString => None
  | String c s => if contains c set then Some 0 else option_map S (find_first_of set s)
  end.

(** [s.erase(pos, count)]: a position beyond the end, [npos] too, is an exception. *)
Definition erase (pos : option nat) (count : nat) (s : string) : res string :=
  match pos with
  | None => Throw (out_of_range "basic_string::erase")
  | Some p => Ok (take_s p s +:+ drop_s (p + count) s)
  end.

(** [std::getline(in, out, delim)]: the text before the delimiter, and what follows it
    if the delimiter was there. *)
Fixpoint getline (delim : ascii) (s : string) : string * option string :=
  match s with
  | EmptyString => (""%string, None)
  | String c s =>
      if Ascii.eqb c delim then (""%string, Some s)
      else let '(l, r) := getline delim s in (String c l, r)
  end.

(** [std::isspace] in the classic locale. *)
Definition isspace (c : ascii) : bool :=
  let n := nat_of_ascii c in (n =? 32) || ((9 <=? n) && (n <=? 13)).

Fixpoint skip_spaces (s : string) : string :=
  match s with
  | EmptyString => EmptyString
  | String c s' => if isspace c then skip_spaces s' else s
  end.

(** [in >> std::boolalpha >> flag] on a flag that held [flag]: at the end of the text
    nothing is stored; otherwise the text must start with one of the two names, and
    [false] is stored when it does not. *)
Definition extract_bool (s : string) (flag : bool) : bool :=
  match skip_spaces s with
  | EmptyString => flag
  | t => String.prefix "true" t
  end.

(** ** Lemmas *)

Lemma app_cons_s c (a b : string) : String c a +:+ b = String c (a +:+ b).
Proof. done. Qed.
Lemma app_empty_s (b : string) : "" +:+ b = b.
Proof. done. Qed.

Lemma app_assoc_s (a b c : string) : (a +:+ b) +:+ c = a +:+ (b +:+ c).
Proof. induction a as [|x a IH]; rewrite ?app_cons_s; [done|]. by rewrite IH. Qed.

Lemma drop_app_s (a b : string) : drop_s (String.length a) (a +:+ b) = b.
Proof. induction a as [|x a IH]; [by destruct b|]. exact IH. Qed.

Lemma prefix_app (a b : string) : String.prefix a (a +:+ b) = true.
Proof.
  induction a as [|c a IH]; rewrite ?app_cons_s, ?app_empty_s; simpl; [by destruct b|].
  by destruct (ascii_dec c c).
Qed.

Lemma find_app (p a b : string) : find_ p (a +:+ (p +:+ b)) <> None.
Proof.
  induction a as [|c a IH]; rewrite ?app_cons_s, ?app_empty_s.
  - pose proof (prefix_app p b) as E. destruct (p +:+ b); cbn [find_]; rewrite E; discriminate.
  - simpl. case_match; [discriminate|].
    destruct (find_ p (a +:+ (p +:+ b))); [discriminate|by destruct IH].
Qed.

Lemma contains_app c (a b : string) : contains c (a +:+ b) = contains c a || contains c b.
Proof.
  induction a as [|d a IH]; rewrite ?app_cons_s; [done|]. simpl. by rewrite IH, orb_assoc.
Qed.

Lemma getline_app d (l r : string) :
  contains d l = false -> getline d (l +:+ String d r) = (l, Some r).
Proof.
  induction l as [|c l IH]; rewrite ?app_cons_s, ?app_empty_s; simpl; intros Hc.
  - by rewrite Ascii.eqb_refl.
  - apply orb_false_iff in Hc as [Hc Hl]. rewrite Ascii.eqb_sym, Hc. by rewrite (IH Hl).
Qed.

Lemma prefix_one a c s : String.prefix (String a "") (String c s) = Ascii.eqb a c.
Proof.
  simpl. destruct (ascii_dec a c) as [<-|Hn]; [rewrite Ascii.eqb_refl; by destruct s|].
  symmetry. by apply Ascii.eqb_neq.
Qed.

(** Looking for a single character. *)
Lemma find_one_none a s : contains a s = false -> find_ (String a "") s = None.
Proof.
  induction s as [|c s IH]; [done|]. cbn [contains find_]. intros H.
  apply orb_false_iff in H as [Hc Hs]. by rewrite prefix_one, Hc, (IH Hs).
Qed.

Lemma find_one_app a (s t : string) :
  contains a s = false -> find_ (String a "") (s +:+ String a t) = Some (String.length s).
Proof.
  induction s as [|c s IH]; rewrite ?app_cons_s, ?app_empty_s; cbn [contains find_]; intros H;
    rewrite prefix_one; [by rewrite Ascii.eqb_refl|].
  apply orb_false_iff in H as [Hc Hs]. by rewrite Hc, (IH Hs).
Qed.

Lemma take_app_s (a b : string) : take_s (String.length a) (a +:+ b) = a.
Proof. induction a as [|x a IH]; [done|]. rewrite app_cons_s. simpl. by rewrite IH. Qed.

(** Erasing what [find_first_of] finds removes the marker a text starts with. *)
Lemma erase_marker m s :
  m <> ""%string -> erase (find_first_of m (m +:+ s)) (String.length m) (m +:+ s) = Ok s.
Proof.
  intros Hm. destruct m as [|c m]; [done|].
  assert (find_first_of (String c m) (String c m +:+ s) = Some 0) as ->.
  { rewrite app_cons_s. simpl. by rewrite Ascii.eqb_refl. }
  rewrite app_cons_s. simpl. by rewrite drop_app_s, app_empty_s.
Qed.
End Text.

(** * Options *)
Module Options.
Import Text.

(** The options of [boost::program_options]: each known option that is set, or has a
    default, with the texts of its values.  An option that is not there, or not of the
    type asked for, is a bad cast, which is no [std::runtime_error]. *)
Definition Vm : Type := gmap string (list string).

Definition bad_any_cast : exn := logic_error "bad_any_cast".

Definition value_for_key (vm : Vm) (key : string) : res string :=
  match vm !! key with Some [v] => Ok v | _ => Throw bad_any_cast end.
Definition value_count_for_key (vm : Vm) (key : string) : nat :=
  if decide (is_Some (vm !! key)) then 1%nat else 0%nat.

Inductive WellKnownBus : Set := session | system.

(** [ProgramOptions::bus] *)
Definition bus (vm : Vm) : res WellKnownBus :=
  v ← value_for_key vm "bus";
  if String.eqb v "session" then Ok session
  else if String.eqb v "system" then Ok system
  else Throw (out_of_range "map::at").

(** [parse_from_command_line_args]: [parse] is the library's parser. *)
Definition parse_from_command_line_args (parse : list string -> res (Vm * list string))
    (argv : list string) : res (option (Vm * list string)) :=
  match parse argv with
  | Ok r => Ok (Some r)
  | Throw e => if is_runtime_error e then Ok None else Throw e
  end.

(** A configuration of a provider: a path of the tree and the text at it. *)
Definition Tree : Type := gmap string string.

Definition option_marker : string := "--".
Definition scope_separator : string := "::".

(** What an unrecognized option [s] means for the provider of that name: nothing, or a
    key and a value. *)
Definition option_of (provider s : string) : res (option (string * string)) :=
  let '(key, in_) := getline "="%char s in
  let value := match in_ with Some rest => (getline "="%char rest).1 | None => "" end in
  match find_ provider key with
  | None => Ok None
  | Some _ =>
      key ← erase (find_first_of option_marker key) (String.length option_marker) key;
      key ← erase (find_first_of provider key) (String.length provider) key;
      key ← erase (find_first_of scope_separator key) (String.length scope_separator) key;
      Ok (Some (key, value))
  end.

(** The loop over the unrecognized options. *)
Fixpoint options_of (provider : string) (unrecognized : list string) (config : option Tree)
  : res (option Tree) :=
  match unrecognized with
  | [] => Ok config
  | s :: unrecognized =>
      o ← option_of provider s;
      options_of provider unrecognized
        match o with
        | None => config
        | Some (k, v) => Some (<[k:=v]> (default ∅ config))
        end
  end.

(** An option as a user writes it. *)
Definition spelled (provider key value : string) : string :=
  "--" +:+ (provider +:+ ("::" +:+ (key +:+ ("=" +:+ value)))).

Lemma option_of_spelled (provider key value : string) :
  provider <> "" -> contains "=" provider = false -> contains "=" key = false ->
  option_of provider (spelled provider key value) = Ok (Some (key, (getline "=" value).1)).
Proof.
  intros Hp Hc Hk. unfold option_of, spelled.
  set (k := "--" +:+ (provider +:+ ("::" +:+ key))).
  assert ("--" +:+ (provider +:+ ("::" +:+ (key +:+ ("=" +:+ value)))) = k +:+ String "=" value) as ->.
  { subst k. by rewrite !app_assoc_s. }
  rewrite getline_app.
  2: { subst k. rewrite !contains_app, Hc, Hk. done. }
  destruct (find_ provider k) eqn:E; [|by destruct (find_app provider "--" ("::" +:+ key))].
  subst k. rewrite erase_marker by done. simpl mbind. cbn [res_bind].
  rewrite erase_marker by done. cbn [mbind res_bind]. by rewrite erase_marker.
Qed.


Definition gps_options : list string :=
  ["--gps::Provider::url=old"; "--gps::Provider::url=http://a/?b=c"; "--dummy::Provider::x=y"].


(** The options of a provider whose name extends another one's reach the other too, under
    a key that nobody wrote. *)
Lemma options_of_another_provider :
  option_of "remote::Provider" "--remote::Provider@nlp::path=/a" = Ok (Some ("@nlppath", "/a")).
Proof. vm_compute. reflexivity. Qed.

(** An option that mentions a provider without a leading marker stops the daemon with an
    exception nobody handles. *)
Lemma option_without_marker : option_of "gps" "gps::x=1" = Throw (out_of_range "basic_string::erase").
Proof. vm_compute. reflexivity. Qed.
End Options.

(** * The provider factory *)
Module Factory.
Import Text Options.
Section Factory.
(** A provider is known by the address of its object; a null pointer is [None]. *)
Context {W : Type}.

(** A factory may throw, and may return null. *)
Definition Factory : Type := Tree -> M W (option nat).

Definition factory_store : Type := gmap string Factory.

Definition add_factory_for_name (name : string) (factory : Factory) (store : factory_store)
  : factory_store := <[name:=factory]> store.

(** [name.substr(0, name.find("@"))] *)
Definition extract_undecorated_name (name : string) : string :=
  match find_ "@" name with Some n => take_s n name | None => name end.

Definition create_provider_for_name_with_config (store : factory_store) (name : string)
    (config : Tree) : M W (option nat) :=
  match store !! extract_undecorated_name name with
  | None => mret None
  | Some factory => factory config
  end.

Lemma create_unknown store name config w :
  store !! extract_undecorated_name name = None ->
  create_provider_for_name_with_config store name config w = (Ok None, w).
Proof. intros E. unfold create_provider_for_name_with_config, factory_store, Factory in *. by rewrite E. Qed.

(** The overload with a callback, which is not called for an unknown name. *)
Definition create_provider_with_callback (store : factory_store) (name : string) (config : Tree)
    (cb : option nat -> M W unit) : M W unit :=
  match store !! extract_undecorated_name name with
  | None => skip
  | Some factory => p ← factory config; cb p
  end.

(** The names in the order of the map. *)
Definition enumerate (store : factory_store) : list string :=
  merge_sort (fun a b : string => Is_true (String.leb a b)) (map_to_list store).*1.
End Factory.

Arguments Factory : clear implicits.
Arguments factory_store : clear implicits.

(** A name decorated after an at sign selects the factory of what precedes it. *)
Lemma undecorated (name decoration : string) :
  contains "@" name = false ->
  extract_undecorated_name (name +:+ ("@" +:+ decoration)) = name /\
  extract_undecorated_name name = name.
Proof.
  intros Hn. unfold extract_undecorated_name. split; [|by rewrite find_one_none].
  change ("@" +:+ decoration) with (String "@" decoration).
  rewrite find_one_app by done. apply take_app_s.
Qed.

(** ** The factories of [config.cpp] *)

(** The static injectors, in their order; those of the optional providers are there if the
    build has them. *)
Definition injectors {W} (dummy delayed remote : Factory W) (geoclue gps gpsd skyhook : option (Factory W))
  : list (string * Factory W) :=
  let optional name (f : option (Factory W)) := match f with Some f => [(name, f)] | None => [] end in
  [("dummy::Provider", dummy); ("dummy::DelayedProvider", delayed); ("remote::Provider", remote)] ++
  optional "geoclue::Provider" geoclue ++ optional "gps::Provider" gps ++ optional "gpsd::Provider" gpsd ++
  optional "skyhook::Provider" skyhook.

Definition inject {W} (fs : list (string * Factory W)) : factory_store W :=
  fold_left (fun store p => add_factory_for_name p.1 p.2 store) fs ∅.

Lemma inject_found {W} (fs : list (string * Factory W)) (store : gmap string (Factory W)) name f :
  NoDup fs.*1 ->
  (name, f) ∈ fs \/ (store !! name = Some f /\ name ∉ fs.*1) ->
  (fold_left (fun store p => add_factory_for_name p.1 p.2 store) fs store : gmap string (Factory W)) !! name = Some f.
Proof.
  revert store. induction fs as [|[n g] fs IH]; intros store Hn Hf.
  { destruct Hf as [Hf|[Hf _]]; [by apply elem_of_nil in Hf|done]. }
  inversion Hn as [|? ? Hx Hn']; subst. apply IH; [done|].
  unfold add_factory_for_name, factory_store in *. simpl in *.
  destruct Hf as [[[= -> ->]|Hf]%elem_of_cons|[Hf Hne]].
  - right. by rewrite lookup_insert_eq.
  - by left.
  - apply not_elem_of_cons in Hne as [Hne Hnot]. right. by rewrite lookup_insert_ne by congruence.
Qed.

(** Every injected factory can be asked for, under its name and under any decoration. *)
Lemma injected_is_found {W} dummy delayed remote geoclue gps gpsd skyhook name (f : Factory W) decoration config :
  (name, f) ∈ injectors dummy delayed remote geoclue gps gpsd skyhook ->
  let store := inject (injectors dummy delayed remote geoclue gps gpsd skyhook) in
  create_provider_for_name_with_config store name config = f config /\
  create_provider_for_name_with_config store (name +:+ ("@" +:+ decoration)) config = f config.
Proof.
  set (fs := injectors _ _ _ _ _ _ _). intros Hin store.
  assert (Forall (fun n => contains "@" n = false) fs.*1 /\ NoDup fs.*1) as [Hat Hn].
  { unfold fs, injectors. destruct geoclue, gps, gpsd, skyhook; split;
    first [repeat constructor; by (vm_compute; intros [])|apply (bool_decide_unpack _); vm_compute; exact I]. }
  rewrite Forall_forall in Hat. specialize (Hat name (list_elem_of_fmap_2 fst _ _ Hin)).
  assert (inject fs !! name = Some f) as Hl by exact (inject_found fs ∅ name f Hn (or_introl Hin)).
  destruct (undecorated name decoration Hat) as [E1 E2].
  unfold create_provider_for_name_with_config, store, factory_store, Factory in *. by rewrite E1, E2, Hl.
Qed.
End Factory.

(** * The daemon *)
Module Daemon.
Import Text Options Factory.

Record Configuration : Type := MkConfiguration {
  incoming : WellKnownBus;
  outgoing : WellKnownBus;
  providers : list string;
  provider_options : gmap string Tree;
  config_file : string
}.

Definition newline : string := String "010" "".

(** The message that lists the known providers. *)
Definition known_providers (names : list string) : string :=
  "A set of providers need to be specified. The following providers are known:" +:+
  (newline +:+ foldr (fun n s => String "009" (n +:+ (newline +:+ s))) "" names).

Section Daemon.
(** The library's parser, the factories that are known, and the connections. *)
Context {W : Type} (store : factory_store W)
        (parse : list string -> res (Vm * list string))
        (connect : WellKnownBus -> res unit).

(** The loop over the providers of the command line. *)
Fixpoint collect_options (unrecognized : list string) (ps : list string)
    (options : gmap string Tree) : res (gmap string Tree) :=
  match ps with
  | [] => Ok options
  | p :: ps =>
      o ← options_of p unrecognized (options !! p);
      collect_options unrecognized ps match o with Some t => <[p:=t]> options | None => options end
  end.

(** [Daemon::Configuration::from_command_line_args] *)
Definition from_command_line_args (argv : list string) : res Configuration :=
  parsed ← parse_from_command_line_args parse argv;
  match parsed with
  | None => Throw (runtime_error "Could not parse command-line, aborting...")
  | Some (vm, unrecognized) =>
      incoming ← bus vm; connect incoming;;
      outgoing ← bus vm; connect outgoing;;
      if ((value_count_for_key vm "testing" =? 0) && (value_count_for_key vm "provider" =? 0))%nat
      then Throw (runtime_error (known_providers (enumerate store)))
      else
        let ps := if (0 <? value_count_for_key vm "provider")%nat
                  then default [] (vm !! "provider") else [] in
        options ← collect_options unrecognized ps ∅;
        file ← value_for_key vm "config-file";
        Ok (MkConfiguration incoming outgoing ps options file)
  end.

(** One round of [load_providers]: the task of [std::async] keeps what it throws in a
    future that nobody reads, and the future's destructor waits for the task. *)
Definition load_provider (add_provider : option nat -> M W unit) (config : Configuration)
    (provider : string) : M W unit :=
  try_catch
    (create_provider_with_callback store provider (default ∅ (provider_options config !! provider))
       add_provider)
    any_exception (fun _ => skip).

Definition load_providers (add_provider : option nat -> M W unit) (config : Configuration) : M W unit :=
  for_each (providers config) (load_provider add_provider config).

(** What [main] of [daemon_main.cpp] makes of an execution: an exit status, or an
    exception that leaves it. *)
Inductive Status : Type := Exit (n : Z) | Terminate (e : exn).

Definition EXIT_SUCCESS : Z := 0.
Definition EXIT_FAILURE : Z := 1.

Definition daemon_main (run : Configuration -> M W unit) (argv : list string) (w : W) : Status * W :=
  match from_command_line_args argv with
  | Throw e => (if is_runtime_error e then Exit EXIT_FAILURE else Terminate e, w)
  | Ok config =>
      match run config w with
      | (Ok _, w) => (Exit EXIT_SUCCESS, w)
      | (Throw e, w) => (if is_std_exception e then Exit EXIT_FAILURE else Terminate e, w)
      end
  end.

(** loading the providers never fails.  Whatever the factories throw, return or are
    called, [load_providers] goes through the whole list in order; an unknown name adds
    nothing, and what a factory or the engine throws ends that provider's round alone,
    with the effects it had so far (and no message: the handler around the task never
    sees the exception). *)
Theorem loading_never_fails (add_provider : option nat -> M W unit) (config : Configuration) (w : W) :
  load_providers add_provider config w =
  (Ok tt, fold_left (fun w p =>
     match store !! extract_undecorated_name p with
     | None => w
     | Some factory => exec (x ← factory (default ∅ (provider_options config !! p)); add_provider x) w
     end) (providers config) w).
Proof.
  unfold load_providers. revert w. induction (providers config) as [|p ps IH]; intros w; [done|].
  simpl. rewrite (bind_run _ _ _ tt
    match store !! extract_undecorated_name p with
    | None => w
    | Some factory => exec (x ← factory (default ∅ (provider_options config !! p)); add_provider x) w
    end); [apply IH|].
  unfold load_provider, create_provider_with_callback, try_catch, exec.
  destruct (store !! _) as [f|]; [|done]. by destruct ((f _ ≫= add_provider) w) as [[[]|e] w'].
Qed.

(** How the daemon ends when its command line is wrong: with a message and a failure for
    a runtime error, the missing providers among them, and otherwise, an unknown bus or an
    error of the option parser among them, with an exception that leaves [main]. *)
Lemma wrong_command_lines (run : Configuration -> M W unit) (argv : list string) (w : W) :
  match parse argv with
  | Throw e => daemon_main run argv w = (if is_runtime_error e then Exit EXIT_FAILURE else Terminate e, w)
  | Ok (vm, _) =>
      match bus vm with
      | Throw e => daemon_main run argv w = (Terminate e, w)
      | Ok b =>
          connect b = Ok tt -> value_count_for_key vm "testing" = 0%nat ->
          value_count_for_key vm "provider" = 0%nat -> daemon_main run argv w = (Exit EXIT_FAILURE, w)
      end
  end.
Proof.
  unfold daemon_main, from_command_line_args, parse_from_command_line_args.
  destruct (parse argv) as [[vm un]|e]; [|by destruct (is_runtime_error e) eqn:E; simpl; rewrite ?E].
  cbn [mbind res_bind]. destruct (bus vm) as [b|e] eqn:Eb.
  - intros Hc Ht Hp. cbn [mbind res_bind]. rewrite Hc. cbn [mbind res_bind]. by rewrite Ht, Hp.
  - cbn [mbind res_bind]. unfold bus, value_for_key in Eb.
    destruct (vm !! "bus") as [[|v [|]]|]; cbn [mbind res_bind] in Eb; try by injection Eb as <-.
    destruct (String.eqb v "session"); [done|]. destruct (String.eqb v "system"); [done|].
    by injection Eb as <-.
Qed.
End Daemon.
End Daemon.

(** * The daemon that exposes one provider *)
Module ProviderDaemon.
Import Options Factory.
Section ProviderDaemon.
Context {W : Type} (store : factory_store W)
        (parse : list string -> res (Vm * list string))
        (connect : WellKnownBus -> res unit) (add_service add_object : string -> res unit).

Record Exposed : Type := MkExposed {
  service_name : string;
  service_path : string;
  provider : option nat
}.

(** [ProviderDaemon::Configuration::from_command_line_args] *)
Definition provider_from_command_line_args (argv : list string) : M W Exposed :=
  parsed ← lift (parse_from_command_line_args parse argv);
  match parsed with
  | None => throw (runtime_error "Could not parse command-line, aborting...")
  | Some (vm, unrecognized) =>
      b ← lift (bus vm); lift (connect b);;
      name ← lift (value_for_key vm "service-name"); lift (add_service name);;
      path ← lift (value_for_key vm "service-path"); lift (add_object path);;
      provider_name ← lift (value_for_key vm "provider");
      config ← lift (options_of provider_name unrecognized None);
      p ← create_provider_for_name_with_config store provider_name (default ∅ config);
      mret (MkExposed name path p)
  end.

(** A provider nobody knows is exposed all the same, as a null pointer. *)
Lemma unknown_provider_is_exposed argv vm unrecognized b name path provider_name config w :
  parse argv = Ok (vm, unrecognized) -> bus vm = Ok b -> connect b = Ok tt ->
  value_for_key vm "service-name" = Ok name -> add_service name = Ok tt ->
  value_for_key vm "service-path" = Ok path -> add_object path = Ok tt ->
  value_for_key vm "provider" = Ok provider_name ->
  options_of provider_name unrecognized None = Ok config ->
  store !! extract_undecorated_name provider_name = None ->
  provider_from_command_line_args argv w = (Ok (MkExposed name path None), w).
Proof.
  intros Hp Hb Hc Hn Has Hpa Hao Hpr Ho Hs.
  unfold provider_from_command_line_args, parse_from_command_line_args. rewrite Hp.
  unfold lift, mbind, m_bind. rewrite Hb, Hc, Hn, Has, Hpa, Hao, Hpr, Ho.
  by rewrite create_unknown.
Qed.
End ProviderDaemon.
End ProviderDaemon.

(** * The command line client *)
Module Cli.
Import Text Options Settings.Enums.

Inductive Command : Set := c_unknown | c_get | c_set | c_test.
Inductive Property : Set :=
| p_unknown | p_state | p_is_online | p_does_satellite_based_positioning
| p_does_report_wifi_and_cell_ids | p_visible_space_vehicles | p_client_applications.

(** [operator>>] *)
Definition parse_property (value : string) : res Property :=
  if String.eqb value "state" then Ok p_state
  else if String.eqb value "is_online" then Ok p_is_online
  else if String.eqb value "does_satellite_based_positioning" then Ok p_does_satellite_based_positioning
  else if String.eqb value "does_report_wifi_and_cell_ids" then Ok p_does_report_wifi_and_cell_ids
  else if String.eqb value "visible_space_vehicles" then Ok p_visible_space_vehicles
  else if String.eqb value "client_applications" then Ok p_client_applications
  else Throw (runtime_error ("Unknown property specified: " +:+ value)).

(** [operator<<] *)
Definition print_property (property : Property) : string :=
  match property with
  | p_state => "state"
  | p_is_online => "is_online"
  | p_does_satellite_based_positioning => "does_satellite_based_positioning"
  | p_does_report_wifi_and_cell_ids => "does_report_wifi_and_cell_ids"
  | p_visible_space_vehicles => "visible_space_vehicles"
  | p_client_applications => "client_applications"
  | p_unknown => "unknown"
  end.

Record CliConfiguration : Type := MkCliConfiguration {
  cli_bus : WellKnownBus;
  command : Command;
  property : Property;
  new_value : string
}.

(** [Daemon::Cli::Configuration::from_command_line_args]; the property's text is the
    default ["unknown"] or was read by [operator>>] when the options were stored. *)
Definition cli_from_command_line_args (parse : list string -> res (Vm * list string))
    (connect : WellKnownBus -> res unit) (argv : list string) : res CliConfiguration :=
  parsed ← parse_from_command_line_args parse argv;
  match parsed with
  | None => Throw (runtime_error "Error parsing command line")
  | Some (vm, _) =>
      if (0 <? value_count_for_key vm "help")%nat then Throw (runtime_error "Error parsing command line")
      else if ((0 <? value_count_for_key vm "get") && (0 <? value_count_for_key vm "set"))%nat
      then Throw (logic_error "Both set and get specified, aborting...")
      else
        b ← bus vm; connect b;;
        text ← value_for_key vm "property";
        let p := match parse_property text with Ok p => p | Throw _ => p_unknown end in
        if (0 <? value_count_for_key vm "get")%nat then Ok (MkCliConfiguration b c_get p "")
        else if (0 <? value_count_for_key vm "set")%nat then
          v ← value_for_key vm "set"; Ok (MkCliConfiguration b c_set p v)
        else if (0 <? value_count_for_key vm "test")%nat then Ok (MkCliConfiguration b c_test p "")
        else Ok (MkCliConfiguration b c_unknown p "")
  end.

(** What the client prints. *)
Inductive Line : Type :=
| ServiceIs (s : State)
| ServiceOnline (b : bool)
| ReportsIds (b : bool)
| SatelliteBased (b : bool)
| Adjusting (p : Property) (text : string) (flag : bool)
| Succeeded | Failed
| SpaceVehicles (svs : list SV.SpaceVehicle)
| ClientApplications (apps : list string)
| NotSettable (p : Property)
| UnknownProperty
| Help.

(** The three properties a client may set. *)
Inductive Flag : Set := online_flag | ids_flag | satellite_flag.

(** What the client needs of the service's stub. *)
Class ServiceStub (W : Type) : Type := {
  get_state : M W State;
  get_flag : Flag -> M W bool;
  set_flag : Flag -> bool -> M W unit;
  get_space_vehicles : M W (list SV.SpaceVehicle);
  get_client_applications : M W (list string)
}.

Section Main.
Context {W : Type} `{ServiceStub W} (execute_runtime_tests : M W Z).

(** The service and what has been printed. *)
Definition Session : Type := W * list Line.
Definition on_service {A} (m : M W A) : M Session A :=
  fun '(w, out) => let '(r, w') := m w in (r, (w', out)).
Definition say (l : Line) : M Session unit := modify (fun '(w, out) => (w, out ++ [l])).

(** The branch [Command::set] of the three properties. *)
Definition adjust (p : Property) (f : Flag) (text : string) : M Session Z :=
  old ← on_service (get_flag f);
  let flag := extract_bool text old in
  say (Adjusting p text flag);;
  on_service (set_flag f flag);;
  now ← on_service (get_flag f);
  if negb (Bool.eqb now flag) then say Failed;; mret Daemon.EXIT_FAILURE
  else say Succeeded;; mret Daemon.EXIT_SUCCESS.

Definition case_is_online (config : CliConfiguration) : M Session Z :=
  match command config with
  | c_get => b ← on_service (get_flag online_flag); say (ServiceOnline b);; mret Daemon.EXIT_SUCCESS
  | c_set => adjust p_is_online online_flag (new_value config)
  | _ => mret Daemon.EXIT_SUCCESS
  end.

(** [Daemon::Cli::main]; the case of the state has no [break]. *)
Definition cli_main (config : CliConfiguration) : M Session Z :=
  match command config with
  | c_test => on_service execute_runtime_tests
  | _ =>
      match property config with
      | p_state =>
          match command config with
          | c_get => s ← on_service get_state; say (ServiceIs s)
          | _ => skip
          end;;
          case_is_online config
      | p_is_online => case_is_online config
      | p_does_report_wifi_and_cell_ids =>
          match command config with
          | c_get => b ← on_service (get_flag ids_flag); say (ReportsIds b);;
                     mret Daemon.EXIT_SUCCESS
          | c_set => adjust p_does_report_wifi_and_cell_ids ids_flag (new_value config)
          | _ => mret Daemon.EXIT_SUCCESS
          end
      | p_does_satellite_based_positioning =>
          match command config with
          | c_get => b ← on_service (get_flag satellite_flag); say (SatelliteBased b);;
                     mret Daemon.EXIT_SUCCESS
          | c_set => adjust p_does_satellite_based_positioning satellite_flag (new_value config)
          | _ => mret Daemon.EXIT_SUCCESS
          end
      | p_visible_space_vehicles =>
          match command config with
          | c_get => svs ← on_service get_space_vehicles; say (SpaceVehicles svs);; mret Daemon.EXIT_SUCCESS
          | c_set => say (NotSettable p_visible_space_vehicles);; say Help;; mret Daemon.EXIT_FAILURE
          | _ => mret Daemon.EXIT_SUCCESS
          end
      | p_client_applications =>
          match command config with
          | c_get => apps ← on_service get_client_applications; say (ClientApplications apps);;
                     mret Daemon.EXIT_SUCCESS
          | c_set => say (NotSettable p_client_applications);; say Help;; mret Daemon.EXIT_FAILURE
          | _ => mret Daemon.EXIT_SUCCESS
          end
      | p_unknown => say UnknownProperty;; say Help;; mret Daemon.EXIT_FAILURE
      end
  end.

(** [main] of [daemon_cli_main.cpp] *)
Definition daemon_cli_main (config : res CliConfiguration) (w : Session) : Daemon.Status * Session :=
  match config with
  | Throw e => (if is_runtime_error e then Daemon.Exit Daemon.EXIT_FAILURE else Daemon.Terminate e, w)
  | Ok config =>
      match cli_main config w with
      | (Ok _, w) => (Daemon.Exit Daemon.EXIT_SUCCESS, w)
      | (Throw e, w) =>
          (if is_std_exception e then Daemon.Exit Daemon.EXIT_FAILURE else Daemon.Terminate e, w)
      end
  end.

(** A stub that is answered: what it reads is what the service holds, and a value that
    is set is there afterwards, as long as the service is in a state of [inv]. *)
Class StubLaws (inv : W -> Prop) : Type := {
  flag_of : Flag -> W -> bool;
  get_flag_run : forall f w, get_flag f w = (Ok (flag_of f w), w);
  set_flag_run : forall f b w, inv w ->
    exists w', set_flag f b w = (Ok tt, w') /\ inv w' /\ flag_of f w' = b
}.

Lemma adjust_run `{!StubLaws inv} p f text w out :
  inv w ->
  let flag := extract_bool text (flag_of f w) in
  exists w', adjust p f text (w, out) =
               (Ok Daemon.EXIT_SUCCESS, (w', out ++ [Adjusting p text flag; Succeeded])) /\
             inv w' /\ flag_of f w' = flag.
Proof.
  intros Hw flag. destruct (set_flag_run f flag w Hw) as (w' & Es & Hw' & Ef).
  exists w'. split; [|done]. unfold adjust.
  rewrite (bind_run _ _ _ (flag_of f w) (w, out)) by (simpl; by rewrite get_flag_run).
  fold flag. rewrite (bind_run _ _ _ tt (w, out ++ [Adjusting p text flag])) by done.
  rewrite (bind_run _ _ _ tt (w', out ++ [Adjusting p text flag])) by (simpl; by rewrite Es).
  rewrite (bind_run _ _ _ flag (w', out ++ [Adjusting p text flag])) by (simpl; by rewrite get_flag_run, Ef).
  rewrite Bool.eqb_reflx. simpl. unfold mbind, m_bind, say, modify. simpl. by rewrite <- app_assoc.
Qed.

(** The property a setting acts on: the one named, and for [state] the next case. *)
Definition target (p : Property) : option (Property * Flag) :=
  match p with
  | p_state | p_is_online => Some (p_is_online, online_flag)
  | p_does_report_wifi_and_cell_ids => Some (p_does_report_wifi_and_cell_ids, ids_flag)
  | p_does_satellite_based_positioning =>
      Some (p_does_satellite_based_positioning, satellite_flag)
  | _ => None
  end.

(** what a setting of the command line client does to a service that answers.  The
    flag the text is read as is set, and read back, and success is reported; the text is
    [true] when its first word starts so, empty text keeps the value, and any other text
    switches the property off.  Setting [state], which is documented as read only, sets
    [is_online]. *)
Theorem cli_set_reaches_service `{!StubLaws inv} (b : WellKnownBus) (p q : Property) (f : Flag)
    (text : string) (w : W) (out : list Line) :
  inv w -> target p = Some (q, f) ->
  let flag := match skip_spaces text with
              | EmptyString => flag_of f w
              | t => String.prefix "true" t
              end in
  exists w', cli_main (MkCliConfiguration b c_set p text) (w, out) =
               (Ok Daemon.EXIT_SUCCESS, (w', out ++ [Adjusting q text flag; Succeeded])) /\
             inv w' /\ flag_of f w' = flag.
Proof.
  intros Hw Ht. destruct p; simpl in Ht; try discriminate; injection Ht as <- <-;
    exact (adjust_run _ _ text w out Hw).
Qed.

(** the exit status of the command line client does not tell.  Whatever code
    [Cli::main] returns, the executable ends with success: an unknown property or a
    property that cannot be set is reported as a failure by the one and as a success by
    the other, without touching the service. *)
Theorem cli_failures_exit_with_success (b : WellKnownBus) (p : Property) (text : string)
    (w : W) (out : list Line) :
  (forall config n w', cli_main config w' = (Ok n, w') -> (daemon_cli_main (Ok config) w').1 = Daemon.Exit Daemon.EXIT_SUCCESS) /\
  (target p = None ->
   let config := MkCliConfiguration b c_set p text in
   exists l, cli_main config (w, out) = (Ok Daemon.EXIT_FAILURE, (w, out ++ [l; Help])) /\
             daemon_cli_main (Ok config) (w, out) = (Daemon.Exit Daemon.EXIT_SUCCESS, (w, out ++ [l; Help]))).
Proof.
  split.
  - intros config n w' E. unfold daemon_cli_main. by rewrite E.
  - intros Ht. cbv zeta.
    assert (forall l, (say l;; say Help;; mret Daemon.EXIT_FAILURE) (w, out) =
                      (Ok Daemon.EXIT_FAILURE, (w, out ++ [l; Help]))) as Hs.
    { intros l. unfold mbind, m_bind, say, modify. simpl. by rewrite <- app_assoc. }
    destruct p; try discriminate; eexists; unfold daemon_cli_main, cli_main; cbn [command property]; by rewrite Hs.
Qed.
End Main.

(** ** The service itself as the other end *)
Section Service.
Context {S H X : Type} `{CP : !CoreProperty} `{BO : !BoostOptional} `{HS : !Settings S} `{HO : !Sync.HarvesterOps H X}.
Context `{SL : !SettingsLaws S Engine.engine_key} `{HL : !Sync.HarvesterLaws H X}.
Context (requirements : address -> Z) (reaction : Engine.Event -> option exn).
Context (bottom : M (Sync.World S H) unit) (n : nat) (svs : list SV.SpaceVehicle) (apps : list string).

(** The stub of a service whose assignments are those of the implementation.  The vehicles
    and the applications are not read from that world. *)
Definition service_stub : ServiceStub (Sync.World S H) := {|
  get_state := gets (fun w => Sync.state (Sync.members w));
  get_flag f := gets (fun w => match f with
                     | online_flag => Sync.is_online (Sync.members w)
                     | ids_flag => Sync.does_report_cell_and_wifi_ids (Sync.members w)
                     | satellite_flag => Sync.does_satellite_based_positioning (Sync.members w)
                     end);
  set_flag f b := Sync.step requirements reaction bottom n (match f with
                  | online_flag => Sync.SetOnline (X := X) b
                  | ids_flag => Sync.SetReport b
                  | satellite_flag => Sync.SetSatellite b
                  end);
  get_space_vehicles := mret svs;
  get_client_applications := mret apps
|}.

Definition service_flag (f : Flag) (w : Sync.World S H) : bool :=
  match f with
  | online_flag => Sync.is_online (Sync.members w)
  | ids_flag => Sync.does_report_cell_and_wifi_ids (Sync.members w)
  | satellite_flag => Sync.does_satellite_based_positioning (Sync.members w)
  end.

Lemma service_get_flag f w : get_flag (ServiceStub := service_stub) f w = (Ok (service_flag f w), w).
Proof. by destruct f. Qed.

Lemma service_set_flag f b w :
  (forall c, reaction c = None) -> Sync.sound (X := X) w ->
  exists w', set_flag (ServiceStub := service_stub) f b w = (Ok tt, w') /\ Sync.sound (X := X) w' /\
             service_flag f w' = b.
Proof.
  intros Hr Hw. destruct f;
    [destruct (Sync.step_ends requirements reaction Hr (Sync.SetOnline b) bottom n w Hw) as (w' & E & [])
    |destruct (Sync.step_ends requirements reaction Hr (Sync.SetReport b) bottom n w Hw) as (w' & E & [])
    |destruct (Sync.step_ends requirements reaction Hr (Sync.SetSatellite b) bottom n w Hw) as (w' & E & [])];
    by exists w'.
Qed.

Definition service_stub_laws (Hr : forall c, reaction c = None) :
  StubLaws (H := service_stub) (Sync.sound (X := X)) :=
  {| flag_of := service_flag; get_flag_run := service_get_flag;
     set_flag_run f b w Hw := service_set_flag f b w Hr Hw |}.
End Service.

(** The service of an engine with two providers. *)
#[local] Existing Instance Sync.switch_ops.
#[local] Existing Instance Sync.switch_laws.
Section Online.
Import Engine.Sample.
Definition sample_stub : ServiceStub (Sync.World store bool) :=
  service_stub (X := unit) needs_nothing no_reaction skip 0 [] [].
Definition sample_stub_laws : StubLaws (H := sample_stub) (Sync.sound (X := unit)) :=
  service_stub_laws (SL := Engine.sample_laws) needs_nothing no_reaction skip 0 [] [] (fun c => eq_refl).

Lemma sample_service_sound : Sync.sound (X := unit) (Sync.Sample.service on).
Proof.
  destruct (Sync.construct_ends (SL := Engine.sample_laws) (X := unit) needs_nothing no_reaction (fun c => eq_refl) skip 0
    disabled false (Sync.Sample.engine on)) as (w & E & Hw & _); [by split|done|].
  unfold Sync.Sample.service, exec. by rewrite E.
Qed.
End Online.
Abbreviation online_service := (Sync.Sample.service on).

(** Text that is no flag takes a service offline, through the property that cannot be set. *)
Lemma cli_set_reaches_service_witness :
  Sync.sound (X := unit) online_service /\
  exists w', cli_main (H := sample_stub) (mret 0)
      (MkCliConfiguration session c_set p_state "yes") (online_service, []) =
    (Ok Daemon.EXIT_SUCCESS, (w', [Adjusting p_is_online "yes" false; Succeeded])) /\
    Sync.is_online (Sync.members w') = false.
Proof.
  split; [exact sample_service_sound|].
  destruct (cli_set_reaches_service (H := sample_stub) (StubLaws0 := sample_stub_laws)
              (mret 0) session p_state p_is_online online_flag "yes" online_service [] sample_service_sound eq_refl)
    as (w' & E & _ & Ef).
  exists w'. split; [exact E|exact Ef].
Defined.

Lemma cli_failures_exit_with_success_witness :
  (daemon_cli_main (H := sample_stub) (mret 0)
     (Ok (MkCliConfiguration session c_set p_client_applications "")) (online_service, [])).1 =
  Daemon.Exit Daemon.EXIT_SUCCESS.
Proof.
  destruct (proj2 (cli_failures_exit_with_success (H := sample_stub) (mret 0) session
              p_client_applications "" online_service []) eq_refl) as (l & _ & E).
  cbv zeta in E. rewrite E. reflexivity.
Defined.
End Cli.
