(* ===== verification/Harvester.v ===== *)
(** Harvesting ([service/harvester.cpp], [service/demultiplexing_reporter.cpp],
    [service/ichnaea_reporter.cpp]): what the service sends to a location service of
    wifis and cells, and when. *)
From Stdlib Require Import ZArith Lia SpecFloat.
From stdpp Require Import base gmap strings list.
From S2P Require Import Prelude Floats Geometry RadioCell Connectivity Daemon.
Local Open Scope Z_scope.
#[local] Set Warnings "-register-all".

(** * JSON *)
Module Json.

Inductive Kind : Set := Jobject | Jarray | Jscalar.

(** The library of JSON values: what the wrapper relies on. *)
Class JsonC : Type := {
  json : Type;
  kind : json -> Kind;
  new_object : json;
  new_array : json;
  new_int : Z -> json;
  new_double : double -> json;
  new_string : string -> json;
  object_add : json -> string -> json -> json;
  object_get : json -> string -> option json;
  array_add : json -> json -> json;
  array_items : json -> list json;
  kind_new_object : kind new_object = Jobject;
  kind_new_array : kind new_array = Jarray;
  kind_object_add : forall o k v, kind (object_add o k v) = kind o;
  kind_array_add : forall a v, kind (array_add a v) = kind a;
  get_new : forall k, object_get new_object k = None;
  get_add : forall o k v, kind o = Jobject -> object_get (object_add o k v) k = Some v;
  get_add_ne : forall o k k' v, kind o = Jobject -> k <> k' ->
    object_get (object_add o k v) k' = object_get o k';
  items_new : array_items new_array = [];
  items_add : forall a v, kind a = Jarray -> array_items (array_add a v) = array_items a ++ [v]
}.

Section Wrapper.
Context `{JsonC}.

Definition create_object : json := new_object.
Definition create_array : json := new_array.

Definition put_array (this : json) (name : string) (array : json) : json := object_add this name array.
Definition put_int32 (this : json) (name : string) (value : Z) : json := object_add this name (new_int value).
Definition put_double (this : json) (name : string) (value : double) : json :=
  object_add this name (new_double value).
Definition put_string (this : json) (name : string) (value : string) : json :=
  object_add this name (new_string value).

(** [Object::append] *)
Definition append (this other : json) : res json :=
  match kind this with
  | Jarray => Ok (array_add this other)
  | _ => Throw (logic_error "Type mismatch.")
  end.

Definition get (this : json) (name : string) : res json :=
  match object_get this name with
  | Some v => Ok v
  | None => Throw (out_of_range name)
  end.

(** Objects, and what a member of them holds after a [put]. *)
Lemma get_put o k v k' :
  kind o = Jobject ->
  object_get (object_add o k v) k' = if decide (k = k') then Some v else object_get o k'.
Proof. intros Ho. case_decide as E; [subst; by apply get_add|by apply get_add_ne]. Qed.
End Wrapper.

(** ** Values that behave so *)

Inductive Value : Type :=
| VObject (l : list (string * Value))
| VArray (l : list Value)
| VInt (z : Z)
| VDouble (d : double)
| VString (s : string).

Fixpoint assoc_get (l : list (string * Value)) (k : string) : option Value :=
  match l with
  | [] => None
  | (k', v) :: l => if decide (k' = k) then Some v else assoc_get l k
  end.

Fixpoint assoc_put (l : list (string * Value)) (k : string) (v : Value) : list (string * Value) :=
  match l with
  | [] => [(k, v)]
  | (k', v') :: l => if decide (k' = k) then (k, v) :: l else (k', v') :: assoc_put l k v
  end.

Lemma assoc_get_put l k v k' :
  assoc_get (assoc_put l k v) k' = if decide (k = k') then Some v else assoc_get l k'.
Proof.
  induction l as [|[k0 v0] l IH]; simpl; [done|].
  destruct (decide (k0 = k)) as [->|Hn]; simpl.
  - by destruct (decide (k = k')).
  - rewrite IH. destruct (decide (k0 = k')) as [<-|]; [|done]. by destruct (decide (k = k0)).
Qed.

#[refine] Definition values : JsonC := {|
  json := Value;
  kind v := match v with VObject _ => Jobject | VArray _ => Jarray | _ => Jscalar end;
  new_object := VObject [];
  new_array := VArray [];
  new_int := VInt;
  new_double := VDouble;
  new_string := VString;
  object_add o k v := match o with VObject l => VObject (assoc_put l k v) | _ => o end;
  object_get o k := match o with VObject l => assoc_get l k | _ => None end;
  array_add a v := match a with VArray l => VArray (l ++ [v]) | _ => a end;
  array_items a := match a with VArray l => l | _ => [] end
|}.
Proof.
  all: try done.
  - by intros [].
  - by intros [].
  - intros [] k v; try done. intros _. rewrite assoc_get_put. by destruct (decide (k = k)).
  - intros [] k k' v; try done. intros _ Hn. rewrite assoc_get_put. by destruct (decide (k = k')).
  - by intros [].
Defined.
End Json.

(** * The reporter of the Mozilla location service *)
Module Ichnaea.
Import Json Bounded Cached.

Definition resource : string := "/v1/submit?key=".
Definition success : Z := 204.
Definition nick_name_header : string := "X-Nickname".

Definition key_radio : string := "radio".
Definition key_lat : string := "lat".
Definition key_lon : string := "lon".
Definition key_accuracy : string := "accuracy".
Definition key_altitude : string := "altitude".
Definition key_altitude_accuracy : string := "altitude_accuracy".
Definition key_items : string := "items".
Definition key_cell : string := "cell".
Definition key_wifi : string := "wifi".

(** The members of [Json::Cell]. *)
Definition cell_key (m : Member) : string :=
  match m with
  | MCC => "mcc" | MNC => "mnc" | AREA => "lac" | ID => "cid" | PID => "psc" | STRENGTH => "asu"
  end.
(** The members of [Json::Wifi] that are written. *)
Definition wifi_frequency : string := "frequency".
Definition wifi_key : string := "key".

(** ** The requests *)
Record Configuration : Type := MkConfiguration { uri : string; api_key : string; nick_name : string }.

Record RequestConfiguration : Type := MkRequest {
  request_uri : string;
  verify_host : bool;
  verify_peer : bool;
  header : list (string * string)
}.

(** [Reporter::Reporter] *)
Definition submit_request_config (c : Configuration) : RequestConfiguration :=
  MkRequest (uri c +:+ (resource +:+ api_key c)) false false
    (if String.eqb (nick_name c) "" then [] else [(nick_name_header, nick_name c)]).

#[export] Instance Member_eq_dec : EqDecision Member.
Proof. solve_decision. Defined.

Section Reporter.
Context `{JsonC}.

(** [convert_wifis_to_json] *)
Definition is_nomap (wifi : Wifi.Network) : bool :=
  match Text.find_ "_nomap" (Wifi.ssid wifi) with Some _ => true | None => false end.

Definition wifi_to_json (wifi : Wifi.Network) : json :=
  let w := put_string create_object wifi_key (Wifi.bssid wifi) in
  if is_valid Wifi.frequency_bounds (Wifi.frequency wifi)
  then put_int32 w wifi_frequency (Wifi.frequency wifi) else w.

Fixpoint convert_wifis_to_json (wifis : list Wifi.Network) (destination : json) : res json :=
  match wifis with
  | [] => Ok destination
  | wifi :: wifis =>
      if is_nomap wifi then convert_wifis_to_json wifis destination
      else destination ← append destination (wifi_to_json wifi);
           convert_wifis_to_json wifis destination
  end.

(** A connected cell: its technology and the details of that technology. *)
Definition Cell : Type := Type_ * Detail.

(** [if (details.m.is_valid()) c.put_int32(key, details.m.get());] *)
Definition put_member (t : Type_) (d : Detail) (c : json) (m : Member) : json :=
  if is_valid (bounds t m) (member t m d) then put_int32 c (cell_key m) (member t m d) else c.

Definition radio_name (t : Type_) : string :=
  match t with gsm => "gsm" | umts => "umts" | lte => "lte" | unknown => "" end.

Definition cell_to_json (cell : Cell) : json :=
  let '(t, d) := cell in
  match t with
  | unknown => create_object
  | _ => fold_left (put_member t d) (members t) (put_string create_object key_radio (radio_name t))
  end.

Fixpoint convert_cells_to_json (cells : list Cell) (destination : json) : res json :=
  match cells with
  | [] => Ok destination
  | cell :: cells =>
      destination ← append destination (cell_to_json cell);
      convert_cells_to_json cells destination
  end.

Definition put_optional (item : json) (key : string) (o : option double) : json :=
  match o with Some v => put_double item key v | None => item end.

(** The document [report] submits. *)
Definition document (update : Update Geometry.Position) (wifis : list Wifi.Network)
    (cells : list Cell) : res json :=
  let p := value update in
  let item := put_string create_object key_radio "gsm" in
  let item := put_double item key_lat (latitude p) in
  let item := put_double item key_lon (longitude p) in
  let item := put_optional item key_accuracy (horizontal p) in
  let item := put_optional item key_altitude (altitude p) in
  let item := put_optional item key_altitude_accuracy (vertical p) in
  item ← match wifis with
         | [] => Ok item
         | _ => w ← convert_wifis_to_json wifis create_array; Ok (put_array item key_wifi w)
         end;
  item ← match cells with
         | [] => Ok item
         | _ => c ← convert_cells_to_json cells create_array; Ok (put_array item key_cell c)
         end;
  items ← append create_array item;
  Ok (put_array create_object key_items items).

(** ** Lemmas *)

Lemma kind_put_optional item k o : kind (put_optional item k o) = kind item.
Proof. destruct o; [apply kind_object_add|done]. Qed.

Lemma get_put_optional item k o k' :
  kind item = Jobject ->
  object_get (put_optional item k o) k' =
  if decide (k = k') then match o with Some v => Some (new_double v) | None => object_get item k' end
  else object_get item k'.
Proof.
  intros Hi. unfold put_optional, put_double. destruct o; [by rewrite get_put|]. by case_decide.
Qed.

Lemma convert_wifis wifis a :
  kind a = Jarray ->
  exists b, convert_wifis_to_json wifis a = Ok b /\ kind b = Jarray /\
            array_items b = array_items a ++ map wifi_to_json (filter (fun n => is_nomap n = false) wifis).
Proof.
  revert a. induction wifis as [|n wifis IH]; intros a Ha; simpl.
  - exists a. by rewrite app_nil_r.
  - destruct (is_nomap n) eqn:E.
    + destruct (IH a Ha) as (b & -> & Hb & Hi). exists b. rewrite filter_cons_False by (by rewrite E). done.
    + unfold append. rewrite Ha. simpl.
      destruct (IH (array_add a (wifi_to_json n))) as (b & -> & Hb & Hi); [by rewrite kind_array_add|].
      exists b. rewrite filter_cons_True by done. split_and!; [done..|].
      rewrite Hi, items_add by done. by rewrite <- app_assoc.
Qed.

Lemma convert_cells cells a :
  kind a = Jarray ->
  exists b, convert_cells_to_json cells a = Ok b /\ kind b = Jarray /\
            array_items b = array_items a ++ map cell_to_json cells.
Proof.
  revert a. induction cells as [|c cells IH]; intros a Ha; simpl.
  - exists a. by rewrite app_nil_r.
  - unfold append. rewrite Ha. simpl.
    destruct (IH (array_add a (cell_to_json c))) as (b & -> & Hb & Hi); [by rewrite kind_array_add|].
    exists b. split_and!; [done..|]. rewrite Hi, items_add by done. by rewrite <- app_assoc.
Qed.

(** The member of a cell's object for [m]. *)
Lemma cell_member t d m :
  t <> unknown -> m ∈ members t ->
  object_get (cell_to_json (t, d)) (cell_key m) =
  if is_valid (bounds t m) (member t m d) then Some (new_int (member t m d)) else None.
Proof.
  intros Ht Hm.
  assert (forall ms c, kind c = Jobject ->
    object_get (fold_left (put_member t d) ms c) (cell_key m) =
    if decide (m ∈ ms) then
      if is_valid (bounds t m) (member t m d) then Some (new_int (member t m d))
      else object_get c (cell_key m)
    else object_get c (cell_key m)) as Hf.
  { induction ms as [|m' ms IH]; intros c Hc; simpl; [done|].
    assert (kind (put_member t d c m') = Jobject) as Hk.
    { unfold put_member, put_int32. destruct (is_valid (bounds t m') _); [by rewrite kind_object_add|done]. }
    rewrite IH by done. unfold put_member.
    destruct (decide (m = m')) as [<-|Hne].
    - destruct (decide (m ∈ m :: ms)) as [_|Hn]; [|by destruct Hn; left].
      destruct (is_valid (bounds t m) (member t m d)); [|by destruct (decide (m ∈ ms))].
      unfold put_int32. rewrite get_put by done.
      destruct (decide (cell_key m = cell_key m)) as [_|Hn]; [|by destruct Hn]. by destruct (decide (m ∈ ms)).
    - assert (forall x, object_get (if is_valid (bounds t m') (member t m' d)
                                    then put_int32 c (cell_key m') x else c) (cell_key m) =
                        object_get c (cell_key m)) as ->.
      { intros x. destruct (is_valid (bounds t m') _); [|done]. unfold put_int32. rewrite get_put by done.
        rewrite decide_False; [done|]. by destruct m, m'. }
      destruct (decide (m ∈ ms)) as [Hi|Hi], (decide (m ∈ m' :: ms)) as [Hj|Hj]; try done.
      + by destruct Hj; right.
      + apply elem_of_cons in Hj as [Hj|Hj]; done. }
  assert (kind (put_string create_object key_radio (radio_name t)) = Jobject) as Hk.
  { unfold put_string. rewrite kind_object_add. apply kind_new_object. }
  assert (object_get (put_string create_object key_radio (radio_name t)) (cell_key m) = None) as Hn.
  { unfold put_string. rewrite get_put by apply kind_new_object.
    rewrite decide_False by (by destruct m). apply get_new. }
  assert (cell_to_json (t, d) =
          fold_left (put_member t d) (members t) (put_string create_object key_radio (radio_name t))) as ->
    by by destruct t.
  rewrite Hf, Hn by done. by rewrite decide_True.
Qed.

(** What [object_get] finds in a chain of puts. *)
Ltac kinds := repeat first
  [ rewrite kind_object_add | rewrite kind_put_optional | apply kind_new_object ].
Ltac lookups :=
  unfold put_array, put_string, put_double, put_int32, create_object;
  repeat first
    [ rewrite get_put by kinds | rewrite get_put_optional by kinds | rewrite get_new
    | rewrite decide_True by reflexivity | rewrite decide_False by discriminate ];
  try done.

Lemma document_total u wifis cells : exists d, document u wifis cells = Ok d.
Proof.
  destruct (convert_wifis wifis create_array kind_new_array) as (wa & Ew & _).
  destruct (convert_cells cells create_array kind_new_array) as (ca & Ec & _).
  unfold document, append, create_array in *. rewrite Ew, Ec, kind_new_array.
  destruct wifis, cells; simpl; by eexists.
Qed.

(** The item of the document, with the arrays that were made for it. *)
Definition position_item (p : Geometry.Position) : json :=
  put_optional (put_optional (put_optional
    (put_double (put_double (put_string create_object key_radio "gsm") key_lat (latitude p)) key_lon (longitude p))
    key_accuracy (horizontal p)) key_altitude (altitude p)) key_altitude_accuracy (vertical p).
Definition with_array {A} (xs : list A) (item : json) (key : string) (array : json) : json :=
  match xs with [] => item | _ => put_array item key array end.

Lemma kind_position_item p : kind (position_item p) = Jobject.
Proof. unfold position_item, put_double, put_string, create_object. kinds. Qed.

Lemma kind_with_array {A} (xs : list A) item key array : kind (with_array xs item key array) = kind item.
Proof. destruct xs; [done|]. apply kind_object_add. Qed.

Lemma get_with_array {A} (xs : list A) item key array k :
  kind item = Jobject ->
  object_get (with_array xs item key array) k =
  if decide (key = k) then match xs with [] => object_get item k | _ => Some array end else object_get item k.
Proof. intros Hk. destruct xs; simpl; [by case_decide|]. unfold put_array. by rewrite get_put. Qed.

Lemma document_shape u wifis cells wa ca :
  convert_wifis_to_json wifis create_array = Ok wa -> convert_cells_to_json cells create_array = Ok ca ->
  document u wifis cells = Ok (put_array create_object key_items (array_add create_array
    (with_array cells (with_array wifis (position_item (value u)) key_wifi wa) key_cell ca))).
Proof.
  intros Ew Ec. unfold document, append, create_array in *. rewrite Ew, Ec, kind_new_array.
  by destruct wifis, cells.
Qed.

Lemma wifi_member n : object_get (wifi_to_json n) wifi_key = Some (new_string (Wifi.bssid n)).
Proof.
  unfold wifi_to_json.
  assert (object_get (put_string create_object wifi_key (Wifi.bssid n)) wifi_key =
          Some (new_string (Wifi.bssid n))) as Hk by lookups.
  destruct (is_valid _ _); [|exact Hk]. unfold put_int32.
  rewrite get_put by (unfold put_string; kinds). by rewrite decide_False.
Qed.

(** C19: what is submitted is the measurement, and nothing marked with [_nomap].  A
    report never fails; the document has one item with the coordinates of the position,
    each optional value exactly when the position has it, and, when anything was visible
    or connected, one entry for each visible network whose name does not contain
    [_nomap], in order and with its hardware address, and one for each connected cell,
    in order and with exactly its valid members. *)
Theorem submission_is_the_measurement (u : Update Geometry.Position) (wifis : list Wifi.Network)
    (cells : list Cell) :
  exists d items item,
    document u wifis cells = Ok d /\
    object_get d key_items = Some items /\ array_items items = [item] /\
    object_get item key_lat = Some (new_double (latitude (value u))) /\
    object_get item key_lon = Some (new_double (longitude (value u))) /\
    object_get item key_accuracy = option_map new_double (horizontal (value u)) /\
    object_get item key_altitude = option_map new_double (altitude (value u)) /\
    object_get item key_altitude_accuracy = option_map new_double (vertical (value u)) /\
    option_map array_items (object_get item key_wifi) =
      match wifis with
      | [] => None
      | _ => Some (map wifi_to_json (filter (fun n => is_nomap n = false) wifis))
      end /\
    option_map array_items (object_get item key_cell) =
      match cells with [] => None | _ => Some (map cell_to_json cells) end /\
    (forall n, object_get (wifi_to_json n) wifi_key = Some (new_string (Wifi.bssid n))) /\
    (forall t c m, t <> unknown -> m ∈ members t ->
       object_get (cell_to_json (t, c)) (cell_key m) =
       if is_valid (bounds t m) (member t m c) then Some (new_int (member t m c)) else None).
Proof.
  destruct (convert_wifis wifis create_array kind_new_array) as (wa & Ew & _ & Hw).
  destruct (convert_cells cells create_array kind_new_array) as (ca & Ec & _ & Hc).
  unfold create_array in Hw, Hc. rewrite items_new in Hw, Hc. simpl in Hw, Hc.
  set (item := with_array cells (with_array wifis (position_item (value u)) key_wifi wa) key_cell ca).
  assert (forall k, object_get item k =
    if decide (key_cell = k) then match cells with [] => object_get (position_item (value u)) k | _ => Some ca end
    else if decide (key_wifi = k) then match wifis with [] => object_get (position_item (value u)) k | _ => Some wa end
    else object_get (position_item (value u)) k) as G.
  { intros k. unfold item. rewrite get_with_array by (by rewrite kind_with_array, kind_position_item).
    rewrite get_with_array by apply kind_position_item. by repeat case_decide; subst; destruct cells. }
  exists (put_array create_object key_items (array_add create_array item)), (array_add create_array item), item.
  split; [by apply document_shape|]. split; [lookups|]. split.
  { unfold create_array. rewrite items_add by apply kind_new_array. by rewrite items_new. }
  rewrite !G. unfold position_item. split_and!.
  - lookups.
  - lookups.
  - lookups; by destruct (horizontal (value u)).
  - lookups; by destruct (altitude (value u)).
  - lookups; by destruct (vertical (value u)).
  - destruct wifis; [by lookups|]. rewrite decide_False, decide_True by done. simpl. by rewrite <- Hw.
  - destruct cells; [by lookups|]. rewrite decide_True by done. simpl. f_equal. exact Hc.
  - apply wifi_member.
  - intros t c m Ht Hm. by apply cell_member.
Qed.
End Reporter.
End Ichnaea.

(** * Reporters and the harvester *)
Module Harvester.
Import Json.

(** [Harvester::Reporter], over a world [W]. *)
Record Reporter (W : Type) : Type := MkReporter {
  r_start : M W unit;
  r_stop : M W unit;
  r_report : Update Geometry.Position -> list Wifi.Network -> list Ichnaea.Cell -> M W unit
}.
Arguments MkReporter {W}.
Arguments r_start {W}.
Arguments r_stop {W}.
Arguments r_report {W}.

(** [NullReporter] of the daemon. *)
Definition NullReporter {W} : Reporter W := MkReporter skip skip (fun _ _ _ => skip).

(** [DemultiplexingReporter], over its set of reporters. *)
Definition DemultiplexingReporter {W} (reporters : list (Reporter W)) : Reporter W :=
  MkReporter (for_each reporters r_start) (for_each reporters r_stop)
             (fun update wifis cells => for_each reporters (fun r => r_report r update wifis cells)).

Section Harvester.
Context {W : Type}.

(** The connectivity manager answers from the world. *)
Record Configuration : Type := MkConfiguration {
  enumerate_visible_wireless_networks : W -> list Wifi.Network;
  enumerate_connected_radio_cells : W -> list Ichnaea.Cell;
  reporter : Reporter W;
  is_running : Cell W bool
}.

Context (config : Configuration).

(** The two enumerations collect what they are handed in vectors. *)
Definition report_position_update (update : Update Geometry.Position) : M W unit :=
  running ← read (is_running config);
  if negb running then skip
  else
    visible_wifis ← gets (enumerate_visible_wireless_networks config);
    connected_cells ← gets (enumerate_connected_radio_cells config);
    r_report (reporter config) update visible_wifis connected_cells.

Definition start : M W unit :=
  running ← read (is_running config);
  if (running : bool) then skip
  else write (is_running config) true;; r_start (reporter config).

Definition stop : M W unit :=
  running ← read (is_running config);
  if negb running then skip
  else write (is_running config) false;; r_stop (reporter config).

(** [~Harvester] *)
Definition destroy : M W unit := stop.
End Harvester.
Arguments Configuration : clear implicits.

(** ** The reporter of ichnaea over its http client *)
Section Ichnaea.
Context `{JsonC}.

(** The reporter's client: whether its worker thread is joinable, the documents posted,
    and whether a thread was overwritten while joinable, which ends the process. *)
Record World : Type := MkWorld {
  harvesting : bool;
  worker : bool;
  posted : list json;
  terminated : bool;
  visible : list Wifi.Network;
  connected : list Ichnaea.Cell
}.

Definition harvesting_cell : Cell World bool :=
  MkCell harvesting (fun b w => MkWorld b (worker w) (posted w) (terminated w) (visible w) (connected w)).
Definition worker_cell : Cell World bool :=
  MkCell worker (fun b w => MkWorld (harvesting w) b (posted w) (terminated w) (visible w) (connected w)).
Definition posted_cell : Cell World (list json) :=
  MkCell posted (fun p w => MkWorld (harvesting w) (worker w) p (terminated w) (visible w) (connected w)).
Definition terminated_cell : Cell World bool :=
  MkCell terminated (fun b w => MkWorld (harvesting w) (worker w) (posted w) b (visible w) (connected w)).

(** Assigning to a joinable [std::thread] calls [std::terminate]. *)
Definition ichnaea_start : M World unit :=
  joinable ← read worker_cell;
  if (joinable : bool) then write terminated_cell true else write worker_cell true.

Definition ichnaea_stop : M World unit :=
  joinable ← read worker_cell;
  when joinable (write worker_cell false).

Definition ichnaea_report (update : Update Geometry.Position) (wifis : list Wifi.Network)
    (cells : list Ichnaea.Cell) : M World unit :=
  submit ← lift (Ichnaea.document update wifis cells);
  p ← read posted_cell;
  write posted_cell (p ++ [submit]).

Definition ichnaea_reporter : Reporter World := MkReporter ichnaea_start ichnaea_stop ichnaea_report.

Definition configuration : Configuration World :=
  MkConfiguration visible connected ichnaea_reporter harvesting_cell.

(** What happens to a harvester: its operations and what the connectivity manager sees. *)
Inductive Event : Type :=
| Start | Stop
| Report (u : Update Geometry.Position)
| See (wifis : list Wifi.Network) (cells : list Ichnaea.Cell).

Definition step (e : Event) : M World unit :=
  match e with
  | Start => start configuration
  | Stop => stop configuration
  | Report u => report_position_update configuration u
  | See wifis cells => modify (fun w => MkWorld (harvesting w) (worker w) (posted w) (terminated w) wifis cells)
  end.

Definition history (es : list Event) (w : World) : World :=
  fold_left (fun w e => exec (step e) w) es w.

Definition idle : World := MkWorld false false [] false [] [].

(** The specification: the reports made while the harvester is switched on, each with
    what was visible and connected at that time. *)
Fixpoint measurements (on : bool) (wifis : list Wifi.Network) (cells : list Ichnaea.Cell)
    (es : list Event) : list (Update Geometry.Position * list Wifi.Network * list Ichnaea.Cell) :=
  match es with
  | [] => []
  | Start :: es => measurements true wifis cells es
  | Stop :: es => measurements false wifis cells es
  | See wifis cells :: es => measurements on wifis cells es
  | Report u :: es => (if on then [(u, wifis, cells)] else []) ++ measurements on wifis cells es
  end.

(** Whether the last switch was on. *)
Definition switched_on (es : list Event) (on : bool) : bool :=
  fold_left (fun on e => match e with Start => true | Stop => false | _ => on end) es on.

Lemma history_from es w :
  harvesting w = worker w -> terminated w = false ->
  let w' := history es w in
  harvesting w' = switched_on es (harvesting w) /\ worker w' = harvesting w' /\ terminated w' = false /\
  exists docs, posted w' = posted w ++ docs /\
    Forall2 (fun d '(u, n, c) => Ichnaea.document u n c = Ok d) docs
            (measurements (harvesting w) (visible w) (connected w) es).
Proof.
  revert w. induction es as [|e es IH]; intros [ha wo po te vi co]; simpl; intros <- ->.
  { split_and!; try done. exists []. rewrite app_nil_r. split; [done|constructor]. }
  unfold history in *. simpl.
  destruct e as [| |u|ns cs].
  - assert (exec (step Start) (MkWorld ha ha po false vi co) = MkWorld true true po false vi co) as ->
      by by destruct ha.
    by apply (IH (MkWorld true true po false vi co)).
  - assert (exec (step Stop) (MkWorld ha ha po false vi co) = MkWorld false false po false vi co) as ->
      by by destruct ha.
    by apply (IH (MkWorld false false po false vi co)).
  - destruct ha.
    + destruct (Ichnaea.document_total u vi co) as [d Ed].
      assert (exec (step (Report u)) (MkWorld true true po false vi co) =
              MkWorld true true (po ++ [d]) false vi co) as ->.
      { change (exec (ichnaea_report u vi co) (MkWorld true true po false vi co) =
                MkWorld true true (po ++ [d]) false vi co).
        unfold ichnaea_report. rewrite (exec_run _ _ _ d (MkWorld true true po false vi co)); [done|].
        unfold lift. by rewrite Ed. }
      destruct (IH (MkWorld true true (po ++ [d]) false vi co)) as (H1 & H2 & H3 & docs & H4 & H5); [done..|].
      split_and!; [done..|]. exists (d :: docs). split; [rewrite H4; simpl; by rewrite <- app_assoc|]. by constructor.
    + by apply (IH (MkWorld false false po false vi co)).
  - by apply (IH (MkWorld ha ha po false ns cs)).
Qed.

(** the harvester harvests when it is on, and only then.  Whatever the sequence of
    switches, reports and changes of what is visible, each report made while the
    harvester is on posts exactly one document, the one of that position and of what
    was visible and connected then, in order, and no other report posts any; the worker
    thread of the reporter runs exactly while the harvester is on, so that repeated
    switching never overwrites a running thread. *)
Theorem harvester_reports_while_on (es : list Event) :
  let w := history es idle in
  harvesting w = switched_on es false /\ worker w = harvesting w /\ terminated w = false /\
  Forall2 (fun d '(u, wifis, cells) => Ichnaea.document u wifis cells = Ok d)
          (posted w) (measurements false [] [] es).
Proof.
  destruct (history_from es idle) as (H1 & H2 & H3 & docs & H4 & H5); [done..|].
  split_and!; [done..|]. rewrite H4. exact H5.
Qed.

Definition home_and_away : list Wifi.Network :=
  [Wifi.MkNetwork 0 "00:11" "home_nomap" Wifi.infrastructure 2412 50;
   Wifi.MkNetwork 0 "22:33" "cafe" Wifi.infrastructure 2437 60].

(** Without the harvester's switch a second start would end the process. *)
Lemma reporter_started_twice : terminated (exec (ichnaea_start;; ichnaea_start) idle) = true.
Proof. reflexivity. Qed.
End Ichnaea.

(** A walk past a network that does not want to be mapped. *)
Definition walk : list Event :=
  [Report (MkUpdate Pos.default_position 1); Start; See home_and_away []; Start;
   Report (MkUpdate Pos.default_position 2); Stop; Report (MkUpdate Pos.default_position 3)].

Lemma harvester_reports_while_on_witness :
  Forall2 (fun d '(u, wifis, cells) => Ichnaea.document (H := values) u wifis cells = Ok d)
          (posted (H := values) (history (H := values) walk (idle (H := values))))
          [(MkUpdate Pos.default_position 2, home_and_away, [])].
Proof.
  destruct (harvester_reports_while_on (H := values) walk) as (_ & _ & _ & F). exact F.
Defined.

Lemma submission_is_the_measurement_witness :
  exists d items item a,
    Ichnaea.document (H := values) (MkUpdate Pos.default_position 2) home_and_away [] = Ok d /\
    object_get (JsonC := values) d "items" = Some items /\
    array_items (JsonC := values) items = [item] /\
    object_get (JsonC := values) item "wifi" = Some a /\
    array_items (JsonC := values) a =
      [VObject [("key", VString "22:33"); ("frequency", VInt 2437)]].
Proof.
  destruct (Ichnaea.submission_is_the_measurement (H := values) (MkUpdate Pos.default_position 2)
              home_and_away []) as (d & items & item & Ed & Ei & El & _ & _ & _ & _ & _ & Ew & _).
  exists d, items, item.
  destruct (object_get (JsonC := values) item Ichnaea.key_wifi) as [a|] eqn:Ea; [|discriminate].
  exists a. split; [exact Ed|]. split; [exact Ei|]. split; [exact El|]. split; [exact Ea|].
  injection Ew as Ew. exact Ew.
Defined.
End Harvester.
