(* ===== verification/ServiceProcess.v ===== *)
(** The service as one process ([service/implementation.cpp], [service/skeleton.cpp]): the
    world of [Synchronisation] with the harvester of [Harvester], configured with the
    reporter to ichnaea; the constructor's checks; what is submitted and what reaches the
    clients.  [Wiring] is what the components are made of, and the reporter that the
    daemon itself configures, which reports nothing. *)
From Stdlib Require Import ZArith Lia SpecFloat.
From stdpp Require Import base gmap strings list.
From S2P Require Import Prelude Floats Geometry UpdatePolicy Provider Property Settings Fusion Engine.
From S2P Require Import Service Synchronisation Connectivity Harvester.
Local Open Scope Z_scope.

Module Process.
Import Settings.Enums Sync.

(** * The harvester of the service *)
Section HarvesterOfService.
Context `{JC : !Json.JsonC}.

(** What a harvester sees: the networks and the connected cells. *)
Definition Surroundings : Type := list Wifi.Network * list Ichnaea.Cell.

#[export] Instance harvester_ops : HarvesterOps Harvester.World Surroundings := {|
  harvester_start := Harvester.step Harvester.Start;
  harvester_stop := Harvester.step Harvester.Stop;
  harvester_report u := Harvester.step (Harvester.Report u);
  harvester_sees x := Harvester.step (Harvester.See x.1 x.2);
  harvester_on := Harvester.harvesting
|}.

(** The harvester's own operations never throw, and only its switch switches it. *)
Lemma harvester_runs e h : exists h', Harvester.step e h = (Ok tt, h').
Proof.
  destruct h as [[] wo po te vi co], e; try (destruct wo; eexists; reflexivity).
  destruct (Ichnaea.document_total u vi co) as [d E].
  set (h := Harvester.MkWorld true wo po te vi co). eexists.
  change (Harvester.step (Harvester.Report u) h) with (Harvester.ichnaea_report u vi co h).
  unfold Harvester.ichnaea_report. unfold_m. rewrite E. reflexivity.
Qed.

Lemma harvester_switch e h :
  Harvester.harvesting (exec (Harvester.step e) h) =
  match e with Harvester.Start => true | Harvester.Stop => false | _ => Harvester.harvesting h end.
Proof.
  destruct h as [[] wo po te vi co], e; try (destruct wo; reflexivity).
  destruct (Ichnaea.document_total u vi co) as [d E].
  set (h := Harvester.MkWorld true wo po te vi co).
  change (exec (Harvester.step (Harvester.Report u)) h) with (exec (Harvester.ichnaea_report u vi co) h).
  unfold Harvester.ichnaea_report, exec. unfold_m. by rewrite E.
Qed.

#[export] Instance harvester_laws : HarvesterLaws Harvester.World Surroundings.
Proof.
  assert (forall e h, exists h', Harvester.step e h = (Ok tt, h') /\ Harvester.harvesting h' =
    match e with Harvester.Start => true | Harvester.Stop => false | _ => Harvester.harvesting h end) as Hs.
  { intros e h. destruct (harvester_runs e h) as [h' E]. exists h'. split; [exact E|].
    pose proof (harvester_switch e h) as Hh. unfold exec in Hh. by rewrite E in Hh. }
  split; intros; [apply (Hs Harvester.Start)|apply (Hs Harvester.Stop)|apply (Hs (Harvester.Report _))
                 |apply (Hs (Harvester.See _ _))].
Qed.
End HarvesterOfService.

Section Process.
Context {S : Type} `{CP : !CoreProperty} `{BO : !BoostOptional} `{HS : !Settings S} `{JC : !Json.JsonC}.
Variables (requirements : address -> Z) (reaction : Engine.Event -> option exn).
Abbreviation W := (World S Harvester.World).
Abbreviation ProcessEvent := (Event (X := Surroundings)).

(** * The life of the process *)

(** Assignments nest to a depth of six at most. *)
Definition too_deep : M W unit := throw (logic_error "nested assignments").
Definition step (e : ProcessEvent) : M W unit := Sync.step requirements reaction too_deep 0 e.
Definition run (es : list ProcessEvent) (w : W) : W := fold_left (fun w e => exec (step e) w) es w.
Definition construct : M W unit := Sync.construct requirements reaction too_deep 0.

(** An engine that no provider has reported to yet, and the objects around it before the
    body of the constructor. *)
Definition unheard (e : Engine.Engine S) : Engine.Engine S :=
  Engine.set_updates (Engine.MkUpdates None None None []) e.
Definition fresh (s : State) (e : Engine.Engine S) : W := Sync.fresh s Harvester.idle (unheard e).

(** The pointers of the configuration, each with whether it is set. *)
Record Pointers : Type := MkPointers { incoming : bool; outgoing : bool; engine : bool; permission_manager : bool }.

(** The checks at the head of the constructor's body. *)
Definition null_checks (c : Pointers) : res unit :=
  if negb (incoming c) then Throw (runtime_error "Cannot create service for null bus.")
  else if negb (outgoing c) then Throw (runtime_error "Cannot create service for null bus.")
  else if negb (engine c) then Throw (runtime_error "Cannot create service for null engine.")
  else if negb (permission_manager c)
  then Throw (runtime_error "Cannot create service for null permission manager.")
  else Ok tt.

(** The constructor with its initialisers, which connect slots to the engine's
    properties; [None] where they dereference a null pointer. *)
Definition create (c : Pointers) : M W (option unit) :=
  if negb (engine c) then mret None
  else lift (null_checks c);; construct;; mret (Some tt).

(** The check for a null engine comes too late: it is reached with an engine only. *)
Lemma null_engine_is_never_reported c :
  engine c = true ->
  null_checks c <> Throw (runtime_error "Cannot create service for null engine.").
Proof.
  unfold null_checks. intros ->. by destruct (incoming c), (outgoing c), (permission_manager c).
Qed.

(** * Lemmas *)

(** What a harvester is told of an event, given what the policy and the location were. *)
Definition observation (p : TimeBased.TimeBasedUpdatePolicy) (l : option (Update Geometry.Position))
    (e : ProcessEvent) : list Harvester.Event :=
  match e with
  | SetReport b => [if b then Harvester.Start else Harvester.Stop]
  | Position src =>
      let r := TimeBased.verify_position p src in
      if Engine.optional_neq Pos.position_eq l (Some r.1) then [Harvester.Report r.1] else []
  | See x => [Harvester.See x.1 x.2]
  | _ => []
  end.
Fixpoint observations (p : TimeBased.TimeBasedUpdatePolicy) (l : option (Update Geometry.Position))
    (es : list ProcessEvent) : list Harvester.Event :=
  match es with
  | [] => []
  | e :: es => observation p l e ++ observations (policy_after p e) (location_after p l e) es
  end.

(** Starting a harvester that runs, or stopping one that does not, changes nothing. *)
Lemma switch_idle b h :
  Harvester.harvesting h = b -> exec (Harvester.step (if b then Harvester.Start else Harvester.Stop)) h = h.
Proof. destruct h as [[] wo po te vi co]; intros <-; [done|by destruct wo]. Qed.

Section Submits.
Context `{SL : !SettingsLaws S Engine.engine_key}.
Hypothesis no_throw : forall c, reaction c = None.

(** One event: the harvester is told what [observation] says. *)
Lemma heard_observed e (w : W) :
  sound (X := Surroundings) w ->
  heard e w = Harvester.history (observation (Engine.update_policy w) (Engine.last_known_location (Engine.updates w)) e)
                (harvester (members w)).
Proof.
  intros [_ (_ & _ & On)]. destruct e; cbn [heard observation]; try done.
  - destruct (decide (does_report_cell_and_wifi_ids (members w) = b)) as [Eb|Hne].
    + rewrite bool_decide_true by done. symmetry. apply switch_idle. by rewrite <- Eb, <- On.
    + rewrite bool_decide_false by done. by destruct b.
  - by destruct (Engine.optional_neq _ _ _).
Qed.

Lemma run_observed es (w : W) :
  sound (X := Surroundings) w ->
  sound (X := Surroundings) (run es w) /\
  harvester (members (run es w)) =
    Harvester.history (observations (Engine.update_policy w) (Engine.last_known_location (Engine.updates w)) es)
      (harvester (members w)).
Proof.
  revert w. induction es as [|e es IH]; intros w Hw; [by split|].
  change (run (e :: es) w) with (run es (exec (step e) w)). unfold step.
  destruct (step_ends requirements reaction no_throw e too_deep 0 w Hw) as (w' & E & [Hs _ Hh Hp Hl]).
  unfold exec. rewrite E. cbn [snd]. destruct (IH w' Hs) as [Hs' Hh']. split; [exact Hs'|].
  rewrite Hh', Hh, Hp, Hl, heard_observed by done. unfold Harvester.history. cbn [observations]. by rewrite fold_left_app.
Qed.

(** What the constructor tells the harvester. *)
Definition configured (wifi : Wifi) : list Harvester.Event :=
  match wifi with wifi_on => [Harvester.Start] | wifi_off => [] end.
End Submits.

(** ** The vehicles *)

(** What the engine hands over, in order. *)
Fixpoint emitted (m : Vehicles) (es : list ProcessEvent) : list Vehicles :=
  match es with
  | [] => []
  | Sync.Svs u :: es => let m' := Engine.merge_svs (value u) m in m' :: emitted m' es
  | _ :: es => emitted m es
  end.
Fixpoint merged (m : Vehicles) (es : list ProcessEvent) : Vehicles :=
  match es with
  | [] => m
  | Sync.Svs u :: es => merged (Engine.merge_svs (value u) m) es
  | _ :: es => merged m es
  end.

(** What a task leaves for the clients. *)
Definition publish (shown svs : Vehicles) : Vehicles := if Sync.vehicles_neq shown svs then svs else shown.

Lemma merged_last es m : merged m es = List.last (emitted m es) m.
Proof.
  revert m. induction es as [|[] es IH]; intros m; simpl; auto. rewrite IH.
  destruct (emitted (Engine.merge_svs (value u) m) es) as [|x l] eqn:E; [done|].
  clear. generalize (Engine.merge_svs (value u) m). revert x.
  induction l as [|y l IH]; intros x d; [done|]. exact (IH y d).
Qed.

(** Constructing the service and the events that are not about vehicles leave them alone. *)
Lemma run_task_vehicles (w : W) :
  match dispatched (members w) with
  | [] => exec run_task w = w
  | svs :: ts => vehicles (exec run_task w) =
      ((vehicles w).1.1, ts, publish (visible_space_vehicles (members w)) svs)
  end.
Proof.
  unfold run_task, exec, publish. rewrite (bind_run (read dispatched_cell) _ w _ w eq_refl).
  change (rd dispatched_cell w) with (dispatched (members w)).
  destruct (dispatched (members w)) as [|svs ts]; [done|].
  rewrite (bind_run (write dispatched_cell ts) _ w tt (wr dispatched_cell ts w) eq_refl). unfold task.
  destruct (vehicles_neq (visible_space_vehicles (members w)) svs) eqn:N;
    [by rewrite (assign_differs _ visible_cell _ _ (wr dispatched_cell ts w) N)
    |by rewrite (assign_same _ visible_cell _ _ (wr dispatched_cell ts w) N)].
Qed.

Lemma too_deep_same v : preserves (fun w => vehicles w = v) too_deep.
Proof. apply preserves_throw. Qed.

Lemma step_vehicles e (w : W) m ds v :
  vehicles w = (m, ds, v) ->
  vehicles (exec (step e) w) =
  match e with
  | Svs u => (Engine.merge_svs (value u) m, ds ++ [Engine.merge_svs (value u) m], v)
  | RunTask => match ds with [] => (m, [], v) | svs :: ts => (m, ts, publish v svs) end
  | _ => (m, ds, v)
  end.
Proof.
  intros E. pose proof (same_step requirements reaction too_deep (m, ds, v) (too_deep_same _) 0 e) as Hs.
  destruct e; try exact (Hs I w E); injection E as <- <- <-; [done|].
  pose proof (run_task_vehicles w) as Ht. unfold step. cbn [Sync.step].
  destruct (dispatched (members w)) eqn:D; [|exact Ht]. rewrite Ht. unfold vehicles. by rewrite D.
Qed.

(** Tasks take the vehicles in the order in which they were handed over. *)
Lemma run_vehicles es (w : W) before m ds :
  vehicles w = (m, ds, fold_left publish before []) ->
  exists before' ds', vehicles (run es w) = (merged m es, ds', fold_left publish before' []) /\
    before ++ ds ++ emitted m es = before' ++ ds'.
Proof.
  revert w before m ds. induction es as [|e es IH]; intros w before m ds V.
  { exists before, ds. by rewrite app_nil_r. }
  change (run (e :: es) w) with (run es (exec (step e) w)). pose proof (step_vehicles e w _ _ _ V) as V'.
  destruct e; try (apply (IH _ before m ds V')).
  - destruct (IH _ before _ _ V') as (before' & ds' & H1 & H2). exists before', ds'. split; [exact H1|].
    rewrite <- H2. simpl. by rewrite <- !app_assoc.
  - destruct ds as [|svs ts]; [apply (IH _ before m [] V')|].
    destruct (IH (exec (step RunTask) w) (before ++ [svs]) m ts) as (before' & ds' & H1 & H2).
    { rewrite V'. by rewrite fold_left_app. }
    exists before', ds'. split; [exact H1|]. rewrite <- H2. simpl. by rewrite <- app_assoc.
Qed.

Lemma drained (w : W) m ds v :
  vehicles w = (m, ds, v) ->
  vehicles (run (replicate (length ds) RunTask) w) = (m, [], fold_left publish ds v).
Proof.
  revert w v. induction ds as [|svs ds IH]; intros w v V; [exact V|].
  change (run (replicate (length (svs :: ds)) RunTask) w)
    with (run (replicate (length ds) RunTask) (exec (step RunTask) w)).
  apply IH. exact (step_vehicles RunTask w _ _ _ V).
Qed.

Lemma publish_last ds v :
  fold_left publish ds v = List.last ds v \/ Sync.vehicles_eq (fold_left publish ds v) (List.last ds v) = true.
Proof.
  destruct ds as [|d ds _] using rev_ind; [by left|]. rewrite fold_left_app, List.last_last. simpl.
  generalize (fold_left publish ds v). intros shown. unfold publish, Sync.vehicles_neq.
  destruct (Sync.vehicles_eq shown d) eqn:E; simpl; [by right|by left].
Qed.

(** A later reading of the same vehicles that differs in the signal to noise ratio only. *)
Definition with_snr (snr : SV.Key -> float) (p : SV.Key * SV.SpaceVehicle) : SV.Key * SV.SpaceVehicle :=
  let '(k, v) := p in
  (k, SV.MkSV (SV.key v) (snr k) (SV.has_almanac_data v) (SV.has_ephimeris_data v) (SV.used_in_fix v)
        (SV.azimuth v) (SV.elevation v)).

Lemma roughly_equals_refl x : isfinite x = true -> SV.roughly_equals x x = true.
Proof.
  unfold SV.roughly_equals, dsub. destruct x as [[]|s| |s m e]; try done. intros _.
  replace (SFsub 53 1024 (S754_finite s m e) (S754_finite s m e)) with (S754_zero false); [done|].
  unfold SFsub. simpl. by rewrite Z.sub_diag.
Qed.

Lemma with_snr_eq snr m :
  Forall (fun p => isfinite (SV.azimuth p.2) = true /\ isfinite (SV.elevation p.2) = true) m ->
  Sync.vehicles_eq m (map (with_snr snr) m) = true.
Proof.
  induction 1 as [|[k v] m [Ha He] _ IH]; [done|]. simpl in *. unfold SV.sv_eq, SV.key_eq. simpl.
  rewrite !Z.eqb_refl, !Bool.eqb_reflx, !roughly_equals_refl by done. by rewrite IH.
Qed.

(** * Theorems *)

(** C14: what a service that reports to ichnaea submits is what its clients allowed and
    its providers measured.  Take the service of C13, configured with the reporter to
    ichnaea and a connectivity manager; the daemon itself configures a reporter that
    reports nothing.  Whatever clients set and ask for, providers deliver, the strand runs
    and the connectivity manager sees: the harvester runs exactly while the property that
    clients set allows it; and the reporter has posted one document for each position that
    the engine's policy let become a new last known location in that time, with the
    networks and cells of that moment, in order.  The providers, whose slots on the
    location run before the harvester's, are assumed not to throw. *)
Theorem service_submits_what_is_measured `{!SettingsLaws S Engine.engine_key} (s : State) (e : Engine.Engine S)
    (es : list ProcessEvent) :
  (forall c, reaction c = None) -> ready e ->
  let w := run es (exec construct (fresh s e)) in
  let seen := configured (Engine.wifi_and_cell_id_reporting_state (Engine.configuration e)) ++
              observations (Engine.update_policy e) None es in
  (forall ev, result (step ev) w = Ok tt) /\
  does_report_cell_and_wifi_ids (members w) = Harvester.switched_on seen false /\
  Harvester.harvesting (harvester (members w)) = Harvester.switched_on seen false /\
  Harvester.terminated (harvester (members w)) = false /\
  Forall2 (fun d '(u, wifis, cells) => Ichnaea.document u wifis cells = Ok d)
          (Harvester.posted (harvester (members w))) (Harvester.measurements false [] [] seen).
Proof.
  intros Hr He. cbv zeta. destruct (construct_ends requirements reaction Hr too_deep 0 s Harvester.idle (unheard e))
    as (w0 & E & S0 & H0 & P0 & L0); [exact He|done|].
  unfold construct, fresh, exec. rewrite E. cbn [snd].
  set (wifi := Engine.wifi_and_cell_id_reporting_state (Engine.configuration e)) in *.
  assert (harvester (members w0) = Harvester.history (configured wifi) Harvester.idle) as Hc.
  { rewrite H0. change (Engine.wifi_and_cell_id_reporting_state _) with wifi. by destruct wifi. }
  destruct (run_observed Hr es w0 S0) as [S1 H1]. rewrite P0, L0, Hc in H1.
  unfold Harvester.history in H1. rewrite <- fold_left_app in H1.
  destruct (Harvester.history_from (configured wifi ++ observations (Engine.update_policy e) None es) Harvester.idle eq_refl eq_refl)
    as (Hon & _ & Ht & docs & Hd & F).
  change (fold_left _ _ Harvester.idle) with
    (Harvester.history (configured wifi ++ observations (Engine.update_policy e) None es) Harvester.idle) in H1.
  split.
  { intros ev. destruct (step_ends requirements reaction Hr ev too_deep 0 _ S1) as (w' & Ee & _).
    unfold step, result. by rewrite Ee. }
  destruct S1 as [_ (_ & _ & S1)]. rewrite <- S1. unfold harvesting. simpl. rewrite H1.
  split_and!; [exact Hon|exact Hon|exact Ht|]. rewrite Hd. exact F.
Qed.

(** C15: the vehicles a client can read are the ones the providers reported, in order.
    What the property showed so far are the maps the engine handed over, the older ones;
    once the strand has run the tasks that wait, no task waits and the property equals, by
    the comparison of the code, the engine's map of all the vehicles reported.  That
    comparison leaves the signal to noise ratio out: a later reading of the same vehicles
    that differs in it alone never reaches a client. *)
Theorem vehicles_reach_clients (s : State) (e : Engine.Engine S)
    (es : list ProcessEvent) (snr : SV.Key -> float) (shown : Vehicles) :
  let w := run es (exec construct (fresh s e)) in
  let w' := run (replicate (length (dispatched (members w))) RunTask) w in
  (exists before, emitted [] es = before ++ dispatched (members w) /\
     result get_visible_space_vehicles w = Ok (fold_left publish before [])) /\
  dispatched (members w') = [] /\
  (visible_space_vehicles (members w') = merged [] es \/
   vehicles_eq (visible_space_vehicles (members w')) (merged [] es) = true) /\
  (Forall (fun p => isfinite (SV.azimuth p.2) = true /\ isfinite (SV.elevation p.2) = true) shown ->
   publish shown (map (with_snr snr) shown) = shown).
Proof.
  cbv zeta. set (w0 := exec construct (fresh s e)).
  assert (vehicles w0 = ([], [], fold_left publish [] [])) as V0.
  { apply (same_construct requirements reaction too_deep ([], [], []) (too_deep_same _) 0 (fresh s e)). done. }
  destruct (run_vehicles es w0 [] [] [] V0) as (before & ds & V & B). simpl in B.
  pose proof (drained _ _ _ _ V) as D. injection V as V1 V2 V3. rewrite V2.
  injection D as D1 D2 D3.
  split; [exists before; split; [exact B|]; unfold result; simpl; by rewrite V3|].
  split; [exact D2|]. split.
  - rewrite D3, <- fold_left_app, <- B, merged_last. apply publish_last.
  - intros F. unfold publish, vehicles_neq. by rewrite with_snr_eq.
Qed.

End Process.

(** A service with a gps vehicle in view, whose signal becomes stronger. *)
Definition seen_gps (snr : Z) : SV.SpaceVehicle :=
  SV.MkSV (SV.MkKey SV.gps 7) (f_of_Z snr) true true true (d_of_Z 120) (d_of_Z 45).
Definition in_view : Vehicles := [(SV.MkKey SV.gps 7, seen_gps 20)].

(** A client allows the reports, the device sees a network, moves, and a client forbids
    them again. *)
Definition outing : list (Event (X := Surroundings)) :=
  [Position (MkUpdate Pos.default_position 1); SetReport true; See (Harvester.home_and_away, []);
   Position (MkUpdate Pos.default_position 120000000001); SetReport false;
   Position (MkUpdate Pos.default_position 300000000001)].

Import Engine.Sample.

Lemma service_submits_what_is_measured_witness :
  ready (Sync.Sample.engine on) /\
  Forall2 (fun d '(u, wifis, cells) => Ichnaea.document (H := Json.values) u wifis cells = Ok d)
    (Harvester.posted (harvester (members (run (JC := Json.values) needs_nothing no_reaction outing
       (exec (construct (JC := Json.values) needs_nothing no_reaction) (fresh disabled (Sync.Sample.engine on)))))))
    [(MkUpdate Pos.default_position 120000000001, Harvester.home_and_away, [])].
Proof.
  assert (ready (Sync.Sample.engine on)) as Hr by (split; discriminate).
  split; [exact Hr|].
  exact (proj2 (proj2 (proj2 (proj2
    (service_submits_what_is_measured (JC := Json.values) (SettingsLaws0 := Engine.sample_laws) needs_nothing no_reaction
       disabled (Sync.Sample.engine on) outing (fun c => eq_refl) Hr))))).
Defined.

Lemma vehicles_reach_clients_witness :
  publish in_view (map (with_snr (fun _ => f_of_Z 44)) in_view) = in_view /\
  map (with_snr (fun _ => f_of_Z 44)) in_view <> in_view.
Proof.
  split; [|vm_compute; discriminate].
  apply (vehicles_reach_clients (JC := Json.values) needs_nothing no_reaction disabled (Sync.Sample.engine on) []
    (fun _ => f_of_Z 44) in_view).
  repeat constructor.
Defined.
End Process.

(** * What the components are made of *)
Module Wiring.

(** [SystemConfiguration::create_permission_manager], built with the trust store or
    without. *)
Definition create_permission_manager (enable_trust_store is_running_under_testing : bool)
    (agent : Z -> Z -> string -> Z -> string -> res Sessions.Answer) (own_pid own_uid : Z)
    : Sessions.Credentials -> Sessions.Result :=
  if enable_trust_store then Sessions.trust_store_check is_running_under_testing agent
  else Sessions.default_check own_pid own_uid.

Definition runtime_persistent_data_dir : string := "/var/lib/lomiri-location-service".

(** The default value of the option [config-file]. *)
Definition config_file : string := runtime_persistent_data_dir +:+ "/config.ini".

(** Without the trust store every client is granted. *)
Lemma default_grants_everyone testing agent p u c :
  create_permission_manager false testing agent p u c = Sessions.granted.
Proof. unfold create_permission_manager, Sessions.default_check. by destruct (_ || _). Qed.

(** The dummy connectivity manager enumerates nothing. *)
Definition dummy_enumerate_visible_wireless_networks {W} (w : W) : list Wifi.Network := [].
Definition dummy_enumerate_connected_radio_cells {W} (w : W) : list Ichnaea.Cell := [].

(** The harvester that [Daemon::main] configures. *)
Definition daemon_harvester {W} (is_running : Cell W bool) : Harvester.Configuration W :=
  Harvester.MkConfiguration dummy_enumerate_visible_wireless_networks dummy_enumerate_connected_radio_cells
    Harvester.NullReporter is_running.

(** It reports nothing, whether it runs or not. *)
Lemma daemon_reports_nothing {W} (is_running : Cell W bool) u w :
  Harvester.report_position_update (daemon_harvester is_running) u w = (Ok tt, w).
Proof. unfold Harvester.report_position_update. unfold_m. by destruct (rd is_running w). Qed.

Section Engine.
Import Settings.Enums.
Context {S : Type} `{CP : !CoreProperty} `{BO : !BoostOptional} `{HS : !Settings S}.
Variables (requirements : address -> Z) (reaction : Engine.Event -> option exn).

(** [DefaultConfiguration::the_engine]: the providers of a [std::set], in its order. *)
Definition the_engine (provider_set : list address) (policy : option address)
    (update_policy : TimeBased.TimeBasedUpdatePolicy) (heap : gmap address Engine.Node) (settings : option S)
    : res (Engine.Engine S) :=
  engine ← Engine.construct policy update_policy heap settings;
  match for_each provider_set (fun p => Engine.add_provider requirements reaction (Some p)) engine with
  | (Ok _, engine) => Ok engine
  | (Throw e, _) => Throw e
  end.

(** [DefaultConfiguration::the_provider_set] *)
Definition the_provider_set (seed : address) : list address := [seed].

Lemma add_all ps (w : Engine.Engine S) :
  for_each ps (fun p => Engine.add_provider requirements reaction (Some p)) w
  = (Ok tt, fold_left (fun w p => Engine.added requirements p w) ps w).
Proof.
  revert w. induction ps as [|p ps IH]; intros w; [done|]. cbn [for_each fold_left].
  rewrite (bind_run _ _ _ tt (Engine.added requirements p w) (Engine.add_provider_effect _ _ _ _)). apply IH.
Qed.

Lemma all_added ps (w : Engine.Engine S) :
  let w' := fold_left (fun w p => Engine.added requirements p w) ps w in
  Engine.providers w' = fold_left (fun s x => Policy.std_insert Nat.ltb x s) ps (Engine.providers w) /\
  Engine.wired w' = Engine.wired w ++ ps /\
  Engine.configuration w' = Engine.configuration w /\ Engine.events w' = Engine.events w.
Proof.
  revert w. induction ps as [|p ps IH]; intros w; [by rewrite app_nil_r|].
  destruct (IH (Engine.added requirements p w)) as (H1 & H2 & H3 & H4). cbn [fold_left].
  rewrite H1, H2, H3, H4. simpl. by rewrite <- app_assoc.
Qed.

(** Making an engine fails only as its constructor does; it then has the providers of the
    set, wired in order, in the configuration that was stored, and has called none. *)
Lemma the_engine_has_its_providers ps policy up heap settings w :
  Engine.construct (S := S) policy up heap settings = Ok w ->
  exists w', the_engine ps policy up heap settings = Ok w' /\
    Engine.providers w' = Policy.std_set Nat.ltb ps /\ Engine.wired w' = ps /\
    Engine.configuration w' = Engine.configuration w /\ Engine.events w' = [].
Proof.
  intros E. unfold the_engine. rewrite E. cbn [mbind res_bind]. rewrite add_all. eexists. split; [reflexivity|].
  assert (Engine.providers w = [] /\ Engine.wired w = [] /\ Engine.events w = []) as (P & Wi & Ev).
  { unfold Engine.construct in E. destruct policy, settings; try done.
    destruct (get_enum_for_key _ _ _) as [[] ?]; try done. destruct (get_enum_for_key _ _ _) as [[] ?]; try done.
    by injection E as <-. }
  destruct (all_added ps w) as (H1 & H2 & H3 & H4). by rewrite H1, H2, H3, H4, P, Wi, Ev.
Qed.

Lemma node_added_eq p (w : Engine.Engine S) :
  Engine.engine_state (Engine.configuration w) = off ->
  Engine.own (Engine.node (Engine.added requirements p w) p) = Controller.disabled_counters.
Proof.
  intros E. unfold Engine.added, Engine.kept_disabled. rewrite E, (bool_decide_true (off = off)), orb_true_r by done.
  change (Engine.node (Engine.set_providers ?a ?b ?c)) with (Engine.node c). by rewrite Engine.node_set_eq.
Qed.

(** Such an engine is what the service of [Synchronisation] expects, unless [active] was
    stored. *)
Lemma the_engine_is_ready ps policy up heap settings w w' :
  Engine.construct (S := S) policy up heap settings = Ok w ->
  Engine.engine_state (Engine.configuration w) <> active ->
  the_engine ps policy up heap settings = Ok w' -> Sync.ready w'.
Proof.
  intros E Ha Ew. unfold the_engine in Ew. rewrite E in Ew. cbn [mbind res_bind] in Ew. rewrite add_all in Ew.
  injection Ew as <-. destruct (all_added ps w) as (_ & _ & Hc & _). split; rewrite Hc; [done|]. intros Hoff.
  assert (forall a, a ∈ Engine.providers w -> Engine.own (Engine.node w a) = Controller.disabled_counters) as H0.
  { unfold Engine.construct in E. destruct policy, settings; try done.
    destruct (get_enum_for_key _ _ _) as [[] ?]; try done. destruct (get_enum_for_key _ _ _) as [[] ?]; try done.
    injection E as <-. intros b Hin. by apply elem_of_nil in Hin. }
  clear E Ha Hc. revert w Hoff H0. induction ps as [|p ps IH]; intros w Hoff H0; [done|]. cbn [fold_left].
  apply IH; [exact Hoff|]. intros a Hin. destruct (decide (p = a)) as [<-|Hne]; [by apply node_added_eq|].
  unfold Engine.added. change (Engine.node (Engine.set_providers ?x ?y ?z)) with (Engine.node z).
  rewrite Engine.node_set_ne by done. apply H0.
  apply list_elem_of_In, Engine.in_providers_added in Hin as [->|Hin]; [done|by apply list_elem_of_In].
Qed.
End Engine.
End Wiring.
