(* ===== verification/System.v ===== *)
(** What the service takes from the system it runs on: the boot time from [/proc/stat]
    ([time_since_boot.cpp], [connectivity/cached_wireless_network.cpp]), numbers from the
    environment ([connectivity/cached_radio_cell.cpp]) and the tests that run on a device
    ([service/runtime_tests.cpp]). *)
From Stdlib Require Import ZArith Lia Ascii String.
From stdpp Require Import base strings list pretty.
From S2P Require Import Prelude Daemon.
Local Open Scope Z_scope.

(** * Reading numbers and words from streams *)
Module Streams.

(** [std::getline] until it fails: the lines of a text; the text after the last newline
    is a line when it is not empty. *)
Fixpoint lines_of (s : string) : list string :=
  match s with
  | EmptyString => []
  | String c s' =>
      if Ascii.eqb c "010" then EmptyString :: lines_of s'
      else match lines_of s' with
           | [] => [String c EmptyString]
           | l :: ls => String c l :: ls
           end
  end.

(** [ss >> name] on a string: the characters up to the next white space, and the rest. *)
Fixpoint word (s : string) : string * string :=
  match s with
  | EmptyString => (EmptyString, EmptyString)
  | String c s' =>
      if Text.isspace c then (EmptyString, s)
      else let '(w, r) := word s' in (String c w, r)
  end.
Definition next_word (s : string) : string * string := word (Text.skip_spaces s).

(** The decimal digits at the head of a text. *)
Fixpoint digits (acc : option Z) (s : string) : option Z :=
  match s with
  | String c s' =>
      let n := Z.of_nat (nat_of_ascii c) - 48 in
      if (0 <=? n) && (n <=? 9) then digits (Some (10 * default 0 acc + n)) s' else acc
  | EmptyString => acc
  end.

Definition UINT64_MAX : Z := 2 ^ 64 - 1.

(** [std::uint64_t result; ss >> result], on a variable that holds [v]: nothing left
    leaves it; no digits give 0; too large a number is clamped; a minus sign negates. *)
Definition read_uint64 (v : Z) (s : string) : Z :=
  match Text.skip_spaces s with
  | EmptyString => v
  | String c s' =>
      let '(negative, text) :=
        if Ascii.eqb c "-" then (true, s') else if Ascii.eqb c "+" then (false, s') else (false, String c s') in
      match digits None text with
      | None => 0
      | Some d => if UINT64_MAX <? d then UINT64_MAX else if negative : bool then wrap_u 64 (- d) else d
      end
  end.

(** ** What is printed is read *)

Lemma digit_code (r : N) : (r < 10)%N -> Z.of_nat (nat_of_ascii (pretty_N_char r)) - 48 = Z.of_N r.
Proof.
  intros Hr.
  assert (r = 0 \/ r = 1 \/ r = 2 \/ r = 3 \/ r = 4 \/ r = 5 \/ r = 6 \/ r = 7 \/ r = 8 \/ r = 9)%N as C by lia.
  repeat (destruct C as [->|C]; [reflexivity|]). by subst.
Qed.

Lemma digits_char acc (r : N) t :
  (r < 10)%N -> digits acc (String (pretty_N_char r) t) = digits (Some (10 * default 0 acc + Z.of_N r)) t.
Proof.
  intros Hr. cbn [digits]. rewrite digit_code by done.
  rewrite (proj2 (Z.leb_le 0 _)) by lia. by rewrite (proj2 (Z.leb_le _ 9)) by lia.
Qed.

Lemma digits_pretty_go (x : N) :
  exists k, forall a s, digits (Some a) (pretty_N_go x s) = digits (Some (a * 10 ^ Z.of_nat k + Z.of_N x)) s.
Proof.
  induction (N.lt_wf_0 x) as [x _ IH].
  destruct (decide (0 < x)%N) as [Hx|Hx].
  2:{ exists 0%nat. intros a s. replace x with 0%N by lia. rewrite pretty_N_go_0. f_equal. f_equal. lia. }
  destruct (IH (x `div` 10)%N) as (k & E); [by apply N.div_lt|].
  exists (S k). intros a s. rewrite pretty_N_go_step by done. rewrite E, digits_char by (by apply N.mod_lt).
  f_equal. f_equal. cbn [from_option id]. rewrite Nat2Z.inj_succ, Z.pow_succ_r by lia.
  rewrite N2Z.inj_div, N2Z.inj_mod. change (Z.of_N 10) with 10. pose proof (Z.div_mod (Z.of_N x) 10 ltac:(lia)). lia.
Qed.

(** A number that is printed begins with a digit. *)
Lemma pretty_head (n : N) : exists r t, (r < 10)%N /\ pretty n = String (pretty_N_char r) t.
Proof.
  unfold pretty, pretty_N. destruct (decide (n = 0)%N) as [->|Hn]; [by exists 0%N, ""|].
  assert (forall x s, (0 < x)%N -> exists r t, (r < 10)%N /\ pretty_N_go x s = String (pretty_N_char r) t) as G.
  { intros x. induction (N.lt_wf_0 x) as [x _ IH]. intros s Hx. rewrite pretty_N_go_step by done.
    assert (x `mod` 10 < 10)%N as Hm by (by apply N.mod_lt).
    destruct (N.eq_0_gt_0_cases (x `div` 10)%N) as [Hd|Hd].
    - rewrite Hd, pretty_N_go_0. by exists (x `mod` 10)%N, s.
    - apply IH; [by apply N.div_lt|done]. }
  apply G. lia.
Qed.

Lemma digits_pretty (n : N) : digits None (pretty n) = Some (Z.of_N n).
Proof.
  assert (digits (Some 0) (pretty n) = Some (Z.of_N n)) as E.
  { unfold pretty, pretty_N. destruct (decide (n = 0)%N) as [->|Hn]; [done|].
    destruct (digits_pretty_go n) as (k & ->). done. }
  destruct (pretty_head n) as (r & t & Hr & P). rewrite P in *.
  rewrite digits_char in E by done. by rewrite digits_char by done.
Qed.

Lemma digit_char (P : ascii -> Prop) (r : N) :
  (r < 10)%N -> Forall P (map pretty_N_char [0; 1; 2; 3; 4; 5; 6; 7; 8; 9]%N) -> P (pretty_N_char r).
Proof.
  intros Hr F. rewrite List.Forall_forall in F. apply F, in_map.
  assert (r = 0 \/ r = 1 \/ r = 2 \/ r = 3 \/ r = 4 \/ r = 5 \/ r = 6 \/ r = 7 \/ r = 8 \/ r = 9)%N as C by lia.
  repeat (destruct C as [->|C]; [simpl; tauto|]). subst. simpl. tauto.
Qed.

Lemma read_pretty v (n : N) : Z.of_N n <= UINT64_MAX -> read_uint64 v (String " " (pretty n)) = Z.of_N n.
Proof.
  intros Hn. unfold read_uint64. change (Text.skip_spaces (String " " (pretty n))) with (Text.skip_spaces (pretty n)).
  pose proof (digits_pretty n) as D. destruct (pretty_head n) as (r & t & Hr & P). rewrite P in *.
  set (c := pretty_N_char r) in *.
  assert (Text.isspace c = false /\ Ascii.eqb c "-" = false /\ Ascii.eqb c "+" = false) as (H1 & H2 & H3).
  { apply (digit_char (fun c => Text.isspace c = false /\ Ascii.eqb c "-" = false /\ Ascii.eqb c "+" = false)); [done|].
    repeat constructor. }
  cbn [Text.skip_spaces]. rewrite H1, H2, H3, D. by rewrite (proj2 (Z.ltb_ge _ _)).
Qed.

End Streams.

(** * The boot time *)
Module BootTime.
Import Streams.

(** [std::chrono::seconds{ts}] from a [std::uint64_t], as nanoseconds of 64 bits. *)
Definition nanoseconds_of (ts : Z) : Z := wrap_s 64 (wrap_s 64 ts * 1000000000).

(** The loop over the lines of [/proc/stat], which both readers have: empty lines and those
    with another name are skipped; [v] is what the variable held before it was read. *)
Fixpoint find_btime (v : Z) (lines : list string) : option Z :=
  match lines with
  | [] => None
  | line :: lines =>
      if String.eqb line EmptyString then find_btime v lines
      else
        let '(name, rest) := next_word line in
        if negb (String.eqb name "btime") then find_btime v lines
        else Some (read_uint64 v rest)
  end.

(** [boot_time] of [time_since_boot.cpp]: [stat] is the text of the file; one that cannot be
    opened has no lines. *)
Definition boot_time (v : Z) (stat : option string) : res Z :=
  match find_btime v (lines_of (default EmptyString stat)) with
  | Some ts => Ok (nanoseconds_of ts)
  | None => Throw (runtime_error "Failed to determine system boot time.")
  end.

(** [boot_time] of [cached_wireless_network.cpp] falls back to the current time. *)
Definition boot_time_or_now (v : Z) (stat : option string) (now : Z) : Z :=
  match find_btime v (lines_of (default EmptyString stat)) with
  | Some ts => nanoseconds_of ts
  | None => now
  end.

(** What a call finds: the answer of [clock_gettime], an error or seconds and nanoseconds;
    the file; the variable; the system clock. *)
Record Environment : Type := MkEnvironment {
  clock_boottime : Z + Z * Z; stat : option string; held : Z; system_clock : Z
}.

Definition from_clock_boottime (e : Environment) : res Z :=
  match clock_boottime e with
  | inl errno => Throw (system_error errno)
  | inr (tv_sec, tv_nsec) => Ok (wrap_s 64 (wrap_s 64 (tv_sec * 1000000000) + tv_nsec))
  end.

(** The static variable [bt] of [from_proc_stat]: initialised by the first call that does
    not throw. *)
Definition from_proc_stat (e : Environment) : M (option Z) Z := fun bt =>
  match bt with
  | Some b => (Ok (wrap_s 64 (system_clock e - b)), bt)
  | None =>
      match boot_time (held e) (stat e) with
      | Ok b => (Ok (wrap_s 64 (system_clock e - b)), Some b)
      | Throw x => (Throw x, None)
      end
  end.

Definition time_since_boot (e : Environment) : M (option Z) Z :=
  try_catch (lift (from_clock_boottime e)) is_std_exception (fun _ => from_proc_stat e).

(** The results of calls, one after the other. *)
Fixpoint calls (es : list Environment) (bt : option Z) : list (res Z) :=
  match es with
  | [] => []
  | e :: es => result (time_since_boot e) bt :: calls es (exec (time_since_boot e) bt)
  end.

(** The static variable of [translate_time_stamp] of the wireless networks. *)
Definition translate_time_stamp (ts : Z) (e : Environment) : M (option Z) Z := fun booted =>
  let b := match booted with Some b => b | None => boot_time_or_now (held e) (stat e) (system_clock e) end in
  (Ok (wrap_s 64 (b + nanoseconds_of (wrap_u 64 ts))), Some b).

(** ** Lemmas *)

(** A line of the file that is not the one looked for. *)
Definition other_line (l : string) : Prop :=
  Text.contains "010" l = false /\ (next_word l).1 <> "btime".

Definition unlines (ls : list string) : string := foldr (fun l s => l +:+ String "010" s) EmptyString ls.

Lemma lines_of_line l s :
  Text.contains "010" l = false -> lines_of (l +:+ String "010" s) = l :: lines_of s.
Proof.
  induction l as [|c l IH]; intros H; [done|]. cbn [Text.contains] in H.
  apply orb_false_iff in H as [H1 H2].
  change (String c l +:+ String "010" s) with (String c (l +:+ String "010" s)). cbn [lines_of].
  rewrite Ascii.eqb_sym, H1, IH by done. done.
Qed.

Lemma lines_of_unlines ls s :
  Forall (fun l => Text.contains "010" l = false) ls -> lines_of (unlines ls +:+ s) = ls ++ lines_of s.
Proof.
  induction 1 as [|l ls Hl _ IH]; [done|]. simpl. rewrite Text.app_assoc_s.
  change (String "010" (unlines ls) +:+ s) with (String "010" (unlines ls +:+ s)).
  by rewrite lines_of_line, IH.
Qed.

Lemma lines_of_only ls : Forall (fun l => Text.contains "010" l = false) ls -> lines_of (unlines ls) = ls.
Proof. induction 1 as [|l ls Hl _ IH]; [done|]. simpl. by rewrite lines_of_line, IH. Qed.

Lemma other_lines ls : Forall other_line ls -> Forall (fun l => Text.contains "010" l = false) ls.
Proof. intros F. eapply Forall_impl; [exact F|]. by intros l []. Qed.

Lemma find_other v ls rest : Forall other_line ls -> find_btime v (ls ++ rest) = find_btime v rest.
Proof.
  induction 1 as [|l ls [_ Hn] _ IH]; [done|]. cbn [app find_btime]. rewrite IH.
  destruct (String.eqb l EmptyString); [done|]. destruct (next_word l) as [name r]. simpl in Hn.
  by apply String.eqb_neq in Hn as ->.
Qed.
Lemma pretty_one_line (n : N) : Text.contains "010" (pretty n) = false.
Proof.
  unfold pretty, pretty_N. destruct (decide (n = 0)%N) as [->|_]; [done|].
  assert (forall x s, Text.contains "010" (pretty_N_go x s) = Text.contains "010" s) as G; [|apply G].
  intros x. induction (N.lt_wf_0 x) as [x _ IH]. intros s.
  destruct (N.eq_0_gt_0_cases x) as [->|Hx]; [by rewrite pretty_N_go_0|].
  rewrite pretty_N_go_step by done. rewrite IH by (by apply N.div_lt). cbn [Text.contains].
  rewrite (digit_char (fun c => Ascii.eqb "010" c = false)); [done|by apply N.mod_lt|]. repeat constructor.
Qed.

(** The line that the kernel prints. *)
Definition btime_line (n : N) : string := "btime " +:+ pretty n.

Lemma find_btime_line v n rest :
  Z.of_N n <= UINT64_MAX -> find_btime v (btime_line n :: rest) = Some (Z.of_N n).
Proof.
  intros Hn. cbn [find_btime].
  change (next_word (btime_line n)) with ("btime"%string, String " " (pretty n)).
  change (String.eqb (btime_line n) EmptyString) with false. cbn [negb String.eqb Ascii.eqb Bool.eqb].
  by rewrite read_pretty.
Qed.

Lemma find_in_stat v before n after :
  Forall other_line before -> Z.of_N n <= UINT64_MAX ->
  find_btime v (lines_of (unlines before +:+ (btime_line n +:+ String "010" after))) = Some (Z.of_N n).
Proof.
  intros F Hn. rewrite lines_of_unlines by (by apply other_lines).
  rewrite lines_of_line by (cbn; apply pretty_one_line). rewrite find_other by done.
  by apply find_btime_line.
Qed.

Lemma nanoseconds_exact ts : 0 <= ts < 2 ^ 63 / 1000000000 -> nanoseconds_of ts = ts * 1000000000.
Proof.
  change (2 ^ 63 / 1000000000) with 9223372036. intros H. unfold nanoseconds_of.
  assert (forall z, 0 <= z < 9223372036000000000 -> wrap_s 64 z = z) as W.
  { intros z Hz. apply wrap_s_small; [done|]. change (2 ^ (64 - 1)) with 9223372036854775808. lia. }
  rewrite (W ts), W by lia. done.
Qed.

(** The boot time that the static variable of [time_since_boot.cpp] gets: from the first
    call for which the clock fails and the file can be read. *)
Fixpoint first_boot (es : list Environment) : option Z :=
  match es with
  | [] => None
  | e :: es =>
      match clock_boottime e, boot_time (held e) (stat e) with
      | inl _, Ok b => Some b
      | _, _ => first_boot es
      end
  end.

(** What a call answers when the variable was initialised with [b] before it, if it was. *)
Definition answer (b : option Z) (e : Environment) : res Z :=
  match from_clock_boottime e with
  | Ok t => Ok t
  | Throw _ =>
      match b with
      | Some b => Ok (wrap_s 64 (system_clock e - b))
      | None => Throw (runtime_error "Failed to determine system boot time.")
      end
  end.

Lemma boot_time_error v s x : boot_time v s = Throw x -> x = runtime_error "Failed to determine system boot time.".
Proof. unfold boot_time. destruct (find_btime _ _); congruence. Qed.

Lemma one_call e bt :
  let bt' := match bt with Some b => Some b | None => first_boot [e] end in
  time_since_boot e bt = (answer bt' e, bt').
Proof.
  unfold time_since_boot, try_catch, answer, from_clock_boottime, lift, from_proc_stat. simpl.
  destruct (clock_boottime e) as [errno|[s n]]; simpl; destruct bt as [b|]; simpl; try done.
  destruct (boot_time (held e) (stat e)) as [b|x] eqn:E; [done|]. by apply boot_time_error in E as ->.
Qed.

Lemma calls_from es bt :
  calls es bt =
  imap (fun i e => answer (match bt with Some b => Some b | None => first_boot (take (S i) es) end) e) es.
Proof.
  revert bt. induction es as [|e es IH]; intros bt; [done|]. cbn [calls imap].
  unfold result, exec. rewrite one_call. cbn [fst snd]. rewrite IH. f_equal.
  apply imap_ext. intros i e' _. unfold compose. destruct bt as [b|]; [done|]. simpl.
  by destruct (clock_boottime e), (boot_time (held e) (stat e)).
Qed.

(** the boot time of the kernel is read from [/proc/stat], by both readers alike.  In
    a file with a line ["btime n"], whatever lines without that name precede it and whatever
    follows, both find [n] seconds (not wrapped for times below 2^63 nanoseconds), and
    without such a line one throws and the other takes the current time. *)
Theorem boot_time_is_read (v now : Z) (before : list string) (n : N) (after : string) :
  Forall other_line before -> Z.of_N n < 2 ^ 63 / 1000000000 ->
  let text := Some (unlines before +:+ (btime_line n +:+ String "010" after)) in
  boot_time v text = Ok (Z.of_N n * 1000000000) /\
  boot_time_or_now v text now = Z.of_N n * 1000000000 /\
  boot_time v (Some (unlines before)) = Throw (runtime_error "Failed to determine system boot time.") /\
  boot_time_or_now v (Some (unlines before)) now = now.
Proof.
  change (2 ^ 63 / 1000000000) with 9223372036. intros F Hn. cbv zeta. unfold boot_time, boot_time_or_now. cbn [from_option id].
  rewrite find_in_stat by (done || (unfold UINT64_MAX; lia)).
  rewrite nanoseconds_exact by (change (2 ^ 63 / 1000000000) with 9223372036; lia).
  assert (find_btime v (lines_of (unlines before)) = None) as ->.
  { rewrite lines_of_only by (by apply other_lines).
    rewrite <- (app_nil_r before). by rewrite find_other. }
  done.
Qed.

(** The time since boot, call by call.  A call whose clock answers returns that; any
    other call subtracts from the system clock the boot time that the first of the calls
    without a clock could read, which no later call reads again; and it throws as long as
    none could. *)
Theorem time_since_boot_calls (es : list Environment) :
  calls es None = imap (fun i e => answer (first_boot (take (S i) es)) e) es.
Proof. apply calls_from. Qed.

Definition stat_before : list string := ["cpu  79242 0 74306 842486413"; ""; "ctxt 1990473"].

Lemma boot_time_is_read_witness :
  boot_time 99 (Some (unlines stat_before +:+ (btime_line 1062191376 +:+ String "010" "processes 2915")))
  = Ok 1062191376000000000.
Proof.
  refine (proj1 (boot_time_is_read 99 0 stat_before 1062191376 "processes 2915" _ _)).
  - repeat constructor; discriminate.
  - vm_compute. reflexivity.
Defined.
End BootTime.

(** * The environment of the radio cells *)
Module CellEnvironment.
Import Streams.

Section Environment.
(** [env::get]: the value of a variable, or the default when it is not set; what the local
    variable held before it was read. *)
Variables (get : string -> string -> string) (held : Z).

Definition also_apply_cell_change_heuristics_to_gsm_cells : bool :=
  String.eqb (get "COM_LOMIRI_LOCATION_CONNECTIVITY_DATA_CELL_FOR_GSM_TOO" "false") "true".

Definition timeout_in_seconds : Z :=
  wrap_s 64 (read_uint64 held (get "COM_LOMIRI_LOCATION_CONNECTIVITY_DATA_CELL_TIMEOUT" "60")).
End Environment.

(** A number that is set is used; a variable that is set to nothing leaves the result what
    it happened to be. *)
Lemma timeout_read (n : N) (held : Z) :
  Z.of_N n < 2 ^ 63 ->
  timeout_in_seconds (fun _ _ => String " " (pretty n)) held = Z.of_N n /\
  timeout_in_seconds (fun _ d => d) held = 60 /\
  timeout_in_seconds (fun _ _ => EmptyString) held = wrap_s 64 held.
Proof.
  intros Hn. unfold timeout_in_seconds. rewrite read_pretty by (unfold UINT64_MAX; lia).
  split; [|done]. apply wrap_s_small; [done|]. change (2 ^ (64 - 1)) with (2 ^ 63). lia.
Qed.
End CellEnvironment.

(** * The tests on a device *)
Module RuntimeTests.

(** The part of the hardware abstraction layer that the tests use; [wait_for_fix_for] is
    whether a position arrived in time. *)
Record Hal (W : Type) : Type := MkHal {
  create_default_instance : M W unit;
  set_assistance_mode_standalone : M W unit;
  delete_all_aiding_data : M W unit;
  start_positioning : M W bool;
  stop_positioning : M W bool;
  wait_for_fix_for : Z -> M W bool;
  now_in_microseconds : M W Z
}.
Arguments MkHal {W}.
Arguments create_default_instance {W}.
Arguments set_assistance_mode_standalone {W}.
Arguments delete_all_aiding_data {W}.
Arguments start_positioning {W}.
Arguments stop_positioning {W}.
Arguments wait_for_fix_for {W}.
Arguments now_in_microseconds {W}.

Section Tests.
Context {W : Type}.
(** The process and the device: the user, the shell commands, which answer, the hardware
    and the statistics that are printed. *)
Variables (getuid : W -> Z) (system : string -> M W Z) (hal : Hal W) (print_statistics : list Z -> M W unit).

(** [expect<expected, Exception>] *)
Definition expect (expected : bool) (exception : string -> exn) (value : bool) (what : string) : M W unit :=
  if Bool.eqb value expected then skip else throw (exception what).

Definition trials : nat := 3.

(** [Fixture]: its constructor and its destructor. *)
Definition set_up : M W unit :=
  uid ← gets getuid;
  expect true logic_error (uid =? 0) "This test has to be run as root.";;
  system "service lomiri-location-service stop";; skip.
Definition tear_down : M W unit := system "service lomiri-location-service start";; skip.

(** One trial: the microseconds to the first fix. *)
Definition trial : M W Z :=
  delete_all_aiding_data hal;;
  start ← now_in_microseconds hal;
  start_positioning hal;;
  fixed ← wait_for_fix_for hal (15 * 60);
  expect true runtime_error fixed "Wait for fix timed out.";;
  stop_positioning hal;;
  stop ← now_in_microseconds hal;
  mret (stop - start).

Fixpoint trials_from (n : nat) (stats : list Z) : M W (list Z) :=
  match n with
  | O => mret stats
  | Datatypes.S n => t ← trial; trials_from n (stats ++ [t])
  end.

Definition snr_and_ttff : M W Z :=
  create_default_instance hal;;
  set_assistance_mode_standalone hal;;
  stats ← trials_from trials [];
  print_statistics stats;;
  mret 0.

(** [execute_runtime_tests]: the fixture is destroyed on every way out, once it exists. *)
Definition torn_down (m : M W Z) : M W Z := fun w =>
  let (r, w') := m w in
  match tear_down w' with
  | (Ok _, w'') => (r, w'')
  | (Throw e, w'') => (Throw e, w'')
  end.
Definition execute_runtime_tests : M W Z := set_up;; torn_down snr_and_ttff.

(** Root, or nothing at all; with root, whatever happens on the device in between. *)
Lemma tests_restart_the_service w :
  (forall c, nothrow (system c)) ->
  (getuid w <> 0 ->
   execute_runtime_tests w = (Throw (logic_error "This test has to be run as root."), w)) /\
  (getuid w = 0 ->
   let stopped := exec (system "service lomiri-location-service stop") w in
   result execute_runtime_tests w = result snr_and_ttff stopped /\
   exec execute_runtime_tests w = exec (system "service lomiri-location-service start") (exec snr_and_ttff stopped)).
Proof.
  intros Hs. unfold execute_runtime_tests, torn_down, set_up, expect, tear_down. split; intros U; unfold_m.
  - by rewrite (proj2 (Z.eqb_neq _ _) U).
  - rewrite U. simpl. unfold result, exec.
    destruct (Hs "service lomiri-location-service stop" w) as [a Ha]. unfold result in Ha.
    destruct (system _ w) as [r w1]. simpl in *. subst r. simpl. unfold_m.
    destruct (snr_and_ttff w1) as [r2 w2]. simpl.
    destruct (Hs "service lomiri-location-service start" w2) as [b Hb]. unfold result in Hb.
    destruct (system _ w2) as [r3 w3]. simpl in *. by subst r3.
Qed.
End Tests.

(** A device whose first fix never comes. *)
Definition no_fix : Hal (list string) :=
  MkHal skip skip (modify (fun l => l ++ ["delete"]))
    (fun l => (Ok true, l ++ ["start"])) (fun l => (Ok true, l ++ ["stop"]))
    (fun _ => mret false) (mret 0).

(** A trial that times out leaves the hardware positioning. *)
Lemma timed_out_trial_keeps_positioning :
  execute_runtime_tests (fun _ => 0) (fun c l => (Ok 0, l ++ [c])) no_fix (fun _ => skip) []
  = (Throw (runtime_error "Wait for fix timed out."),
     ["service lomiri-location-service stop"; "delete"; "start"; "service lomiri-location-service start"]).
Proof. reflexivity. Qed.
End RuntimeTests.
