(* ===== verification/Providers.v ===== *)
(** The providers that come with the service: the dummy provider and its worker thread
    ([providers/dummy/provider.cpp], [delayed_provider.cpp]), gpsd
    ([providers/gpsd/provider.cpp]), geoclue ([providers/geoclue/provider.cpp]) and the
    provider around the gps hardware abstraction layer ([providers/gps/provider.cpp]). *)
From Stdlib Require Import ZArith Lia SpecFloat.
From stdpp Require Import base gmap strings list.
From S2P Require Import Prelude Floats Geometry Criteria Provider Daemon.
Local Open Scope Z_scope.

(** * The dummy provider *)
Module Dummy.
Import Options.

Definition key_update_period : string := "UpdatePeriodInMs".
Definition key_lat : string := "ReferenceLocationLat".
Definition key_lon : string := "ReferenceLocationLon".
Definition key_alt : string := "ReferenceLocationAlt".
Definition key_horizontal : string := "ReferenceHorizontalAccuracy".
Definition key_vertical : string := "ReferenceVerticalAccuracy".
Definition key_velocity : string := "ReferenceVelocity".
Definition key_heading : string := "ReferenceHeading".

Record DummyConfiguration : Type := MkDummyConfiguration {
  update_period : Z;
  reference_position : Geometry.Position;
  reference_velocity : double;
  reference_heading : double
}.

Section Create.
(** The translators of the property tree: text that is no number is [None]. *)
Context (to_int : string -> option Z) (to_double : string -> option double).

(** [config.get(key, default)] *)
Definition get_int (config : Tree) (key : string) (value : Z) : Z :=
  default value (config !! key ≫= to_int).
Definition get_double (config : Tree) (key : string) (value : Z) : double :=
  default (d_of_Z value) (config !! key ≫= to_double).

(** [config.count(key) > 0] decides whether an optional member is set. *)
Definition get_optional (config : Tree) (key : string) : option double :=
  if decide (is_Some (config !! key)) then Some (get_double config key 0) else None.

(** [create_instance]: the optional members keep the defaults of the configuration, of
    which only the altitude of the reference position has one. *)
Definition dummy_configuration (config : Tree) : res DummyConfiguration :=
  let period := get_int config key_update_period 500 in
  lat ← Wgs84.Latitude (get_double config key_lat 51);
  lon ← Wgs84.Longitude (get_double config key_lon 7);
  let alt := match get_optional config key_alt with Some a => Some a | None => Some (d_of_Z (-2)) end in
  Ok (MkDummyConfiguration period
        (MkPosition lat lon alt (get_optional config key_horizontal) (get_optional config key_vertical))
        (get_double config key_velocity 9) (get_double config key_heading 127)).

(** [DelayedProvider::create_instance]: the world is the time that has passed, in
    milliseconds; a delay that is not positive does not wait. *)
Definition key_delay : string := "DelayInMs".
Definition delayed_create_instance (config : Tree) : M Z DummyConfiguration :=
  modify (fun now => now + Z.max 0 (get_int config key_delay 0));;
  lift (dummy_configuration config).

(** It makes the provider that the dummy makes, or throws what it throws, but later. *)
Lemma delayed_is_the_dummy config now :
  delayed_create_instance config now = (dummy_configuration config, now + Z.max 0 (get_int config key_delay 0)).
Proof. done. Qed.
End Create.

(** ** The worker thread *)

(** [Private::State] *)
Inductive State : Set := started | stopping | stopped.

(** The thread object: empty, or a thread that has not run yet, loops, has left its loop,
    or has returned and can be joined. *)
Inductive Worker : Set := empty | created | looping | leaving | finished.

Record World : Type := MkWorld {
  state : State;
  stop_requested : bool;
  worker : Worker;
  joining : bool;          (* the caller waits in [worker.join()] *)
  rounds : nat;            (* rounds of the loop: each delivers three updates *)
  terminated : bool        (* [std::terminate] was called *)
}.

Definition joinable (w : Worker) : bool := match w with empty => false | _ => true end.

Definition fresh : World := MkWorld stopped false empty false 0 false.

(** [start_position_updates]: moving a thread into a joinable one terminates. *)
Definition start_position_updates (w : World) : World :=
  match state w with
  | stopped =>
      if joinable (worker w)
      then MkWorld (state w) false (worker w) (joining w) (rounds w) true
      else MkWorld (state w) false created (joining w) (rounds w) (terminated w)
  | _ => w
  end.

(** [stop_position_updates] *)
Definition stop_position_updates (w : World) : World :=
  match state w with
  | started => MkWorld stopping true (worker w) (joinable (worker w)) (rounds w) (terminated w)
  | _ => w
  end.

(** [~Provider]: after the stop, the worker is joined all the same. *)
Definition destroy (w : World) : World :=
  let w := stop_position_updates w in
  MkWorld (state w) (stop_requested w) (worker w) (joinable (worker w)) (rounds w) (terminated w).

(** One step of the worker's body. *)
Definition worker_step (w : World) : World :=
  match worker w with
  | created => MkWorld started (stop_requested w) looping (joining w) (rounds w) (terminated w)
  | looping =>
      if stop_requested w then MkWorld (state w) (stop_requested w) leaving (joining w) (rounds w) (terminated w)
      else MkWorld (state w) (stop_requested w) looping (joining w) (S (rounds w)) (terminated w)
  | leaving => MkWorld stopped (stop_requested w) finished (joining w) (rounds w) (terminated w)
  | empty | finished => w
  end.

(** The join returns once the thread has. *)
Definition join_step (w : World) : World :=
  match joining w, worker w with
  | true, finished => MkWorld (state w) (stop_requested w) empty false (rounds w) (terminated w)
  | _, _ => w
  end.

Definition work (n : nat) (w : World) : World := Nat.iter n worker_step w.

#[global] Arguments work : simpl never.

Lemma work_step n w : work (S n) w = work n (worker_step w).
Proof. unfold work. by rewrite Nat.iter_succ_r. Qed.

(** A loop that nobody stops. *)
Lemma work_forever n w :
  worker w = looping -> stop_requested w = false ->
  work n w = MkWorld (state w) false looping (joining w) (n + rounds w) (terminated w).
Proof.
  revert w. induction n as [|n IH]; intros [st sr wk jo ro te]; simpl; intros -> ->; [done|].
  rewrite work_step. simpl. rewrite IH by done. simpl. f_equal. lia.
Qed.

(** A thread that has returned stays so. *)
Lemma work_finished n w : worker w = finished -> work n w = w.
Proof. intros E. induction n as [|n IH]; [done|]. rewrite work_step. unfold worker_step. by rewrite E. Qed.

(** stopping the dummy provider.  Once its worker has begun, a stop ends it: after
    two more steps of the worker (and any number of further ones) the join returns, and
    the provider is as before its start, ready for the next one.  A stop that comes
    before the worker's first step is lost: the worker begins afterwards and delivers
    one round of updates after the other, for ever, and a destructor that comes that
    early never returns from its join. *)
Theorem dummy_stop (n k : nat) (w : World) :
  (state w = started -> worker w = looping -> joining w = false ->
   let w' := join_step (work (2 + n) (stop_position_updates w)) in
   state w' = stopped /\ worker w' = empty /\ joining w' = false /\ rounds w' = rounds w) /\
  (state w = stopped -> worker w = empty ->
   let lost := stop_position_updates (start_position_updates w) in
   let hung := destroy (start_position_updates w) in
   rounds (work (1 + k) lost) = (k + rounds w)%nat /\
   worker (work (1 + k) hung) = looping /\ joining (join_step (work (1 + k) hung)) = true).
Proof.
  destruct w as [st sr wk jo ro te]. cbn [state worker joining rounds]. split; cbv zeta.
  - intros -> -> ->. change (2 + n)%nat with (S (S n)). rewrite !work_step. by rewrite work_finished.
  - intros -> ->. change (1 + k)%nat with (S k). rewrite !work_step. by rewrite !work_forever.
Qed.

Lemma dummy_stop_witness :
  let running := work 3 (start_position_updates fresh) in
  state running = started /\ worker running = looping /\ joining running = false /\
  worker (join_step (work (2 + 0) (stop_position_updates running))) = empty /\
  state fresh = stopped /\ worker fresh = empty /\
  rounds (work (1 + 5) (stop_position_updates (start_position_updates fresh))) = (5 + 0)%nat.
Proof.
  split; [reflexivity|]. split; [reflexivity|]. split; [reflexivity|]. split.
  - exact (proj1 (proj2 (proj1 (dummy_stop 0 5 (work 3 (start_position_updates fresh)))
             eq_refl eq_refl eq_refl))).
  - split; [reflexivity|]. split; [reflexivity|].
    exact (proj1 (proj2 (dummy_stop 0 5 fresh) eq_refl eq_refl)).
Defined.

(** Two starts before the worker's first step end the process. *)
Lemma dummy_started_twice :
  terminated (start_position_updates (start_position_updates fresh)) = true.
Proof. reflexivity. Qed.
End Dummy.

(** * gpsd *)
Module Gpsd.
Import Controller Options.

Definition key_host : string := "host".
Definition key_port : string := "port".

(** [create_instance]; [DEFAULT_GPSD_PORT] comes with the gpsd library. *)
Definition gpsd_configuration (DEFAULT_GPSD_PORT : string) (config : Tree) : string * string :=
  (default "localhost" (config !! key_host), default DEFAULT_GPSD_PORT (config !! key_port)).

(** The members of [gps_fix_t] that are read. *)
Record Fix : Type := MkFix {
  mode : Z; fix_latitude : double; fix_longitude : double; fix_altitude : double;
  epy : double; speed : double; track : double
}.
Definition MODE_3D : Z := 3.

(** What one round of the loop gets from the daemon within half a second. *)
Inductive Reading : Type := Silence | NoData | Data (f : Fix).

Inductive Output : Type :=
| PositionOut (u : Update Geometry.Position)
| VelocityOut (u : Update Geometry.Velocity)
| HeadingOut (u : Update Geometry.Heading).

Record World : Type := MkWorld {
  counters : Counters;       (* of the provider's controller *)
  m_run : bool;
  m_worker : bool;           (* joinable *)
  streams : nat;             (* requests for the stream *)
  updates : list Output
}.

Definition counters_cell : Cell World Counters :=
  MkCell counters (fun c w => MkWorld c (m_run w) (m_worker w) (streams w) (updates w)).
#[export] Instance counters_cell_laws : CellLaws counters_cell.
Proof. split; [done..|]. by intros []. Qed.

Definition set_run (b : bool) : M World unit :=
  modify (fun w => MkWorld (counters w) b (m_worker w) (streams w) (updates w)).
Definition set_worker (b : bool) : M World unit :=
  modify (fun w => MkWorld (counters w) (m_run w) b (streams w) (updates w)).
Definition enable_stream : M World unit :=
  modify (fun w => MkWorld (counters w) (m_run w) (m_worker w) (S (streams w)) (updates w)).
Definition emit (o : Output) : M World unit :=
  modify (fun w => MkWorld (counters w) (m_run w) (m_worker w) (streams w) (updates w ++ [o])).

Definition gpsd_start : M World unit :=
  run ← gets m_run;
  if (run : bool) then skip
  else set_run true;;
       joinable ← gets m_worker;
       if (joinable : bool) then skip else set_worker true.

(** The join waits for the end of the round the worker is in. *)
Definition gpsd_stop : M World unit :=
  run ← gets m_run;
  if negb run then skip
  else set_run false;;
       joinable ← gets m_worker;
       when joinable (set_worker false).

(** All three streams start and stop the one worker. *)
Definition gpsd_instance : Instance World := MkInstance gpsd_start gpsd_stop gpsd_start gpsd_stop gpsd_start gpsd_stop.
Definition gpsd : Controller World := controller_at counters_cell gpsd_instance.

(** A floating point number as a condition. *)
Definition truthy (d : double) : bool := negb (deq d (d_of_Z 0)).

Section Data.
(** The readings of the clock: that of the update's constructor and the two of the code. *)
Context (now : Z).

Definition on_data (data : Fix) : M World unit :=
  when (truthy (fix_latitude data) && truthy (fix_longitude data))
    (lat ← lift (Wgs84.Latitude (fix_latitude data));
     lon ← lift (Wgs84.Longitude (fix_longitude data));
     let pos := Pos.of_lat_lon lat lon in
     alt ← (if (mode data =? MODE_3D) && truthy (fix_altitude data)
            then a ← lift (Wgs84.Altitude (fix_altitude data)); mret (Some a)
            else mret (altitude pos));
     let hor := if truthy (epy data) then epy data else d_of_Z 10 in
     emit (PositionOut (MkUpdate (MkPosition (latitude pos) (longitude pos) alt (Some hor) (vertical pos)) now)));;
  when (truthy (speed data)) (emit (VelocityOut (MkUpdate (speed data) now)));;
  when (truthy (track data)) (emit (HeadingOut (MkUpdate (track data) now))).

(** One round of [loop], while [m_run] holds. *)
Definition round (r : Reading) : M World unit :=
  match r with
  | Silence => enable_stream
  | NoData => skip
  | Data f =>
      if isfinite (fix_latitude f) && isfinite (fix_longitude f) && isfinite (fix_altitude f)
      then on_data f else skip
  end.

(** The worker over the readings it gets. *)
Definition loop (rs : list Reading) : M World unit :=
  for_each rs (fun r => run ← gets m_run; when run (round r)).
End Data.

Definition fresh : World := MkWorld initial_counters false false 0 [].

(** ** Properties *)

(** What the worker delivers goes out only while it runs. *)
Lemma loop_stopped now rs w : m_run w = false -> loop now rs w = (Ok tt, w).
Proof.
  intros Hr. induction rs as [|r rs IH]; [done|]. unfold loop in *. simpl.
  rewrite (bind_run _ _ _ tt w); [done|].
  rewrite (bind_run _ _ _ false w) by (unfold gets; by rewrite Hr). done.
Qed.

(** one stream stops them all.  When two different streams of the gpsd provider have
    observers and those of one leave, the controller says that the other is running,
    but the worker has been stopped: no reading reaches anybody until a stream starts
    anew. *)
Theorem one_stream_stops_all (k j : Kind) (now : Z) (rs : list Reading) :
  k <> j ->
  let w := fold_left (fun w r => exec (request gpsd r) w) [Start k; Start j; Stop j] fresh in
  are_updates_running (cell_for gpsd k) w = true /\ m_run w = false /\
  loop now rs w = (Ok tt, w).
Proof.
  intros Hkj w.
  assert (m_run w = false) as Hr by (subst w; by destruct k, j).
  split; [subst w; by destruct k, j|]. split; [done|]. by apply loop_stopped.
Qed.

Lemma one_stream_stops_all_witness :
  (Position <> Heading) /\ m_run (fold_left (fun w r => exec (request gpsd r) w) [Start Position; Start Heading; Stop Heading] fresh) = false.
Proof.
  assert (Position <> Heading) as Hn by discriminate. split; [exact Hn|].
  destruct (one_stream_stops_all Position Heading 0 [] Hn) as (_ & Hr & _). exact Hr.
Defined.

(** What a fix delivers: on the equator and on the prime meridian no position, at rest no
    velocity, and due north no heading; a fix without a finite altitude, a two
    dimensional one, delivers nothing at all. *)
Lemma fixes_that_are_lost now f w :
  isfinite (fix_latitude f) = true -> isfinite (fix_longitude f) = true ->
  (isfinite (fix_altitude f) = false -> round now (Data f) w = (Ok tt, w)) /\
  (deq (fix_latitude f) (d_of_Z 0) = true -> deq (speed f) (d_of_Z 0) = true ->
   deq (track f) (d_of_Z 0) = true -> round now (Data f) w = (Ok tt, w)).
Proof.
  intros H1 H2. unfold round. rewrite H1, H2. split.
  - by intros ->.
  - intros Hl Hs Ht. destruct (isfinite (fix_altitude f)); [|done]. simpl.
    unfold on_data, truthy. by rewrite Hl, Hs, Ht.
Qed.
End Gpsd.

(** * geoclue *)
Module Geoclue.
Import Options Controller.

Definition key_name : string := "name".
Definition key_path : string := "path".

(** [create_instance] *)
Definition geoclue_configuration (config : Tree) : res (string * string) :=
  match config !! key_name with
  | None => Throw (runtime_error "Missing bus-name")
  | Some name =>
      match config !! key_path with
      | None => Throw (runtime_error "Missing bus-path")
      | Some path => Ok (name, path)
      end
  end.

(** [Geoclue::Position::Field] and [Geoclue::Velocity::Field]: the bits of the flags. *)
Definition latitude_field : Z := 1.
Definition longitude_field : Z := 2.
Definition altitude_field : Z := 3.
Definition speed_field : Z := 1.
Definition direction_field : Z := 2.

(** [std::bitset<4>] of the signal's integer. *)
Definition FieldFlags (flags : Z) : Z := Z.land flags 15.
Definition test (flags field : Z) : bool := Z.testbit (FieldFlags flags) field.

(** The arguments of the two signals that are read. *)
Record PositionChanged : Type := MkPositionChanged {
  p_flags : Z; p_latitude : double; p_longitude : double; p_altitude : double
}.
Record VelocityChanged : Type := MkVelocityChanged { v_flags : Z; v_speed : double; v_direction : double }.

(** The thread that runs the bus, and the provider's updates. *)
Record World : Type := MkWorld { worker : bool; updates : list Gpsd.Output }.

Definition emit (o : Gpsd.Output) : M World unit :=
  modify (fun w => MkWorld (worker w) (updates w ++ [o])).

Definition geoclue_start : M World unit :=
  joinable ← gets worker;
  if (joinable : bool) then skip else modify (fun w => MkWorld true (updates w)).

(** The bus is stopped, and the thread joined if there is one. *)
Definition geoclue_stop : M World unit :=
  joinable ← gets worker;
  when joinable (modify (fun w => MkWorld false (updates w))).

Section Signals.
Context (now : Z).

Definition on_position_changed (arg : PositionChanged) : M World unit :=
  lat ← lift (if test (p_flags arg) latitude_field then Wgs84.Latitude (p_latitude arg)
              else Wgs84.Latitude (S754_zero false));
  lon ← lift (if test (p_flags arg) longitude_field then Wgs84.Longitude (p_longitude arg)
              else Wgs84.Longitude (S754_zero false));
  let pos := Pos.of_lat_lon lat lon in
  alt ← (if test (p_flags arg) altitude_field
         then a ← lift (Wgs84.Altitude (p_altitude arg)); mret (Some a)
         else mret (altitude pos));
  emit (Gpsd.PositionOut (MkUpdate (MkPosition (latitude pos) (longitude pos) alt
                                      (horizontal pos) (vertical pos)) now)).

Definition on_velocity_changed (arg : VelocityChanged) : M World unit :=
  if FieldFlags (v_flags arg) =? 0 then skip
  else
    when (test (v_flags arg) speed_field) (emit (Gpsd.VelocityOut (MkUpdate (v_speed arg) now)));;
    when (test (v_flags arg) direction_field) (emit (Gpsd.HeadingOut (MkUpdate (v_direction arg) now))).
End Signals.

(** All three streams start and stop the one thread; [matches_criteria] takes all. *)
Definition geoclue_instance : Instance World :=
  MkInstance geoclue_start geoclue_stop geoclue_start geoclue_stop geoclue_start geoclue_stop.
Definition matches_criteria (c : Criteria.Criteria) : bool := true.

(** [Geoclue::Status] and its text; another number is looked up as the empty text. *)
Inductive Status : Set := error | unavailable | acquiring | available.
Definition status_of_int (z : Z) : option Status :=
  if z =? 0 then Some error else if z =? 1 then Some unavailable
  else if z =? 2 then Some acquiring else if z =? 3 then Some available else None.
Definition print_status (s : option Status) : string :=
  match s with
  | Some error => "error" | Some unavailable => "unavailable"
  | Some acquiring => "acquiring" | Some available => "available" | None => ""
  end.

(** The constructor: the answers to [GetProviderInfo] and [GetStatus] are printed; the value
    of a call that failed throws. *)
Definition geoclue_construct (info : res (string * string)) (status : res Z) : res (World * string) :=
  i ← info;
  s ← status;
  Ok (MkWorld false [], "GeoclueProvider: [" +:+ i.1 +:+ ", " +:+ i.2 +:+ "," +:+
                        print_status (status_of_int s) +:+ "]").

(** [create_instance] as a whole. *)
Definition create_geoclue (config : Tree) (info : string -> string -> res (string * string))
    (status : string -> string -> res Z) : res (World * string) :=
  '(name, path) ← geoclue_configuration config;
  geoclue_construct (info name path) (status name path).

(** A provider whose options are incomplete or whose service does not answer is not made. *)
Lemma geoclue_needs_its_service config info status w :
  create_geoclue config info status = Ok w ->
  exists name path i s, config !! key_name = Some name /\ config !! key_path = Some path /\
    info name path = Ok i /\ status name path = Ok s /\ worker w.1 = false.
Proof.
  unfold create_geoclue, geoclue_configuration.
  destruct (config !! key_name) as [name|], (config !! key_path) as [path|]; try done.
  unfold mbind, res_bind, geoclue_construct, mbind. simpl.
  destruct (info name path) as [i|] eqn:Ei, (status name path) as [s|] eqn:Es; try done. intros [= <-].
  by exists name, path, i, s.
Qed.

(** ** Its controller *)

Definition on_world {A} (m : M World A) : M (Counters * World) A := fun w =>
  let (r, x) := m w.2 in (r, (w.1, x)).
Definition geoclue : Controller (Counters * World) :=
  controller_at (MkCell fst (fun c w => (c, w.2)))
    (MkInstance (on_world geoclue_start) (on_world geoclue_stop) (on_world geoclue_start)
                (on_world geoclue_stop) (on_world geoclue_start) (on_world geoclue_stop)).
Definition idle : Counters * World := (initial_counters, MkWorld false []).
Definition runs (l : list Call) : bool := match last l with Some (Start _) => true | _ => false end.

(** Whatever is requested, the controller counts as every controller does, and the thread
    runs exactly while the last call on the provider was a start, of whichever stream. *)
Lemma geoclue_follows_the_last_call rs :
  let w := fold_left (fun w r => exec (request geoclue r) w) rs idle in
  w.1 = Controller.counters (run rs fresh) /\ worker w.2 = runs (log (run rs fresh)).
Proof.
  assert (forall (v : Counters * World) (s : Standalone),
    v.1 = Controller.counters s -> worker v.2 = runs (log s) ->
    forall rs, let w := fold_left (fun w r => exec (request geoclue r) w) rs v in
      w.1 = Controller.counters (run rs s) /\ worker w.2 = runs (log (run rs s))) as G.
  { intros v s Hc Hw rs'. revert v s Hc Hw. induction rs' as [|r rs' IH]; intros v s Hc Hw; [done|].
    simpl fold_left. rewrite run_cons. apply IH; destruct v as [cs [b us]], s as [[p h v'] l]; simpl in Hc, Hw; subst;
      destruct r as [[]|[]]; simpl; unfold start_position_updates, stop_position_updates, start_heading_updates,
        stop_heading_updates, start_velocity_updates, stop_velocity_updates, start_updates, stop_updates,
        increment, decrement, on_world, geoclue_start, geoclue_stop; unfold_m;
      repeat (case_bool; simpl); unfold on_world, geoclue_start, geoclue_stop, runs; unfold_m;
      rewrite ?last_snoc; try done; repeat case_match; by simplify_eq. }
  by apply G.
Qed.

(** One observer of another stream that leaves stops the updates of all. *)
Lemma geoclue_stops_for_all k j :
  k <> j ->
  let w := fold_left (fun w r => exec (request geoclue r) w) [Start k; Start j; Stop j] idle in
  are_updates_running (cell_for geoclue k) w = true /\ worker w.2 = false.
Proof. intros Hne. destruct k, j; by vm_compute. Qed.

(** A signal that carries no coordinate is delivered as the position at latitude and
    longitude zero. *)
Lemma empty_position_is_delivered now arg w :
  FieldFlags (p_flags arg) = 0 ->
  on_position_changed now arg w =
  (Ok tt, MkWorld (worker w) (updates w ++ [Gpsd.PositionOut (MkUpdate Pos.default_position now)])).
Proof. intros Hf. unfold on_position_changed, test. by rewrite Hf. Qed.
End Geoclue.

(** * The provider around the gps hardware abstraction layer *)
Module Gps.
Import Controller.
Section Gps.
(** The abstraction layer: its three operations on its own world. *)
Context {W : Type} (start_positioning stop_positioning : M W unit)
        (inject_reference_position : Geometry.Position -> M W unit).

Definition features : Z :=
  Flags.flag_or (Flags.flag_or Flags.features_position Flags.features_velocity) Flags.features_heading.
Definition requirements : Z := Flags.satellites.

(** Velocity and heading come with the positions: their starts and stops do nothing. *)
Definition gps_instance : Instance W :=
  MkInstance start_positioning stop_positioning skip skip skip skip.

Definition on_reference_location_updated (position : Update Geometry.Position) : M W unit :=
  inject_reference_position (value position).

(** The provider is only driven by the observers of positions: whatever is requested of
    the other two streams, the abstraction layer is not told. *)
Lemma only_positions_start_the_gps (cs : Cell W Counters) (r : Call) (w : W) :
  stream r <> Position ->
  exists c, exec (request (controller_at cs gps_instance) r) w = w \/
            exec (request (controller_at cs gps_instance) r) w = wr cs c w.
Proof.
  intros Hr. destruct r as [[]|[]]; try done; simpl; unfold start_heading_updates, stop_heading_updates,
    start_velocity_updates, stop_velocity_updates, start_updates, stop_updates, increment, decrement, when;
    unfold_m; repeat case_bool; (by exists initial_counters; left) || (eexists; right; reflexivity).
Qed.
End Gps.
End Gps.
