(* ===== verification/Skyhook.v ===== *)
(** The skyhook provider ([providers/skyhook/provider.h/.cpp]): a thread inside the
    positioning library's loop, the library's periodic callback and the state through which
    the provider asks that loop to end.  The class [Private] that the source names is
    declared nowhere; its members are taken to be those of the provider's header. *)
From Stdlib Require Import ZArith Lia.
From stdpp Require Import base gmap strings list.
From S2P Require Import Prelude Floats Geometry Provider Daemon Providers.
Local Open Scope Z_scope.

Module Skyhook.
Import Options.

(** * Data *)

Inductive State : Set := stopped | started | stop_requested.
#[export] Instance State_eq_dec : EqDecision State.
Proof. solve_decision. Defined.

(** [WPS_ReturnCode] and [WPS_Continuation], constants of the library; the codes with a
    text; any other number. *)
Inductive ReturnCode : Set :=
| WPS_OK | WPS_ERROR_SCANNER_NOT_FOUND | WPS_ERROR_WIFI_NOT_AVAILABLE | WPS_ERROR_NO_WIFI_IN_RANGE
| WPS_ERROR_UNAUTHORIZED | WPS_ERROR_SERVER_UNAVAILABLE | WPS_ERROR_LOCATION_CANNOT_BE_DETERMINED
| WPS_ERROR_PROXY_UNAUTHORIZED | WPS_ERROR_FILE_IO | WPS_ERROR_INVALID_FILE_FORMAT | WPS_ERROR_TIMEOUT
| WPS_NOT_APPLICABLE | WPS_GEOFENCE_ERROR | WPS_ERROR_NOT_TUNED | WPS_NOMEM | WPS_ERROR
| other_code (z : Z).
#[export] Instance ReturnCode_eq_dec : EqDecision ReturnCode.
Proof. solve_decision. Defined.
Inductive Continuation : Set := WPS_CONTINUE | WPS_STOP.

(** [return_code_lut.at(code)] *)
Definition return_code_lut (code : ReturnCode) : res string :=
  match code with
  | WPS_OK => Ok "WPS_OK"
  | WPS_ERROR_SCANNER_NOT_FOUND => Ok "WPS_ERROR_SCANNER_NOT_FOUND"
  | WPS_ERROR_WIFI_NOT_AVAILABLE => Ok "WPS_ERROR_WIFI_NOT_AVAILABLE"
  | WPS_ERROR_NO_WIFI_IN_RANGE => Ok "WPS_ERROR_NO_WIFI_IN_RANGE"
  | WPS_ERROR_UNAUTHORIZED => Ok "WPS_ERROR_UNAUTHORIZED"
  | WPS_ERROR_SERVER_UNAVAILABLE => Ok "WPS_ERROR_SERVER_UNAVAILABLE"
  | WPS_ERROR_LOCATION_CANNOT_BE_DETERMINED => Ok "WPS_ERROR_LOCATION_CANNOT_BE_DETERMINED"
  | WPS_ERROR_PROXY_UNAUTHORIZED => Ok "WPS_ERROR_PROXY_UNAUTHORIZED"
  | WPS_ERROR_FILE_IO => Ok "WPS_ERROR_FILE_IO"
  | WPS_ERROR_INVALID_FILE_FORMAT => Ok "WPS_ERROR_INVALID_FILE_FORMAT"
  | WPS_ERROR_TIMEOUT => Ok "WPS_ERROR_TIMEOUT"
  | WPS_NOT_APPLICABLE => Ok "WPS_NOT_APPLICABLE"
  | WPS_GEOFENCE_ERROR => Ok "WPS_GEOFENCE_ERROR"
  | WPS_ERROR_NOT_TUNED => Ok "WPS_ERROR_NOT_TUNED"
  | WPS_NOMEM => Ok "WPS_NOMEM"
  | WPS_ERROR => Ok "WPS_ERROR"
  | other_code _ => Throw (out_of_range "map::at")
  end%string.

(** The members of [WPS_Location] that are read. *)
Record Location : Type := MkLocation {
  l_latitude : double; l_longitude : double; l_altitude : double; l_speed : double; l_bearing : double
}.

Record Configuration : Type := MkConfiguration { user_name : string; realm : string; period : Z }.
Definition key_username : string := "username".
Definition key_realm : string := "realm".
Definition key_period : string := "period".

(** [create_instance]: [to_int] is the translator of the property tree. *)
Definition skyhook_configuration (to_int : string -> option Z) (config : Tree) : Configuration :=
  MkConfiguration (default "" (config !! key_username)) (default "" (config !! key_realm))
    (Dummy.get_int to_int config key_period 500).

(** [default_feature_flags] and [default_requirement_flags]: the bit sets ["001"] and
    ["1010"], the lowest bit last. *)
Definition default_feature_flags : Z := Flags.features_position.
Definition default_requirement_flags : Z := Flags.flag_or Flags.cell_network Flags.monetary_spending.

(** The worker thread: none, in the loop of the library, or returned from it and not yet
    joined. *)
Inductive Worker : Set := none | looping | returned.

(** [terminated]: a thread was destroyed while joinable, which ends the process. *)
Record World : Type := MkWorld {
  state : State; worker : Worker; updates : list Gpsd.Output; terminated : bool
}.
Definition fresh : World := MkWorld stopped none [] false.

Definition state_cell : Cell World State :=
  MkCell state (fun s w => MkWorld s (worker w) (updates w) (terminated w)).
Definition worker_cell : Cell World Worker :=
  MkCell worker (fun x w => MkWorld (state w) x (updates w) (terminated w)).
Definition deliver (o : Gpsd.Output) : M World unit :=
  modify (fun w => MkWorld (state w) (worker w) (updates w ++ [o]) (terminated w)).

(** * The callback *)
Section Callback.
(** What the clock says for each of the three updates. *)
Variables (now_position now_velocity now_heading : Z).

Definition location_updates (location : Location) : M World unit :=
  lat ← lift (Wgs84.Latitude (l_latitude location));
  lon ← lift (Wgs84.Longitude (l_longitude location));
  let alt := if dle (d_of_Z 0) (l_altitude location) then Some (l_altitude location) else None in
  deliver (Gpsd.PositionOut (MkUpdate (MkPosition lat lon alt None None) now_position));;
  when (dle (d_of_Z 0) (l_speed location)) (deliver (Gpsd.VelocityOut (MkUpdate (l_speed location) now_velocity)));;
  when (dle (d_of_Z 0) (l_bearing location)) (deliver (Gpsd.HeadingOut (MkUpdate (l_bearing location) now_heading))).

Definition periodic_callback (code : ReturnCode) (location : Location) : M World Continuation :=
  if negb (bool_decide (code = WPS_OK)) then
    lift (return_code_lut code);;
    mret (if bool_decide (code = WPS_ERROR_WIFI_NOT_AVAILABLE) then WPS_STOP else WPS_CONTINUE)
  else
    s ← read state_cell;
    if bool_decide (s = stop_requested) then write state_cell stopped;; mret WPS_STOP
    else location_updates location;; mret WPS_CONTINUE.
End Callback.

(** * Starting and stopping *)

(** A join waits for a thread that has returned, or will. *)
Definition start : M World unit :=
  s ← read state_cell;
  if negb (bool_decide (s = stopped)) then skip
  else
    write worker_cell none;;
    write worker_cell looping;;
    write state_cell started.

Definition request_stop : M World unit := write state_cell stop_requested.

Definition start_position_updates : M World unit := start.
Definition stop_position_updates : M World unit := request_stop.
Definition start_velocity_updates : M World unit := start.
Definition stop_velocity_updates : M World unit := request_stop.
Definition start_heading_updates : M World unit := start.
Definition stop_heading_updates : M World unit := request_stop.

(** [~Provider]: the member [worker] is destroyed behind the body. *)
Definition destroy : M World unit :=
  request_stop;;
  t ← read worker_cell;
  match t with
  | none => skip
  | _ => modify (fun w => MkWorld (state w) (worker w) (updates w) true)
  end.

(** The library's loop: it calls the callback, and returns when it says so or on its own;
    an exception of the callback crosses the library and ends the process. *)
Inductive Event : Type :=
| Start | Stop | Callback (now_position now_velocity now_heading : Z) (code : ReturnCode) (l : Location) | Return.

Definition step (e : Event) : M World unit :=
  match e with
  | Start => start
  | Stop => request_stop
  | Callback p v h code l =>
      t ← read worker_cell;
      match t with
      | looping =>
          c ← periodic_callback p v h code l;
          match c with WPS_STOP => write worker_cell returned | WPS_CONTINUE => skip end
      | _ => skip
      end
  | Return =>
      t ← read worker_cell;
      match t with looping => write worker_cell returned | _ => skip end
  end.
Definition run (es : list Event) (w : World) : World := fold_left (fun w e => exec (step e) w) es w.

(** * Theorems *)

(** Once a stop was requested nothing is delivered and nothing is started until the
    callback has seen the request. *)
Lemma stop_silences e w :
  state w = stop_requested ->
  updates (exec (step e) w) = updates w /\
  (state (exec (step e) w) = stop_requested \/ (state (exec (step e) w) = stopped /\ worker w = looping)).
Proof.
  destruct w as [s t u x]. simpl. intros ->.
  destruct e as [| |p v h code l|]; try (split; [done|by left]).
  - destruct t; try (split; [done|by left]).
    unfold step, exec, periodic_callback. unfold_m. simpl.
    destruct (bool_decide (code = WPS_OK)); simpl; [split; [done|by right]|].
    destruct (return_code_lut code); simpl; [|split; [done|by left]].
    destruct (bool_decide _); simpl; split; try done; by left.
  - destruct t; split; try done; by left.
Qed.

(** A provider that is asked to stop while no thread is in the loop is lost: no thread
    will ever see the request, and no start starts one again. *)
Definition lost (w : World) : Prop := state w = stop_requested /\ worker w <> looping.

Lemma lost_forever es w :
  lost w -> lost (run es w) /\ updates (run es w) = updates w.
Proof.
  revert w. induction es as [|e es IH]; intros w L; [done|].
  assert (lost (exec (step e) w) /\ updates (exec (step e) w) = updates w) as [L' U].
  { destruct w as [s t u x], L as [Hs Ht]. simpl in *. subst s.
    destruct e, t; simpl; unfold lost; simpl; done. }
  change (run (e :: es) w) with (run es (exec (step e) w)).
  destruct (IH _ L') as [L'' U']. split; [done|]. by rewrite U'.
Qed.

(** The ways to lose it: two streams that are started and stopped, with a callback between
    the stops, for one state serves them all; and a stop after the library gave up because
    the wifi is switched off. *)
Theorem stops_that_lose_the_provider (p v h : Z) (l : Location) (es : list Event) :
  let w := run [Start; Start; Stop; Callback p v h WPS_OK l; Stop] fresh in
  let w' := run [Start; Callback p v h WPS_ERROR_WIFI_NOT_AVAILABLE l; Stop] fresh in
  lost (run es w) /\ updates (run es w) = [] /\ lost (run es w') /\ updates (run es w') = [].
Proof.
  cbv zeta. destruct (lost_forever es (run [Start; Start; Stop; Callback p v h WPS_OK l; Stop] fresh)) as [A B];
    [by split|].
  destruct (lost_forever es (run [Start; Callback p v h WPS_ERROR_WIFI_NOT_AVAILABLE l; Stop] fresh)) as [C D];
    [by split|]. by rewrite B, D.
Qed.

(** A provider that was started once ends the process when it is destroyed, even when its
    thread has returned: only a start joins it. *)
Lemma destruction_terminates (es : list Event) (w : World) :
  worker w <> none -> worker (run es w) <> none /\ terminated (exec destroy (run es w)) = true.
Proof.
  intros Hw. assert (worker (run es w) <> none) as K.
  { revert w Hw. induction es as [|e es IH]; intros w Hw; [done|]. apply (IH (exec (step e) w)).
    destruct w as [s t u x]. simpl in Hw. destruct e as [| |p v h code l|], t; try done; simpl.
    - by destruct s.
    - by destruct s.
    - unfold step, exec, periodic_callback, location_updates, deliver. unfold_m. simpl.
      repeat (case_match; simplify_eq/=; try done). }
  split; [exact K|]. destruct (run es w) as [s t u x]. simpl in K. by destruct t.
Qed.
End Skyhook.
